(* ===== verification/_CoqProject ===== *)
-Q . S2P
Prelude.v
Errors.v
Constants.v
Regex.v
Ip.v
Validation.v
Base64url.v
Utf8.v
Json.v
JsonRfc.v
Jcs.v
Strict.v
StrictRfc.v
Crypto.v
CryptoToy.v
Keys.v
Wire.v
Metadata.v
Registration.v
Assertion.v
Revocation.v
Matrix.v
Documents.v
RoomPolicy.v
Ssrf.v
Site.v
Tables.v
Statements.v
World.v
Spec.v
Db.v
Register.v
Login.v
Queue.v
Http.v
Invariant.v
Rows.v
Config.v
Startup.v
LoginSpec.v
QueueSpec.v
HttpSpec.v
TestSupport.v
UnitTests.v
Limiter.v
Sync.v
System.v
Concurrent.v
Isolation.v
Discipline.v
Serial.v
Track.v
History.v
Interleaving.v
Serializable.v
Runtime.v
Progress.v
SideBySide.v
Jobs.v
Scenario.v
Races.v
Findings.v
FlowTests.v
Answered.v
Window.v
Relay.v
Complete.v
Witnesses.v
