(* ===== verification/Prelude.v ===== *)
(** * The pseud0 web-login relay: a verification development

    The relay lets a user sign in to a website with a Matrix account.  A site
    registers a session over HTTP; the user's client, in an encrypted Matrix room
    with the relay's account, asks for the session, gets a challenge and answers
    it with a signed consent; the relay then derives a per-site pseudonym, signs an
    assertion and delivers it to the site.  The user can later revoke the account
    at the site.  State lives in PostgreSQL.

    ** The parts, their files, and the code they translate

    Foundations.  [Prelude]: text as UTF-8 bytes, machine integers, lists, options,
    the hint database and tactics of the development.  [Errors] (error.rs): problem
    codes, the [result] type and the notations [let?] and [;?] for Rust's [?].
    [Constants] (constants.rs).

    Syntax.  [Regex], [Ip], [Validation] (protocol/validation.rs, domain.rs,
    time.rs): field checks as regular expressions with a derivative matcher, and
    time windows with saturating 64-bit arithmetic.  [Utf8], [Base64url]
    (crypto/base64url.rs), [Json], [Jcs] (crypto/jcs.rs), [Strict] (json/strict.rs):
    the canonical writer and the strict reader.  [Wire]: what all flat protocol
    objects share.

    Cryptography.  [Crypto]: the primitives of the crates as a class.  [Keys]
    (crypto/ed25519.rs, p256_consent.rs, did_key.rs, at_rest.rs, subject.rs).

    Protocol documents.  [Metadata], [Registration], [Assertion], [Revocation],
    [Matrix] (protocol/*.rs); [Documents]: what the signatures cover.

    Policies.  [RoomPolicy] (room_policy.rs, matrix/rooms.rs, the automatic joins
    of matrix/client.rs), [Ssrf] (outbound/ssrf.rs), [Site]
    (outbound/site_client.rs).

    State.  [Tables] (migrations/0001_init.sql): rows and what statements do to
    them, as pure functions.  [Statements]: the statements themselves as data, one
    constructor per SQL text, with their meaning [stmt_run].  [World] (state.rs,
    clock.rs): the state, the environment's answers, the operations [Op] of a
    handler (every await and every access to shared state) and its program [M], a
    tree of operations; [run] is the program alone.  [Db] (db/sessions.rs,
    replay.rs, grants.rs, delivery.rs): the functions around the statements.
    [Spec]: the logic of specifications, [spec o m Q], with one rule for every
    operation.

    Test support.  [TestSupport] (the module test_support of lib.rs and the doubles of
    clock.rs, state.rs and site_client.rs): what a site signs, the outbox and the site
    that record, the clock that stands still.

    Handlers.  [Register] (services/registration.rs), [Login] (services/login.rs),
    [Queue] (delivery/queue.rs), [Http] (http/*.rs), [Sync] (matrix/client.rs,
    matrix/handler.rs); [Limiter], the rate limiter of http/routes.rs as its atomic
    accesses interleave.  [Config] (config.rs) and [Startup] (lib.rs, db/mod.rs, the
    start of matrix/client.rs): how the relay comes up.

    The whole.  [System]: the events that reach the relay (an HTTP request, a room
    message, a sync round, the end of the sync, a tick of the queue), the step each
    causes, the inductive predicate [reachable], and the origin of every row,
    message and request.  [Invariant], [Rows], [History], [Jobs]: key uniqueness,
    the life cycle of a session, what is never undone, how often a job is tried.
    [LoginSpec], [QueueSpec], [HttpSpec]: the specification of each handler on every
    branch.  [Relay]: the theorems about the relay whose events come one by one.
    [Window]: the environment seen from one world on, or between two, so that a
    theorem about a handler speaks of that handler's own steps.  [Answered]: which
    branch each handler takes when nothing fails.  [Complete]: a login from the
    registration to the result.

    Side by side.  [Concurrent]: tasks as threads, each performing one operation at
    a turn on the shared world, their transactions with the locks and snapshots of
    PostgreSQL at READ COMMITTED, arrivals, and cancellation (the timeout layer of
    http/routes.rs, a closed connection); [interleaved] is what any schedule leads
    to.  [Isolation]: what a lock protects.  [Discipline]: how the handlers use
    transactions and in which order they lock, checked of every handler.  [Serial],
    [Track]: that a disciplined call among others goes the way it goes alone.
    [Interleaving], [Serializable], [Runtime]: the invariant of all threads under
    every turn.  [Progress]: no deadlock, and an end.  [SideBySide]: the theorems.

    Instances.  [JsonRfc], [StrictRfc], [CryptoToy] and the module [Rfc4648] of
    [Base64url] are concrete functions that satisfy the laws of the interfaces;
    [Scenario] runs the flow of tests/integration.rs with them, [Witnesses] applies
    the theorems to that run, [Races] to two requests that race for one session,
    [Findings] holds runs that the protocol documents exclude.  [UnitTests] and
    [FlowTests] are the source's own tests, as functions that panic or not.

    ** Interfaces

    Code that is not in the repository is a class of operations with a class of
    laws: [Base64] (the base64 crate), [JsonText] and [JsonReader] (serde_json's
    printer and parser), [Crypto] (dalek, p256, aes-gcm, hmac, sha2, bs58), [Net]
    (DNS, TCP, TLS), [SiteFetcher] (the source's own trait, whose laws [Site] proves
    of the real client), [SdkRoom] and [Sdk] (matrix-sdk), [Host] and
    [Surroundings] (the process environment, the file system, the server), and
    [Env]: for each step, the clock, the random bytes, whether a connection, a
    statement, a commit or a message succeeds, fails, or fails after taking effect,
    and what a site answers.  The laws state lengths, correctness of schemes and
    round trips, never unforgeability: a theorem that would need it gives the
    colliding inputs as its other alternative.

    ** What the theorems show

    Of reachable worlds, under every failure of the environment: every request to a
    site was authorized by the site's registration and by the user's signed
    consent, or by the account's user ([posts_authorized]); assertions verify under
    the published key ([posted_assertions_verify]); every row has a cause
    ([tables_authorized]); sessions refine the life-cycle machine [Rows.move]
    ([lifecycle_refined]); a session is challenged once ([challenged_once]); nothing
    is undone ([history_kept]); the keys of the tables are unique ([keys_unique]).

    Of interleavings, however turns are given and whoever is cancelled: a change of
    the tables is what one call does alone on the tables of that moment
    ([calls_serializable]); so rows, keys and requests to sites are as in the
    sequential relay ([interleaved_authorized]) and nothing is undone
    ([interleaved_history]); no handlers wait for each other in a circle, and turns
    end with every task finished ([tasks_finish]); and the sequential relay is a
    schedule of the interleaved one ([sequential_interleaved]).

    Of each handler in a reachable world, on every branch: what it requires, what it
    leaves in the tables, what it sends, and the causes of each error among its own
    steps ([register_exact], [request_exact], [consent_exact], [revocation_exact],
    [delivery_exact], [site_sessions_exact], [other_events_ignored]); and, when
    nothing fails from now on, that the answer comes ([request_answered],
    [consent_answered]).

    Of the whole, from any reachable world in which nothing fails from now on: what an
    honest site signs is registered ([honest_site_registers]), and a registration, a
    request, a consent and a tick of the queue bring exactly one verifiable assertion
    to the site and the result to the user ([login_completes]).

    Of the queue: which jobs a claim takes ([claim_exact]) and that a job is tried at
    most eight times ([attempts_bounded]).  Of the limiter: thirty registrations in
    a second when requests follow each other ([rate_limit_exact]), and how far
    concurrent requests can exceed it ([limiter_bounded]).  Of start-up:
    [startup_sound], [migrations_exact].

    Of the components: the canonical writer and the strict reader against their
    specifications, round trips of messages and of encryption at rest, the exact
    conditions under which a consent signature, a room, an invite, an address, a domain
    is accepted, what a pass over the invitations does however it ends
    ([auto_join_enforces]), that posts to sites are framed safely, that requests go to
    public addresses only and which responses are accepted ([ssrf_confined]), that the
    signed texts determine their fields.

    Of the source's tests: which of the unit tests pass, and for which drawn keys
    ([unit_tests_decided]); that three of the integration tests panic in every
    environment, because they read the relay's messages with a reader that accepts the
    clients' only ([login_tests_panic]); the others pass where nothing fails.

    ** Bounds and fuel

    Integers are [Z] with the width of the source written out: [i64_add] wraps as a
    release build does, [saturating_sub] saturates, versions and attempts fail above
    [i32::MAX] as PostgreSQL does, counters wrap at 2^64.  [split] takes the length
    of its text as fuel, and each split removes at least one byte.  The readers of
    [StrictRfc] take the length of the text; [read_members_print] shows that it is
    enough.  [run_loop] is over the finite sequence of wake-ups of its select;
    [run_loop_stops] shows that a shutdown ends it.

    ** Not modelled

    The specifications of single handlers ([request_exact] and its like) are of
    handlers that nobody interrupts; what interleaving leaves of them is
    [calls_serializable].  A COMMIT that fails after a lost connection has its
    effect at once or never, and the claim of the queue, one statement, runs in one
    turn.  The limited size of the connection pool is an answer of the environment.
    A [NUL] in a text, which PostgreSQL refuses, is one of the faults of a
    statement.  The serve loop with its graceful shutdown, the spawning of tasks
    and of the sync thread (an event is a task), the moment at which the timeout
    fires, tracing, TLS and DNS themselves, the sync loop inside matrix-sdk, the
    advisory lock's dependence on one pooled connection staying open, the mapping
    of a result row's columns to the fields of a record, and [main]. *)

From Stdlib Require Export ZArith DecimalString DecimalPos DecimalZ Ascii String Strings.Byte Lia.
From stdpp Require Export base decidable strings numbers list.

#[global] Open Scope Z_scope.
#[global] Set Default Goal Selector "!".
#[global] Arguments String.append : simpl nomatch.

Declare Scope relay_scope.
Delimit Scope relay_scope with relay.
#[global] Open Scope relay_scope.

(** ** Text and bytes

    A Rust [String] is modelled by the [string] of its UTF-8 bytes, so that
    [String.length] is Rust's [len()]; a [Vec<u8>] is a [list byte]. *)

(** [str::len] and [<[u8]>::len], as machine-independent integers. *)
Definition slen (s : string) : Z := Z.of_nat (String.length s).
Definition blen (b : list byte) : Z := Z.of_nat (length b).

(** [str::as_bytes] and its inverse on valid UTF-8. *)
Definition as_bytes (s : string) : list byte := list_byte_of_string s.
Definition of_bytes (b : list byte) : string := string_of_list_byte b.

(** The numeric value of a byte and of a character (a byte of a string). *)
Definition bz (b : byte) : Z := Z.of_N (Byte.to_N b).
Definition cz (c : ascii) : Z := Z.of_N (N_of_ascii c).
Definition zc (z : Z) : ascii := ascii_of_N (Z.to_N (z mod 256)).
Definition zb (z : Z) : byte := byte_of_ascii (zc z).

#[export] Instance byte_eq_dec : EqDecision byte := Byte.byte_eq_dec.

(** The quotation mark. *)
Definition QUOTE : ascii := Ascii false true false false false true false false.

(** [s.iter().all(p)] over the bytes of a string, and [any]. *)
Fixpoint str_forallb (p : ascii -> bool) (s : string) : bool :=
  match s with
  | EmptyString => true
  | String c s' => p c && str_forallb p s'
  end.

Definition str_existsb (p : ascii -> bool) (s : string) : bool :=
  negb (str_forallb (fun c => negb (p c)) s).

(** [str::starts_with] is [String.prefix]; [str::ends_with] and
    [str::contains] on a string pattern. *)
Definition starts_with (p s : string) : bool := String.prefix p s.

Fixpoint ends_with (p s : string) : bool :=
  String.eqb p s ||
  match s with
  | EmptyString => false
  | String _ s' => ends_with p s'
  end.

Fixpoint contains (p s : string) : bool :=
  String.prefix p s ||
  match s with
  | EmptyString => false
  | String _ s' => contains p s'
  end.

(** [str::contains] on a character pattern (ASCII characters only). *)
Definition contains_char (c : ascii) (s : string) : bool :=
  str_existsb (Ascii.eqb c) s.

(** [&s[n..]] where [n] is within the string. *)
Fixpoint str_drop (n : nat) (s : string) : string :=
  match n, s with
  | O, _ => s
  | S _, EmptyString => EmptyString
  | S n', String _ s' => str_drop n' s'
  end.

(** [str::strip_prefix]. *)
Definition strip_prefix (p s : string) : option string :=
  if String.prefix p s then Some (str_drop (String.length p) s) else None.

(** ** Machine integers *)

Definition i64_min : Z := - 2 ^ 63.
Definition i64_max : Z := 2 ^ 63 - 1.
Definition i32_min : Z := - 2 ^ 31.
Definition i32_max : Z := 2 ^ 31 - 1.

Definition in_i64 (z : Z) : Prop := i64_min <= z <= i64_max.
Definition in_i32 (z : Z) : Prop := i32_min <= z <= i32_max.
Definition in_i64b (z : Z) : bool := (i64_min <=? z) && (z <=? i64_max).
Definition in_i32b (z : Z) : bool := (i32_min <=? z) && (z <=? i32_max).

(** Two's complement wrap-around: the [+] of a release build. *)
Definition wrap64 (z : Z) : Z := (z + 2 ^ 63) mod 2 ^ 64 - 2 ^ 63.
Definition wrap32 (z : Z) : Z := (z + 2 ^ 31) mod 2 ^ 32 - 2 ^ 31.
Definition i64_add (a b : Z) : Z := wrap64 (a + b).

(** [i64::saturating_add] and [i64::saturating_sub]. *)
Definition clamp64 (z : Z) : Z := Z.max i64_min (Z.min i64_max z).
Definition saturating_add (a b : Z) : Z := clamp64 (a + b).
Definition saturating_sub (a b : Z) : Z := clamp64 (a - b).

(** ** Tactics *)

(** Turns boolean hypotheses into propositions and splits conjunctions. *)
Ltac bool_hyp :=
  repeat match goal with
  | H : andb _ _ = true |- _ => apply andb_prop in H; destruct H
  | H : orb _ _ = false |- _ => apply orb_false_elim in H; destruct H
  | H : negb _ = true |- _ => apply negb_true_iff in H
  | H : negb _ = false |- _ => apply negb_false_iff in H
  | H : Z.ltb _ _ = true |- _ => apply Z.ltb_lt in H
  | H : Z.ltb _ _ = false |- _ => apply Z.ltb_ge in H
  | H : Z.leb _ _ = true |- _ => apply Z.leb_le in H
  | H : Z.leb _ _ = false |- _ => apply Z.leb_gt in H
  | H : Z.eqb _ _ = true |- _ => apply Z.eqb_eq in H
  | H : Z.eqb _ _ = false |- _ => apply Z.eqb_neq in H
  | H : String.eqb _ _ = true |- _ => apply String.eqb_eq in H
  | H : String.eqb _ _ = false |- _ => apply String.eqb_neq in H
  end.

(** Proves a decidable closed proposition by evaluation. *)
Ltac by_decide := apply (bool_decide_eq_true_1 _); vm_compute; reflexivity.

(** Case analysis on the conditions the goal (or a hypothesis) branches on. *)
Ltac case_if :=
  match goal with
  | |- context [if ?b then _ else _] => destruct b eqn:?
  end.
Ltac case_if_in H :=
  match type of H with
  | context [if ?b then _ else _] => destruct b eqn:?
  end.

(** ** Strings *)

Lemma slen_nonneg s : 0 <= slen s.
Proof. unfold slen. lia. Qed.
Lemma blen_nonneg b : 0 <= blen b.
Proof. unfold blen. lia. Qed.

Lemma str_length_app s t :
  String.length (s +:+ t) = (String.length s + String.length t)%nat.
Proof. induction s as [|c s IH]; simpl; [done|]. by rewrite IH. Qed.

Lemma slen_app s t : slen (s +:+ t) = slen s + slen t.
Proof. unfold slen. rewrite str_length_app. lia. Qed.

Lemma slen_cons c s : slen (String c s) = 1 + slen s.
Proof. unfold slen. simpl String.length. lia. Qed.

Lemma slen_nil : slen "" = 0.
Proof. reflexivity. Qed.

Lemma str_app_assoc (s t u : string) : (s +:+ t) +:+ u = s +:+ (t +:+ u).
Proof. induction s as [|c s IH]; simpl; [done|]. by rewrite IH. Qed.

Lemma str_app_nil_r (s : string) : s +:+ "" = s.
Proof. induction s as [|c s IH]; simpl; [done|]. by rewrite IH. Qed.

Lemma str_app_inj_l (s t u : string) : s +:+ t = s +:+ u -> t = u.
Proof. induction s as [|c s IH]; simpl; [done|]. intros [= H]. auto. Qed.

Lemma str_forallb_app p s t :
  str_forallb p (s +:+ t) = str_forallb p s && str_forallb p t.
Proof. induction s as [|c s IH]; simpl; [done|]. by rewrite IH, andb_assoc. Qed.

Lemma str_forallb_impl (p q : ascii -> bool) s :
  (forall c, p c = true -> q c = true) ->
  str_forallb p s = true -> str_forallb q s = true.
Proof.
  intros Hpq. induction s as [|c s IH]; simpl; [done|].
  intros [Hc Hs]%andb_prop. by rewrite Hpq, IH.
Qed.

Lemma str_existsb_false p s :
  str_existsb p s = false <-> str_forallb (fun c => negb (p c)) s = true.
Proof. unfold str_existsb. apply negb_false_iff. Qed.

Lemma prefix_app p s : String.prefix p (p +:+ s) = true.
Proof.
  induction p as [|c p IH]; simpl; [by destruct s|].
  destruct (ascii_dec c c); [done|congruence].
Qed.

Lemma prefix_inv p s :
  String.prefix p s = true -> s = p +:+ str_drop (String.length p) s.
Proof.
  revert s. induction p as [|c p IH]; intros s; simpl; [done|].
  destruct s as [|c' s]; simpl; [done|]. destruct (ascii_dec c c') as [->|]; intros H; [|discriminate].
  f_equal. by apply IH.
Qed.

Lemma str_drop_app p s : str_drop (String.length p) (p +:+ s) = s.
Proof. by induction p. Qed.

Lemma strip_prefix_Some p s t : strip_prefix p s = Some t <-> s = p +:+ t.
Proof.
  unfold strip_prefix. split.
  - destruct (String.prefix p s) eqn:E; [|done]. intros [= <-]. by apply prefix_inv.
  - intros ->. by rewrite prefix_app, str_drop_app.
Qed.

Lemma as_bytes_of_bytes b : as_bytes (of_bytes b) = b.
Proof. apply list_byte_of_string_of_list_byte. Qed.
Lemma of_bytes_as_bytes s : of_bytes (as_bytes s) = s.
Proof. apply string_of_list_byte_of_string. Qed.

Lemma as_bytes_inj s t : as_bytes s = as_bytes t -> s = t.
Proof. intros H. by rewrite <- (of_bytes_as_bytes s), H, of_bytes_as_bytes. Qed.

Lemma as_bytes_cons c s : as_bytes (String c s) = byte_of_ascii c :: as_bytes s.
Proof. reflexivity. Qed.

Lemma as_bytes_app s t : as_bytes (s +:+ t) = as_bytes s ++ as_bytes t.
Proof.
  induction s as [|c s IH]; [done|].
  change (String c s +:+ t) with (String c (s +:+ t)).
  rewrite !as_bytes_cons. cbn. by rewrite IH.
Qed.

Lemma blen_as_bytes s : blen (as_bytes s) = slen s.
Proof.
  unfold blen, slen. f_equal. induction s as [|c s IH]; [done|].
  rewrite as_bytes_cons. simpl. by rewrite IH.
Qed.

Lemma slen_of_bytes b : slen (of_bytes b) = blen b.
Proof. by rewrite <- blen_as_bytes, as_bytes_of_bytes. Qed.

Lemma blen_app a b : blen (a ++ b) = blen a + blen b.
Proof. unfold blen. rewrite length_app. lia. Qed.

Lemma slen_0_nil s : slen s = 0 -> s = "".
Proof. destruct s; [done|]. rewrite slen_cons. pose proof (slen_nonneg s). lia. Qed.

Lemma cz_range c : 0 <= cz c < 256.
Proof. unfold cz. pose proof (N_ascii_bounded c). lia. Qed.

Lemma zc_cz c : zc (cz c) = c.
Proof.
  unfold zc. pose proof (cz_range c). rewrite Z.mod_small by lia.
  unfold cz. rewrite N2Z.id. apply ascii_N_embedding.
Qed.

Lemma cz_zc z : 0 <= z < 256 -> cz (zc z) = z.
Proof.
  intros Hz. unfold zc, cz. rewrite Z.mod_small by lia.
  rewrite N_ascii_embedding by lia. lia.
Qed.

Lemma cz_inj c d : cz c = cz d -> c = d.
Proof. intros H. by rewrite <- (zc_cz c), H, zc_cz. Qed.

Lemma bz_range b : 0 <= bz b < 256.
Proof. unfold bz. pose proof (Byte.to_N_bounded b). lia. Qed.

Lemma bz_byte_of_ascii c : bz (byte_of_ascii c) = cz c.
Proof.
  unfold bz, cz. f_equal. rewrite <- (ascii_of_byte_of_ascii c) at 2.
  symmetry. apply N_of_ascii_of_byte || by destruct c as [[] [] [] [] [] [] [] []].
Qed.

Lemma bz_zb z : 0 <= z < 256 -> bz (zb z) = z.
Proof. intros. unfold zb. by rewrite bz_byte_of_ascii, cz_zc. Qed.

Lemma bz_inj a b : bz a = bz b -> a = b.
Proof.
  unfold bz. intros H%N2Z.inj. apply (f_equal Byte.of_N) in H.
  rewrite !Byte.of_to_N in H. congruence.
Qed.

Lemma zb_bz b : zb (bz b) = b.
Proof. apply bz_inj. apply bz_zb, bz_range. Qed.

(** ** Integers *)

Lemma in_i64b_spec z : in_i64b z = true <-> in_i64 z.
Proof. unfold in_i64b, in_i64. rewrite andb_true_iff, !Z.leb_le. done. Qed.
Lemma in_i32b_spec z : in_i32b z = true <-> in_i32 z.
Proof. unfold in_i32b, in_i32. rewrite andb_true_iff, !Z.leb_le. done. Qed.

Lemma wrap64_id z : in_i64 z -> wrap64 z = z.
Proof.
  unfold in_i64, wrap64, i64_min, i64_max. intros.
  rewrite Z.mod_small by lia. lia.
Qed.

Lemma wrap64_range z : in_i64 (wrap64 z).
Proof.
  unfold in_i64, wrap64, i64_min, i64_max.
  pose proof (Z.mod_pos_bound (z + 2 ^ 63) (2 ^ 64)). lia.
Qed.

Lemma wrap64_overflow z : i64_max < z <= i64_max + 2 ^ 63 -> wrap64 z = z - 2 ^ 64.
Proof.
  unfold wrap64, i64_max. intros.
  rewrite <- (Z_mod_plus_full (z + 2 ^ 63) (-1) (2 ^ 64)), Z.mod_small by lia. lia.
Qed.

Lemma saturating_sub_spec a b :
  in_i64 a -> in_i64 b ->
  saturating_sub a b = Z.max i64_min (Z.min i64_max (a - b)).
Proof. reflexivity. Qed.

(** ** Lists *)

Lemma existsb_false {A} (p : A -> bool) l : existsb p l = false <-> Forall (fun x => p x = false) l.
Proof.
  induction l as [|x l IH]; simpl; [split; [constructor|done]|].
  rewrite orb_false_iff, Forall_cons. by rewrite IH.
Qed.

Lemma existsb_none {A} (p : A -> bool) l : existsb p l = false <-> forall x, x ∈ l -> p x = false.
Proof. by rewrite existsb_false, Forall_forall. Qed.

(** ** Hint databases *)

Create HintDb relay.
Create Rewrite HintDb slen.
#[export] Hint Resolve slen_nonneg blen_nonneg cz_range bz_range : relay.
#[export] Hint Rewrite slen_app slen_cons slen_nil blen_as_bytes slen_of_bytes
  blen_app : slen.
