(* ===== verification/Errors.v ===== *)
(** * Problem codes and results (src/src/error.rs)

    The error type every fallible function of the relay returns, the wire name,
    HTTP status and title of each problem code, and the [result] type with the
    notation that models Rust's [?]. *)

From S2P Require Import Prelude.

(** ** The codes *)

Inductive ProblemCode :=
  | InvalidRequest
  | UnsupportedVersion
  | InvalidSignature
  | DomainVerificationFailed
  | SessionNotFound
  | SessionConflict
  | RequestExpired
  | RequestCancelled
  | ChallengeReplayed
  | ConsentReplayed
  | AssertionReplayed
  | AudienceMismatch
  | Revoked
  | RateLimited
  | RelayUnavailable
  | InternalError.

#[export] Instance ProblemCode_eq_dec : EqDecision ProblemCode.
Proof. solve_decision. Defined.

(** [ProblemCode::as_str]. *)
Definition as_str (c : ProblemCode) : string :=
  match c with
  | InvalidRequest => "invalid_request"
  | UnsupportedVersion => "unsupported_version"
  | InvalidSignature => "invalid_signature"
  | DomainVerificationFailed => "domain_verification_failed"
  | SessionNotFound => "session_not_found"
  | SessionConflict => "session_conflict"
  | RequestExpired => "request_expired"
  | RequestCancelled => "request_cancelled"
  | ChallengeReplayed => "challenge_replayed"
  | ConsentReplayed => "consent_replayed"
  | AssertionReplayed => "assertion_replayed"
  | AudienceMismatch => "audience_mismatch"
  | Revoked => "revoked"
  | RateLimited => "rate_limited"
  | RelayUnavailable => "relay_unavailable"
  | InternalError => "internal_error"
  end.

(** The HTTP status constants the code names. *)
Definition BAD_REQUEST := 400.
Definition NOT_FOUND := 404.
Definition REQUEST_TIMEOUT := 408.
Definition CONFLICT := 409.
Definition GONE := 410.
Definition UNPROCESSABLE_ENTITY := 422.
Definition TOO_MANY_REQUESTS := 429.
Definition INTERNAL_SERVER_ERROR := 500.
Definition SERVICE_UNAVAILABLE := 503.

(** [ProblemCode::status]. *)
Definition status (c : ProblemCode) : Z :=
  match c with
  | InvalidRequest | UnsupportedVersion | InvalidSignature => BAD_REQUEST
  | DomainVerificationFailed | AudienceMismatch => UNPROCESSABLE_ENTITY
  | SessionNotFound => NOT_FOUND
  | SessionConflict | ChallengeReplayed | ConsentReplayed | AssertionReplayed => CONFLICT
  | RequestExpired | RequestCancelled | Revoked => GONE
  | RateLimited => TOO_MANY_REQUESTS
  | RelayUnavailable => SERVICE_UNAVAILABLE
  | InternalError => INTERNAL_SERVER_ERROR
  end.

(** [ProblemCode::title]. *)
Definition title (c : ProblemCode) : string :=
  match c with
  | InvalidRequest => "Invalid request"
  | UnsupportedVersion => "Unsupported version"
  | InvalidSignature => "Invalid signature"
  | DomainVerificationFailed => "Domain verification failed"
  | SessionNotFound => "Session not found"
  | SessionConflict => "Session conflict"
  | RequestExpired => "Request expired"
  | RequestCancelled => "Request cancelled"
  | ChallengeReplayed => "Challenge replayed"
  | ConsentReplayed => "Consent replayed"
  | AssertionReplayed => "Assertion replayed"
  | AudienceMismatch => "Audience mismatch"
  | Revoked => "Revoked"
  | RateLimited => "Rate limited"
  | RelayUnavailable => "Relay unavailable"
  | InternalError => "Internal error"
  end.

(** [RelayError]; the payload of [Internal] is the [anyhow] message. *)
Inductive RelayError :=
  | Problem (c : ProblemCode)
  | Internal (message : string).

#[export] Instance RelayError_eq_dec : EqDecision RelayError.
Proof. solve_decision. Defined.

(** [RelayError::code]. *)
Definition code (e : RelayError) : ProblemCode :=
  match e with
  | Problem c => c
  | Internal _ => InternalError
  end.

(** ** Results *)

Inductive result (A : Type) :=
  | Ok (a : A)
  | Err (e : RelayError).
Arguments Ok {A} _.
Arguments Err {A} _.

#[export] Instance result_eq_dec {A} `{EqDecision A} : EqDecision (result A).
Proof. solve_decision. Defined.

(** [RelayError::problem(c)] as a result. *)
Definition problem {A} (c : ProblemCode) : result A := Err (Problem c).

(** The [?] operator. *)
Definition rbind {A B} (c : result A) (k : A -> result B) : result B :=
  match c with
  | Ok a => k a
  | Err e => Err e
  end.

Notation "'let?' x ':=' c 'in' k" := (rbind c (fun x => k))
  (at level 10, x pattern, c at level 200, k at level 200)
  : relay_scope.
Notation "c ';?' k" := (rbind c (fun _ => k))
  (at level 100, k at level 200, right associativity) : relay_scope.

(** [Option::ok_or] and [Result::map_err]. *)
Definition ok_or {A} (o : option A) (c : ProblemCode) : result A :=
  match o with
  | Some a => Ok a
  | None => problem c
  end.

Definition map_err {A} (r : result A) (c : ProblemCode) : result A :=
  match r with
  | Ok a => Ok a
  | Err _ => problem c
  end.

Definition is_ok {A} (r : result A) : bool :=
  match r with
  | Ok _ => true
  | Err _ => false
  end.

(** [if cond { return Err(problem(c)) }]. *)
Definition fail_if (b : bool) (c : ProblemCode) : result unit :=
  if b then problem c else Ok tt.

(** ** Lemmas *)

Lemma rbind_Ok {A B} (c : result A) (k : A -> result B) b :
  rbind c k = Ok b <-> exists a, c = Ok a /\ k a = Ok b.
Proof.
  destruct c; simpl; split.
  - eauto.
  - intros (? & [= ->] & ?). done.
  - done.
  - intros (? & ? & ?). done.
Qed.

Lemma ok_or_Ok {A} (o : option A) c a : ok_or o c = Ok a <-> o = Some a.
Proof. destruct o; simpl; split; intros [= ->]; done. Qed.

Lemma map_err_Ok {A} (r : result A) c a : map_err r c = Ok a <-> r = Ok a.
Proof. destruct r; simpl; split; intros [= ->]; done. Qed.

Lemma fail_if_Ok b c u : fail_if b c = Ok u <-> b = false.
Proof. destruct b, u; simpl; split; done. Qed.

Lemma is_ok_true {A} (r : result A) : is_ok r = true <-> exists a, r = Ok a.
Proof. destruct r; simpl; split; try done; [eauto|intros [? ?]; done]. Qed.

(** Opens a chain of [?] in hypothesis [H]. *)
Ltac inv_ok H :=
  repeat (first
    [ rewrite rbind_Ok in H;
      let a := fresh "a" in let Ha := fresh "Hok" in destruct H as (a & Ha & H);
      first [ rewrite fail_if_Ok in Ha | rewrite map_err_Ok in Ha
            | rewrite ok_or_Ok in Ha | idtac ]
    | progress cbv beta in H ]).

(** ** The wire names *)

(** The name of a code identifies it. *)
Lemma as_str_inj c d : as_str c = as_str d -> c = d.
Proof. destruct c, d; simpl; intros H; try reflexivity; discriminate H. Qed.

Lemma status_range c : 400 <= status c < 600.
Proof. destruct c; unfold status; cbv; split; congruence. Qed.

(** Only an unavailable relay and an internal error are reported as the
    server's fault. *)
Lemma status_server_error c :
  500 <= status c <-> c = RelayUnavailable \/ c = InternalError.
Proof.
  destruct c; unfold status; split; intros H; auto; try (exfalso; revert H; cbv; congruence);
    try (destruct H; discriminate); cbv; congruence.
Qed.
