(* ===== verification/Constants.v ===== *)
(** * Protocol constants (src/src/constants.rs) *)

From S2P Require Import Prelude.

Definition RELAY_ORIGIN : string := "https://relay.pseud0.org".
Definition MATRIX_API : string := "https://matrix.pseud0.org".
Definition MATRIX_USER_ID : string := "@web-login:pseud0.org".
Definition MATRIX_PREFIX : string := "pseud0-web-login-v1:".
Definition MAX_TTL_MS : Z := 300000.
Definition CLOCK_SKEW_MS : Z := 30000.
Definition REPLAY_GRACE_MS : Z := 30000.
Definition MAX_METADATA_BYTES : Z := 16384.
Definition MAX_SITE_RESPONSE_BYTES : Z := 16384.
Definition MAX_DECODED_BODY : Z := 32768.
Definition MAX_DISPLAY_NAME : Z := 100.
Definition MAX_DOMAIN : Z := 253.
Definition MAX_HTTP_BODY : Z := 64 * 1024.
Definition PROTOCOL_VERSION : Z := 1.
(** [b"pseud0-sub-v1\0"]. *)
Definition SUBJECT_CONTEXT : list byte := as_bytes "pseud0-sub-v1" ++ [x00].
Definition ASSERTION_PATH : string := "/pseud0/web-login/assertions".
Definition REVOCATION_PATH : string := "/pseud0/web-login/revocations".
Definition METADATA_PATH : string := "/.well-known/pseud0-web-login".
Definition DEFAULT_KID : string := "relay-2026-01".
Definition MIN_RANDOM_BITS : Z := 128.
Definition CHALLENGE_BYTES : Z := 16.
Definition JTI_BYTES : Z := 16.
Definition ADVISORY_LOCK_KEY : Z := 0x707375643031.
Definition MATRIX_SYNC_STALE_MS : Z := 120000.
