(* ===== verification/Regex.v ===== *)
(** * Regular expressions

    The relay declares its syntactic checks as regular expressions
    (src/src/protocol/validation.rs, src/src/protocol/domain.rs).  This file
    gives the operators those patterns use (character classes, sequence,
    bounded and unbounded repetition), the language they denote, an executable
    matcher by derivatives and its correctness, so that a pattern can be read
    off the source and run. *)

From S2P Require Import Prelude.

(** [RRep r lo hi] is [r{lo,hi}]; [hi = None] is no upper bound, so that
    [r+] is [RRep r 1 None] and [r?] is [RRep r 0 (Some 1)]. *)
Inductive regex :=
  | RNone
  | REps
  | RChr (p : ascii -> bool)
  | RSeq (r1 r2 : regex)
  | RAlt (r1 r2 : regex)
  | RRep (r : regex) (lo : nat) (hi : option nat).

(** The language of an expression, anchored at both ends ([^...$]). *)
Inductive rmatch : regex -> string -> Prop :=
  | MEps : rmatch REps ""
  | MChr p c : p c = true -> rmatch (RChr p) (String c "")
  | MSeq r1 r2 s t : rmatch r1 s -> rmatch r2 t -> rmatch (RSeq r1 r2) (s +:+ t)
  | MAltL r1 r2 s : rmatch r1 s -> rmatch (RAlt r1 r2) s
  | MAltR r1 r2 s : rmatch r2 s -> rmatch (RAlt r1 r2) s
  | MRepNil r hi : rmatch (RRep r 0 hi) ""
  | MRepCons r lo hi s t :
      hi <> Some O -> rmatch r s -> rmatch (RRep r (pred lo) (option_map pred hi)) t ->
      rmatch (RRep r lo hi) (s +:+ t).

(** ** The matcher *)

Definition hi_zero (hi : option nat) : bool :=
  match hi with Some O => true | _ => false end.
Definition below (lo : nat) (hi : option nat) : bool :=
  match hi with Some h => (lo <=? h)%nat | None => true end.

Fixpoint nullable (r : regex) : bool :=
  match r with
  | RNone | RChr _ => false
  | REps => true
  | RSeq r1 r2 => nullable r1 && nullable r2
  | RAlt r1 r2 => nullable r1 || nullable r2
  | RRep r lo hi => (lo =? 0)%nat || (nullable r && below lo hi)
  end.

(** Constructors that drop what cannot match, so that derivatives stay small. *)
Definition seq_ (r1 r2 : regex) : regex :=
  match r1 with
  | RNone => RNone
  | REps => r2
  | _ => RSeq r1 r2
  end.
Definition alt_ (r1 r2 : regex) : regex :=
  match r1, r2 with
  | RNone, _ => r2
  | _, RNone => r1
  | _, _ => RAlt r1 r2
  end.

Fixpoint deriv (c : ascii) (r : regex) : regex :=
  match r with
  | RNone | REps => RNone
  | RChr p => if p c then REps else RNone
  | RSeq r1 r2 =>
      let d := seq_ (deriv c r1) r2 in
      if nullable r1 then alt_ d (deriv c r2) else d
  | RAlt r1 r2 => alt_ (deriv c r1) (deriv c r2)
  | RRep r lo hi =>
      if hi_zero hi then RNone
      else seq_ (deriv c r) (RRep r (pred lo) (option_map pred hi))
  end.

(** [Regex::is_match] of an anchored pattern. *)
Fixpoint is_match (r : regex) (s : string) : bool :=
  match s with
  | EmptyString => nullable r
  | String c s' => is_match (deriv c r) s'
  end.

(** ** The matcher decides the language *)

Lemma str_app_nil (s t : string) : "" = s +:+ t -> s = "" /\ t = "".
Proof. destruct s; simpl; [auto|discriminate]. Qed.

Lemma rep_eps r lo hi :
  below lo hi = true -> rmatch r "" -> rmatch (RRep r lo hi) "".
Proof.
  revert hi. induction lo as [|lo IH]; intros hi Hb Hr; [constructor|].
  change "" with ("" +:+ ""). apply MRepCons; [|done|].
  - destruct hi as [[]|]; done.
  - apply IH; [|done]. destruct hi as [[]|]; done.
Qed.

Lemma nullable_sound r : nullable r = true -> rmatch r "".
Proof.
  induction r as [| |p|r1 IH1 r2 IH2|r1 IH1 r2 IH2|r IH lo hi]; simpl; try done.
  - constructor.
  - intros [H1 H2]%andb_prop. change "" with ("" +:+ ""). constructor; auto.
  - intros [H|H]%orb_prop; [apply MAltL|apply MAltR]; auto.
  - intros [H%Nat.eqb_eq|[H1 H2]%andb_prop]%orb_prop.
    + subst. constructor.
    + apply rep_eps; auto.
Qed.

Lemma nullable_complete r s : rmatch r s -> s = "" -> nullable r = true.
Proof.
  induction 1 as [|p c Hp|r1 r2 s t H1 IH1 H2 IH2|r1 r2 s H IH|r1 r2 s H IH|r hi
                  |r lo hi s t Hhi H1 IH1 H2 IH2]; intros Hs; simpl; try done.
  - symmetry in Hs. apply str_app_nil in Hs as [-> ->]. rewrite IH1, IH2; done.
  - rewrite IH; done.
  - rewrite IH; auto using orb_true_r.
  - symmetry in Hs. apply str_app_nil in Hs as [-> ->].
    simpl in IH2. specialize (IH2 eq_refl). rewrite IH1 by done.
    apply orb_true_iff. right. simpl.
    apply orb_prop in IH2 as [H%Nat.eqb_eq|[_ H]%andb_prop];
      destruct hi as [[|h]|], lo; simpl in *; try done.
    subst. done.
Qed.

Lemma seq_match r1 r2 s : rmatch (seq_ r1 r2) s <-> rmatch (RSeq r1 r2) s.
Proof.
  destruct r1; simpl; try done; split; intros H.
  - inversion H.
  - inversion H; subst. match goal with H : rmatch RNone _ |- _ => inversion H end.
  - change s with ("" +:+ s). by constructor; [constructor|].
  - inversion H; subst. match goal with H : rmatch REps _ |- _ => inversion H; subst end.
    done.
Qed.

Lemma alt_match r1 r2 s : rmatch (alt_ r1 r2) s <-> rmatch (RAlt r1 r2) s.
Proof.
  destruct r1, r2; simpl; try done; split; intros H;
    try (inversion H; subst; try done;
         match goal with H : rmatch RNone _ |- _ => inversion H end; fail);
    auto using rmatch.
Qed.

Lemma deriv_sound c r s : rmatch (deriv c r) s -> rmatch r (String c s).
Proof.
  revert s. induction r as [| |p|r1 IH1 r2 IH2|r1 IH1 r2 IH2|r IH lo hi]; simpl; intros s H.
  - inversion H.
  - inversion H.
  - destruct (p c) eqn:E; inversion H; subst. by constructor.
  - assert (Hseq : rmatch (RSeq (deriv c r1) r2) s -> rmatch (RSeq r1 r2) (String c s)).
    { intros Hs. inversion Hs; subst.
      change (String c (s0 +:+ t)) with (String c s0 +:+ t). constructor; auto. }
    destruct (nullable r1) eqn:E; [|by apply Hseq, seq_match].
    apply alt_match in H. inversion H; subst; [by apply Hseq, seq_match|].
    change (String c s) with ("" +:+ String c s).
    constructor; auto using nullable_sound.
  - apply alt_match in H. inversion H; subst; auto using rmatch.
  - destruct (hi_zero hi) eqn:E; [inversion H|].
    apply seq_match in H. inversion H; subst.
    change (String c (s0 +:+ t)) with (String c s0 +:+ t).
    apply MRepCons; auto. intros ->. done.
Qed.

(** A non-empty word of a repetition can be cut so that its first factor is not
    empty: factors that match the empty word move to the end. *)
Lemma rep_weaken r lo hi s :
  rmatch (RRep r (pred lo) (option_map pred hi)) s -> rmatch r "" ->
  hi <> Some O -> rmatch (RRep r lo hi) s.
Proof. intros H Hr Hhi. change s with ("" +:+ s). by constructor. Qed.

Lemma deriv_complete r w : rmatch r w -> forall c s, w = String c s -> rmatch (deriv c r) s.
Proof.
  induction 1 as [|p d Hp|r1 r2 u t H1 IH1 H2 IH2|r1 r2 u H IH|r1 r2 u H IH|r hi
                  |r lo hi u t Hhi H1 IH1 H2 IH2]; intros c s Hs; simpl; try done.
  - injection Hs as -> <-. rewrite Hp. constructor.
  - destruct u as [|d u]; simpl in Hs.
    + subst t. rewrite (nullable_complete r1 "") by done.
      apply alt_match, MAltR. auto.
    + injection Hs as -> <-.
      assert (rmatch (seq_ (deriv c r1) r2) (u +:+ t)) by (apply seq_match; constructor; auto).
      destruct (nullable r1); [apply alt_match, MAltL|]; done.
  - apply alt_match, MAltL. auto.
  - apply alt_match, MAltR. auto.
  - assert (Hz : hi_zero hi = false) by (destruct hi as [[]|]; done).
    rewrite Hz. apply seq_match. destruct u as [|d u]; simpl in Hs.
    + specialize (IH2 c s Hs). simpl in IH2.
      destruct (hi_zero (option_map pred hi)) eqn:Hz'; [inversion IH2|].
      apply seq_match in IH2. inversion IH2; subst. constructor; [done|].
      apply rep_weaken; try done. intros E. by rewrite E in Hz'.
    + injection Hs as -> <-. constructor; auto.
Qed.

(** The executable matcher decides the language of the expression. *)
Lemma is_match_spec r s : is_match r s = true <-> rmatch r s.
Proof.
  revert r. induction s as [|c s IH]; intros r; simpl.
  - split; [apply nullable_sound|intros H; by eapply nullable_complete].
  - rewrite IH. split; [apply deriv_sound|intros H; by eapply deriv_complete].
Qed.

(** ** Repetition of a character class *)

Lemma rep_class p lo hi s :
  rmatch (RRep (RChr p) lo hi) s <->
  str_forallb p s = true /\ (lo <= String.length s)%nat /\
  below (String.length s) hi = true.
Proof.
  split.
  - remember (RRep (RChr p) lo hi) as r eqn:Er. intros H. revert lo hi Er.
    induction H as [| | | | |r hi'|r lo' hi' u t Hhi H1 _ H2 IH2]; intros lo hi Er;
      try discriminate Er; injection Er as ??; subst.
    + destruct hi; simpl; auto with lia.
    + inversion H1 as [|q c Hc| | | | |]; subst. simpl.
      destruct (IH2 _ _ eq_refl) as (-> & Hlo & Hb). rewrite Hc.
      repeat split; [lia|]. destruct hi as [[|h]|]; simpl in *; done.
  - revert lo hi. induction s as [|c s IH]; simpl; intros lo hi (Hp & Hlo & Hb).
    + destruct lo; [constructor|lia].
    + apply andb_prop in Hp as [Hc Hs].
      change (String c s) with (String c "" +:+ s).
      apply MRepCons; [by destruct hi as [[]|]|by constructor|].
      apply IH. repeat split; [done|lia|by destruct hi as [[|h]|]].
Qed.

(** [^[p]{lo,hi}$] accepts exactly the strings over [p] of a length within the
    bounds. *)
Lemma is_match_class p lo hi s :
  is_match (RRep (RChr p) lo (Some hi)) s = true <->
  str_forallb p s = true /\ Z.of_nat lo <= slen s <= Z.of_nat hi.
Proof.
  rewrite is_match_spec, rep_class. simpl. rewrite Nat.leb_le. unfold slen.
  intuition lia.
Qed.
