(* ===== verification/Ip.v ===== *)
(** * IP addresses (std::net)

    The address types src/src/outbound/ssrf.rs classifies, and the textual
    parser behind the [domain.parse::<IpAddr>()] of src/src/protocol/domain.rs. *)

From S2P Require Import Prelude.

(** Octets are in [0..255] and segments in [0..65535]. *)
Inductive IpAddr :=
  | V4 (a b c d : Z)
  | V6 (s0 s1 s2 s3 s4 s5 s6 s7 : Z).

#[export] Instance IpAddr_eq_dec : EqDecision IpAddr.
Proof. solve_decision. Defined.

(** The addresses a Rust value of the type can hold. *)
Definition octet (z : Z) : Prop := 0 <= z < 256.
Definition segment (z : Z) : Prop := 0 <= z < 65536.
Definition ip_wf (ip : IpAddr) : Prop :=
  match ip with
  | V4 a b c d => octet a /\ octet b /\ octet c /\ octet d
  | V6 s0 s1 s2 s3 s4 s5 s6 s7 =>
      Forall segment [s0; s1; s2; s3; s4; s5; s6; s7]
  end.

(** ** The parser *)

(** [char::to_digit(radix)] for radix 10 and 16. *)
Definition to_digit (radix : Z) (c : ascii) : option Z :=
  let z := cz c in
  let d := if (48 <=? z) && (z <=? 57) then z - 48
           else if (97 <=? z) && (z <=? 122) then z - 87
           else if (65 <=? z) && (z <=? 90) then z - 55
           else 99 in
  if d <? radix then Some d else None.

Fixpoint read_digits (radix acc count : Z) (s : string) : Z * Z * string :=
  match s with
  | EmptyString => (acc, count, s)
  | String c s' =>
      match to_digit radix c with
      | Some d => read_digits radix (acc * radix + d) (count + 1) s'
      | None => (acc, count, s)
      end
  end.

(** [Parser::read_number] with a digit limit, into an integer type whose
    maximum is [top]. *)
Definition read_number (radix max_digits top : Z) (zero_prefix : bool) (s : string)
  : option (Z * string) :=
  let '(v, n, rest) := read_digits radix 0 0 s in
  if (n =? 0) || (max_digits <? n) || (top <? v) then None
  else if negb zero_prefix && starts_with "0" s && (1 <? n) then None
  else Some (v, rest).

Definition read_given_char (c : ascii) (s : string) : option string :=
  match s with
  | EmptyString => None
  | String d s' => if Ascii.eqb c d then Some s' else None
  end.

(** [Parser::read_separator]: no separator before the first item. *)
Definition read_separator {A} (c : ascii) (first : bool)
    (inner : string -> option (A * string)) (s : string) : option (A * string) :=
  if first then inner s
  else match read_given_char c s with
       | Some s' => inner s'
       | None => None
       end.

Definition read_octet (first : bool) : string -> option (Z * string) :=
  read_separator "." first (read_number 10 3 255 false).

Definition read_ipv4_addr (s : string) : option ((Z * Z * Z * Z) * string) :=
  match read_octet true s with
  | Some (a, s1) =>
      match read_octet false s1 with
      | Some (b, s2) =>
          match read_octet false s2 with
          | Some (c, s3) =>
              match read_octet false s3 with
              | Some (d, s4) => Some ((a, b, c, d), s4)
              | None => None
              end
          | None => None
          end
      | None => None
      end
  | None => None
  end.

(** [read_groups]: up to [n] groups, the last two of which may be written as an
    embedded IPv4 address; the flag says whether one was. *)
Fixpoint read_groups (n : nat) (first : bool) (s : string) : list Z * bool * string :=
  match n with
  | O => ([], false, s)
  | S n' =>
      match (match n' with
             | O => None
             | S _ => read_separator ":" first read_ipv4_addr s
             end) with
      | Some ((a, b, c, d), rest) => ([a * 256 + b; c * 256 + d], true, rest)
      | None =>
          match read_separator ":" first (read_number 16 4 65535 true) s with
          | Some (g, rest) =>
              let '(gs, v4, rest') := read_groups n' false rest in (g :: gs, v4, rest')
          | None => ([], false, s)
          end
      end
  end.

Definition v6_of_list (l : list Z) : option IpAddr :=
  match l with
  | [s0; s1; s2; s3; s4; s5; s6; s7] => Some (V6 s0 s1 s2 s3 s4 s5 s6 s7)
  | _ => None
  end.

Definition read_ipv6_addr (s : string) : option (IpAddr * string) :=
  let '(head, head_ipv4, rest) := read_groups 8 true s in
  if (length head =? 8)%nat then
    match v6_of_list head with Some ip => Some (ip, rest) | None => None end
  else if head_ipv4 then None
  else match read_given_char ":" rest with
  | None => None
  | Some r1 =>
      match read_given_char ":" r1 with
      | None => None
      | Some r2 =>
          let '(tail, _, r3) := read_groups (8 - (length head + 1)) true r2 in
          let zeros := replicate (8 - length head - length tail) 0 in
          match v6_of_list (head ++ zeros ++ tail) with
          | Some ip => Some (ip, r3)
          | None => None
          end
      end
  end.

(** [str::parse::<IpAddr>()]: an IPv4 address, else an IPv6 address, and
    nothing after it. *)
Definition parse_ip (s : string) : option IpAddr :=
  match (match read_ipv4_addr s with
         | Some ((a, b, c, d), rest) => Some (V4 a b c d, rest)
         | None => read_ipv6_addr s
         end) with
  | Some (ip, "") => Some ip
  | _ => None
  end.

Example parse_ip_v4 : parse_ip "127.0.0.1" = Some (V4 127 0 0 1).
Proof. reflexivity. Qed.
Example parse_ip_v6_mapped :
  parse_ip "::ffff:10.1.2.3" = Some (V6 0 0 0 0 0 65535 2561 515).
Proof. reflexivity. Qed.
Example parse_ip_v6_loopback : parse_ip "::1" = Some (V6 0 0 0 0 0 0 0 1).
Proof. reflexivity. Qed.
Example parse_ip_leading_zero : parse_ip "127.0.0.01" = None.
Proof. reflexivity. Qed.
Example parse_ip_full : parse_ip "1:2:3:4:5:6:7:8" = Some (V6 1 2 3 4 5 6 7 8).
Proof. reflexivity. Qed.

(** ** What an accepted text looks like *)

Definition is_colon (c : ascii) : bool := Ascii.eqb ":" c.
Definition is_dec_dot (c : ascii) : bool :=
  ((48 <=? cz c) && (cz c <=? 57)) || Ascii.eqb "." c.

(** [s] starts with characters satisfying [p], then [rest]. *)
Definition eats (p : ascii -> bool) (s rest : string) : Prop :=
  exists u, s = u +:+ rest /\ str_forallb p u = true.

Lemma eats_trans p s t u : eats p s t -> eats p t u -> eats p s u.
Proof.
  intros (x & -> & Hx) (y & -> & Hy). exists (x +:+ y).
  by rewrite str_app_assoc, str_forallb_app, Hx, Hy.
Qed.

Lemma read_digits_eats acc n s v m rest :
  read_digits 10 acc n s = (v, m, rest) -> eats is_dec_dot s rest.
Proof.
  revert acc n. induction s as [|c s IH]; simpl; intros acc n.
  - intros [= <- <- <-]. by exists "".
  - destruct (to_digit 10 c) as [d|] eqn:E.
    + intros (u & -> & Hu)%IH. exists (String c u). split; [done|]. simpl.
      rewrite Hu, andb_true_r. unfold is_dec_dot. revert E. unfold to_digit.
      destruct ((48 <=? cz c) && (cz c <=? 57)) eqn:H1; [done|].
      repeat case_if; bool_hyp; try discriminate; lia.
    + intros [= <- <- <-]. by exists "".
Qed.

Lemma read_given_char_Some c s r : read_given_char c s = Some r -> s = String c r.
Proof.
  destruct s as [|d s]; simpl; [done|]. destruct (Ascii.eqb c d) eqn:E; [|done].
  apply Ascii.eqb_eq in E as ->. by intros [= ->].
Qed.

Lemma read_octet_eats first s v rest :
  read_octet first s = Some (v, rest) -> eats is_dec_dot s rest.
Proof.
  unfold read_octet, read_separator, read_number.
  assert (Hnum : forall s v rest,
    (let '(v0, n, rest0) := read_digits 10 0 0 s in
     if (n =? 0) || (3 <? n) || (255 <? v0) then None
     else if negb false && starts_with "0" s && (1 <? n) then None
     else Some (v0, rest0)) = Some (v, rest) -> eats is_dec_dot s rest).
  { intros s' v' rest'. destruct (read_digits 10 0 0 s') as [[v0 n] r] eqn:E.
    repeat case_if; try discriminate. intros [= <- <-]. by eapply read_digits_eats. }
  destruct first; [apply Hnum|].
  destruct (read_given_char "." s) as [s'|] eqn:E; [|discriminate].
  apply read_given_char_Some in E as ->. intros H%Hnum.
  eapply eats_trans; [|done]. by exists ".".
Qed.

Lemma read_ipv4_eats s v rest :
  read_ipv4_addr s = Some (v, rest) -> eats is_dec_dot s rest.
Proof.
  unfold read_ipv4_addr.
  repeat (match goal with |- context [read_octet ?f ?x] =>
    destruct (read_octet f x) as [[? ?]|] eqn:? end; [|discriminate]).
  intros [= <- <-].
  repeat match goal with H : read_octet _ _ = _ |- _ => apply read_octet_eats in H end.
  eauto using eats_trans.
Qed.

(** Reading consumes a prefix. *)
Definition suffix_of (rest s : string) : Prop := exists u, s = u +:+ rest.

Lemma read_digits_suffix r acc n s v m rest :
  read_digits r acc n s = (v, m, rest) -> suffix_of rest s.
Proof.
  revert acc n. induction s as [|c s IH]; simpl; intros acc n.
  - intros [= <- <- <-]. by exists "".
  - destruct (to_digit r c) as [d|].
    + intros (u & ->)%IH. by exists (String c u).
    + intros [= <- <- <-]. by exists "".
Qed.

Lemma read_number_suffix r m t z s v rest :
  read_number r m t z s = Some (v, rest) -> suffix_of rest s.
Proof.
  unfold read_number. destruct (read_digits r 0 0 s) as [[v0 n] r0] eqn:E.
  repeat case_if; try discriminate. intros [= <- <-]. by eapply read_digits_suffix.
Qed.

(** More than one group needs a colon. *)
Lemma read_groups_suffix n first s gs v4 rest :
  read_groups n first s = (gs, v4, rest) -> suffix_of rest s.
Proof.
  revert first s gs v4 rest. induction n as [|n IH]; simpl; intros first s gs v4 rest.
  { intros [= <- <- <-]. by exists "". }
  assert (Hsep : forall A inner (x : A) r, 
    (forall s x r, inner s = Some (x, r) -> suffix_of r s) ->
    read_separator ":" first inner s = Some (x, r) -> suffix_of r s).
  { intros A inner x r Hi. unfold read_separator. destruct first; [apply Hi|].
    destruct (read_given_char ":" s) as [s'|] eqn:E; [|done].
    intros (u & ->)%Hi. apply read_given_char_Some in E as ->. by exists (String ":" u). }
  assert (H4 : forall s x r, read_ipv4_addr s = Some (x, r) -> suffix_of r s).
  { intros s' x r (u & -> & _)%read_ipv4_eats. by exists u. }
  match goal with |- match ?X with _ => _ end = _ -> _ =>
    destruct X as [[[[[a b] c] d] r]|] eqn:E end.
  { intros [= <- <- <-]. destruct n; [done|]. eapply Hsep; [apply H4|apply E]. }
  clear E. match goal with |- match ?X with _ => _ end = _ -> _ =>
    destruct X as [[g r]|] eqn:E end.
  - destruct (read_groups n false r) as [[gs' v4'] r'] eqn:Eg. intros [= <- <- <-].
    apply IH in Eg as (u & ->). eapply Hsep in E as (w & ->); [|apply read_number_suffix].
    exists (w +:+ u). by rewrite str_app_assoc.
  - intros [= <- <- <-]. by exists "".
Qed.

Lemma colon_app u r : str_existsb is_colon r = true -> str_existsb is_colon (u +:+ r) = true.
Proof.
  unfold str_existsb. rewrite !negb_true_iff, str_forallb_app. intros ->.
  apply andb_false_r.
Qed.

Lemma read_groups_colon n s gs v4 rest :
  read_groups n true s = (gs, v4, rest) -> (3 <= length gs)%nat ->
  str_existsb is_colon s = true.
Proof.
  destruct n as [|n]; simpl; [intros [= <- <- <-]; simpl; lia|].
  match goal with |- match ?X with _ => _ end = _ -> _ =>
    destruct X as [[[[[a b] c] d] r]|] eqn:E end.
  { intros [= <- <- <-]. simpl. lia. }
  clear E. destruct (read_number 16 4 65535 true s) as [[g r]|] eqn:E.
  2: { intros [= <- <- <-]. simpl. lia. }
  apply read_number_suffix in E as (u & ->).
  intros H Hlen. apply colon_app.
  destruct (read_groups n false r) as [[gs' v4'] r'] eqn:Eg.
  injection H as <- <- <-. simpl in Hlen.
  destruct n as [|n]; simpl in Eg; [injection Eg as <- <- <-; simpl in Hlen; lia|].
  destruct (read_given_char ":" r) as [r0|] eqn:Hc.
  { apply read_given_char_Some in Hc as ->. reflexivity. }
  destruct n; injection Eg as <- <- <-; simpl in Hlen; lia.
Qed.

(** A text that parses as an IPv6 address has a colon; one that parses as an
    IPv4 address has only decimal digits and dots. *)
Lemma parse_ip_chars s ip :
  parse_ip s = Some ip ->
  str_existsb is_colon s = true \/ str_forallb is_dec_dot s = true.
Proof.
  unfold parse_ip. destruct (read_ipv4_addr s) as [[[[[a b] c] d] r]|] eqn:E4.
  - destruct r; [|done]. intros _. right. apply read_ipv4_eats in E4 as (u & -> & Hu).
    by rewrite str_app_nil_r.
  - unfold read_ipv6_addr. destruct (read_groups 8 true s) as [[h h4] r] eqn:Eg.
    destruct (length h =? 8)%nat eqn:El.
    + intros _. left. apply Nat.eqb_eq in El. eapply read_groups_colon; [done|lia].
    + destruct h4; [done|]. destruct (read_given_char ":" r) as [r1|] eqn:E1; [|done].
      intros _. left. apply read_groups_suffix in Eg as (u & ->).
      apply read_given_char_Some in E1 as ->. by apply colon_app.
Qed.
