(* ===== verification/Validation.v ===== *)
(** * Field validation (src/src/protocol/{domain,validation,time}.rs)

    The syntactic checks every message field goes through and the time windows
    of the protocol, with the declarative specification each check decides. *)

From S2P Require Import Prelude Errors Constants Regex Ip.

(** ** Character classes of the patterns *)

Definition is_lower (c : ascii) : bool := (97 <=? cz c) && (cz c <=? 122).
Definition is_upper (c : ascii) : bool := (65 <=? cz c) && (cz c <=? 90).
Definition is_digit (c : ascii) : bool := (48 <=? cz c) && (cz c <=? 57).
Definition is_hyphen (c : ascii) : bool := Ascii.eqb "-" c.
Definition is_dot (c : ascii) : bool := Ascii.eqb "." c.

(** [[a-z0-9]], [[a-z0-9-]], [[A-Za-z0-9_-]] and [[A-Za-z0-9._-]]. *)
Definition cls_alnum (c : ascii) : bool := is_lower c || is_digit c.
Definition cls_ldh (c : ascii) : bool := cls_alnum c || is_hyphen c.
Definition cls_id (c : ascii) : bool :=
  is_upper c || is_lower c || is_digit c || Ascii.eqb "_" c || is_hyphen c.
Definition cls_kid (c : ascii) : bool := cls_id c || is_dot c.

(** ** src/src/protocol/validation.rs *)

Definition ID_RE : regex := RRep (RChr cls_id) 16 (Some 128%nat).
Definition SIG_RE : regex := RRep (RChr cls_id) 86 (Some 86%nat).
Definition ACCOUNT_RE : regex := RRep (RChr cls_id) 22 (Some 128%nat).
Definition CHALLENGE_RE : regex := RRep (RChr cls_id) 16 (Some 512%nat).
Definition KID_RE : regex := RRep (RChr cls_kid) 1 (Some 64%nat).

Definition validate_id (value : string) : result unit :=
  if is_match ID_RE value then Ok tt else problem InvalidRequest.

Definition validate_signature_b64 (value : string) : result unit :=
  if is_match SIG_RE value then Ok tt else problem InvalidSignature.

Definition validate_site_account_id (value : string) : result unit :=
  if is_match ACCOUNT_RE value then Ok tt else problem InvalidRequest.

Definition validate_challenge_token (value : string) : result unit :=
  if is_match CHALLENGE_RE value then Ok tt else problem InvalidRequest.

Definition validate_kid (value : string) : result unit :=
  if is_match KID_RE value then Ok tt else problem InvalidRequest.

Definition validate_reason (value : string) : result unit :=
  if slen value <=? 100 then Ok tt else problem InvalidRequest.

Definition is_empty (s : string) : bool := String.eqb s "".

Definition validate_display_name (value : string) (required : bool) : result unit :=
  if required && (is_empty value || (MAX_DISPLAY_NAME <? slen value))
  then problem InvalidRequest
  else if MAX_DISPLAY_NAME <? slen value then problem InvalidRequest
  else Ok tt.

(** ** src/src/protocol/domain.rs *)

(** [^(?:[a-z0-9](?:[a-z0-9-]{0,61}[a-z0-9])?\.)+[a-z]{2,63}$] *)
Definition LABEL_RE : regex :=
  RSeq (RChr cls_alnum)
    (RRep (RSeq (RRep (RChr cls_ldh) 0 (Some 61%nat)) (RChr cls_alnum)) 0 (Some 1%nat)).
Definition TLD_RE : regex := RRep (RChr is_lower) 2 (Some 63%nat).
Definition DOMAIN_RE : regex := RSeq (RRep (RSeq LABEL_RE (RChr is_dot)) 1 None) TLD_RE.

Definition validate_domain (domain : string) : result unit :=
  if (MAX_DOMAIN <? slen domain)
     || ends_with "." domain
     || contains_char ":" domain
     || contains_char "/" domain
     || contains_char "@" domain
     || match parse_ip domain with Some _ => true | None => false end
     || negb (is_match DOMAIN_RE domain)
  then problem InvalidRequest
  else Ok tt.

Definition validate_domain_field (domain : string) : result unit := validate_domain domain.

(** ** src/src/protocol/time.rs *)

Definition validate_window (iat exp : Z) : result unit :=
  if (exp <=? iat) || (MAX_TTL_MS <? saturating_sub exp iat)
  then problem RequestExpired
  else Ok tt.

Definition sent_at_in_qr_window (sent_at iat exp : Z) : bool :=
  (saturating_sub iat CLOCK_SKEW_MS <=? sent_at) && (sent_at <=? exp).

Definition challenge_expires_at (sent_at registration_exp : Z) : Z :=
  Z.min (saturating_add sent_at MAX_TTL_MS) registration_exp.

(** ** Specifications *)

(** A string over a class, of a length within bounds. *)
Definition over (p : ascii -> bool) (lo hi : Z) (s : string) : Prop :=
  str_forallb p s = true /\ lo <= slen s <= hi.

Definition first_char (s : string) : option ascii := String.get 0 s.
Definition last_char (s : string) : option ascii := String.get (String.length s - 1) s.
Definition opt_is (p : ascii -> bool) (o : option ascii) : Prop :=
  match o with Some c => p c = true | None => False end.

(** A DNS label: letters, digits and hyphens, no hyphen at either end. *)
Definition label_ok (l : string) : Prop :=
  over cls_ldh 1 63 l /\ opt_is cls_alnum (first_char l) /\ opt_is cls_alnum (last_char l).

Definition tld_ok (t : string) : Prop := over is_lower 2 63 t.

(** One or more labels, each followed by a dot, and a top-level domain. *)
Inductive domain_name : string -> Prop :=
  | dn_last l t : label_ok l -> tld_ok t -> domain_name (l +:+ "." +:+ t)
  | dn_label l d : label_ok l -> domain_name d -> domain_name (l +:+ "." +:+ d).

(** ** Identifier checks *)

(** Every identifier check is of this form. *)
Lemma class_check p lo hi c s :
  (if is_match (RRep (RChr p) lo (Some hi)) s then Ok tt else problem c) = Ok tt <->
  over p (Z.of_nat lo) (Z.of_nat hi) s.
Proof.
  unfold over. rewrite <- is_match_class. destruct is_match; simpl; split; done.
Qed.

Lemma validate_id_Ok s : validate_id s = Ok tt <-> over cls_id 16 128 s.
Proof. apply (class_check cls_id 16 128). Qed.
Lemma validate_signature_Ok s : validate_signature_b64 s = Ok tt <-> over cls_id 86 86 s.
Proof. apply (class_check cls_id 86 86). Qed.
Lemma validate_account_Ok s : validate_site_account_id s = Ok tt <-> over cls_id 22 128 s.
Proof. apply (class_check cls_id 22 128). Qed.
Lemma validate_challenge_Ok s : validate_challenge_token s = Ok tt <-> over cls_id 16 512 s.
Proof. apply (class_check cls_id 16 512). Qed.
Lemma validate_kid_Ok s : validate_kid s = Ok tt <-> over cls_kid 1 64 s.
Proof. apply (class_check cls_kid 1 64). Qed.

Lemma validate_reason_Ok s : validate_reason s = Ok tt <-> slen s <= 100.
Proof.
  unfold validate_reason. destruct (slen s <=? 100) eqn:E; bool_hyp; split; done || lia.
Qed.

Lemma is_empty_spec s : is_empty s = true <-> slen s = 0.
Proof.
  unfold is_empty. rewrite String.eqb_eq. split; [by intros ->|apply slen_0_nil].
Qed.

Lemma validate_display_name_Ok s required :
  validate_display_name s required = Ok tt <->
  slen s <= 100 /\ (required = true -> 0 < slen s).
Proof.
  unfold validate_display_name, MAX_DISPLAY_NAME.
  pose proof (is_empty_spec s) as He. pose proof (slen_nonneg s).
  destruct required, (is_empty s) eqn:E; simpl; repeat case_if; bool_hyp;
    split; intros; try discriminate; try tauto; try (split; [lia|]; intros);
    try lia; try done; try reflexivity.
Qed.

(** ** The domain pattern *)

Lemma str_forallb_last p s c :
  str_forallb p (s +:+ String c "") = str_forallb p s && p c.
Proof. rewrite str_forallb_app. simpl. by rewrite andb_true_r. Qed.

Lemma last_char_snoc s c : last_char (s +:+ String c "") = Some c.
Proof.
  unfold last_char. rewrite str_length_app. simpl.
  replace (String.length s + 1 - 1)%nat with (String.length s) by lia.
  induction s as [|d s IH]; simpl; [done|apply IH].
Qed.

Lemma str_snoc s : s = "" \/ exists t c, s = t +:+ String c "".
Proof.
  induction s as [|c s [->|(t & d & ->)]]; [by left|right; by exists "", c|].
  right. by exists (String c t), d.
Qed.

(** A label is one alphanumeric character, or two around a string of letters,
    digits and hyphens. *)
Lemma label_ok_inv l :
  label_ok l <->
  exists c, cls_alnum c = true /\
    (l = String c "" \/
     exists m d, l = String c (m +:+ String d "") /\ cls_alnum d = true /\
                 str_forallb cls_ldh m = true /\ slen m <= 61).
Proof.
  assert (Hsub : forall c, cls_alnum c = true -> cls_ldh c = true).
  { intros c. unfold cls_ldh. by intros ->. }
  split.
  - intros ((Hp & Hlen) & Hf & Hl). destruct l as [|c l]; [done|].
    exists c. split; [done|]. destruct (str_snoc l) as [->|(m & d & ->)]; [by left|].
    right. exists m, d. rewrite slen_cons, slen_app, slen_cons, slen_nil in Hlen.
    change (String c (m +:+ String d "")) with (String c m +:+ String d "") in Hl.
    rewrite last_char_snoc in Hl.
    simpl in Hp. apply andb_prop in Hp as [_ Hp].
    rewrite str_forallb_last in Hp. apply andb_prop in Hp as [Hm _].
    repeat split; try done; lia.
  - intros (c & Hc & [->|(m & d & -> & Hd & Hm & Hlen)]).
    + repeat split; simpl; rewrite ?Hsub by done; done.
    + split; [split|].
      * simpl. rewrite str_forallb_last, Hm, !Hsub by done. done.
      * rewrite slen_cons, slen_app, slen_cons, slen_nil. pose proof (slen_nonneg m). lia.
      * split; [done|].
        change (String c (m +:+ String d "")) with (String c m +:+ String d "").
        by rewrite last_char_snoc.
Qed.

Lemma rmatch_chr p s : rmatch (RChr p) s <-> exists c, s = String c "" /\ p c = true.
Proof.
  split; [intros H; inversion H; eauto|]. intros (c & -> & H). by constructor.
Qed.

Lemma rmatch_seq r1 r2 s :
  rmatch (RSeq r1 r2) s <-> exists u v, s = u +:+ v /\ rmatch r1 u /\ rmatch r2 v.
Proof.
  split; [intros H; inversion H; eauto 6|]. intros (u & v & -> & ? & ?). by constructor.
Qed.

Lemma rmatch_opt r s : rmatch (RRep r 0 (Some 1%nat)) s <-> s = "" \/ rmatch r s.
Proof.
  split.
  - intros H. inversion H as [| | | | | |? ? ? u v ? H1 H2]; subst; [by left|].
    right. inversion H2; subst; [by rewrite str_app_nil_r|]. simpl in *. congruence.
  - intros [->|H]; [constructor|]. rewrite <- (str_app_nil_r s).
    apply MRepCons; [done|done|constructor].
Qed.

Lemma rmatch_label l : rmatch LABEL_RE l <-> label_ok l.
Proof.
  rewrite label_ok_inv. unfold LABEL_RE. rewrite rmatch_seq. split.
  - intros (u & v & -> & (c & -> & Hc)%rmatch_chr & Hv). exists c. split; [done|].
    apply rmatch_opt in Hv as [->|Hv]; [by left|right].
    apply rmatch_seq in Hv as (m & w & -> & Hm & (d & -> & Hd)%rmatch_chr).
    apply rep_class in Hm as (Hm & _ & Hlen). simpl in Hlen.
    apply Nat.leb_le in Hlen. exists m, d. unfold slen. repeat split; done || lia.
  - intros (c & Hc & [->|(m & d & -> & Hd & Hm & Hlen)]).
    + exists (String c ""), "". split; [done|]. rewrite rmatch_chr, rmatch_opt. eauto.
    + exists (String c ""), (m +:+ String d ""). split; [done|].
      rewrite rmatch_chr, rmatch_opt, rmatch_seq. split; [eauto|right].
      exists m, (String d ""). rewrite rmatch_chr, rep_class. simpl.
      rewrite Nat.leb_le. unfold slen in Hlen. repeat split; eauto; lia.
Qed.

Lemma rmatch_tld t : rmatch TLD_RE t <-> tld_ok t.
Proof.
  unfold TLD_RE, tld_ok, over. rewrite rep_class. simpl. rewrite Nat.leb_le.
  unfold slen. intuition lia.
Qed.

Lemma rmatch_label_dot s :
  rmatch (RSeq LABEL_RE (RChr is_dot)) s <-> exists l, s = l +:+ "." /\ label_ok l.
Proof.
  rewrite rmatch_seq. split.
  - intros (u & v & -> & Hu%rmatch_label & (c & -> & Hc)%rmatch_chr).
    unfold is_dot in Hc. apply Ascii.eqb_eq in Hc as <-. eauto.
  - intros (l & -> & Hl). exists l, ".". rewrite rmatch_label, rmatch_chr. eauto.
Qed.

(** The labels before the top-level domain. *)
Lemma rmatch_labels lo s t :
  rmatch (RRep (RSeq LABEL_RE (RChr is_dot)) lo None) s -> tld_ok t ->
  (s = "" /\ lo = O) \/ domain_name (s +:+ t).
Proof.
  intros H Ht. remember (RRep (RSeq LABEL_RE (RChr is_dot)) lo None) as r eqn:Er.
  revert lo Er. induction H as [| | | | |r hi|r lo' hi u v Hhi H1 _ H2 IH2];
    intros lo Er; try discriminate Er; injection Er as ?? ?; subst; [by left|right].
  apply rmatch_label_dot in H1 as (l & -> & Hl).
  rewrite !str_app_assoc.
  destruct (IH2 _ eq_refl) as [[-> _]|Hd]; [by apply dn_last|by apply dn_label].
Qed.

(** The pattern of the source is exactly: labels separated by dots, then a
    top-level domain of letters. *)
Lemma domain_re_spec s : is_match DOMAIN_RE s = true <-> domain_name s.
Proof.
  rewrite is_match_spec. unfold DOMAIN_RE. split.
  - intros (u & v & -> & Hu & Hv%rmatch_tld)%rmatch_seq.
    destruct (rmatch_labels _ _ _ Hu Hv) as [[_ ?]|]; done.
  - intros H. apply rmatch_seq.
    assert (Hstep : forall l u, label_ok l ->
      rmatch (RRep (RSeq LABEL_RE (RChr is_dot)) 0 None) u ->
      rmatch (RRep (RSeq LABEL_RE (RChr is_dot)) 1 None) (l +:+ "." +:+ u)).
    { intros l u Hl Hu. rewrite <- str_app_assoc.
      apply MRepCons; [done|apply rmatch_label_dot; eauto|done]. }
    assert (Hweak : forall u,
      rmatch (RRep (RSeq LABEL_RE (RChr is_dot)) 1 None) u ->
      rmatch (RRep (RSeq LABEL_RE (RChr is_dot)) 0 None) u).
    { intros u Hu. inversion Hu; subst. by constructor. }
    induction H as [l t Hl Ht|l d Hl Hd (u & v & -> & Hu & Hv)].
    + exists (l +:+ "." +:+ ""), t. rewrite !str_app_assoc. split; [done|].
      split; [apply Hstep; [done|constructor]|by apply rmatch_tld].
    + exists (l +:+ "." +:+ u), v. rewrite !str_app_assoc. auto.
Qed.

(** ** Accepted domains *)

Lemma cls_lower_alnum c : is_lower c = true -> cls_alnum c = true.
Proof. unfold cls_alnum. by intros ->. Qed.

Lemma lower_range c : is_lower c = true -> 97 <= cz c <= 122.
Proof. unfold is_lower. intros. bool_hyp. lia. Qed.
Lemma digit_range c : is_digit c = true -> 48 <= cz c <= 57.
Proof. unfold is_digit. intros. bool_hyp. lia. Qed.

(** The characters of a domain name: lower-case letters, digits, hyphens and
    dots. *)
Definition cls_domain (c : ascii) : bool := cls_ldh c || is_dot c.

Lemma cls_domain_cz c :
  cls_domain c = true -> (97 <= cz c <= 122 \/ 48 <= cz c <= 57 \/ cz c = 45 \/ cz c = 46).
Proof.
  unfold cls_domain, cls_ldh, cls_alnum, is_hyphen, is_dot.
  intros [[[?%lower_range|?%digit_range]%orb_prop|<-%Ascii.eqb_eq]%orb_prop
         |<-%Ascii.eqb_eq]%orb_prop; auto.
Qed.

Lemma domain_name_chars s : domain_name s -> str_forallb cls_domain s = true.
Proof.
  assert (Hl : forall l, label_ok l -> str_forallb cls_domain l = true).
  { intros l ((H & _) & _). revert H. apply str_forallb_impl.
    intros c Hc. unfold cls_domain. by rewrite Hc. }
  induction 1 as [l t H [Ht _]|l d H _ IH]; rewrite !str_forallb_app, Hl by done; simpl;
    [|done].
  revert Ht. apply str_forallb_impl. intros c Hc. unfold cls_domain, cls_ldh.
  by rewrite cls_lower_alnum.
Qed.

(** The last character of a domain name is a letter. *)
Lemma domain_name_last s : domain_name s -> exists u c, s = u +:+ String c "" /\ is_lower c = true.
Proof.
  induction 1 as [l t _ [Ht Hlen]|l d _ _ (u & c & -> & Hc)].
  - destruct (str_snoc t) as [->|(u & c & ->)]; [rewrite slen_nil in Hlen; lia|].
    rewrite str_forallb_last in Ht. apply andb_prop in Ht as [_ Hc].
    exists (l +:+ "." +:+ u), c. by rewrite !str_app_assoc.
  - exists (l +:+ "." +:+ u), c. by rewrite !str_app_assoc.
Qed.

Lemma ends_with_last c s : ends_with (String c "") s = true -> exists u, s = u +:+ String c "".
Proof.
  induction s as [|d s IH]; [done|].
  change (ends_with (String c "") (String d s)) with
    (String.eqb (String c "") (String d s) || ends_with (String c "") s).
  intros [H%String.eqb_eq|(u & ->)%IH]%orb_prop.
  - injection H as <- <-. by exists "".
  - by exists (String d u).
Qed.

Lemma str_snoc_inj u v c d : u +:+ String c "" = v +:+ String d "" -> c = d.
Proof. intros H%(f_equal last_char). rewrite !last_char_snoc in H. congruence. Qed.

Lemma not_contains_char c s p :
  (forall d, p d = true -> Ascii.eqb c d = false) ->
  str_forallb p s = true -> contains_char c s = false.
Proof.
  intros Hp Hs. unfold contains_char. apply str_existsb_false.
  revert Hs. apply str_forallb_impl. intros d Hd. by rewrite Hp.
Qed.

Lemma domain_name_no_ip s : domain_name s -> parse_ip s = None.
Proof.
  intros Hd. destruct (parse_ip s) eqn:E; [exfalso|done].
  apply parse_ip_chars in E as [E|E].
  - pose proof (domain_name_chars s Hd) as Hc.
    change (contains_char ":" s = true) in E.
    assert (contains_char ":" s = false); [|congruence].
    revert Hc. apply not_contains_char. intros d Hcl%cls_domain_cz.
    apply Ascii.eqb_neq. intros <-. change (cz ":") with 58 in Hcl. lia.
  - apply domain_name_last in Hd as (u & c & -> & Hc%lower_range).
    rewrite str_forallb_last in E. apply andb_prop in E as [_ E].
    unfold is_dec_dot in E. apply orb_prop in E as [E|<-%Ascii.eqb_eq]; bool_hyp; [lia|].
    change (cz ".") with 46 in Hc. lia.
Qed.

(** The guards of [validate_domain] other than the length and the pattern are
    implied by the pattern. *)
Lemma validate_domain_Ok s : validate_domain s = Ok tt <-> slen s <= 253 /\ domain_name s.
Proof.
  unfold validate_domain, MAX_DOMAIN. split.
  - case_if; [done|]. intros _. bool_hyp. split; [lia|]. by apply domain_re_spec.
  - intros [Hlen Hd]. rewrite domain_name_no_ip by done.
    pose proof (domain_name_chars s Hd) as Hc.
    assert (Hno : forall c, cls_domain c = false -> contains_char c s = false).
    { intros c Hc'. revert Hc. apply not_contains_char. intros d Hd'.
      apply Ascii.eqb_neq. intros <-. congruence. }
    rewrite !Hno by reflexivity.
    assert (Hdot : ends_with "." s = false).
    { apply not_true_is_false. intros (u & ->)%ends_with_last.
      apply domain_name_last in Hd as (v & c & Hv & Hl%lower_range).
      apply str_snoc_inj in Hv as <-. change (cz ".") with 46 in Hl. lia. }
    rewrite Hdot. apply domain_re_spec in Hd as ->.
    destruct (253 <? slen s) eqn:E; bool_hyp; [lia|done].
Qed.

Lemma domain_name_nonempty s : domain_name s -> 4 <= slen s.
Proof.
  induction 1 as [l t ((_ & Hl) & _) [_ Ht]|l d ((_ & Hl) & _) Hd IH];
    rewrite !slen_app, slen_cons, slen_nil; lia.
Qed.

(** ** Time windows *)

Lemma validate_window_Ok iat exp :
  in_i64 iat -> in_i64 exp ->
  validate_window iat exp = Ok tt <-> iat < exp <= iat + 300000.
Proof.
  unfold in_i64, validate_window, saturating_sub, clamp64, MAX_TTL_MS, i64_min, i64_max.
  intros. case_if; split; intros; try done.
  - exfalso. apply orb_prop in Heqb as [?|?]; bool_hyp; lia.
  - bool_hyp. lia.
Qed.

Lemma qr_window_spec sent_at iat exp :
  in_i64 sent_at -> in_i64 iat ->
  sent_at_in_qr_window sent_at iat exp = true <-> iat - 30000 <= sent_at <= exp.
Proof.
  unfold in_i64, sent_at_in_qr_window, saturating_sub, clamp64, CLOCK_SKEW_MS, i64_min, i64_max.
  intros. rewrite andb_true_iff, !Z.leb_le. lia.
Qed.

Lemma challenge_expires_bounds sent exp :
  in_i64 sent -> in_i64 exp -> sent <= exp ->
  sent <= challenge_expires_at sent exp <= exp /\
  challenge_expires_at sent exp <= sent + 300000 /\
  in_i64 (challenge_expires_at sent exp).
Proof.
  unfold in_i64, challenge_expires_at, saturating_add, clamp64, MAX_TTL_MS, i64_min, i64_max.
  intros. lia.
Qed.

#[export] Hint Resolve domain_name_chars domain_name_no_ip : relay.

(** ** Properties *)

(** C36: [validate_domain] accepts exactly the names of at most 253 bytes that are
    dot-separated labels of letters, digits and inner hyphens followed by an
    alphabetic top-level domain; in particular no IP literal, port, path,
    user-info, upper case or trailing dot is ever accepted, and every accepted
    character is a lower-case letter, a digit, a hyphen or a dot. *)
Theorem validate_domain_correct s :
  (validate_domain s = Ok tt <-> slen s <= 253 /\ domain_name s) /\
  (validate_domain s = Ok tt -> parse_ip s = None /\ str_forallb cls_domain s = true) /\
  (validate_domain s <> Ok tt -> validate_domain s = problem InvalidRequest).
Proof.
  split; [apply validate_domain_Ok|]. split.
  - intros [_ Hd]%validate_domain_Ok. auto with relay.
  - unfold validate_domain. by case_if.
Qed.

(** For 64-bit timestamps the three time checks decide the protocol's
    intervals in spite of their saturating arithmetic: a registration window is
    non-empty and at most 300000 ms, a message is in the QR window when it is
    sent no earlier than 30000 ms before [iat] and no later than [exp], and a
    challenge sent at or before [exp] expires within [sent, exp] and within
    300000 ms. *)
Lemma time_windows_correct iat exp sent :
  in_i64 iat -> in_i64 exp -> in_i64 sent ->
  (validate_window iat exp = Ok tt <-> iat < exp <= iat + 300000) /\
  (sent_at_in_qr_window sent iat exp = true <-> iat - 30000 <= sent <= exp) /\
  (sent <= exp ->
   sent <= challenge_expires_at sent exp <= exp /\
   challenge_expires_at sent exp <= sent + 300000).
Proof.
  intros Hi He Hs. split; [by apply validate_window_Ok|].
  split; [by apply qr_window_spec|]. intros Hse.
  destruct (challenge_expires_bounds sent exp Hs He Hse) as (? & ? & _). done.
Qed.

(** The witness: the window of the source's own test, at the extremes. *)
Lemma time_windows_witness :
  (validate_window 1800000000000 1800000300000 = Ok tt <->
     1800000000000 < 1800000300000 <= 1800000000000 + 300000) /\
  (sent_at_in_qr_window 1799999970000 1800000000000 1800000300000 = true <->
     1800000000000 - 30000 <= 1799999970000 <= 1800000300000) /\
  (1799999970000 <= 1800000300000 ->
   1799999970000 <= challenge_expires_at 1799999970000 1800000300000 <= 1800000300000 /\
   challenge_expires_at 1799999970000 1800000300000 <= 1799999970000 + 300000).
Proof.
  apply time_windows_correct; unfold in_i64, i64_min, i64_max; lia.
Defined.
