(* ===== verification/Base64url.v ===== *)
(** * Unpadded base64url (src/src/crypto/base64url.rs)

    The [base64] crate's URL_SAFE_NO_PAD engine is a parameter, the class
    [Base64], with what RFC 4648 fixes about it as [Base64Laws]; [encode] and
    [decode] are the relay's wrappers.  The module [Rfc4648] is a concrete engine
    that satisfies the laws. *)

From S2P Require Import Prelude Errors Validation.

(** The engine: [URL_SAFE_NO_PAD.encode] and [.decode]. *)
Class Base64 := {
  b64_encode : list byte -> string;
  b64_decode : string -> option (list byte)
}.

(** Unpadded, canonical (the crate refuses non-zero trailing bits), over the
    URL-safe alphabet. *)
Class Base64Laws `{Base64} : Prop := {
  b64_decode_encode : forall b, b64_decode (b64_encode b) = Some b;
  b64_encode_decode : forall s b, b64_decode s = Some b -> b64_encode b = s;
  b64_encode_len : forall b, slen (b64_encode b) = (4 * blen b + 2) / 3;
  b64_encode_alphabet : forall b, str_forallb cls_id (b64_encode b) = true
}.

(** ** The relay's wrappers *)

(** [b.is_ascii_alphanumeric() || b == b'-' || b == b'_'], byte by byte. *)
Definition url_safe_byte (c : ascii) : bool :=
  (is_upper c || is_lower c || is_digit c) || Ascii.eqb "-" c || Ascii.eqb "_" c.

Section Wrappers.
Context `{Base64}.

Definition encode (bytes : list byte) : string := b64_encode bytes.

Definition decode (value : string) : result (list byte) :=
  if str_existsb (Ascii.eqb "=") value then problem InvalidRequest
  else if negb (str_forallb url_safe_byte value) then problem InvalidRequest
  else ok_or (b64_decode value) InvalidRequest.
End Wrappers.

(** ** Correctness of the wrappers *)

Lemma url_safe_cls_id c : url_safe_byte c = cls_id c.
Proof.
  unfold url_safe_byte, cls_id, is_hyphen.
  by destruct (is_upper c), (is_lower c), (is_digit c), (Ascii.eqb "-" c), (Ascii.eqb "_" c).
Qed.

Lemma str_forallb_ext p q s :
  (forall c, p c = q c) -> str_forallb p s = str_forallb q s.
Proof. intros Hpq. induction s as [|c s IH]; simpl; [done|]. by rewrite Hpq, IH. Qed.

Lemma cls_id_not_pad s :
  str_forallb cls_id s = true -> str_existsb (Ascii.eqb "=") s = false.
Proof. apply not_contains_char. intros d Hd. apply Ascii.eqb_neq. by intros <-. Qed.

Section Laws.
Context `{Base64Laws}.

Lemma decode_Ok s b : decode s = Ok b <-> encode b = s.
Proof.
  unfold decode, encode. split.
  - repeat case_if; try done. intros Hd%ok_or_Ok. by apply b64_encode_decode.
  - intros <-. pose proof (b64_encode_alphabet b) as Ha.
    rewrite cls_id_not_pad by done.
    rewrite (str_forallb_ext _ cls_id) by apply url_safe_cls_id.
    by rewrite Ha, b64_decode_encode.
Qed.

Lemma decode_err s e : decode s = Err e -> e = Problem InvalidRequest.
Proof.
  unfold decode. repeat case_if; try by intros [= <-].
  destruct (b64_decode s); by intros [= <-].
Qed.

Lemma encode_len b : slen (encode b) = (4 * blen b + 2) / 3.
Proof. apply b64_encode_len. Qed.

Lemma encode_chars b : str_forallb cls_id (encode b) = true.
Proof. apply b64_encode_alphabet. Qed.

Lemma encode_inj a b : encode a = encode b -> a = b.
Proof.
  intros Hab. apply decode_Ok in Hab. assert (decode (encode b) = Ok b) by by apply decode_Ok.
  congruence.
Qed.

(** The length of the text determines the length of the data. *)
Lemma decode_len s b : decode s = Ok b -> slen s = (4 * blen b + 2) / 3.
Proof. intros <-%decode_Ok. apply encode_len. Qed.

Lemma encode_over b n m :
  blen b = n -> (4 * n + 2) / 3 = m -> over cls_id m m (encode b).
Proof. intros <- <-. split; [apply encode_chars|]. rewrite encode_len. lia. Qed.
End Laws.

#[export] Hint Resolve encode_chars : relay.

(** ** A concrete engine *)

Module Rfc4648.

(** The sextet alphabet. *)
Definition sextet_char (z : Z) : ascii :=
  if z <? 26 then zc (65 + z)
  else if z <? 52 then zc (71 + z)
  else if z <? 62 then zc (z - 4)
  else if z =? 62 then "-"%char else "_"%char.

Definition char_sextet (c : ascii) : option Z :=
  if is_upper c then Some (cz c - 65)
  else if is_lower c then Some (cz c - 71)
  else if is_digit c then Some (cz c + 4)
  else if Ascii.eqb "-" c then Some 62
  else if Ascii.eqb "_" c then Some 63
  else None.

Fixpoint to_sextets (l : list byte) : list Z :=
  match l with
  | a :: b :: c :: r =>
      bz a / 4 :: (bz a mod 4) * 16 + bz b / 16
      :: (bz b mod 16) * 4 + bz c / 64 :: bz c mod 64 :: to_sextets r
  | [a; b] => [bz a / 4; (bz a mod 4) * 16 + bz b / 16; (bz b mod 16) * 4]
  | [a] => [bz a / 4; (bz a mod 4) * 16]
  | [] => []
  end.

Fixpoint of_sextets (l : list Z) : option (list byte) :=
  match l with
  | w :: x :: y :: z :: r =>
      match of_sextets r with
      | Some bs =>
          Some (zb (w * 4 + x / 16) :: zb ((x mod 16) * 16 + y / 4)
                :: zb ((y mod 4) * 64 + z) :: bs)
      | None => None
      end
  | [w; x; y] =>
      if y mod 4 =? 0 then Some [zb (w * 4 + x / 16); zb ((x mod 16) * 16 + y / 4)] else None
  | [w; x] => if x mod 16 =? 0 then Some [zb (w * 4 + x / 16)] else None
  | [_] => None
  | [] => Some []
  end.

Fixpoint text_of (l : list Z) : string :=
  match l with
  | [] => ""
  | z :: l' => String (sextet_char z) (text_of l')
  end.

Fixpoint of_text (s : string) : option (list Z) :=
  match s with
  | EmptyString => Some []
  | String c s' =>
      match char_sextet c, of_text s' with
      | Some z, Some l => Some (z :: l)
      | _, _ => None
      end
  end.

#[export] Instance engine : Base64 := {|
  b64_encode l := text_of (to_sextets l);
  b64_decode s := match of_text s with Some l => of_sextets l | None => None end
|}.

Example encode_1234 : b64_encode [x01; x02; x03; x04] = "AQIDBA".
Proof. reflexivity. Qed.

Definition sextets (l : list Z) : Prop := Forall (fun z => 0 <= z < 64) l.

Ltac by_sextet z :=
  let H := fresh in
  assert (H : In z (seqZ 0 64)) by (apply list_elem_of_In, elem_of_seqZ; lia);
  cbv in H; repeat destruct H as [<-|H]; [..|destruct H].

Lemma char_sextet_of z : 0 <= z < 64 -> char_sextet (sextet_char z) = Some z.
Proof. intros Hz. by_sextet z; reflexivity. Qed.

Lemma sextet_char_cls z : 0 <= z < 64 -> cls_id (sextet_char z) = true.
Proof. intros Hz. by_sextet z; reflexivity. Qed.

Lemma sextet_char_of c z : char_sextet c = Some z -> sextet_char z = c /\ 0 <= z < 64.
Proof.
  unfold char_sextet. repeat case_if; intros [= <-]; bool_hyp.
  - unfold is_upper in *. bool_hyp. split; [|lia]. unfold sextet_char.
    destruct (cz c - 65 <? 26) eqn:E; bool_hyp; [|lia].
    replace (65 + (cz c - 65)) with (cz c) by lia. apply zc_cz.
  - apply lower_range in Heqb0. split; [|lia]. unfold sextet_char.
    destruct (cz c - 71 <? 26) eqn:E; bool_hyp; [lia|].
    destruct (cz c - 71 <? 52) eqn:E2; bool_hyp; [|lia].
    replace (71 + (cz c - 71)) with (cz c) by lia. apply zc_cz.
  - apply digit_range in Heqb1. split; [|lia]. unfold sextet_char.
    destruct (cz c + 4 <? 26) eqn:E; bool_hyp; [lia|].
    destruct (cz c + 4 <? 52) eqn:E2; bool_hyp; [lia|].
    destruct (cz c + 4 <? 62) eqn:E3; bool_hyp; [|lia].
    replace (cz c + 4 - 4) with (cz c) by lia. apply zc_cz.
  - apply Ascii.eqb_eq in Heqb2 as <-. split; [reflexivity|lia].
  - apply Ascii.eqb_eq in Heqb3 as <-. split; [reflexivity|lia].
Qed.

Lemma of_text_text l : sextets l -> of_text (text_of l) = Some l.
Proof. induction 1 as [|z l Hz _ IH]; simpl; [done|]. by rewrite char_sextet_of, IH. Qed.

Lemma text_of_text s l : of_text s = Some l -> text_of l = s /\ sextets l.
Proof.
  revert l. induction s as [|c s IH]; simpl; intros l.
  - intros [= <-]. split; [done|constructor].
  - destruct (char_sextet c) as [z|] eqn:E; [|done].
    destruct (of_text s) as [l'|]; [|done]. intros [= <-].
    apply sextet_char_of in E as [Hc Hz]. destruct (IH l' eq_refl) as [<- Hl].
    simpl. rewrite Hc. split; [done|by constructor].
Qed.

Ltac zdm := Z.div_mod_to_equations; lia.

(** Induction by groups of three bytes or four sextets. *)
Lemma list_ind3 {A} (P : list A -> Prop) :
  P [] -> (forall a, P [a]) -> (forall a b, P [a; b]) ->
  (forall a b c l, P l -> P (a :: b :: c :: l)) -> forall l, P l.
Proof.
  intros H0 H1 H2 H3. fix IH 1. intros [|a [|b [|c l]]];
    [exact H0|exact (H1 a)|exact (H2 a b)|exact (H3 a b c l (IH l))].
Qed.

Lemma list_ind4 {A} (P : list A -> Prop) :
  P [] -> (forall a, P [a]) -> (forall a b, P [a; b]) -> (forall a b c, P [a; b; c]) ->
  (forall a b c d l, P l -> P (a :: b :: c :: d :: l)) -> forall l, P l.
Proof.
  intros H0 H1 H2 H3 H4. fix IH 1. intros [|a [|b [|c [|d l]]]];
    [exact H0|exact (H1 a)|exact (H2 a b)|exact (H3 a b c)|exact (H4 a b c d l (IH l))].
Qed.

Ltac byte_ranges :=
  repeat match goal with
  | b : byte |- _ =>
      lazymatch goal with
      | _ : 0 <= bz b < 256 |- _ => fail
      | _ => pose proof (bz_range b)
      end
  end.

Lemma to_sextets_range l : sextets (to_sextets l).
Proof.
  induction l as [|a|a b|a b c l IH] using list_ind3; simpl; byte_ranges;
    unfold sextets in *; repeat constructor; try done; zdm.
Qed.

Lemma of_to_sextets l : of_sextets (to_sextets l) = Some l.
Proof.
  induction l as [|a|a b|a b c l IH] using list_ind3; simpl; byte_ranges.
  - done.
  - replace (_ =? 0) with true by (symmetry; apply Z.eqb_eq; zdm).
    do 2 f_equal. apply bz_inj. rewrite bz_zb; zdm.
  - replace (_ =? 0) with true by (symmetry; apply Z.eqb_eq; zdm).
    do 2 f_equal; [|f_equal]; apply bz_inj; rewrite bz_zb; zdm.
  - rewrite IH. do 2 f_equal; [|f_equal; [|f_equal]]; apply bz_inj; rewrite bz_zb; zdm.
Qed.

Lemma to_of_sextets s : forall l, sextets s -> of_sextets s = Some l -> to_sextets l = s.
Proof.
  induction s as [|a|a b|a b c|a b c d s IH] using list_ind4; simpl; intros l Hs Hl;
    unfold sextets in Hs;
    repeat match goal with H : Forall _ (_ :: _) |- _ => apply Forall_cons_1 in H as [? H] end.
  - by injection Hl as <-.
  - done.
  - case_if_in Hl; [|done]. bool_hyp. injection Hl as <-. simpl.
    rewrite bz_zb by zdm. repeat f_equal; zdm.
  - case_if_in Hl; [|done]. bool_hyp. injection Hl as <-. simpl.
    rewrite !bz_zb by zdm. repeat f_equal; zdm.
  - destruct (of_sextets s) as [l'|]; [|done]. injection Hl as <-. simpl.
    rewrite !bz_zb by zdm. rewrite (IH l') by done. repeat f_equal; zdm.
Qed.

Lemma to_sextets_len l : Z.of_nat (length (to_sextets l)) = (4 * blen l + 2) / 3.
Proof.
  unfold blen. induction l as [|a|a b|a b c l IH] using list_ind3; try reflexivity.
  simpl to_sextets. cbn [length]. rewrite !Nat2Z.inj_succ, IH. zdm.
Qed.

Lemma text_of_len l : slen (text_of l) = Z.of_nat (length l).
Proof.
  induction l as [|z l IH]; [done|]. simpl text_of. rewrite slen_cons, IH. simpl length. lia.
Qed.

Lemma text_of_cls l : sextets l -> str_forallb cls_id (text_of l) = true.
Proof. induction 1 as [|z l Hz _ IH]; simpl; [done|]. by rewrite sextet_char_cls, IH. Qed.

#[export] Instance engine_laws : Base64Laws.
Proof.
  constructor; cbn.
  - intros b. rewrite of_text_text by apply to_sextets_range. apply of_to_sextets.
  - intros s b. destruct (of_text s) as [l|] eqn:E; [|done].
    apply text_of_text in E as [<- Hl]. intros Hb. by rewrite (to_of_sextets l).
  - intros b. by rewrite text_of_len, to_sextets_len.
  - intros b. apply text_of_cls, to_sextets_range.
Qed.

End Rfc4648.

(** ** Properties *)

(** Encoding then decoding gives the data back, decoding succeeds on nothing
    but encodings (padding, foreign characters and non-canonical texts are
    refused as invalid requests), and the encoded text is over
    [A-Za-z0-9_-] with length ceil(4n/3): 16, 32 and 64 bytes give 22, 43 and 86
    characters. *)
Lemma base64url_roundtrip `{Base64Laws} b s :
  decode (encode b) = Ok b /\
  (decode s = Ok b <-> encode b = s) /\
  (forall e, decode s = Err e -> e = Problem InvalidRequest) /\
  over cls_id ((4 * blen b + 2) / 3) ((4 * blen b + 2) / 3) (encode b).
Proof.
  split; [by apply decode_Ok|]. split; [apply decode_Ok|].
  split; [apply decode_err|]. by eapply encode_over.
Qed.

Import Rfc4648.

Lemma base64url_roundtrip_witness :
  decode (encode [x01; x02; x03; x04]) = Ok [x01; x02; x03; x04] /\
  (decode "AQIDBA" = Ok [x01; x02; x03; x04] <-> encode [x01; x02; x03; x04] = "AQIDBA") /\
  (forall e, decode "AQIDBA" = Err e -> e = Problem InvalidRequest) /\
  over cls_id ((4 * blen [x01; x02; x03; x04] + 2) / 3)
    ((4 * blen [x01; x02; x03; x04] + 2) / 3) (encode [x01; x02; x03; x04]).
Proof. apply (base64url_roundtrip [x01; x02; x03; x04] "AQIDBA"). Defined.
