(* ===== verification/Utf8.v ===== *)
(** * UTF-8 (std::str)

    [std::str::from_utf8], and [str::trim] with the Unicode [White_Space]
    property, as the relay uses them on request bodies, secrets and display
    names. *)

From S2P Require Import Prelude.

(** A continuation byte, and its payload. *)
Definition is_cont (b : byte) : bool := (128 <=? bz b) && (bz b <? 192).
Definition cont (b : byte) : Z := bz b - 128.

(** Unicode scalar values. *)
Definition scalar_value (z : Z) : bool :=
  ((0 <=? z) && (z <? 55296)) || ((57344 <=? z) && (z <? 1114112)).

(** The code points of a well-formed sequence: shortest forms, no surrogates. *)
Fixpoint utf8_decode (l : list byte) : option (list Z) :=
  match l with
  | [] => Some []
  | a :: l1 =>
      let x := bz a in
      if x <? 128 then cons x <$> utf8_decode l1
      else if x <? 192 then None
      else if x <? 224 then
        match l1 with
        | b :: l2 =>
            let z := (x - 192) * 64 + cont b in
            if is_cont b && (128 <=? z) then cons z <$> utf8_decode l2 else None
        | _ => None
        end
      else if x <? 240 then
        match l1 with
        | b :: c :: l3 =>
            let z := (x - 224) * 4096 + cont b * 64 + cont c in
            if is_cont b && is_cont c && (2048 <=? z) && scalar_value z
            then cons z <$> utf8_decode l3 else None
        | _ => None
        end
      else
        match l1 with
        | b :: c :: d :: l4 =>
            let z := (x - 240) * 262144 + cont b * 4096 + cont c * 64 + cont d in
            if is_cont b && is_cont c && is_cont d && (65536 <=? z) && scalar_value z
            then cons z <$> utf8_decode l4 else None
        | _ => None
        end
  end.

Definition utf8_encode1 (z : Z) : list byte :=
  if z <? 128 then [zb z]
  else if z <? 2048 then [zb (192 + z / 64); zb (128 + z mod 64)]
  else if z <? 65536 then
    [zb (224 + z / 4096); zb (128 + z / 64 mod 64); zb (128 + z mod 64)]
  else
    [zb (240 + z / 262144); zb (128 + z / 4096 mod 64);
     zb (128 + z / 64 mod 64); zb (128 + z mod 64)].

Definition utf8_encode (l : list Z) : list byte := concat (List.map utf8_encode1 l).

(** [std::str::from_utf8] and [String::from_utf8]. *)
Definition from_utf8 (b : list byte) : option string :=
  match utf8_decode b with Some _ => Some (of_bytes b) | None => None end.

(** Every Rust [str] satisfies this. *)
Definition utf8_ok (s : string) : Prop := is_Some (utf8_decode (as_bytes s)).

(** The Unicode [White_Space] property. *)
Definition is_whitespace (z : Z) : bool :=
  ((9 <=? z) && (z <=? 13)) || (z =? 32) || (z =? 133) || (z =? 160) || (z =? 5760)
  || ((8192 <=? z) && (z <=? 8202)) || (z =? 8232) || (z =? 8233) || (z =? 8239)
  || (z =? 8287) || (z =? 12288).

Fixpoint trim_start (l : list Z) : list Z :=
  match l with
  | [] => []
  | z :: l' => if is_whitespace z then trim_start l' else l
  end.

Definition trim_end (l : list Z) : list Z := rev (trim_start (rev l)).

(** [str::trim]; the [None] case is not reached on a Rust [str]. *)
Definition trim (s : string) : string :=
  match utf8_decode (as_bytes s) with
  | Some l => of_bytes (utf8_encode (trim_end (trim_start l)))
  | None => s
  end.

Example trim_secret : trim (String (zc 32) ("ab" +:+ String (zc 10) "")) = "ab".
Proof. reflexivity. Qed.

(** ** Lemmas *)

Definition is_ascii (c : ascii) : bool := cz c <? 128.

Lemma utf8_decode_app a b l m :
  utf8_decode a = Some l -> utf8_decode b = Some m -> utf8_decode (a ++ b) = Some (l ++ m).
Proof.
  revert l. induction a as [a IH] using (induction_ltof1 _ length); unfold ltof in IH.
  intros l Ha Hb. destruct a as [|x a1]; [by injection Ha as <-|].
  assert (Hrec : forall a' l', (length a' < length (x :: a1))%nat ->
    utf8_decode a' = Some l' -> utf8_decode (a' ++ b) = Some (l' ++ m)) by auto.
  clear IH. cbn [utf8_decode app] in Ha |- *.
  repeat case_if_in Ha; try done.
  - apply fmap_Some in Ha as (l' & Hl & ->). rewrite (fun H => Hrec _ _ H Hl) by (simpl; lia). done.
  - destruct a1 as [|b1 a2]; [done|]. cbn [app]. case_if_in Ha; [|done].
    apply fmap_Some in Ha as (l' & Hl & ->). rewrite (fun H => Hrec _ _ H Hl) by (simpl; lia). done.
  - destruct a1 as [|b1 [|b2 a2]]; [done|done|]. cbn [app]. case_if_in Ha; [|done].
    apply fmap_Some in Ha as (l' & Hl & ->). rewrite (fun H => Hrec _ _ H Hl) by (simpl; lia). done.
  - destruct a1 as [|b1 [|b2 [|b3 a2]]]; [done|done|done|]. cbn [app]. case_if_in Ha; [|done].
    apply fmap_Some in Ha as (l' & Hl & ->). rewrite (fun H => Hrec _ _ H Hl) by (simpl; lia). done.
Qed.

Lemma utf8_ok_app s t : utf8_ok s -> utf8_ok t -> utf8_ok (s +:+ t).
Proof.
  unfold utf8_ok. rewrite as_bytes_app. intros [l Hl] [m Hm].
  eexists. by eapply utf8_decode_app.
Qed.

Lemma utf8_ok_ascii s : str_forallb is_ascii s = true -> utf8_ok s.
Proof.
  unfold utf8_ok. induction s as [|c s IH]; [by eexists|].
  cbn [str_forallb]. intros [Hc Hs]%andb_prop. destruct (IH Hs) as [l Hl].
  rewrite as_bytes_cons. cbn [utf8_decode]. rewrite bz_byte_of_ascii.
  unfold is_ascii in Hc. rewrite Hc, Hl. by eexists.
Qed.

Lemma from_utf8_as_bytes s : utf8_ok s -> from_utf8 (as_bytes s) = Some s.
Proof. intros [l Hl]. unfold from_utf8. by rewrite Hl, of_bytes_as_bytes. Qed.

Lemma from_utf8_Some b s : from_utf8 b = Some s -> as_bytes s = b /\ utf8_ok s.
Proof.
  unfold from_utf8, utf8_ok. destruct (utf8_decode b) eqn:E; [|done]. intros [= <-].
  rewrite as_bytes_of_bytes. eauto.
Qed.

(** Every well-formed string is an ASCII character, or a character of several
    non-ASCII bytes, before a well-formed string. *)
Lemma utf8_ok_inv s :
  utf8_ok s ->
  s = "" \/ exists u t, s = u +:+ t /\ utf8_ok u /\ utf8_ok t /\ u <> "" /\
    (str_forallb (fun c => negb (is_ascii c)) u = true \/
     exists c, u = String c "" /\ is_ascii c = true).
Proof.
  intros [l Hl]. destruct s as [|c1 s1]; [by left|right].
  assert (Hcont : forall c, is_cont (byte_of_ascii c) = true -> is_ascii c = false).
  { intros c. unfold is_cont, is_ascii. rewrite bz_byte_of_ascii. intros. bool_hyp.
    apply Z.ltb_ge. lia. }
  rewrite as_bytes_cons in Hl. cbn [utf8_decode] in Hl. rewrite bz_byte_of_ascii in Hl.
  destruct (cz c1 <? 128) eqn:E1.
  { apply fmap_Some in Hl as (l' & Hl & ->). exists (String c1 ""), s1.
    repeat split; try done; [|by eexists|].
    - apply utf8_ok_ascii. simpl. unfold is_ascii. by rewrite E1.
    - right. exists c1. done. }
  assert (Hc1 : is_ascii c1 = false) by done.
  repeat case_if_in Hl; try done.
  - destruct s1 as [|c2 s2]; [done|]. rewrite as_bytes_cons in Hl. case_if_in Hl; [|done].
    pose proof Hl as Hl'. apply fmap_Some in Hl as (l' & Hl & ->).
    exists (String c1 (String c2 "")), s2. repeat split; try done; [|by eexists|].
    + unfold utf8_ok. rewrite !as_bytes_cons. cbn [utf8_decode]. rewrite bz_byte_of_ascii.
      rewrite E1, Heqb, Heqb0, Heqb1. by eexists.
    + left. bool_hyp. simpl. by rewrite Hc1, (Hcont c2).
  - destruct s1 as [|c2 [|c3 s3]]; [done|done|]. rewrite !as_bytes_cons in Hl.
    case_if_in Hl; [|done]. apply fmap_Some in Hl as (l' & Hl & ->).
    exists (String c1 (String c2 (String c3 ""))), s3. repeat split; try done; [|by eexists|].
    + unfold utf8_ok. rewrite !as_bytes_cons. cbn [utf8_decode]. rewrite bz_byte_of_ascii.
      rewrite E1, Heqb, Heqb0, Heqb1, Heqb2. by eexists.
    + left. bool_hyp. simpl. by rewrite Hc1, (Hcont c2), (Hcont c3).
  - destruct s1 as [|c2 [|c3 [|c4 s4]]]; [done|done|done|]. rewrite !as_bytes_cons in Hl.
    case_if_in Hl; [|done]. apply fmap_Some in Hl as (l' & Hl & ->).
    exists (String c1 (String c2 (String c3 (String c4 "")))), s4.
    repeat split; try done; [|by eexists|].
    + unfold utf8_ok. rewrite !as_bytes_cons. cbn [utf8_decode]. rewrite bz_byte_of_ascii.
      rewrite E1, Heqb, Heqb0, Heqb1, Heqb2. by eexists.
    + left. bool_hyp. simpl. by rewrite Hc1, (Hcont c2), (Hcont c3), (Hcont c4).
Qed.

#[export] Hint Resolve utf8_ok_app utf8_ok_ascii : relay.
