(* ===== verification/Json.v ===== *)
(** * JSON values (serde_json)

    The [Value] type the relay builds, canonicalizes and reads, its compact
    text, and the two interfaces of serde_json the relay calls: the printer of
    string literals ([JsonText]) and the reader that drives a visitor
    ([JsonReader]). *)

From S2P Require Import Prelude Errors Utf8.

(** ** Values *)

(** [serde_json::Number]: a [u64], a negative [i64], or an [f64] (its bits). *)
Inductive Number :=
  | NPosInt (u : Z)
  | NNegInt (i : Z)
  | NFloat (bits : Z).

#[export] Instance Number_eq_dec : EqDecision Number.
Proof. solve_decision. Defined.

(** An object is its entries; [Map::insert] keeps the keys distinct. *)
#[warnings="-register-all"]
Inductive Value :=
  | VNull
  | VBool (b : bool)
  | VNumber (n : Number)
  | VString (s : string)
  | VArray (items : list Value)
  | VObject (fields : list (string * Value)).

(** [Number::as_i64] and [Number::as_u64]. *)
Definition as_i64 (n : Number) : option Z :=
  match n with
  | NPosInt u => if u <=? i64_max then Some u else None
  | NNegInt i => Some i
  | NFloat _ => None
  end.
Definition as_u64 (n : Number) : option Z :=
  match n with
  | NPosInt u => Some u
  | NNegInt _ | NFloat _ => None
  end.

(** [Number::from] on an [i64], and [json!] on the types the relay passes it. *)
Definition num_of_i64 (z : Z) : Number := if z <? 0 then NNegInt z else NPosInt z.
Definition json_int (z : Z) : Value := VNumber (num_of_i64 z).
Definition json_str (s : string) : Value := VString s.
Definition json_bool (b : bool) : Value := VBool b.
Definition json_opt (o : option string) : Value :=
  match o with Some s => VString s | None => VNull end.

(** [Map::insert]: the previous value of the key, and the map. *)
Fixpoint obj_insert (k : string) (v : Value) (m : list (string * Value))
  : option Value * list (string * Value) :=
  match m with
  | [] => (None, [(k, v)])
  | (k', v') :: m' =>
      if String.eqb k k' then (Some v', (k, v) :: m')
      else let '(o, m'') := obj_insert k v m' in (o, (k', v') :: m'')
  end.

(** [Map::get]. *)
Fixpoint obj_get (k : string) (m : list (string * Value)) : option Value :=
  match m with
  | [] => None
  | (k', v') :: m' => if String.eqb k k' then Some v' else obj_get k m'
  end.

(** The numbers a [Number] can hold. *)
Definition number_wf (n : Number) : Prop :=
  match n with
  | NPosInt u => 0 <= u < 2 ^ 64
  | NNegInt i => i64_min <= i < 0
  | NFloat _ => True
  end.

Fixpoint value_wf (v : Value) : Prop :=
  match v with
  | VNull | VBool _ | VString _ => True
  | VNumber n => number_wf n
  | VArray l => (fix go l := match l with [] => True | x :: l' => value_wf x /\ go l' end) l
  | VObject m =>
      (fix go m := match m with [] => True | (_, x) :: m' => value_wf x /\ go m' end) m
  end.

(** Induction through arrays and objects. *)
Lemma Value_ind' (P : Value -> Prop) :
  P VNull -> (forall b, P (VBool b)) -> (forall n, P (VNumber n)) ->
  (forall s, P (VString s)) -> (forall l, Forall P l -> P (VArray l)) ->
  (forall m, Forall (fun kv => P (snd kv)) m -> P (VObject m)) -> forall v, P v.
Proof.
  intros Hn Hb Hi Hs Ha Ho. fix IH 1.
  intros [|b|n|s|l|m]; [exact Hn|exact (Hb b)|exact (Hi n)|exact (Hs s)|..].
  - apply Ha. induction l as [|x l IHl]; constructor; [apply IH|apply IHl].
  - apply Ho. induction m as [|[k x] m IHm]; constructor; [apply IH|apply IHm].
Qed.

Lemma value_wf_array l : value_wf (VArray l) <-> Forall value_wf l.
Proof.
  cbn. induction l as [|x l IH]; [split; [constructor|done]|].
  rewrite Forall_cons. by rewrite IH.
Qed.

Lemma value_wf_object m : value_wf (VObject m) <-> Forall (fun kv => value_wf (snd kv)) m.
Proof.
  cbn. induction m as [|[k x] m IH]; [split; [constructor|done]|].
  rewrite Forall_cons. by rewrite IH.
Qed.

(** ** Decimal text *)

(** [i64::to_string] and [u64::to_string]. *)
Definition z_to_string (z : Z) : string := NilZero.string_of_int (Z.to_int z).

Example z_to_string_neg : z_to_string (-1800000000000) = "-1800000000000".
Proof. reflexivity. Qed.
Example z_to_string_zero : z_to_string 0 = "0".
Proof. reflexivity. Qed.

Definition is_num_char (c : ascii) : bool :=
  ((48 <=? cz c) && (cz c <=? 57)) || Ascii.eqb "-" c.

(** ** serde_json's text *)

(** [serde_json::to_string] on a string. *)
Class JsonText := {
  json_string : string -> option string
}.

(** RFC 8259: a string literal starts with a quotation mark, delimits itself,
    and an escape takes at most six characters for one byte. *)
Class JsonTextLaws `{JsonText} : Prop := {
  json_string_total : forall s, exists t, json_string s = Some t;
  json_string_quote : forall s t, json_string s = Some t -> exists t', t = String QUOTE t';
  json_string_delim : forall s s' t t' r r',
    json_string s = Some t -> json_string s' = Some t' ->
    t +:+ r = t' +:+ r' -> s = s' /\ r = r';
  json_string_len : forall s t, json_string s = Some t -> slen t <= 6 * slen s + 2;
  json_string_utf8 : forall s t, utf8_ok s -> json_string s = Some t -> utf8_ok t
}.

(** A sequence of items, separated by commas, up to and including [close]. *)
Fixpoint print_seq {A} (close : string) (pr : A -> option string) (first : bool)
    (l : list A) : option string :=
  match l with
  | [] => Some close
  | x :: l' =>
      match pr x, print_seq close pr false l' with
      | Some s, Some t => Some ((if first then "" else ",") +:+ s +:+ t)
      | _, _ => None
      end
  end.

Definition print_number (n : Number) : option string :=
  match n with
  | NPosInt u => Some (z_to_string u)
  | NNegInt i => Some (z_to_string i)
  | NFloat _ => None
  end.

(** The compact text of a value, its entries in order: what
    [serde_json::to_vec] writes for a value without floats. *)
Fixpoint print `{JsonText} (v : Value) : option string :=
  match v with
  | VNull => Some "null"
  | VBool b => Some (if b then "true" else "false")
  | VNumber n => print_number n
  | VString s => json_string s
  | VArray l =>
      match print_seq "]" print true l with
      | Some t => Some ("[" +:+ t)
      | None => None
      end
  | VObject m =>
      match print_seq "}"
              (fun kv => match json_string (fst kv), print (snd kv) with
                         | Some k, Some t => Some (k +:+ ":" +:+ t)
                         | _, _ => None
                         end) true m with
      | Some t => Some ("{" +:+ t)
      | None => None
      end
  end.

Definition print_member `{JsonText} (kv : string * Value) : option string :=
  match json_string (fst kv), print (snd kv) with
  | Some k, Some t => Some (k +:+ ":" +:+ t)
  | _, _ => None
  end.

(** ** Decimal text is injective *)

(** The decimal reader that inverts [z_to_string]. *)
Definition z_of_string (s : string) : option Z := Z.of_int <$> NilZero.int_of_string s.

Lemma z_of_to_string z : z_of_string (z_to_string z) = Some z.
Proof.
  unfold z_of_string, z_to_string. rewrite NilZero.isi.
  - simpl. by rewrite DecimalZ.of_to.
  - destruct z as [|p|p]; cbn; try discriminate. intros [= E].
    by apply DecimalPos.Unsigned.to_uint_nonnil in E.
  - destruct z as [|p|p]; cbn; try discriminate. intros [= E].
    by apply DecimalPos.Unsigned.to_uint_nonnil in E.
Qed.

Lemma z_to_string_inj a b : z_to_string a = z_to_string b -> a = b.
Proof. intros H%(f_equal z_of_string). rewrite !z_of_to_string in H. congruence. Qed.

Lemma uint_chars d : str_forallb is_num_char (NilEmpty.string_of_uint d) = true.
Proof. induction d; simpl; try done; by rewrite IHd. Qed.

Lemma z_to_string_chars z : str_forallb is_num_char (z_to_string z) = true.
Proof.
  unfold z_to_string. destruct z as [|p|p]; [reflexivity|..];
    cbn -[NilZero.string_of_uint]; unfold NilZero.string_of_uint;
    destruct (Pos.to_uint p) eqn:E; try reflexivity; rewrite <- ?E; simpl;
    try apply uint_chars.
Qed.

Lemma z_to_string_nonempty z : z_to_string z <> "".
Proof.
  unfold z_to_string. destruct z as [|p|p]; [discriminate|..];
    cbn -[NilZero.string_of_uint]; unfold NilZero.string_of_uint;
    destruct (Pos.to_uint p) eqn:E; discriminate.
Qed.

(** ** The compact text delimits itself *)

(** What may follow a value inside a text. *)
Definition is_delim (c : ascii) : bool :=
  Ascii.eqb "," c || Ascii.eqb "]" c || Ascii.eqb "}" c.
Definition delim (r : string) : Prop :=
  match r with EmptyString => True | String c _ => is_delim c = true end.

Lemma delim_not_num c : is_delim c = true -> is_num_char c = false.
Proof.
  unfold is_delim. intros [[<-%Ascii.eqb_eq|<-%Ascii.eqb_eq]%orb_prop
    |<-%Ascii.eqb_eq]%orb_prop; reflexivity.
Qed.

(** Two maximal runs over a class are equal. *)
Lemma run_inj p s s' r r' :
  str_forallb p s = true -> str_forallb p s' = true ->
  match r with EmptyString => True | String c _ => p c = false end ->
  match r' with EmptyString => True | String c _ => p c = false end ->
  s +:+ r = s' +:+ r' -> s = s' /\ r = r'.
Proof.
  revert s'. induction s as [|c s IH]; intros [|c' s']; simpl; intros Hs Hs' Hr Hr' E.
  - done.
  - subst r. apply andb_prop in Hs' as [Hc _]. simpl in Hr. congruence.
  - subst r'. apply andb_prop in Hs as [Hc _]. simpl in Hr'. congruence.
  - apply andb_prop in Hs as [_ Hs], Hs' as [_ Hs']. injection E as -> E.
    by destruct (IH s' Hs Hs' Hr Hr' E) as [-> ->].
Qed.

Lemma num_inj a b r r' :
  delim r -> delim r' -> z_to_string a +:+ r = z_to_string b +:+ r' -> a = b /\ r = r'.
Proof.
  intros Hr Hr' E. apply (run_inj is_num_char) in E as [E ->].
  - split; [by apply z_to_string_inj|done].
  - apply z_to_string_chars.
  - apply z_to_string_chars.
  - destruct r; [done|by apply delim_not_num].
  - destruct r'; [done|by apply delim_not_num].
Qed.

(** [t] is the text of [x] and no other text of the same kind starts alike. *)
Definition self_delim {A} (wf : A -> Prop) (pr : A -> option string) (x : A) : Prop :=
  forall x' t t' r r', wf x -> wf x' -> pr x = Some t -> pr x' = Some t' ->
    delim r -> delim r' -> t +:+ r = t' +:+ r' -> x = x' /\ r = r'.

(** The text of an item does not start with [close] or a comma. *)
Definition not_close (close : ascii) (t : string) : Prop :=
  match t with
  | EmptyString => False
  | String c _ => c <> close /\ c <> ","%char
  end.

Lemma print_seq_inj {A} (wf : A -> Prop) (pr : A -> option string) (cl : ascii) l :
  is_delim cl = true -> cl <> ","%char ->
  (forall x t, wf x -> pr x = Some t -> not_close cl t) ->
  Forall (self_delim wf pr) l ->
  forall first l' t t' r r', Forall wf l -> Forall wf l' ->
    print_seq (String cl "") pr first l = Some t ->
    print_seq (String cl "") pr first l' = Some t' ->
    t +:+ r = t' +:+ r' -> l = l' /\ r = r'.
Proof.
  intros Hcl Hcomma Hnc Hl. induction Hl as [|x l Hx Hl IH];
    intros first [|x' l'] t t' r r' Hwf Hwf' Ht Ht' E; simpl in Ht, Ht'.
  - injection Ht as <-. injection Ht' as <-. by injection E.
  - exfalso. destruct (pr x') as [u|] eqn:Eu; [|done].
    destruct (print_seq _ pr false l') as [w|] eqn:Ew; [|done].
    injection Ht as <-. injection Ht' as <-.
    apply Forall_cons_1 in Hwf' as [Hwx _]. apply Hnc in Eu; [|done].
    destruct first; simpl in E; [|injection E; congruence].
    destruct u as [|c u]; simpl in *; [done|]. injection E. destruct Eu. congruence.
  - exfalso. destruct (pr x) as [u|] eqn:Eu; [|done].
    destruct (print_seq _ pr false l) as [w|] eqn:Ew; [|done].
    injection Ht as <-. injection Ht' as <-.
    apply Forall_cons_1 in Hwf as [Hwx _]. apply Hnc in Eu; [|done].
    destruct first; simpl in E; [|injection E; congruence].
    destruct u as [|c u]; simpl in *; [done|]. injection E. destruct Eu. congruence.
  - destruct (pr x) as [u|] eqn:Eu; [|done].
    destruct (print_seq _ pr false l) as [w|] eqn:Ew; [|done].
    destruct (pr x') as [u'|] eqn:Eu'; [|done].
    destruct (print_seq _ pr false l') as [w'|] eqn:Ew'; [|done].
    injection Ht as <-. injection Ht' as <-.
    apply Forall_cons_1 in Hwf as [Hwx Hwf], Hwf' as [Hwx' Hwf'].
    rewrite !str_app_assoc in E. apply str_app_inj_l in E.
    assert (Hd : forall l r w, print_seq (String cl "") pr false l = Some w -> delim (w +:+ r)).
    { intros l0 r0 w0 H0. destruct l0; simpl in H0.
      - by injection H0 as <-.
      - destruct (pr a); [|done]. destruct (print_seq (String cl "") pr false l0); [|done].
        injection H0 as <-. exact eq_refl. }
    destruct (Hx x' u u' _ _ Hwx Hwx' Eu Eu' (Hd _ _ _ Ew) (Hd _ _ _ Ew') E) as [<- E'].
    by destruct (IH false l' w w' r r' Hwf Hwf' Ew Ew' E') as [<- ->].
Qed.

Section Delim.
Context `{JsonTextLaws}.

(** Integers only. *)
Fixpoint no_float (v : Value) : Prop :=
  match v with
  | VNull | VBool _ | VString _ => True
  | VNumber n => match n with NFloat _ => False | _ => True end
  | VArray l => (fix go l := match l with [] => True | x :: l' => no_float x /\ go l' end) l
  | VObject m =>
      (fix go m := match m with [] => True | (_, x) :: m' => no_float x /\ go m' end) m
  end.

(** The first character of a text tells the kind of the value. *)
Definition value_start (v : Value) (c : ascii) : Prop :=
  match v with
  | VNull => c = "n"%char
  | VBool b => c = if b then "t"%char else "f"%char
  | VNumber _ => is_num_char c = true
  | VString _ => c = QUOTE
  | VArray _ => c = "["%char
  | VObject _ => c = "{"%char
  end.

Lemma print_start v t : print v = Some t -> exists c t', t = String c t' /\ value_start v c.
Proof.
  destruct v as [|b|n|s|l|m]; simpl.
  - intros [= <-]. eauto.
  - intros [= <-]. destruct b; eauto.
  - destruct n as [z|z|]; simpl; [..|done]; intros [= <-];
      pose proof (z_to_string_chars z) as Hc; pose proof (z_to_string_nonempty z);
      destruct (z_to_string z) as [|c t']; try done; simpl in Hc;
      apply andb_prop in Hc as [Hc _]; eauto.
  - intros (t' & ->)%json_string_quote. eauto.
  - destruct print_seq; [|done]. intros [= <-]. eauto.
  - destruct print_seq; [|done]. intros [= <-]. eauto.
Qed.

Lemma value_start_kind v v' c :
  value_start v c -> value_start v' c ->
  match v, v' with
  | VNull, VNull | VNumber _, VNumber _ | VString _, VString _
  | VArray _, VArray _ | VObject _, VObject _ => True
  | VBool b, VBool b' => b = b'
  | _, _ => False
  end.
Proof.
  destruct v as [|[]| | | |], v' as [|[]| | | |]; simpl; try done;
    intros H1 H2; subst; try discriminate; cbv in *; done.
Qed.

Lemma value_not_close v t cl :
  print v = Some t -> cl = "]"%char \/ cl = "}"%char -> not_close cl t.
Proof.
  intros (c & t' & -> & Hs)%print_start Hcl. simpl.
  destruct v as [|[]| | | |]; simpl in Hs; subst; try (destruct Hcl; subst; done).
  split; intros ->; [destruct Hcl; subst|]; cbv in Hs; done.
Qed.

Lemma member_self_delim kv :
  self_delim value_wf print (snd kv) ->
  self_delim (fun kv => value_wf (snd kv)) print_member kv.
Proof.
  intros Hv [k' v'] t t' r r' Hwf Hwf' Ht Ht' Hr Hr' E. destruct kv as [k v]; simpl in *.
  unfold print_member in Ht, Ht'; simpl in Ht, Ht'.
  destruct (json_string k) as [tk|] eqn:Ek; [|done]. destruct (print v) as [tv|] eqn:Ev; [|done].
  destruct (json_string k') as [tk'|] eqn:Ek'; [|done].
  destruct (print v') as [tv'|] eqn:Ev'; [|done].
  injection Ht as <-. injection Ht' as <-. rewrite !str_app_assoc in E.
  destruct (json_string_delim _ _ _ _ _ _ Ek Ek' E) as [<- E'].
  injection E' as E'. by destruct (Hv v' tv tv' r r') as [<- ->].
Qed.

Lemma member_not_close (kv : string * Value) t :
  value_wf (snd kv) -> print_member kv = Some t -> not_close "}" t.
Proof.
  intros _. destruct kv as [k x]. unfold print_member; simpl.
  destruct (json_string k) as [tk|] eqn:Ek; [|done].
  destruct (print x); [|done]. apply json_string_quote in Ek as (tk' & ->).
  by intros [= <-].
Qed.

Lemma print_self_delim v : self_delim value_wf print v.
Proof.
  induction v as [|b|n|s|l IH|m IH] using Value_ind';
    intros v' t t' r r' Hwf Hwf' Ht Ht' Hr Hr' E.
  all: pose proof Ht as (c & t1 & -> & Hs)%print_start;
    pose proof Ht' as (c' & t2 & -> & Hs')%print_start.
  all: assert (c = c') as <- by (by injection E);
    pose proof (value_start_kind _ _ _ Hs Hs') as Hk; destruct v'; try done.
  - simpl in Ht, Ht'. injection Ht as _ <-. injection Ht' as _ <-. by injection E.
  - subst b0. simpl in Ht, Ht'. rewrite Ht in Ht'. injection Ht' as <-. split; [done|].
    by apply str_app_inj_l in E.
  - destruct n as [a|a|], n0 as [b|b|]; simpl in Ht, Ht', Hwf, Hwf'; try done;
      rewrite <- (Some_inj _ _ Ht), <- (Some_inj _ _ Ht') in E;
      apply num_inj in E as [-> ->]; try done; try lia.
  - simpl in Ht, Ht'. by destruct (json_string_delim _ _ _ _ _ _ Ht Ht' E) as [<- ->].
  - apply value_wf_array in Hwf, Hwf'. simpl in Ht, Ht'.
    destruct (print_seq _ _ _ l) as [u|] eqn:Eu; [|done].
    destruct (print_seq _ _ _ items) as [u'|] eqn:Eu'; [|done].
    injection Ht as <- <-. injection Ht' as <-. injection E as E.
    assert (Hnc : forall x t, value_wf x -> print x = Some t -> not_close "]" t)
      by eauto using value_not_close.
    by destruct (print_seq_inj value_wf print "]" l eq_refl ltac:(discriminate) Hnc IH true items
      u u' r r' Hwf Hwf' Eu Eu' E) as [<- ->].
  - apply value_wf_object in Hwf, Hwf'. simpl in Ht, Ht'.
    change (fun kv => _) with print_member in Ht, Ht'.
    destruct (print_seq _ _ _ m) as [u|] eqn:Eu; [|done].
    destruct (print_seq _ _ _ fields) as [u'|] eqn:Eu'; [|done].
    injection Ht as <- <-. injection Ht' as <-. injection E as E.
    assert (Hms : Forall (self_delim (fun kv => value_wf (snd kv)) print_member) m)
      by (eapply Forall_impl; [exact IH|]; intros kv; apply member_self_delim).
    by destruct (print_seq_inj _ print_member "}" m eq_refl ltac:(discriminate) member_not_close
      Hms true fields u u' r r' Hwf Hwf' Eu Eu' E) as [<- ->].
Qed.

(** Values with the same compact text are equal. *)
Lemma print_inj v v' t :
  value_wf v -> value_wf v' -> print v = Some t -> print v' = Some t -> v = v'.
Proof.
  intros Hwf Hwf' Ht Ht'.
  by destruct (print_self_delim v v' t t "" "" Hwf Hwf' Ht Ht' I I eq_refl).
Qed.

End Delim.
