(* ===== verification/JsonRfc.v ===== *)
(** * RFC 8259 string literals

    A concrete printer of string literals, the one serde_json documents
    (two-character escapes for the quotation mark, the backslash and five
    control characters, [\u00xx] for the other control characters, everything
    else verbatim), its inverse, and the proof that it satisfies [JsonTextLaws].
    It instantiates the [JsonText] parameter wherever a theorem is evaluated on
    a concrete input; the instances are visible to those who import the module
    [Rfc8259]. *)

From S2P Require Import Prelude Errors Utf8 Json.

Module Rfc8259.

Definition hex_char (z : Z) : ascii := if z <? 10 then zc (48 + z) else zc (87 + z).

Definition BACKSLASH : ascii := zc 92.

Definition esc_char (c : ascii) : string :=
  let z := cz c in
  if z =? 34 then String BACKSLASH (String QUOTE "")
  else if z =? 92 then String BACKSLASH (String BACKSLASH "")
  else if z =? 8 then String BACKSLASH "b"
  else if z =? 9 then String BACKSLASH "t"
  else if z =? 10 then String BACKSLASH "n"
  else if z =? 12 then String BACKSLASH "f"
  else if z =? 13 then String BACKSLASH "r"
  else if z <? 32 then
    String BACKSLASH ("u00" +:+ String (hex_char (z / 16)) (String (hex_char (z mod 16)) ""))
  else String c "".

Fixpoint esc_str (s : string) : string :=
  match s with
  | EmptyString => ""
  | String c s' => esc_char c +:+ esc_str s'
  end.

Definition quote (s : string) : string := String QUOTE (esc_str s +:+ String QUOTE "").

#[export] Instance rfc_text : JsonText := {| json_string s := Some (quote s) |}.

Example quote_control : quote (String (zc 10) (String (zc 1) "a")) =
  String QUOTE (String BACKSLASH ("n" +:+ String BACKSLASH ("u0001a" +:+ String QUOTE ""))).
Proof. reflexivity. Qed.

(** ** The inverse *)

Definition hex_val (c : ascii) : option Z :=
  let z := cz c in
  if (48 <=? z) && (z <=? 57) then Some (z - 48)
  else if (97 <=? z) && (z <=? 102) then Some (z - 87)
  else None.

(** One character of a literal: [None] at the closing quotation mark, at the end
    of the text, and on an escape the printer does not write. *)
Definition unesc_char (s : string) : option (ascii * string) :=
  match s with
  | EmptyString => None
  | String c s1 =>
      if cz c =? 34 then None
      else if cz c =? 92 then
        match s1 with
        | EmptyString => None
        | String d s2 =>
            if cz d =? 34 then Some (QUOTE, s2)
            else if cz d =? 92 then Some (BACKSLASH, s2)
            else if cz d =? 98 then Some (zc 8, s2)
            else if cz d =? 116 then Some (zc 9, s2)
            else if cz d =? 110 then Some (zc 10, s2)
            else if cz d =? 102 then Some (zc 12, s2)
            else if cz d =? 114 then Some (zc 13, s2)
            else if cz d =? 117 then
              match s2 with
              | String _ (String _ (String h (String l s3))) =>
                  match hex_val h, hex_val l with
                  | Some a, Some b => Some (zc (a * 16 + b), s3)
                  | _, _ => None
                  end
              | _ => None
              end
            else None
        end
      else Some (c, s1)
  end.

Lemma unesc_esc c s : unesc_char (esc_char c +:+ s) = Some (c, s).
Proof. destruct c as [[] [] [] [] [] [] [] []]; reflexivity. Qed.

Lemma esc_str_delim s s' r r' :
  esc_str s +:+ String QUOTE r = esc_str s' +:+ String QUOTE r' -> s = s' /\ r = r'.
Proof.
  revert s'. induction s as [|c s IH]; intros [|c' s']; simpl esc_str; intros E.
  - by injection E.
  - apply (f_equal unesc_char) in E. rewrite str_app_assoc, unesc_esc in E. discriminate E.
  - apply (f_equal unesc_char) in E. rewrite str_app_assoc, unesc_esc in E. discriminate E.
  - apply (f_equal unesc_char) in E. rewrite !str_app_assoc, !unesc_esc in E.
    injection E as <- E. by destruct (IH s' E) as [<- <-].
Qed.

Lemma esc_char_len c : slen (esc_char c) <= 6.
Proof. destruct c as [[] [] [] [] [] [] [] []]; vm_compute; discriminate. Qed.

Lemma esc_str_len s : slen (esc_str s) <= 6 * slen s.
Proof.
  induction s as [|c s IH]; [done|]. simpl esc_str.
  rewrite slen_app, slen_cons. pose proof (esc_char_len c). lia.
Qed.

Lemma esc_str_app s t : esc_str (s +:+ t) = esc_str s +:+ esc_str t.
Proof. induction s as [|c s IH]; simpl; [done|]. by rewrite IH, str_app_assoc. Qed.

Lemma esc_char_ascii c : is_ascii c = true -> str_forallb is_ascii (esc_char c) = true.
Proof. destruct c as [[] [] [] [] [] [] [] []]; done. Qed.

Lemma esc_str_high s : str_forallb (fun c => negb (is_ascii c)) s = true -> esc_str s = s.
Proof.
  induction s as [|c s IH]; cbn [str_forallb]; [done|]. intros [Hc Hs]%andb_prop.
  simpl esc_str. rewrite IH by done.
  assert (esc_char c = String c "") as ->; [|done].
  revert Hc. destruct c as [[] [] [] [] [] [] [] []]; vm_compute; done.
Qed.

Lemma esc_str_utf8 s : utf8_ok s -> utf8_ok (esc_str s).
Proof.
  induction s as [s IH] using (induction_ltof1 _ String.length); unfold ltof in IH.
  intros [->|(u & t & -> & Hu & Ht & Hne & Hcase)]%utf8_ok_inv; [by eexists|].
  rewrite esc_str_app. apply utf8_ok_app.
  - destruct Hcase as [Hh|(c & -> & Hc)]; [by rewrite esc_str_high|].
    simpl. rewrite str_app_nil_r. by apply utf8_ok_ascii, esc_char_ascii.
  - apply IH; [|done]. rewrite str_length_app. destruct u; [done|]. simpl. lia.
Qed.

#[export] Instance rfc_text_laws : JsonTextLaws.
Proof.
  constructor; cbn [json_string rfc_text].
  - eauto.
  - intros s t [= <-]. unfold quote. eauto.
  - intros s s' t t' r r' [= <-] [= <-] E. unfold quote in E. simpl in E.
    injection E as E. rewrite !str_app_assoc in E. by apply esc_str_delim in E.
  - intros s t [= <-]. unfold quote. rewrite slen_cons, slen_app, slen_cons, slen_nil.
    pose proof (esc_str_len s). lia.
  - intros s t Hs [= <-]. change (utf8_ok (String QUOTE "" +:+ (esc_str s +:+ String QUOTE ""))).
    repeat apply utf8_ok_app; try (by apply utf8_ok_ascii). by apply esc_str_utf8.
Qed.

End Rfc8259.
