(* ===== verification/Jcs.v ===== *)
(** * JSON canonicalization (src/src/crypto/jcs.rs)

    The canonical text the relay signs and verifies, against its specification:
    the compact text of the value with the keys of every object sorted.  The
    canonical text does not depend on the order in which the fields were given
    and determines the value up to that order. *)

From S2P Require Import Prelude Errors Json JsonRfc.
From stdpp Require Import sorting.
#[local] Open Scope Z_scope.

(** ** The code *)

(** The byte order of Rust's [String], on the keys of entries. *)
Definition key_le {A} (a b : string * A) : Prop := String.le (fst a) (fst b).

#[export] Instance key_le_dec {A} (a b : string * A) : Decision (key_le a b).
Proof. unfold key_le. apply _. Defined.

(** [let mut keys = map.keys().collect(); keys.sort();] with the value of each
    key alongside. *)
Definition sort_keys {A} (m : list (string * A)) : list (string * A) := merge_sort key_le m.

Definition write_number (out : string) (n : Number) : result string :=
  match as_i64 n with
  | Some i => Ok (out +:+ z_to_string i)
  | None =>
      match as_u64 n with
      | Some u => Ok (out +:+ z_to_string u)
      | None => problem InvalidRequest
      end
  end.

(** [serde_json::to_string(s)] with its error mapped. *)
Definition write_str `{JsonText} (out s : string) : result string :=
  match json_string s with
  | Some t => Ok (out +:+ t)
  | None => problem InvalidRequest
  end.

(** The loop over the sorted keys: key, colon, value. *)
Fixpoint write_members `{JsonText} (first : bool) (out : string)
    (l : list (string * (string -> result string))) : result string :=
  match l with
  | [] => Ok out
  | (key, write) :: l' =>
      let out := if first then out else out +:+ "," in
      let? out := write_str out key in
      let? out := write (out +:+ ":") in
      write_members false out l'
  end.

Fixpoint write_value `{JsonText} (out : string) (value : Value) {struct value} : result string :=
  match value with
  | VNull => Ok (out +:+ "null")
  | VBool true => Ok (out +:+ "true")
  | VBool false => Ok (out +:+ "false")
  | VNumber n => write_number out n
  | VString s => write_str out s
  | VArray items =>
      let? out :=
        (fix go (first : bool) (out : string) (l : list Value) : result string :=
           match l with
           | [] => Ok out
           | item :: l' =>
               let? out := write_value (if first then out else out +:+ ",") item in
               go false out l'
           end) true (out +:+ "[") items in
      Ok (out +:+ "]")
  | VObject map =>
      let keys := sort_keys (List.map (fun kv => (fst kv, fun out => write_value out (snd kv))) map) in
      let? out := write_members true (out +:+ "{") keys in
      Ok (out +:+ "}")
  end.

Definition canonicalize `{JsonText} (value : Value) : result string := write_value "" value.

(** The loop of [canonicalize_object]: a key given twice is refused. *)
Fixpoint insert_fields (fields map : list (string * Value)) : result (list (string * Value)) :=
  match fields with
  | [] => Ok map
  | (key, value) :: fields' =>
      match obj_insert key value map with
      | (Some _, _) => problem InvalidRequest
      | (None, map') => insert_fields fields' map'
      end
  end.

Definition canonicalize_object `{JsonText} (fields : list (string * Value)) : result string :=
  let? map := insert_fields fields [] in
  canonicalize (VObject map).

(** ** The specification *)

(** The value with the entries of every object sorted by key. *)
Fixpoint norm (v : Value) : Value :=
  match v with
  | VArray l => VArray (List.map norm l)
  | VObject m => VObject (sort_keys (List.map (fun kv => (fst kv, norm (snd kv))) m))
  | _ => v
  end.

(** Objects have distinct keys, as serde_json's [Map] guarantees. *)
Fixpoint keys_ok (v : Value) : Prop :=
  match v with
  | VArray l => (fix go l := match l with [] => True | x :: l' => keys_ok x /\ go l' end) l
  | VObject m =>
      NoDup (List.map fst m) /\
      (fix go m := match m with [] => True | (_, x) :: m' => keys_ok x /\ go m' end) m
  | _ => True
  end.

(** ** Sorting *)

#[export] Instance key_le_trans {A} : Transitive (@key_le A).
Proof. intros x y z. unfold key_le. apply transitivity. Qed.
#[export] Instance key_le_total {A} : Total (@key_le A).
Proof. intros x y. unfold key_le. apply total. apply _. Qed.

Lemma sort_keys_perm {A} (m : list (string * A)) : sort_keys m ≡ₚ m.
Proof. apply merge_sort_Permutation. Qed.

Lemma sort_keys_sorted {A} (m : list (string * A)) : StronglySorted key_le (sort_keys m).
Proof. apply StronglySorted_merge_sort; apply _. Qed.

Lemma entry_key {A} (m : list (string * A)) k x : (k, x) ∈ m -> k ∈ List.map fst m.
Proof.
  rewrite !list_elem_of_In. intros Hx. apply in_map_iff. by exists (k, x).
Qed.

Lemma nodup_keys_eq {A} (m : list (string * A)) k x y :
  NoDup (List.map fst m) -> (k, x) ∈ m -> (k, y) ∈ m -> x = y.
Proof.
  induction m as [|[k' z] m IH]; simpl; intros Hnd Hx Hy; [by apply not_elem_of_nil in Hx|].
  apply NoDup_cons in Hnd as [Hk Hnd]. rewrite elem_of_cons in Hx, Hy.
  destruct Hx as [[= <- <-]|Hx], Hy as [[= <-]|Hy]; auto.
  - exfalso. apply Hk. by eapply entry_key.
  - exfalso. subst. apply Hk. by eapply entry_key.
Qed.

(** A map has one sorted list of entries. *)
Lemma sort_keys_unique {A} (l m : list (string * A)) :
  NoDup (List.map fst m) -> StronglySorted key_le l -> l ≡ₚ m -> sort_keys m = l.
Proof.
  intros Hnd Hs Hp. eapply StronglySorted_unique_strong; [|apply sort_keys_sorted|done|].
  - intros [k x] [k' y] Hx Hy H1 H2. unfold key_le in *; simpl in *.
    assert (k = k') as <- by (apply (anti_symm String.le); done).
    rewrite sort_keys_perm in Hx. rewrite Hp in Hy. f_equal. by eapply nodup_keys_eq.
  - by rewrite sort_keys_perm, Hp.
Qed.

Lemma sort_keys_Perm_eq {A} (m m' : list (string * A)) :
  NoDup (List.map fst m) -> m ≡ₚ m' -> sort_keys m = sort_keys m'.
Proof.
  intros Hnd Hp. apply sort_keys_unique; [done|apply sort_keys_sorted|].
  by rewrite sort_keys_perm, Hp.
Qed.

(** Sorting commutes with a map over the values. *)
Definition on_snd {A B} (f : A -> B) (kv : string * A) : string * B := (fst kv, f (snd kv)).

Lemma on_snd_keys {A B} (f : A -> B) m : List.map fst (List.map (on_snd f) m) = List.map fst m.
Proof. by rewrite map_map. Qed.

Lemma sort_keys_map {A B} (f : A -> B) m :
  NoDup (List.map fst m) -> sort_keys (List.map (on_snd f) m) = List.map (on_snd f) (sort_keys m).
Proof.
  intros Hnd. apply sort_keys_unique.
  - by rewrite on_snd_keys.
  - pose proof (sort_keys_sorted m) as Hs. induction Hs as [|x l Hs IH Hx]; simpl; constructor;
      [done|]. rewrite Forall_map. eapply Forall_impl; [exact Hx|]. by intros y.
  - apply Permutation_map, sort_keys_perm.
Qed.

(** ** The writer prints the sorted value *)

Lemma keys_ok_array l : keys_ok (VArray l) <-> Forall keys_ok l.
Proof.
  cbn. induction l as [|x l IH]; [split; [constructor|done]|].
  rewrite Forall_cons. by rewrite IH.
Qed.

Lemma keys_ok_object m :
  keys_ok (VObject m) <-> NoDup (List.map fst m) /\ Forall (fun kv => keys_ok (snd kv)) m.
Proof.
  cbn. apply and_iff_compat_l. induction m as [|[k x] m IH]; [split; [constructor|done]|].
  rewrite Forall_cons. by rewrite IH.
Qed.

Section Writer.
Context `{JsonText}.

(** Appending an optional text, as the writer does. *)
Definition append_ok (out : string) (t : option string) : result string :=
  match t with
  | Some s => Ok (out +:+ s)
  | None => problem InvalidRequest
  end.

Lemma write_number_print out n :
  number_wf n -> write_number out n = append_ok out (print_number n).
Proof.
  unfold write_number. destruct n as [u|i|b]; simpl; intros Hwf; [|done..].
  by destruct (u <=? i64_max).
Qed.

Lemma append_app out s (t : option string) :
  append_ok (out +:+ s) t = append_ok out (match t with Some u => Some (s +:+ u) | None => None end).
Proof. destruct t; simpl; [|done]. by rewrite str_app_assoc. Qed.

Definition writes (v : Value) (w : Value) : Prop :=
  forall out, write_value out v = append_ok out (print w).

Lemma write_items_print l out first :
  Forall (fun v => writes v (norm v)) l ->
  (let? out := (fix go (first : bool) (out : string) (l : list Value) : result string :=
           match l with
           | [] => Ok out
           | item :: l' =>
               let? out := write_value (if first then out else out +:+ ",") item in
               go false out l'
           end) first out l in Ok (out +:+ "]")) =
  append_ok out (print_seq "]" print first (List.map norm l)).
Proof.
  intros Hl. revert first out. induction Hl as [|x l Hx _ IH]; intros first out; [done|].
  simpl List.map. cbn [print_seq]. rewrite Hx.
  destruct (print (norm x)) as [s|]; simpl; [|done].
  rewrite IH. destruct (print_seq "]" print false (List.map norm l)); simpl; [|done].
  destruct first; simpl; by rewrite !str_app_assoc.
Qed.

Lemma write_members_print (m : list (string * Value)) out first :
  Forall (fun kv => writes (snd kv) (norm (snd kv))) m ->
  (let? out := write_members first out
     (List.map (on_snd (fun v out => write_value out v)) m) in Ok (out +:+ "}")) =
  append_ok out (print_seq "}" print_member first (List.map (on_snd norm) m)).
Proof.
  intros Hm. revert first out. induction Hm as [|[k x] m Hx _ IH]; intros first out; [done|].
  simpl List.map. cbn [print_seq write_members on_snd fst snd]. unfold print_member at 1, write_str.
  simpl fst; simpl snd. destruct (json_string k) as [tk|]; simpl; [|done]. simpl in Hx. rewrite Hx.
  destruct (print (norm x)) as [s|]; simpl; [|done].
  rewrite IH. destruct (print_seq "}" print_member false _); simpl; [|done].
  destruct first; simpl; by rewrite !str_app_assoc.
Qed.

Lemma write_value_print v : value_wf v -> keys_ok v -> writes v (norm v).
Proof.
  induction v as [|b|n|s|l IH|m IH] using Value_ind'; intros Hwf Hk out.
  - done.
  - by destruct b.
  - by apply write_number_print.
  - simpl. unfold write_str. by destruct (json_string s).
  - apply value_wf_array in Hwf. apply keys_ok_array in Hk.
    assert (Hl : Forall (fun v => writes v (norm v)) l).
    { rewrite Forall_forall in *. auto. }
    cbn [write_value norm print]. rewrite write_items_print by done. apply append_app.
  - apply value_wf_object in Hwf. apply keys_ok_object in Hk as [Hnd Hk].
    assert (Hm : Forall (fun kv => writes (snd kv) (norm (snd kv))) (sort_keys m)).
    { rewrite sort_keys_perm. rewrite Forall_forall in *. auto. }
    cbn [write_value norm print].
    change (List.map (fun kv => (kv.1, fun out => write_value out kv.2)) m)
      with (List.map (on_snd (fun v out => write_value out v)) m).
    change (List.map (fun kv => (kv.1, norm kv.2)) m) with (List.map (on_snd norm) m).
    rewrite !sort_keys_map by done. rewrite write_members_print by done. apply append_app.
Qed.

Lemma canonicalize_print v t :
  value_wf v -> keys_ok v -> canonicalize v = Ok t <-> print (norm v) = Some t.
Proof.
  intros Hwf Hk. unfold canonicalize. rewrite write_value_print by done.
  destruct (print (norm v)); simpl; split; intros [= <-]; done.
Qed.

(** ** Flat objects *)

Lemma obj_insert_fresh k v m :
  k ∉ List.map fst m -> obj_insert k v m = (None, m ++ [(k, v)]).
Proof.
  induction m as [|[k' x] m IH]; simpl; [done|]. rewrite not_elem_of_cons. intros [Hne Hin].
  destruct (String.eqb_spec k k'); [done|]. by rewrite IH.
Qed.

Lemma obj_insert_taken k v m :
  k ∈ List.map fst m -> exists x m', obj_insert k v m = (Some x, m').
Proof.
  induction m as [|[k' x] m IH]; simpl; [by intros ?%not_elem_of_nil|].
  destruct (String.eqb_spec k k') as [->|Hne]; [eauto|].
  rewrite elem_of_cons. intros [?|Hin]; [done|].
  destruct (IH Hin) as (y & m' & ->). eauto.
Qed.

Lemma insert_fields_ok fields m :
  NoDup (List.map fst (m ++ fields)) -> insert_fields fields m = Ok (m ++ fields).
Proof.
  revert m. induction fields as [|[k v] fields IH]; intros m; simpl; [by rewrite app_nil_r|].
  intros Hnd. rewrite obj_insert_fresh.
  - rewrite IH; by rewrite <- app_assoc.
  - rewrite map_app in Hnd. simpl in Hnd. apply NoDup_app in Hnd as (_ & Hd & _).
    intros Hin. apply (Hd k Hin). by left.
Qed.

Lemma insert_fields_dup fields m :
  NoDup (List.map fst m) -> ~ NoDup (List.map fst (m ++ fields)) ->
  insert_fields fields m = problem InvalidRequest.
Proof.
  revert m. induction fields as [|[k v] fields IH]; intros m Hm Hnd; simpl.
  { by rewrite app_nil_r in Hnd. }
  destruct (decide (k ∈ List.map fst m)) as [Hin|Hin].
  - by destruct (obj_insert_taken k v m Hin) as (x & m' & ->).
  - rewrite obj_insert_fresh by done. apply IH.
    + rewrite map_app. apply NoDup_app. split; [done|]. simpl. split.
      * intros y Hy ->%list_elem_of_singleton. done.
      * apply NoDup_singleton.
    + by rewrite <- app_assoc.
Qed.

(** Two maps without repeated keys. *)
Definition fields_ok (fields : list (string * Value)) : Prop :=
  NoDup (List.map fst fields) /\
  Forall (fun kv => value_wf (snd kv) /\ keys_ok (snd kv)) fields.

Lemma fields_ok_object fields :
  fields_ok fields <-> value_wf (VObject fields) /\ keys_ok (VObject fields).
Proof.
  unfold fields_ok. rewrite value_wf_object, keys_ok_object, Forall_and. tauto.
Qed.

Lemma canonicalize_object_print fields t :
  fields_ok fields ->
  canonicalize_object fields = Ok t <-> print (norm (VObject fields)) = Some t.
Proof.
  intros Hf. pose proof (proj1 (fields_ok_object fields) Hf) as [Hwf Hk].
  unfold canonicalize_object. destruct Hf as [Hnd _].
  rewrite insert_fields_ok by done. simpl. by apply canonicalize_print.
Qed.

End Writer.

(** ** The canonical text determines the value *)

Lemma norm_wf v : value_wf v -> value_wf (norm v).
Proof.
  induction v as [|b|n|s|l IH|m IH] using Value_ind'; intros Hwf; try done.
  - apply value_wf_array in Hwf. apply value_wf_array, Forall_map.
    rewrite Forall_forall in *. intros x Hx. apply IH; auto.
  - apply value_wf_object in Hwf. apply value_wf_object. rewrite sort_keys_perm.
    apply Forall_map. rewrite Forall_forall in *. intros x Hx. apply IH; auto.
Qed.

(** Values that are equal up to the order of object entries. *)
Definition json_equiv (v w : Value) : Prop := norm v = norm w.

#[export] Instance json_equiv_equivalence : Equivalence json_equiv.
Proof.
  split; unfold json_equiv; [done| |]; intros x y; [congruence|]. intros z. congruence.
Qed.

#[export] Instance VObject_proper :
  Proper ((fun m m' => NoDup (List.map fst m) /\ m ≡ₚ m') ==> json_equiv) VObject.
Proof.
  intros m m' [Hnd Hp]. unfold json_equiv. cbn [norm]. f_equal.
  apply sort_keys_Perm_eq; [by rewrite (on_snd_keys norm)|]. by apply Permutation_map.
Qed.

Section Binding.
Context `{JsonTextLaws}.

Lemma canonicalize_binds v w t :
  value_wf v -> keys_ok v -> value_wf w -> keys_ok w ->
  canonicalize v = Ok t -> canonicalize w = Ok t -> json_equiv v w.
Proof.
  intros Hv Kv Hw Kw Hvt Hwt. apply canonicalize_print in Hvt, Hwt; try done.
  eapply print_inj; eauto using norm_wf.
Qed.

(** Scalars are their own normal form. *)
Definition scalar (v : Value) : Prop :=
  match v with VArray _ | VObject _ => False | _ => True end.

Definition flat (fields : list (string * Value)) : Prop :=
  NoDup (List.map fst fields) /\
  Forall (fun kv => value_wf (snd kv) /\ scalar (snd kv)) fields.

Lemma flat_ok fields : flat fields -> fields_ok fields.
Proof.
  intros [Hnd Hf]. split; [done|]. eapply Forall_impl; [exact Hf|].
  intros [k v] [Hwf Hs]. split; [done|]. by destruct v.
Qed.

Lemma flat_norm fields : flat fields -> List.map (on_snd norm) fields = fields.
Proof.
  intros [_ Hf]. induction Hf as [|[k v] fields [_ Hs] _ IH]; simpl; [done|].
  rewrite IH. f_equal. unfold on_snd. simpl. f_equal. by destruct v.
Qed.

(** The text of a flat object determines its fields. *)
Lemma canonicalize_object_binds f g t :
  flat f -> flat g -> canonicalize_object f = Ok t -> canonicalize_object g = Ok t -> f ≡ₚ g.
Proof.
  intros Hf Hg Hft Hgt. apply canonicalize_object_print in Hft, Hgt; try by apply flat_ok.
  assert (Hn : norm (VObject f) = norm (VObject g)).
  { eapply print_inj; [apply norm_wf|apply norm_wf|exact Hft|exact Hgt];
      apply fields_ok_object; by apply flat_ok. }
  cbn [norm] in Hn. injection Hn as Hn.
  change (sort_keys (List.map (on_snd norm) f) = sort_keys (List.map (on_snd norm) g)) in Hn.
  rewrite !flat_norm in Hn by done.
  by rewrite <- (sort_keys_perm f), Hn, sort_keys_perm.
Qed.

Lemma binds_field f g t k x y :
  flat f -> flat g -> canonicalize_object f = Ok t -> canonicalize_object g = Ok t ->
  (k, x) ∈ f -> (k, y) ∈ g -> x = y.
Proof.
  intros Hf Hg Hft Hgt Hx Hy. assert (Hp : f ≡ₚ g) by by eapply canonicalize_object_binds.
  rewrite Hp in Hx. destruct Hg as [Hnd _]. by eapply nodup_keys_eq.
Qed.

(** Objects with different keys have different texts. *)
Lemma binds_keys f g t k :
  flat f -> flat g -> canonicalize_object f = Ok t -> canonicalize_object g = Ok t ->
  k ∈ List.map fst f -> k ∈ List.map fst g.
Proof.
  intros Hf Hg Hft Hgt. assert (Hp : f ≡ₚ g) by by eapply canonicalize_object_binds.
  by rewrite Hp.
Qed.

(** A flat object without floats has a canonical text. *)
Definition printable (v : Value) : Prop :=
  match v with VNumber (NFloat _) => False | _ => scalar v end.

Lemma print_scalar v : printable v -> exists t, print v = Some t.
Proof.
  destruct v as [|b|[]|s| |]; simpl; try done; eauto. intros _. apply json_string_total.
Qed.

Lemma print_members_total first (m : list (string * Value)) :
  Forall (fun kv => printable (snd kv)) m -> exists t, print_seq "}" print_member first m = Some t.
Proof.
  intros Hm. revert first. induction Hm as [|[k v] m Hv _ IH]; intros first; simpl; [eauto|].
  unfold print_member at 1; simpl. destruct (json_string_total k) as [tk ->].
  destruct (print_scalar v Hv) as [tv ->]. destruct (IH false) as [t ->]. eauto.
Qed.

Lemma canonicalize_object_total f :
  flat f -> Forall (fun kv => printable (snd kv)) f -> exists t, canonicalize_object f = Ok t.
Proof.
  intros Hf Hp.
  assert (Hs : Forall (fun kv => printable (snd kv)) (sort_keys f)) by (by rewrite sort_keys_perm).
  destruct (print_members_total true (sort_keys f) Hs) as [t Ht].
  exists ("{" +:+ t). apply canonicalize_object_print; [by apply flat_ok|].
  cbn [norm print].
  change (List.map (fun kv => (kv.1, norm kv.2)) f) with (List.map (on_snd norm) f).
  rewrite flat_norm by done. change (fun kv => _) with print_member. by rewrite Ht.
Qed.

End Binding.

(** ** Properties *)

(** C22: [canonicalize] writes the compact text of the value with the entries of
    every object sorted by key, at every depth, and fails with an invalid request
    exactly when that text does not exist (a float, or a string serde_json cannot
    print); in particular two values that are equal up to the order of object
    entries have the same canonical text. *)
Theorem canonicalize_correct `{JsonText} v w :
  value_wf v -> keys_ok v -> value_wf w -> keys_ok w ->
  canonicalize v =
    match print (norm v) with Some t => Ok t | None => problem InvalidRequest end /\
  (json_equiv v w -> canonicalize v = canonicalize w).
Proof.
  intros Hv Kv Hw Kw.
  assert (Hc : forall x, value_wf x -> keys_ok x -> canonicalize x =
    match print (norm x) with Some t => Ok t | None => problem InvalidRequest end).
  { intros x Hx Kx. unfold canonicalize. rewrite write_value_print by done.
    by destruct (print (norm x)). }
  split; [auto|]. intros E. by rewrite !Hc, E.
Qed.

(** A canonical text determines the value it was written from, up to the
    order of object entries: whoever signed the text signed exactly these
    fields.  For flat objects, the ones the protocol signs, the two field lists
    are permutations of each other, and an object with a repeated key has no
    canonical text. *)
Lemma canonicalize_injective `{JsonTextLaws} v w f g t :
  value_wf v -> keys_ok v -> value_wf w -> keys_ok w -> flat f -> flat g ->
  (canonicalize v = Ok t -> canonicalize w = Ok t -> json_equiv v w) /\
  (canonicalize_object f = Ok t -> canonicalize_object g = Ok t -> f ≡ₚ g) /\
  (forall k x y, canonicalize_object (f ++ [(k, x)] ++ [(k, y)]) = problem InvalidRequest).
Proof.
  intros Hv Kv Hw Kw Hf Hg. split; [intros; by eapply canonicalize_binds|].
  split; [by apply canonicalize_object_binds|]. intros k x y.
  unfold canonicalize_object. rewrite insert_fields_dup; [done|constructor|].
  simpl. rewrite map_app. intros (_ & _ & Hnd)%NoDup_app. simpl in Hnd.
  apply NoDup_cons in Hnd as [Hnd _]. apply Hnd. by left.
Qed.

(** ** Witnesses: the source's own vector, given in two orders *)

Import Rfc8259.

Definition vector_za : Value := VObject [("z", json_int 1); ("a", json_str "first")].
Definition vector_az : Value := VObject [("a", json_str "first"); ("z", json_int 1)].
Definition vector_text : string :=
  "{" +:+ quote "a" +:+ ":" +:+ quote "first" +:+ "," +:+ quote "z" +:+ ":1}".

Example canonicalize_vector : canonicalize vector_za = Ok vector_text.
Proof. reflexivity. Qed.

(** A flat object as the protocol signs it. *)
Definition vector_fields : list (string * Value) :=
  [("z", json_int 1); ("a", json_str "first")].

Ltac flat_tac := repeat split; [by_decide|]; repeat constructor; cbn; unfold i64_min; lia.

Lemma vector_ok v : v = vector_za \/ v = vector_az -> value_wf v /\ keys_ok v.
Proof. intros [->| ->]; split; cbn; repeat split; try lia; by_decide. Qed.

Lemma canonicalize_correct_witness :
  canonicalize vector_za = Ok vector_text /\ canonicalize vector_az = Ok vector_text.
Proof.
  destruct (vector_ok vector_za (or_introl eq_refl)) as [Hv Kv].
  destruct (vector_ok vector_az (or_intror eq_refl)) as [Hw Kw].
  destruct (canonicalize_correct vector_za vector_az Hv Kv Hw Kw) as [E1 E2].
  split; [rewrite E1; vm_compute; reflexivity|].
  rewrite <- E2; [rewrite E1|]; vm_compute; reflexivity.
Defined.

Lemma canonicalize_injective_witness :
  json_equiv vector_za vector_az /\ vector_fields ≡ₚ [("a", json_str "first"); ("z", json_int 1)].
Proof.
  destruct (vector_ok vector_za (or_introl eq_refl)) as [Hv Kv].
  destruct (vector_ok vector_az (or_intror eq_refl)) as [Hw Kw].
  assert (Hf : flat vector_fields) by flat_tac.
  assert (Hg : flat [("a", json_str "first"); ("z", json_int 1)]) by flat_tac.
  destruct (canonicalize_injective vector_za vector_az _ _ vector_text Hv Kv Hw Kw Hf Hg)
    as (H1 & H2 & _).
  split; [apply H1|apply H2]; vm_compute; reflexivity.
Defined.
