(* ===== verification/Strict.v ===== *)
(** * Strict JSON (src/src/json/strict.rs)

    The visitor that refuses duplicate keys, floats and integers above
    [i64::MAX], driven by serde_json's reader (the class [JsonReader]); and the
    readers that [#[derive(Deserialize)]] with [deny_unknown_fields] declares on
    the relay's flat structs. *)

From S2P Require Import Prelude Errors Utf8 Json Jcs.
From stdpp Require Import gmap.
#[local] Open Scope Z_scope.
#[local] Set Warnings "-clear-no-such-hyp".

(** What [deserialize_any] reports to a visitor, in the order of the text. *)
#[warnings="-register-all"]
Inductive Event :=
  | EvNone
  | EvUnit
  | EvBool (b : bool)
  | EvI64 (z : Z)
  | EvU64 (z : Z)
  | EvF64 (bits : Z)
  | EvStr (s : string)
  | EvSeq (items : list Event)
  | EvMap (entries : list (string * Event)).

(** [serde_json::Deserializer]: the events of the first value of a text with the
    text after it, and whether [end()] accepts that remainder. *)
Class JsonReader := {
  json_read : string -> option (Event * string);
  json_end : string -> bool
}.

(** ** The visitor *)

(** [StrictVisitor]; [None] is a custom error. *)
Fixpoint visit (e : Event) : option Value :=
  match e with
  | EvNone | EvUnit => Some VNull
  | EvBool v => Some (VBool v)
  | EvI64 v => Some (VNumber (num_of_i64 v))
  | EvU64 v => if i64_max <? v then None else Some (VNumber (num_of_i64 v))
  | EvF64 _ => None
  | EvStr v => Some (VString v)
  | EvSeq seq =>
      (fix next_element (l : list Event) (items : list Value) : option Value :=
         match l with
         | [] => Some (VArray items)
         | e :: l' =>
             match visit e with
             | Some item => next_element l' (items ++ [item])
             | None => None
             end
         end) seq []
  | EvMap map =>
      (fix next_key (l : list (string * Event)) (seen : gset string)
           (object : list (string * Value)) : option Value :=
         match l with
         | [] => Some (VObject object)
         | (key, e) :: l' =>
             if decide (key ∈ seen) then None
             else match visit e with
                  | Some value =>
                      next_key l' ({[key]} ∪ seen) (snd (obj_insert key value object))
                  | None => None
                  end
         end) map ∅ []
  end.

(** [strict::from_str]; [from_value] is [serde_json::from_value::<T>]. *)
Definition from_str `{JsonReader} {T} (from_value : Value -> option T) (text : string)
  : result T :=
  match json_read text with
  | None => problem InvalidRequest
  | Some (e, rest) =>
      match visit e with
      | None => problem InvalidRequest
      | Some value =>
          if json_end rest then ok_or (from_value value) InvalidRequest
          else problem InvalidRequest
      end
  end.

(** [strict::from_slice]. *)
Definition from_slice `{JsonReader} {T} (from_value : Value -> option T) (bytes : list byte)
  : result T :=
  let? text := ok_or (from_utf8 bytes) InvalidRequest in
  from_str from_value text.

(** ** Derived readers *)

(** [deny_unknown_fields]. *)
Definition known_fields (names : list string) (m : list (string * Value)) : bool :=
  forallb (fun kv => bool_decide (fst kv ∈ names)) m.

(** The fields of a struct from an object, or from an array in declaration
    order, as [Value]'s [deserialize_struct] accepts both. *)
Definition struct_fields (names : list string) (v : Value) : option (list (string * Value)) :=
  match v with
  | VObject m => if known_fields names m then Some m else None
  | VArray l => if (length l =? length names)%nat then Some (combine names l) else None
  | _ => None
  end.

(** A field of type [String], [i64], [i32], [bool] and [Option<String>]; only the
    last may be missing. *)
Definition field_str (k : string) (m : list (string * Value)) : option string :=
  match obj_get k m with Some (VString s) => Some s | _ => None end.
Definition field_i64 (k : string) (m : list (string * Value)) : option Z :=
  match obj_get k m with Some (VNumber n) => as_i64 n | _ => None end.
Definition field_i32 (k : string) (m : list (string * Value)) : option Z :=
  match field_i64 k m with Some z => if in_i32b z then Some z else None | None => None end.
Definition field_bool (k : string) (m : list (string * Value)) : option bool :=
  match obj_get k m with Some (VBool b) => Some b | _ => None end.
Definition field_opt_str (k : string) (m : list (string * Value)) : option (option string) :=
  match obj_get k m with
  | None | Some VNull => Some None
  | Some (VString s) => Some (Some s)
  | _ => None
  end.

(** ** What the visitor accepts *)

(** No float, no integer above [i64::MAX], and no repeated key, at any depth. *)
Fixpoint strict_ok (e : Event) : Prop :=
  match e with
  | EvNone | EvUnit | EvBool _ | EvI64 _ | EvStr _ => True
  | EvU64 v => v <= i64_max
  | EvF64 _ => False
  | EvSeq l => (fix go l := match l with [] => True | e :: l' => strict_ok e /\ go l' end) l
  | EvMap m =>
      NoDup (List.map fst m) /\
      (fix go m := match m with [] => True | (_, e) :: m' => strict_ok e /\ go m' end) m
  end.

(** The value of the text, read naively. *)
Fixpoint event_value (e : Event) : Value :=
  match e with
  | EvNone | EvUnit => VNull
  | EvBool v => VBool v
  | EvI64 v | EvU64 v => VNumber (num_of_i64 v)
  | EvF64 b => VNumber (NFloat b)
  | EvStr s => VString s
  | EvSeq l => VArray (List.map event_value l)
  | EvMap m => VObject (List.map (fun ke => (fst ke, event_value (snd ke))) m)
  end.

(** The integers the reader reports are of the visitor's types. *)
Fixpoint event_wf (e : Event) : Prop :=
  match e with
  | EvI64 z => in_i64 z
  | EvU64 z => 0 <= z < 2 ^ 64
  | EvSeq l => (fix go l := match l with [] => True | e :: l' => event_wf e /\ go l' end) l
  | EvMap m =>
      (fix go m := match m with [] => True | (_, e) :: m' => event_wf e /\ go m' end) m
  | _ => True
  end.

Lemma Event_ind' (P : Event -> Prop) :
  P EvNone -> P EvUnit -> (forall b, P (EvBool b)) -> (forall z, P (EvI64 z)) ->
  (forall z, P (EvU64 z)) -> (forall z, P (EvF64 z)) -> (forall s, P (EvStr s)) ->
  (forall l, Forall P l -> P (EvSeq l)) ->
  (forall m, Forall (fun ke => P (snd ke)) m -> P (EvMap m)) -> forall e, P e.
Proof.
  intros H0 H1 H2 H3 H4 H5 H6 Hs Hm. fix IH 1.
  intros [| |b|z|z|z|s|l|m]; [exact H0|exact H1|exact (H2 b)|exact (H3 z)|exact (H4 z)
    |exact (H5 z)|exact (H6 s)|..].
  - apply Hs. induction l as [|x l IHl]; constructor; [apply IH|apply IHl].
  - apply Hm. induction m as [|[k x] m IHm]; constructor; [apply IH|apply IHm].
Qed.

Lemma strict_ok_seq l : strict_ok (EvSeq l) <-> Forall strict_ok l.
Proof.
  cbn. induction l as [|x l IH]; [split; [constructor|done]|].
  rewrite Forall_cons. by rewrite IH.
Qed.

Lemma strict_ok_map m :
  strict_ok (EvMap m) <-> NoDup (List.map fst m) /\ Forall (fun ke => strict_ok (snd ke)) m.
Proof.
  cbn. apply and_iff_compat_l. induction m as [|[k x] m IH]; [split; [constructor|done]|].
  rewrite Forall_cons. by rewrite IH.
Qed.

Definition decides (e : Event) : Prop :=
  (strict_ok e -> visit e = Some (event_value e)) /\
  (forall v, visit e = Some v -> strict_ok e).

Lemma visit_seq_spec l items :
  Forall decides l ->
  let go := (fix next_element (l : list Event) (items : list Value) : option Value :=
         match l with
         | [] => Some (VArray items)
         | e :: l' =>
             match visit e with
             | Some item => next_element l' (items ++ [item])
             | None => None
             end
         end) in
  (Forall strict_ok l -> go l items = Some (VArray (items ++ List.map event_value l))) /\
  (forall v, go l items = Some v -> Forall strict_ok l).
Proof.
  intros Hl go. revert items. induction Hl as [|e l [He1 He2] Hl IH]; intros items; simpl.
  - split; [by rewrite app_nil_r|constructor].
  - split.
    + intros [Hs Hl']%Forall_cons. rewrite He1 by done.
      rewrite (proj1 (IH _)) by done. by rewrite <- app_assoc.
    + intros v. destruct (visit e) as [w|] eqn:E; [|done]. intros Hv.
      apply Forall_cons. split; [by eapply He2|]. by eapply IH.
Qed.

Lemma visit_map_spec m seen (object : list (string * Value)) :
  Forall (fun ke => decides (snd ke)) m ->
  (forall k, k ∈ seen <-> k ∈ List.map fst object) ->
  let go := (fix next_key (l : list (string * Event)) (seen : gset string)
           (object : list (string * Value)) : option Value :=
         match l with
         | [] => Some (VObject object)
         | (key, e) :: l' =>
             if decide (key ∈ seen) then None
             else match visit e with
                  | Some value =>
                      next_key l' ({[key]} ∪ seen) (snd (obj_insert key value object))
                  | None => None
                  end
         end) in
  let ok := Forall (fun ke => strict_ok (snd ke)) m /\ NoDup (List.map fst m) /\
            (forall k, k ∈ List.map fst m -> k ∉ seen) in
  (ok -> go m seen object =
     Some (VObject (object ++ List.map (fun ke => (fst ke, event_value (snd ke))) m))) /\
  (forall v, go m seen object = Some v -> ok).
Proof.
  intros Hm. revert seen object.
  induction Hm as [|[k e] m [He1 He2] Hm IH]; intros seen object Hseen; simpl.
  { split; [by rewrite app_nil_r|]. intros _ _. repeat split; try constructor.
    by intros k ?%not_elem_of_nil. }
  assert (Hstep : forall v, k ∉ seen -> forall k', k' ∈ {[k]} ∪ seen <->
    k' ∈ List.map fst (snd (obj_insert k v object))).
  { intros v Hk k'. rewrite obj_insert_fresh by (by rewrite <- Hseen). simpl.
    rewrite map_app, elem_of_app, <- Hseen. simpl. set_solver. }
  split.
  - intros (Hok & Hnd & Hfresh). apply Forall_cons in Hok as [Hs Hok].
    apply NoDup_cons in Hnd as [Hk Hnd].
    assert (Hkn : k ∉ seen) by (apply Hfresh; by left).
    destruct (decide (k ∈ seen)); [done|]. simpl in He1. rewrite He1 by done.
    rewrite (proj1 (IH _ _ (Hstep _ Hkn))).
    + rewrite obj_insert_fresh by (by rewrite <- Hseen). simpl. by rewrite <- app_assoc.
    + repeat split; try done. intros k' Hk'. apply not_elem_of_union. split.
      * intros ->%elem_of_singleton. done.
      * apply Hfresh. by right.
  - intros v. destruct (decide (k ∈ seen)) as [|Hkn]; [done|].
    destruct (visit e) as [w|] eqn:E; [|done].
    intros Hv. destruct (proj2 (IH _ _ (Hstep w Hkn)) v Hv) as (Hok & Hnd & Hfresh).
    repeat split.
    + apply Forall_cons. split; [by eapply He2|done].
    + apply NoDup_cons. split; [|done]. intros Hin. apply (Hfresh k Hin). set_solver.
    + intros k' [->|Hin]%elem_of_cons; [done|]. apply Hfresh in Hin. set_solver.
Qed.

Lemma visit_decides e : decides e.
Proof.
  induction e as [| |b|z|z|z|s|l IH|m IH] using Event_ind'; split; try done.
  - cbn. intros Hz. destruct (i64_max <? z) eqn:E; bool_hyp; [lia|done].
  - intros v. cbn. destruct (i64_max <? z) eqn:E; bool_hyp; [done|lia].
  - intros Hs%strict_ok_seq. cbn. by rewrite (proj1 (visit_seq_spec l [] IH)).
  - intros v Hv. apply strict_ok_seq. by eapply (visit_seq_spec l [] IH).
  - intros [Hnd Hs]%strict_ok_map. cbn.
    rewrite (proj1 (visit_map_spec m ∅ [] IH ltac:(set_solver))); [done|]. set_solver.
  - intros v Hv. apply strict_ok_map.
    destruct (proj2 (visit_map_spec m ∅ [] IH ltac:(set_solver)) v Hv) as (? & ? & _). done.
Qed.

Lemma visit_Some e v : visit e = Some v <-> strict_ok e /\ v = event_value e.
Proof.
  destruct (visit_decides e) as [H1 H2]. split.
  - intros Hv. assert (Hs : strict_ok e) by eauto. rewrite H1 in Hv by done. naive_solver.
  - intros [Hs ->]. auto.
Qed.

(** The accepted values are well formed, have distinct keys and no floats. *)
Lemma event_value_ok e :
  event_wf e -> strict_ok e -> value_wf (event_value e) /\ keys_ok (event_value e).
Proof.
  assert (Hnum : forall z, in_i64 z -> number_wf (num_of_i64 z)).
  { intros z. unfold in_i64, num_of_i64, i64_max. destruct (z <? 0) eqn:E; bool_hyp; simpl; lia. }
  induction e as [| |b|z|z|z|s|l IH|m IH] using Event_ind'; intros Hwf Hok; try done.
  - split; [by apply Hnum|done].
  - split; [|done]. apply Hnum. cbn in *. unfold in_i64, i64_min in *. lia.
  - apply strict_ok_seq in Hok. cbn [event_value].
    rewrite value_wf_array, keys_ok_array, !Forall_map.
    rewrite <- Forall_and. cbn in Hwf.
    induction IH as [|e l He _ IHl]; [constructor|]. destruct Hwf as [Hwe Hwf].
    apply Forall_cons in Hok as [Hoe Hok]. constructor; [by apply He|by apply IHl].
  - apply strict_ok_map in Hok as [Hnd Hok]. cbn [event_value].
    rewrite value_wf_object, keys_ok_object, !Forall_map, map_map.
    cbn [fst snd]. assert (Hb : Forall (fun ke => value_wf (event_value (snd ke)) /\
      keys_ok (event_value (snd ke))) m); [|apply Forall_and in Hb as [? ?]; done].
    clear Hnd. cbn in Hwf.
    induction IH as [|[k e] m He _ IHm]; [constructor|]. destruct Hwf as [Hwe Hwf].
    apply Forall_cons in Hok as [Hoe Hok]. constructor; [by apply He|by apply IHm].
Qed.

(** ** Reading back a printed object *)

(** The events of a value's own text. *)
Fixpoint event_of (v : Value) : Event :=
  match v with
  | VNull => EvUnit
  | VBool b => EvBool b
  | VNumber n =>
      match n with NPosInt u => EvU64 u | NNegInt i => EvI64 i | NFloat b => EvF64 b end
  | VString s => EvStr s
  | VArray l => EvSeq (List.map event_of l)
  | VObject m => EvMap (List.map (fun kv => (fst kv, event_of (snd kv))) m)
  end.

(** serde_json reads the text it wrote for an object of scalars, to its end, and
    reports integers of the visitor's types. *)
Class JsonReaderLaws `{JsonText} `{JsonReader} : Prop := {
  json_read_print : forall m t,
    flat m -> Forall (fun kv => printable (snd kv)) m -> print (VObject m) = Some t ->
    json_read t = Some (event_of (VObject m), "");
  json_end_nil : json_end "" = true;
  json_read_wf : forall t e r, json_read t = Some (e, r) -> event_wf e
}.

(** Scalars the visitor lets through unchanged: integers within [i64]. *)
Definition plain (v : Value) : Prop :=
  match v with
  | VNumber (NPosInt u) => 0 <= u <= i64_max
  | VNumber (NNegInt i) => i64_min <= i < 0
  | VNumber (NFloat _) | VArray _ | VObject _ => False
  | _ => True
  end.

Lemma plain_wf v : plain v -> value_wf v /\ scalar v /\ printable v.
Proof.
  destruct v as [| |[]| | |]; simpl; try done; unfold i64_max; intros; repeat split; lia.
Qed.

Lemma plain_event v : plain v -> strict_ok (event_of v) /\ event_value (event_of v) = v.
Proof.
  destruct v as [| |[u|i|]| | |]; simpl; try done; unfold num_of_i64; intros Hp.
  - split; [lia|]. destruct (u <? 0) eqn:E; bool_hyp; [lia|done].
  - split; [done|]. destruct (i <? 0) eqn:E; bool_hyp; [done|lia].
Qed.

Definition plain_fields (m : list (string * Value)) : Prop :=
  NoDup (List.map fst m) /\ Forall (fun kv => plain (snd kv)) m.

Lemma plain_flat m : plain_fields m -> flat m /\ Forall (fun kv => printable (snd kv)) m.
Proof.
  intros [Hnd Hp]. repeat split; try done; eapply Forall_impl; try exact Hp;
    intros kv Hk; by apply plain_wf in Hk as (? & ? & ?).
Qed.

Lemma plain_object_event m :
  plain_fields m -> visit (event_of (VObject m)) = Some (VObject m).
Proof.
  intros [Hnd Hp]. apply visit_Some. cbn [event_of]. split.
  - apply strict_ok_map. rewrite map_map. cbn [fst]. split; [done|]. apply Forall_map.
    eapply Forall_impl; [exact Hp|]. intros kv Hk. by apply plain_event in Hk as [? _].
  - cbn [event_value]. f_equal. rewrite map_map. cbn [fst snd]. symmetry.
    clear Hnd. induction Hp as [|[k v] m Hv _ IH]; [done|]. cbn.
    apply plain_event in Hv as [_ Hv]. cbn in Hv. by rewrite Hv, IH.
Qed.

(** The strict reader gives a printed flat object back to [from_value]. *)
Lemma from_slice_print `{JsonReaderLaws} {T} (from_value : Value -> option T) m t :
  plain_fields m -> print (VObject m) = Some t -> utf8_ok t ->
  from_slice from_value (as_bytes t) = ok_or (from_value (VObject m)) InvalidRequest.
Proof.
  intros Hm Ht Hu. unfold from_slice. rewrite from_utf8_as_bytes by done. simpl.
  unfold from_str. destruct (plain_flat m Hm) as [Hf Hp].
  by rewrite (json_read_print m t Hf Hp Ht), plain_object_event, json_end_nil.
Qed.

Lemma from_str_Ok `{JsonReader} {T} (from_value : Value -> option T) text x :
  from_str from_value text = Ok x <->
  exists e rest, json_read text = Some (e, rest) /\ strict_ok e /\ json_end rest = true /\
    from_value (event_value e) = Some x.
Proof.
  unfold from_str. split.
  - destruct (json_read text) as [[e rest]|] eqn:Er; [|done].
    destruct (visit e) as [v|] eqn:Ev; [|done]. apply visit_Some in Ev as [Hs ->].
    destruct (json_end rest) eqn:Ee; [|done]. intros Hx%ok_or_Ok. eauto 10.
  - intros (e & rest & -> & Hs & He & Hx).
    rewrite (proj2 (visit_Some e _) (conj Hs eq_refl)), He. by apply ok_or_Ok.
Qed.

Lemma from_str_err `{JsonReader} {T} (from_value : Value -> option T) text e :
  from_str from_value text = Err e -> e = Problem InvalidRequest.
Proof.
  unfold from_str. destruct (json_read text) as [[ev rest]|]; [|by intros [= <-]].
  destruct (visit ev); [|by intros [= <-]]. destruct (json_end rest); [|by intros [= <-]].
  destruct (from_value _); by intros [= <-].
Qed.

Lemma from_slice_Ok `{JsonReader} {T} (from_value : Value -> option T) b x :
  from_slice from_value b = Ok x <->
  exists s, b = as_bytes s /\ utf8_ok s /\ from_str from_value s = Ok x.
Proof.
  unfold from_slice. rewrite rbind_Ok. split.
  - intros (s & Hs%ok_or_Ok & Hx). apply from_utf8_Some in Hs as [<- Hs]. eauto.
  - intros (s & -> & Hs & Hx). exists s. rewrite from_utf8_as_bytes by done. done.
Qed.

(** ** Properties *)

(** C21: [from_slice] accepts a body exactly when it is UTF-8, its first JSON value
    has no float, no integer above [i64::MAX] and no repeated object key at any
    depth, nothing but white space follows it, and the target type reads the
    value; the value given to the type is the text's own, unnormalised. Every
    other body is answered with [INVALID_REQUEST]. *)
Theorem from_slice_correct `{JsonReader} {T} (from_value : Value -> option T) b :
  (forall x, from_slice from_value b = Ok x <->
     exists text e rest,
       b = as_bytes text /\ utf8_ok text /\ json_read text = Some (e, rest) /\
       strict_ok e /\ json_end rest = true /\ from_value (event_value e) = Some x) /\
  (forall e, from_slice from_value b = Err e -> e = Problem InvalidRequest).
Proof.
  split.
  - intros x. rewrite from_slice_Ok. setoid_rewrite from_str_Ok. naive_solver.
  - intros e. unfold from_slice. destruct (from_utf8 b); simpl; [apply from_str_err|].
    by intros [= <-].
Qed.
