(* ===== verification/StrictRfc.v ===== *)
(** * A concrete JSON reader

    A reader for objects of scalars that satisfies [JsonReaderLaws]; it
    instantiates the [JsonReader] parameter where a theorem is evaluated on a
    concrete input. *)

From S2P Require Import Prelude Errors Utf8 Json JsonRfc Jcs Strict.

Module RfcReader.
Import Rfc8259.

(** The characters of a string literal after its opening quotation mark. *)
Fixpoint read_lit (fuel : nat) (s : string) : option (string * string) :=
  match fuel, s with
  | S f, String c s1 =>
      if cz c =? 34 then Some ("", s1)
      else match unesc_char s with
           | Some (d, s2) =>
               match read_lit f s2 with
               | Some (u, r) => Some (String d u, r)
               | None => None
               end
           | None => None
           end
  | _, _ => None
  end.

Fixpoint take_num (s : string) : string * string :=
  match s with
  | String c s' =>
      if is_num_char c then let '(u, r) := take_num s' in (String c u, r) else ("", s)
  | EmptyString => ("", "")
  end.

Definition int_event (z : Z) : option Event :=
  if z <? 0 then (if i64_min <=? z then Some (EvI64 z) else None)
  else (if z <? 2 ^ 64 then Some (EvU64 z) else None).

Definition read_number_event (s : string) : option (Event * string) :=
  let '(u, r) := take_num s in
  match z_of_string u with
  | Some z => match int_event z with Some e => Some (e, r) | None => None end
  | None => None
  end.

Definition read_scalar (s : string) : option (Event * string) :=
  match s with
  | EmptyString => None
  | String c s1 =>
      if Ascii.eqb c QUOTE then
        match read_lit (S (String.length s1)) s1 with
        | Some (u, r) => Some (EvStr u, r)
        | None => None
        end
      else if Ascii.eqb c "n" then
        match strip_prefix "null" s with Some r => Some (EvUnit, r) | None => None end
      else if Ascii.eqb c "t" then
        match strip_prefix "true" s with Some r => Some (EvBool true, r) | None => None end
      else if Ascii.eqb c "f" then
        match strip_prefix "false" s with Some r => Some (EvBool false, r) | None => None end
      else read_number_event s
  end.

Fixpoint read_members (fuel : nat) (first : bool) (s : string)
  : option (list (string * Event) * string) :=
  match fuel with
  | O => None
  | S f =>
      match strip_prefix "}" s with
      | Some r => Some ([], r)
      | None =>
          match (if first then Some s else strip_prefix "," s) with
          | Some (String q s1) =>
              match read_lit (S (String.length s1)) s1 with
              | Some (k, s2) =>
                  match strip_prefix ":" s2 with
                  | Some s3 =>
                      match read_scalar s3 with
                      | Some (e, s4) =>
                          match read_members f false s4 with
                          | Some (m, r) => Some ((k, e) :: m, r)
                          | None => None
                          end
                      | None => None
                      end
                  | None => None
                  end
              | None => None
              end
          | _ => None
          end
      end
  end.

#[export] Instance rfc_reader : JsonReader := {|
  json_read s :=
    match strip_prefix "{" s with
    | Some r =>
        match read_members (String.length r) true r with
        | Some (m, rest) => Some (EvMap m, rest)
        | None => None
        end
    | None => None
    end;
  json_end s := String.eqb s ""
|}.

Lemma read_lit_esc s r fuel :
  (String.length s < fuel)%nat -> read_lit fuel (esc_str s +:+ String QUOTE r) = Some (s, r).
Proof.
  revert fuel. induction s as [|c s IH]; intros [|fuel] Hf; try (simpl in Hf; lia); [done|].
  simpl esc_str. rewrite str_app_assoc. pose proof (unesc_esc c (esc_str s +:+ String QUOTE r)) as Hu.
  destruct (esc_char c +:+ esc_str s +:+ String QUOTE r) as [|d w] eqn:E; [done|].
  cbn [read_lit]. rewrite Hu.
  destruct (cz d =? 34) eqn:Eq.
  - cbn [unesc_char] in Hu. by rewrite Eq in Hu.
  - rewrite IH by (simpl in Hf; lia). done.
Qed.

Lemma take_num_run s r :
  str_forallb is_num_char s = true ->
  match r with EmptyString => True | String c _ => is_num_char c = false end ->
  take_num (s +:+ r) = (s, r).
Proof.
  intros Hs Hr. induction s as [|c s IH]; simpl.
  - destruct r as [|c r]; [done|]. simpl. by rewrite Hr.
  - simpl in Hs. apply andb_prop in Hs as [-> Hs]. by rewrite IH.
Qed.

Lemma esc_str_long s : (String.length s <= String.length (esc_str s))%nat.
Proof.
  induction s as [|c s IH]; [done|]. simpl esc_str. rewrite str_length_app. simpl.
  assert (1 <= String.length (esc_char c))%nat; [|lia].
  destruct c as [[] [] [] [] [] [] [] []]; simpl; lia.
Qed.

Lemma read_quote s r :
  read_lit (S (String.length (esc_str s +:+ String QUOTE r))) (esc_str s +:+ String QUOTE r) =
  Some (s, r).
Proof.
  apply read_lit_esc. rewrite str_length_app. pose proof (esc_str_long s). simpl. lia.
Qed.

Ltac by_literal w r :=
  let E := fresh in
  pose proof (proj2 (strip_prefix_Some w _ r) eq_refl) as E;
  cbn [String.append] in E; rewrite E; reflexivity.

Lemma read_scalar_print v t r :
  printable v -> value_wf v -> print v = Some t -> delim r ->
  read_scalar (t +:+ r) = Some (event_of v, r).
Proof.
  assert (Hnum : forall z e, int_event z = Some e -> delim r ->
    read_scalar (z_to_string z +:+ r) = Some (e, r)).
  { intros z e He Hr. pose proof (z_to_string_chars z) as Hc.
    pose proof (z_to_string_nonempty z).
    assert (Hread : read_number_event (z_to_string z +:+ r) = Some (e, r)).
    { unfold read_number_event. rewrite take_num_run; [|done|].
      - by rewrite z_of_to_string, He.
      - destruct r; [done|by apply delim_not_num]. }
    destruct (z_to_string z) as [|c t']; [done|]. simpl in Hc |- *.
    apply andb_prop in Hc as [Hc _].
    destruct (Ascii.eqb_spec c QUOTE) as [->|]; [done|].
    destruct (Ascii.eqb_spec c "n") as [->|]; [done|].
    destruct (Ascii.eqb_spec c "t") as [->|]; [done|].
    destruct (Ascii.eqb_spec c "f") as [->|]; [done|]. done. }
  destruct v as [|b|n|s|l|m]; intros Hp Hwf Ht Hr; try done.
  - injection Ht as <-. cbn [read_scalar String.append Ascii.eqb Bool.eqb QUOTE].
    by_literal "null" r.
  - destruct b; injection Ht as <-; cbn [read_scalar String.append Ascii.eqb Bool.eqb QUOTE].
    + by_literal "true" r.
    + by_literal "false" r.
  - destruct n as [u|i|]; try done; injection Ht as <-; apply Hnum; try done;
      unfold int_event; simpl in Hwf.
    + destruct (u <? 0) eqn:E; bool_hyp; [lia|].
      destruct (u <? 2 ^ 64) eqn:E'; bool_hyp; [done|lia].
    + destruct (i <? 0) eqn:E; bool_hyp; [|lia].
      destruct (i64_min <=? i) eqn:E'; bool_hyp; [done|lia].
  - injection Ht as <-. unfold quote. cbn [read_scalar String.append].
    rewrite Ascii.eqb_refl, str_app_assoc. cbn [String.append].
    by rewrite read_quote.
Qed.

Lemma print_members_delim (m : list (string * Value)) w :
  print_seq "}" print_member false m = Some w -> delim w.
Proof.
  destruct m as [|kv m]; simpl.
  - by intros [= <-].
  - destruct (print_member kv); [|done]. destruct (print_seq _ _ false m); [|done].
    by intros [= <-].
Qed.

Lemma read_members_print m first t fuel :
  Forall (fun kv => printable (snd kv) /\ value_wf (snd kv)) m ->
  print_seq "}" print_member first m = Some t -> (String.length t <= fuel)%nat ->
  read_members fuel first t =
    Some (List.map (fun kv => (fst kv, event_of (snd kv))) m, "").
Proof.
  intros Hm. revert first t fuel. induction Hm as [|[k v] m [Hp Hwf] _ IH];
    intros first t fuel Ht Hf; simpl in Ht.
  - injection Ht as <-. destruct fuel; simpl in Hf; [lia|done].
  - unfold print_member in Ht at 1; simpl in Ht, Hp, Hwf.
    destruct (print v) as [tv|] eqn:Ev; [|done].
    destruct (print_seq _ _ false m) as [w|] eqn:Ew; [|done]. injection Ht as Ht.
    destruct fuel as [|fuel]; [exfalso; subst t; destruct first; simpl in Hf; lia|].
    set (u := String QUOTE (esc_str k +:+ String QUOTE (String ":" (tv +:+ w)))) in *.
    assert (Htext : t = if first then u else String "," u).
    { rewrite <- Ht. unfold u, quote. destruct first; simpl; rewrite ?str_app_assoc; simpl;
        by rewrite ?str_app_assoc. }
    clear Ht. subst t.
    assert (Hrec : read_members fuel false w = Some (List.map
        (fun kv => (fst kv, event_of (snd kv))) m, "")).
    { apply IH; [done|]. revert Hf. unfold u. destruct first; simpl; rewrite str_length_app; simpl;
        rewrite str_length_app; lia. }
    pose proof (print_members_delim m w Ew) as Hw.
    assert (Hstep : forall s, (if first then Some s else strip_prefix "," s) = Some u ->
      strip_prefix "}" s = None -> read_members (S fuel) first s = Some (List.map
        (fun kv => (fst kv, event_of (snd kv))) ((k, v) :: m), "")).
    { intros s Hs Hc. cbn [read_members]. rewrite Hc, Hs. unfold u. cbn [fst snd List.map].
      rewrite read_quote, (proj2 (strip_prefix_Some ":" (String ":" (tv +:+ w)) (tv +:+ w)) eq_refl).
      by rewrite (read_scalar_print v tv w Hp Hwf Ev Hw), Hrec. }
    apply Hstep; destruct first; try done.
Qed.

Lemma int_event_wf z e : int_event z = Some e -> event_wf e.
Proof.
  unfold int_event. repeat case_if; try done; intros [= <-]; bool_hyp;
    unfold event_wf, in_i64, i64_max; lia.
Qed.

Lemma read_scalar_wf s e r : read_scalar s = Some (e, r) -> event_wf e.
Proof.
  unfold read_scalar. destruct s as [|c s]; [done|]. repeat case_if.
  - destruct (read_lit _ _) as [[u r']|]; [|done]. by intros [= <- <-].
  - destruct (strip_prefix _ _); [|done]. by intros [= <- <-].
  - destruct (strip_prefix _ _); [|done]. by intros [= <- <-].
  - destruct (strip_prefix _ _); [|done]. by intros [= <- <-].
  - unfold read_number_event. destruct (take_num (String c s)) as [u r'].
    destruct (z_of_string u); [|done]. destruct (int_event z) eqn:E; [|done].
    intros [= <- <-]. by eapply int_event_wf.
Qed.

Lemma read_members_wf fuel first s m r :
  read_members fuel first s = Some (m, r) -> Forall (fun ke => event_wf (snd ke)) m.
Proof.
  revert first s m r. induction fuel as [|fuel IH]; intros first s m r; [done|].
  cbn [read_members]. destruct (strip_prefix "}" s); [by intros [= <- <-]|].
  destruct (if first then Some s else strip_prefix "," s) as [[|q s1]|]; try done.
  destruct (read_lit _ s1) as [[k s2]|]; [|done].
  destruct (strip_prefix ":" s2) as [s3|]; [|done].
  destruct (read_scalar s3) as [[e s4]|] eqn:Es; [|done].
  destruct (read_members fuel false s4) as [[m' r']|] eqn:Em; [|done].
  intros [= <- <-]. constructor; [by eapply read_scalar_wf|by eapply IH].
Qed.

#[export] Instance rfc_reader_laws : JsonReaderLaws.
Proof.
  constructor.
  - intros m t [_ Hf] Hp Ht. cbn [print] in Ht.
    change (fun kv => _) with print_member in Ht.
    destruct (print_seq "}" print_member true m) as [w|] eqn:Ew; [|done]. injection Ht as <-.
    cbn [json_read rfc_reader].
    rewrite (proj2 (strip_prefix_Some "{" (String "{" w) w) eq_refl).
    erewrite read_members_print; [done| |exact Ew|done].
    apply Forall_and. split; [done|]. eapply Forall_impl; [exact Hf|]. by intros kv [? _].
  - done.
  - intros t e r. cbn [json_read rfc_reader]. destruct (strip_prefix "{" t); [|done].
    destruct (read_members _ _ _) as [[m rest]|] eqn:E; [|done]. intros [= <- <-].
    apply read_members_wf in E. cbn. induction E as [|[k e] m He _ IH]; done.
Qed.

End RfcReader.
