(* ===== verification/Crypto.v ===== *)
(** * Cryptographic primitives

    The RustCrypto, dalek, [bs58] and [hex] operations the relay calls, as the
    parameters of the class [Crypto], and what their documentation promises as
    [CryptoLaws].  Security notions (unforgeability, collision resistance) are
    not laws: where a theorem depends on one it names the forgery or the
    collision as an alternative. *)

From S2P Require Import Prelude.

Class Crypto := {
  (** [<Hmac<Sha256> as Mac>::new_from_slice(key)], [update], [finalize]. *)
  hmac_sha256 : list byte -> list byte -> option (list byte);
  (** [Sha256::digest]. *)
  sha256 : list byte -> list byte;
  (** [Aes256Gcm::new_from_slice(key)] with [encrypt] and [decrypt]. *)
  aes_encrypt : list byte -> list byte -> list byte -> option (list byte);
  aes_decrypt : list byte -> list byte -> list byte -> option (list byte);
  (** ed25519_dalek: a [SigningKey] is its seed. *)
  EdKey : Type;
  EdSig : Type;
  ed_public : list byte -> list byte;
  ed_sign : list byte -> list byte -> list byte;
  ed_from_bytes : list byte -> option EdKey;
  ed_sig_from_slice : list byte -> option EdSig;
  ed_verify : EdKey -> list byte -> EdSig -> bool;
  (** p256: [from_sec1_bytes], [to_encoded_point(true)], ECDSA. *)
  P256Key : Type;
  P256Sig : Type;
  p256_from_sec1 : list byte -> option P256Key;
  p256_to_sec1 : P256Key -> list byte;
  p256_sig_from_slice : list byte -> option P256Sig;
  p256_verify_prehash : P256Key -> list byte -> P256Sig -> bool;
  (** [bs58] and [hex]. *)
  bs58_decode : string -> option (list byte);
  bs58_encode : list byte -> string;
  hex_decode : string -> option (list byte)
}.

Class CryptoLaws `{Crypto} : Prop := {
  (** HMAC takes a key of any length; SHA-256 digests have 32 bytes. *)
  hmac_some : forall k d, exists t, hmac_sha256 k d = Some t /\ blen t = 32;
  sha256_len : forall d, blen (sha256 d) = 32;
  (** AES-256-GCM: 96-bit nonces, a tag of 16 bytes, decryption inverts. *)
  aes_encrypt_some : forall k n p, blen k = 32 -> blen n = 12 -> blen p <= 65536 ->
    is_Some (aes_encrypt k n p);
  aes_encrypt_len : forall k n p c, aes_encrypt k n p = Some c -> blen c = blen p + 16;
  aes_decrypt_encrypt : forall k n p c,
    aes_encrypt k n p = Some c -> aes_decrypt k n c = Some p;
  (** Ed25519: keys of 32 bytes, signatures of 64, and the correctness of the
      scheme. *)
  ed_public_len : forall s, blen (ed_public s) = 32;
  ed_sign_len : forall s m, blen (ed_sign s m) = 64;
  ed_correct : forall s m, blen s = 32 -> exists k g,
    ed_from_bytes (ed_public s) = Some k /\ ed_sig_from_slice (ed_sign s m) = Some g /\
    ed_verify k m g = true;
  (** SEC1: a compressed point has 33 bytes and a sign byte. *)
  p256_sec1 : forall k, p256_from_sec1 (p256_to_sec1 k) = Some k;
  p256_sec1_len : forall k, exists b t, p256_to_sec1 k = b :: t /\ blen t = 32 /\
    (b = x02 \/ b = x03);
  bs58_decode_encode : forall b, bs58_decode (bs58_encode b) = Some b
}.

#[export] Hint Resolve sha256_len ed_public_len ed_sign_len : relay.
