(* ===== verification/CryptoToy.v ===== *)
(** * Concrete primitives

    Small executable functions that satisfy [CryptoLaws], to evaluate theorems
    and scenarios on concrete inputs.  They have the shapes of the real
    primitives (lengths, correctness of the schemes) and none of their security. *)

From S2P Require Import Prelude Crypto.

Module Toy.

(** 32 bytes of a polynomial checksum. *)
Definition checksum (l : list byte) : Z :=
  fold_left (fun h b => (h * 1000003 + bz b + 1) mod 2 ^ 256) l 7.

Fixpoint be_bytes (n : nat) (z : Z) (acc : list byte) : list byte :=
  match n with
  | O => acc
  | S n' => be_bytes n' (z / 256) (zb z :: acc)
  end.

Definition digest (l : list byte) : list byte := be_bytes 32 (checksum l) [].

Definition zeros (n : nat) : list byte := repeat x00 n.

(** Hexadecimal. *)
Definition hex_char (z : Z) : ascii := if z <? 10 then zc (48 + z) else zc (87 + z).
Definition hex_value (c : ascii) : option Z :=
  let z := cz c in
  if (48 <=? z) && (z <=? 57) then Some (z - 48)
  else if (97 <=? z) && (z <=? 102) then Some (z - 87)
  else if (65 <=? z) && (z <=? 70) then Some (z - 55)
  else None.

Fixpoint hex_of (l : list byte) : string :=
  match l with
  | [] => ""
  | b :: l' => String (hex_char (bz b / 16)) (String (hex_char (bz b mod 16)) (hex_of l'))
  end.

Fixpoint of_hex (s : string) : option (list byte) :=
  match s with
  | EmptyString => Some []
  | String c (String d s') =>
      match hex_value c, hex_value d, of_hex s' with
      | Some x, Some y, Some l => Some (zb (16 * x + y) :: l)
      | _, _, _ => None
      end
  | _ => None
  end.

#[export] Instance toy : Crypto := {|
  hmac_sha256 k d := Some (digest (k ++ xff :: d));
  sha256 d := digest d;
  aes_encrypt k n p := Some (p ++ zeros 16);
  aes_decrypt k n c := if (length c <? 16)%nat then None else Some (take (length c - 16) c);
  EdKey := list byte;
  EdSig := list byte;
  ed_public s := digest s;
  ed_sign s m := digest s ++ digest (digest s ++ m);
  ed_from_bytes b := Some b;
  ed_sig_from_slice b := Some b;
  ed_verify k m g := bool_decide (g = k ++ digest (k ++ m));
  P256Key := byte;
  P256Sig := list byte;
  p256_from_sec1 b :=
    match b with
    | _ :: k :: z => if bool_decide (z = zeros 31) then Some k else None
    | _ => None
    end;
  p256_to_sec1 k := x02 :: k :: zeros 31;
  p256_sig_from_slice b := Some b;
  p256_verify_prehash k d g := bool_decide (g = k :: zeros 31 ++ d);
  bs58_decode := of_hex;
  bs58_encode := hex_of;
  hex_decode := of_hex
|}.

(** The holder's side of a P-256 signature. *)
Definition p256_sign (k : byte) (m : list byte) : list byte := k :: zeros 31 ++ digest m.

Lemma be_bytes_len n z acc : length (be_bytes n z acc) = (n + length acc)%nat.
Proof. revert z acc. induction n as [|n IH]; intros z acc; cbn [be_bytes]; [done|]. rewrite IH. simpl. lia. Qed.

Lemma digest_len l : blen (digest l) = 32.
Proof. unfold blen, digest. by rewrite be_bytes_len. Qed.

Lemma of_hex_of l : of_hex (hex_of l) = Some l.
Proof.
  assert (Hd : forall z, 0 <= z < 16 -> hex_value (hex_char z) = Some z).
  { intros z Hz. unfold hex_value, hex_char. destruct (z <? 10) eqn:E; bool_hyp;
      rewrite !cz_zc by lia; repeat case_if; bool_hyp; try (f_equal; lia);
      exfalso; repeat match goal with H : _ && _ = false |- _ =>
        apply andb_false_iff in H as [?|?] end; bool_hyp; lia. }
  induction l as [|b l IH]; [done|]. simpl hex_of. cbn [of_hex].
  pose proof (bz_range b). rewrite !Hd, IH by (split; Z.div_mod_to_equations; lia).
  rewrite <- Z.div_mod by lia. by rewrite zb_bz.
Qed.

#[export] Instance toy_laws : CryptoLaws.
Proof.
  constructor; cbn [hmac_sha256 sha256 aes_encrypt aes_decrypt EdKey EdSig ed_public ed_sign
    ed_from_bytes ed_sig_from_slice ed_verify P256Key P256Sig p256_from_sec1 p256_to_sec1
    p256_sig_from_slice p256_verify_prehash bs58_decode bs58_encode toy].
  - intros. eexists. split; [done|apply digest_len].
  - apply digest_len.
  - done.
  - intros k n p c [= <-]. by rewrite blen_app.
  - intros k n p c [= <-]. rewrite length_app. simpl. destruct (Nat.ltb_spec (length p + 16) 16); [lia|].
    replace (length p + 16 - 16)%nat with (length p) by lia. by rewrite take_app_length.
  - apply digest_len.
  - intros. by rewrite blen_app, !digest_len.
  - intros s m _. eexists _, _. split; [done|]. split; [done|]. by apply bool_decide_eq_true.
  - done.
  - intros k. exists x02, (k :: zeros 31). auto.
  - apply of_hex_of.
Qed.

End Toy.
