(* ===== verification/Keys.v ===== *)
(** * Keys, signatures and hashes (src/src/crypto)

    [did_key.rs], [ed25519.rs], [p256_consent.rs], [at_rest.rs] and
    [subject.rs] over the primitives of [Crypto]. *)

From S2P Require Import Prelude Errors Constants Validation Base64url Utf8 Crypto CryptoToy.

Section Code.
Context `{Base64} `{Crypto}.

(** ** did_key.rs *)

Definition MULTICODEC_P256 : list byte := [x80; x24].

Definition decode_p256_did_key (key_id : string) : result P256Key :=
  let? encoded := ok_or (strip_prefix "did:key:z" key_id) InvalidSignature in
  let? decoded := ok_or (bs58_decode encoded) InvalidSignature in
  if negb (blen decoded =? 35)
     || negb (bool_decide (decoded !! 0%nat = MULTICODEC_P256 !! 0%nat))
     || negb (bool_decide (decoded !! 1%nat = MULTICODEC_P256 !! 1%nat))
  then problem InvalidSignature
  else if negb (bool_decide (decoded !! 2%nat = Some x02))
          && negb (bool_decide (decoded !! 2%nat = Some x03))
  then problem InvalidSignature
  else ok_or (p256_from_sec1 (drop 2 decoded)) InvalidSignature.

Definition encode_p256_did_key (public_key : P256Key) : string :=
  "did:key:z" +:+ bs58_encode (MULTICODEC_P256 ++ p256_to_sec1 public_key).

(** ** ed25519.rs *)

Definition parse_public_key (encoded : string) : result EdKey :=
  let? raw := decode encoded in
  let? key_bytes :=
    if blen raw =? 32 then Ok raw
    else if blen raw =? 44 then Ok (drop (length raw - 32) raw)
    else problem InvalidSignature in
  ok_or (ed_from_bytes key_bytes) InvalidSignature.

Definition normalize_secret (raw : list byte) : result (list byte) :=
  if blen raw =? 32 then Ok raw
  else
    let? text := ok_or (from_utf8 raw) InvalidRequest in
    let text := trim text in
    match (match hex_decode text with
           | Some bytes => if blen bytes =? 32 then Some bytes else None
           | None => None
           end) with
    | Some bytes => Ok bytes
    | None =>
        match decode text with
        | Ok bytes => if blen bytes =? 32 then Ok bytes else problem InvalidRequest
        | Err _ => problem InvalidRequest
        end
    end.

(** A [SigningKey] is its seed. *)
Definition parse_signing_key (raw : list byte) : result (list byte) :=
  let? seed := normalize_secret raw in Ok seed.

Definition public_key_raw (signing_key : list byte) : list byte := ed_public signing_key.

Definition sign (signing_key message : list byte) : string :=
  encode (ed_sign signing_key message).

Definition verify (public_key : string) (message : list byte) (signature : string) : result unit :=
  let? verifying := parse_public_key public_key in
  let? sig_bytes := decode signature in
  if negb (blen sig_bytes =? 64) then problem InvalidSignature
  else
    let? signature := ok_or (ed_sig_from_slice sig_bytes) InvalidSignature in
    if ed_verify verifying message signature then Ok tt else problem InvalidSignature.

(** ** p256_consent.rs *)

Definition looks_like_der (bytes : list byte) : bool :=
  bool_decide (head bytes = Some x30).

Definition verify_consent_signature (key_id : string) (canonical : list byte)
    (signature : string) : result unit :=
  let? public := decode_p256_did_key key_id in
  let? raw := decode signature in
  if negb (blen raw =? 64) then problem InvalidSignature
  else if looks_like_der raw then problem InvalidSignature
  else
    let? signature := ok_or (p256_sig_from_slice raw) InvalidSignature in
    if p256_verify_prehash public (sha256 canonical) signature then Ok tt
    else problem InvalidSignature.

(** ** at_rest.rs *)

Definition NONCE_LEN : Z := 12.

(** The same body as [ed25519::normalize_secret], word for word. *)
Definition normalize_32 (raw : list byte) : result (list byte) := normalize_secret raw.

(** [AtRestKey::from_bytes]: the key is its 32 bytes. *)
Definition at_rest_key (raw : list byte) : result (list byte) :=
  let? bytes := normalize_32 raw in Ok bytes.

(** [AtRestKey::encrypt] with the nonce [thread_rng] fills in. *)
Definition encrypt (key nonce_bytes plaintext : list byte) : result (list byte) :=
  let? ciphertext := ok_or (aes_encrypt key nonce_bytes plaintext) InternalError in
  Ok (nonce_bytes ++ ciphertext).

Definition decrypt (key blob : list byte) : result (list byte) :=
  if blen blob <=? NONCE_LEN then problem InternalError
  else ok_or (aes_decrypt key (take 12 blob) (drop 12 blob)) InternalError.

Definition keyed_hash (pepper data : list byte) : result (list byte) :=
  ok_or (hmac_sha256 pepper data) InternalError.

(** ** subject.rs *)

(** [(n as u32).to_be_bytes()]. *)
Definition be32 (n : Z) : list byte :=
  let n := n mod 2 ^ 32 in
  [zb (n / 2 ^ 24); zb (n / 2 ^ 16 mod 256); zb (n / 2 ^ 8 mod 256); zb (n mod 256)].

(** What [derive_pairwise_sub] feeds to the MAC. *)
Definition sub_input (domain matrix_user_id : string) : list byte :=
  SUBJECT_CONTEXT ++ be32 (slen domain) ++ as_bytes domain
    ++ be32 (slen matrix_user_id) ++ as_bytes matrix_user_id.

Definition derive_pairwise_sub (subject_secret : list byte) (domain matrix_user_id : string)
  : result string :=
  if blen subject_secret <? 32 then problem InternalError
  else
    let? mac := ok_or (hmac_sha256 subject_secret (sub_input domain matrix_user_id))
                  InternalError in
    let sub := encode mac in
    if negb (slen sub =? 43) then problem InternalError else Ok sub.
End Code.

(** ** Lemmas *)

Section Laws.
Context `{Base64Laws} `{CryptoLaws}.

(** *** Ed25519 *)

Lemma normalize_secret_len raw k : normalize_secret raw = Ok k -> blen k = 32.
Proof.
  unfold normalize_secret. case_if; [by intros [= <-]; bool_hyp|].
  intros Hn. inv_ok Hn.
  destruct (hex_decode _) as [b|]; [destruct (blen b =? 32) eqn:?; [intros; bool_hyp; congruence|]|];
    (destruct (decode _) as [b'|]; [|done]); case_if_in Hn; try done; bool_hyp; congruence.
Qed.

Lemma normalize_secret_raw raw : blen raw = 32 -> normalize_secret raw = Ok raw.
Proof. unfold normalize_secret. intros ->. done. Qed.

(** A raw key of 32 bytes and an SPKI of 44 bytes name the same key: the 12 bytes
    of the algorithm identifier are not examined. *)
Lemma parse_public_key_raw prefix key :
  blen key = 32 -> prefix = [] \/ blen prefix = 12 ->
  parse_public_key (encode (prefix ++ key)) = ok_or (ed_from_bytes key) InvalidSignature.
Proof.
  intros Hk Hp. unfold parse_public_key.
  rewrite (proj2 (decode_Ok _ (prefix ++ key)) eq_refl). cbn [rbind]. rewrite blen_app, Hk.
  destruct Hp as [-> | ->]; [done|].
  change (12 + 32 =? 32) with false. change (12 + 32 =? 44) with true. cbn [rbind].
  rewrite length_app. replace (length prefix + length key - 32)%nat with (length prefix).
  2: { unfold blen in Hk. lia. }
  by rewrite drop_app_length.
Qed.

Lemma sign_over seed m : over cls_id 86 86 (sign seed m).
Proof. eapply encode_over; [apply ed_sign_len|done]. Qed.

Lemma verify_sign seed m prefix :
  blen seed = 32 -> prefix = [] \/ blen prefix = 12 ->
  verify (encode (prefix ++ public_key_raw seed)) m (sign seed m) = Ok tt.
Proof.
  intros Hs Hp. unfold verify, public_key_raw, sign.
  rewrite parse_public_key_raw by auto with relay.
  destruct (ed_correct seed m Hs) as (k & g & -> & Hg & Hv). cbn [ok_or rbind].
  rewrite (proj2 (decode_Ok _ _) eq_refl). cbn [rbind].
  rewrite ed_sign_len. cbn [negb Z.eqb]. rewrite Hg. cbn. by rewrite Hv.
Qed.

(** What an accepted signature is. *)
Lemma verify_Ok public m signature :
  verify public m signature = Ok tt <->
  exists k b g, parse_public_key public = Ok k /\ encode b = signature /\ blen b = 64 /\
    ed_sig_from_slice b = Some g /\ ed_verify k m g = true.
Proof.
  unfold verify. rewrite rbind_Ok. setoid_rewrite rbind_Ok. setoid_rewrite decode_Ok. split.
  - intros (k & Hk & b & Hb & Hv). case_if_in Hv; [done|]. bool_hyp. inv_ok Hv.
    case_if_in Hv; [|done]. eauto 10.
  - intros (k & b & g & Hk & Hb & Hl & Hg & Hv). exists k. split; [done|]. exists b.
    split; [done|]. rewrite Hl, Hg. cbn. by rewrite Hv.
Qed.

Lemma parse_public_key_err s e :
  parse_public_key s = Err e -> e = Problem InvalidSignature \/ e = Problem InvalidRequest.
Proof.
  unfold parse_public_key. destruct (decode s) as [raw|e'] eqn:E; cbn [rbind].
  - repeat case_if; cbn [rbind]; try (intros [= <-]; by left);
      (destruct (ed_from_bytes _); [done|intros [= <-]; by left]).
  - intros [= <-]. apply decode_err in E as ->. by right.
Qed.

Lemma verify_err public m signature e :
  verify public m signature = Err e -> e = Problem InvalidSignature \/ e = Problem InvalidRequest.
Proof.
  unfold verify. destruct (parse_public_key public) as [k|e'] eqn:E; cbn [rbind].
  - destruct (decode signature) as [b|e'] eqn:Eb; cbn [rbind].
    + case_if; [intros [= <-]; by left|].
      destruct (ed_sig_from_slice b); cbn; [case_if; [done|]|]; intros [= <-]; by left.
    + intros [= <-]. apply decode_err in Eb as ->. by right.
  - intros [= <-]. by apply parse_public_key_err in E.
Qed.

(** *** did:key *)

Lemma decode_p256_did_key_Ok id k :
  decode_p256_did_key id = Ok k <->
  exists encoded point, id = "did:key:z" +:+ encoded /\
    bs58_decode encoded = Some (MULTICODEC_P256 ++ point) /\ blen point = 33 /\
    (head point = Some x02 \/ head point = Some x03) /\ p256_from_sec1 point = Some k.
Proof.
  unfold decode_p256_did_key. rewrite rbind_Ok. setoid_rewrite rbind_Ok.
  setoid_rewrite ok_or_Ok. setoid_rewrite strip_prefix_Some. split.
  - intros (enc & -> & dec & Hd & Hk). repeat case_if_in Hk; try done.
    repeat match goal with H : _ || _ = false |- _ => apply orb_false_elim in H as [? ?] end.
    bool_hyp. rewrite ?bool_decide_eq_true in *.
    destruct dec as [|b0 [|b1 point]]; try done. simplify_eq/=.
    apply ok_or_Ok in Hk. rewrite drop_0 in Hk. exists enc, point. split; [done|].
    split; [done|]. split; [unfold blen in *; simpl in *; lia|]. split; [|done].
    apply andb_false_iff in Heqb0 as [Hb|Hb]; bool_hyp; apply bool_decide_eq_true in Hb;
      destruct point; naive_solver.
  - intros (enc & point & -> & Hd & Hl & Hh & Hk). exists enc. split; [done|].
    exists (MULTICODEC_P256 ++ point). split; [done|]. rewrite blen_app, Hl.
    cbn. rewrite drop_0. destruct point as [|b point]; [by destruct Hh|].
    destruct Hh as [[= ->]|[= ->]]; cbn; by rewrite Hk.
Qed.

Lemma decode_encode_did_key k : decode_p256_did_key (encode_p256_did_key k) = Ok k.
Proof.
  apply decode_p256_did_key_Ok. eexists _, (p256_to_sec1 k). split; [reflexivity|].
  split; [by apply bs58_decode_encode|].
  destruct (p256_sec1_len k) as (b & t & E & Ht & Hb). rewrite p256_sec1, E. split.
  - unfold blen in *. simpl. lia.
  - split; [|done]. destruct Hb as [-> | ->]; auto.
Qed.

(** *** Consent signatures *)

Lemma verify_consent_Ok id m signature :
  verify_consent_signature id m signature = Ok tt <->
  exists k raw g, decode_p256_did_key id = Ok k /\ encode raw = signature /\ blen raw = 64 /\
    head raw <> Some x30 /\ p256_sig_from_slice raw = Some g /\
    p256_verify_prehash k (sha256 m) g = true.
Proof.
  unfold verify_consent_signature, looks_like_der.
  rewrite rbind_Ok. setoid_rewrite rbind_Ok. setoid_rewrite decode_Ok. split.
  - intros (k & Hk & b & Hb & Hv). repeat case_if_in Hv; try done. bool_hyp.
    apply bool_decide_eq_false in Heqb1. inv_ok Hv. case_if_in Hv; [|done]. eauto 12.
  - intros (k & b & g & Hk & Hb & Hl & Hh & Hg & Hv). exists k. split; [done|]. exists b.
    split; [done|]. rewrite Hl, bool_decide_eq_false_2, Hg by done. cbn. by rewrite Hv.
Qed.

(** *** At rest *)

Lemma decrypt_encrypt key nonce p blob :
  blen nonce = NONCE_LEN -> encrypt key nonce p = Ok blob -> decrypt key blob = Ok p.
Proof.
  unfold encrypt, decrypt, NONCE_LEN. intros Hn He. inv_ok He. injection He as <-.
  rename a into c. pose proof (aes_encrypt_len _ _ _ _ Hok) as Hl.
  rewrite blen_app. case_if; [pose proof (blen_nonneg p); bool_hyp; lia|].
  assert (length nonce = 12%nat) as Hn12 by (unfold blen in Hn; lia).
  rewrite take_app_length', drop_app_length' by done.
  by erewrite aes_decrypt_encrypt.
Qed.

Lemma encrypt_total key nonce p :
  blen nonce = NONCE_LEN -> blen p <= 65536 -> blen key = 32 ->
  exists blob, encrypt key nonce p = Ok blob.
Proof.
  intros Hn Hp Hk. destruct (aes_encrypt_some key nonce p Hk Hn Hp) as (c & Hc).
  unfold encrypt. rewrite Hc. cbn. eauto.
Qed.

Lemma keyed_hash_total pepper d : exists t, keyed_hash pepper d = Ok t /\ blen t = 32.
Proof.
  destruct (hmac_some pepper d) as (t & Ht & Hl). unfold keyed_hash. rewrite Ht. eauto.
Qed.

(** *** Pairwise subjects *)

Lemma be32_len n : length (be32 n) = 4%nat.
Proof. reflexivity. Qed.

Lemma be32_inj a b : 0 <= a < 2 ^ 32 -> 0 <= b < 2 ^ 32 -> be32 a = be32 b -> a = b.
Proof.
  unfold be32. intros Ha Hb. rewrite !Z.mod_small by lia. intros Hab.
  injection Hab as E1 E2 E3 E4.
  assert (Hz : forall x y, 0 <= x < 256 -> 0 <= y < 256 -> zb x = zb y -> x = y).
  { intros x y Hx Hy Hxy. apply (f_equal bz) in Hxy. by rewrite !bz_zb in Hxy. }
  apply Hz in E1; [|split; Z.div_mod_to_equations; lia..].
  apply Hz in E2; [|split; Z.div_mod_to_equations; lia..].
  apply Hz in E3; [|split; Z.div_mod_to_equations; lia..].
  apply Hz in E4; [|split; Z.div_mod_to_equations; lia..].
  Z.div_mod_to_equations. lia.
Qed.

(** The MAC input determines the domain and the user: no two pairs share one. *)
Lemma sub_input_inj d u d' u' :
  slen d < 2 ^ 32 -> slen d' < 2 ^ 32 -> slen u < 2 ^ 32 -> slen u' < 2 ^ 32 ->
  sub_input d u = sub_input d' u' -> d = d' /\ u = u'.
Proof.
  intros Hd Hd' Hu Hu'. unfold sub_input. intros [_ Hin]%app_inj_1; [|done].
  apply app_inj_1 in Hin as [Hl Hin]; [|done].
  pose proof (slen_nonneg d). pose proof (slen_nonneg d').
  apply be32_inj in Hl; [|lia..].
  apply app_inj_1 in Hin as [Hdd Hin].
  2: { pose proof (blen_as_bytes d). pose proof (blen_as_bytes d'). unfold blen in *. lia. }
  apply app_inj_1 in Hin as [_ Huu]; [|done]. split; by apply as_bytes_inj.
Qed.

Lemma derive_pairwise_sub_Ok secret d u :
  32 <= blen secret -> exists mac,
  hmac_sha256 secret (sub_input d u) = Some mac /\ derive_pairwise_sub secret d u = Ok (encode mac) /\
  over cls_id 43 43 (encode mac).
Proof.
  intros Hs. unfold derive_pairwise_sub. case_if; [bool_hyp; lia|].
  destruct (hmac_some secret (sub_input d u)) as (t & Ht & Hl). exists t. rewrite Ht. cbn [ok_or rbind].
  assert (Ho : over cls_id 43 43 (encode t)) by (eapply encode_over; [exact Hl|done]).
  split; [done|]. split; [|done]. rewrite encode_len, Hl. done.
Qed.

End Laws.

(** ** Properties *)

(** A signing key accepted in any of its three encodings is a seed of 32
    bytes; its signatures are 86 URL-safe characters that the signature check
    accepts under the raw public key and under its 44-byte SPKI form, and every
    failed check is reported as an invalid signature or an invalid request. *)
Lemma ed25519_sign_verify `{Base64Laws} `{CryptoLaws} raw seed message spki :
  parse_signing_key raw = Ok seed -> blen spki = 12 ->
  blen seed = 32 /\ over cls_id 86 86 (sign seed message) /\
  verify (encode (public_key_raw seed)) message (sign seed message) = Ok tt /\
  verify (encode (spki ++ public_key_raw seed)) message (sign seed message) = Ok tt /\
  (forall public signature e, verify public message signature = Err e ->
     e = Problem InvalidSignature \/ e = Problem InvalidRequest).
Proof.
  intros Hp Hs. assert (Hseed : blen seed = 32).
  { unfold parse_signing_key in Hp. inv_ok Hp. injection Hp as <-. by eapply normalize_secret_len. }
  split; [done|]. split; [apply sign_over|].
  split; [apply (verify_sign seed message []); auto|].
  split; [apply verify_sign; auto|]. intros public signature e. apply verify_err.
Qed.

(** C26: A P-256 key survives its [did:key] text, and a consent signature is
    accepted exactly when the key id is the text of a compressed P-256 point,
    the signature is 64 bytes of unpadded base64url that do not start with
    [0x30], and the ECDSA verifier accepts it over the SHA-256 of the message. *)
Theorem consent_signature_exact `{Base64Laws} `{CryptoLaws} key id message signature :
  decode_p256_did_key (encode_p256_did_key key) = Ok key /\
  (verify_consent_signature id message signature = Ok tt <->
   exists k raw g,
     (exists encoded point, id = "did:key:z" +:+ encoded /\
        bs58_decode encoded = Some (MULTICODEC_P256 ++ point) /\ blen point = 33 /\
        (head point = Some x02 \/ head point = Some x03) /\ p256_from_sec1 point = Some k) /\
     encode raw = signature /\ blen raw = 64 /\ head raw <> Some x30 /\
     p256_sig_from_slice raw = Some g /\ p256_verify_prehash k (sha256 message) g = true).
Proof.
  split; [apply decode_encode_did_key|]. rewrite verify_consent_Ok.
  setoid_rewrite decode_p256_did_key_Ok. done.
Qed.

(** What is stored at rest is a nonce of 12 bytes followed by the sealed text;
    for a key in any accepted encoding sealing always succeeds, opening gives the
    text back, a blob that holds no more than a nonce is refused, and the keyed
    hash of the ledger always has 32 bytes. *)
Lemma at_rest_roundtrip `{Base64Laws} `{CryptoLaws} raw key nonce text pepper data :
  at_rest_key raw = Ok key -> blen nonce = NONCE_LEN -> blen text <= 65536 ->
  (exists blob, encrypt key nonce text = Ok blob /\ blen blob = blen text + 28 /\
     take 12 blob = nonce /\ decrypt key blob = Ok text) /\
  (forall blob, blen blob <= NONCE_LEN -> decrypt key blob = problem InternalError) /\
  (exists t, keyed_hash pepper data = Ok t /\ blen t = 32).
Proof.
  intros Hr Hn Ht. assert (Hk : blen key = 32).
  { unfold at_rest_key in Hr. inv_ok Hr. injection Hr as <-. by eapply normalize_secret_len. }
  split; [|split].
  - destruct (encrypt_total key nonce text Hn Ht Hk) as (blob & Hb). exists blob. split; [done|].
    pose proof (decrypt_encrypt key nonce text blob Hn Hb) as Hd.
    unfold encrypt in Hb. inv_ok Hb. injection Hb as <-.
    pose proof (aes_encrypt_len _ _ _ _ Hok) as Hl. rewrite blen_app. unfold NONCE_LEN in *.
    split; [lia|]. split; [|done]. apply take_app_length'. unfold blen in Hn. lia.
  - intros blob Hb. unfold decrypt. case_if; [done|bool_hyp; lia].
  - apply keyed_hash_total.
Qed.

(** C27: With a secret of at least 32 bytes the pairwise subject of a user at a
    domain always exists, is 43 URL-safe characters (so a valid site account id
    that is not a Matrix id), and two different (domain, user) pairs have the
    same subject only if their length-prefixed encodings collide under HMAC. *)
Theorem pairwise_sub_separates `{Base64Laws} `{CryptoLaws} secret d u d' u' :
  32 <= blen secret ->
  slen d < 2 ^ 32 -> slen d' < 2 ^ 32 -> slen u < 2 ^ 32 -> slen u' < 2 ^ 32 ->
  (exists sub, derive_pairwise_sub secret d u = Ok sub /\ over cls_id 43 43 sub /\
     validate_site_account_id sub = Ok tt) /\
  (derive_pairwise_sub secret d u = derive_pairwise_sub secret d' u' ->
   (d = d' /\ u = u') \/
   (sub_input d u <> sub_input d' u' /\
    hmac_sha256 secret (sub_input d u) = hmac_sha256 secret (sub_input d' u'))).
Proof.
  intros Hs Hd Hd' Hu Hu'.
  destruct (derive_pairwise_sub_Ok secret d u Hs) as (m & Hm & Hr & [Hc Hl]).
  destruct (derive_pairwise_sub_Ok secret d' u' Hs) as (m' & Hm' & Hr' & _). split.
  - exists (encode m). split; [done|]. split; [done|]. apply validate_account_Ok.
    split; [done|lia].
  - rewrite Hr, Hr'. intros [= ->%encode_inj].
    destruct (decide (sub_input d u = sub_input d' u')) as [E|E].
    + left. by apply sub_input_inj.
    + right. split; [done|]. congruence.
Qed.

(** A secret shorter than 32 bytes is refused. *)
Lemma derive_short `{Base64} `{Crypto} secret d u :
  blen secret < 32 -> derive_pairwise_sub secret d u = problem InternalError.
Proof. unfold derive_pairwise_sub. intros. case_if; [done|bool_hyp; lia]. Qed.

(** A P-256 signature that the verifier accepts but whose [r] starts with the byte
    [0x30] is refused: [looks_like_der] looks at one byte, and a signature of 64
    bytes is never a DER encoding of two 32-byte integers. *)
Lemma genuine_signature_refused `{Base64Laws} `{CryptoLaws} id message raw :
  head raw = Some x30 ->
  verify_consent_signature id message (encode raw) <> Ok tt.
Proof.
  intros Hh (k & b & g & _ & Hb%encode_inj & _ & Hn & _)%verify_consent_Ok. congruence.
Qed.

(** ** Witnesses *)

Import Rfc4648 Toy.

Definition toy_seed : list byte := repeat x07 32.

Lemma ed25519_sign_verify_witness :
  let m := as_bytes "message" in
  let raw := as_bytes (hex_of toy_seed) in
  parse_signing_key raw = Ok toy_seed /\
  verify (encode (public_key_raw toy_seed)) m (sign toy_seed m) = Ok tt /\
  verify (encode (zeros 12 ++ public_key_raw toy_seed)) m (sign toy_seed m) = Ok tt.
Proof.
  intros m raw. assert (Hp : parse_signing_key raw = Ok toy_seed) by (vm_compute; reflexivity).
  destruct (ed25519_sign_verify raw toy_seed m (zeros 12) Hp eq_refl) as (_ & _ & H1 & H2 & _).
  auto.
Defined.

(** A holder's signature is accepted, and what the acceptance says. *)
Lemma consent_signature_exact_witness :
  let id := encode_p256_did_key x07 in
  let m := as_bytes "agreed" in
  let sg := encode (p256_sign x07 m) in
  decode_p256_did_key id = Ok x07 /\ verify_consent_signature id m sg = Ok tt /\
  exists raw, encode raw = sg /\ blen raw = 64 /\ head raw <> Some x30.
Proof.
  intros id m sg. destruct (consent_signature_exact (x07 : @P256Key toy) id m sg) as [H1 H2].
  assert (Hv : verify_consent_signature id m sg = Ok tt) by (vm_compute; reflexivity).
  destruct (proj1 H2 Hv) as (k & raw & g & _ & Hr & Hl & Hh & _). exact (conj H1 (conj Hv
    (ex_intro _ raw (conj Hr (conj Hl Hh))))).
Defined.

Lemma at_rest_roundtrip_witness :
  exists blob, encrypt toy_seed (zeros 12) (as_bytes "hidden") = Ok blob /\
    decrypt toy_seed blob = Ok (as_bytes "hidden").
Proof.
  destruct (at_rest_roundtrip toy_seed toy_seed (zeros 12) (as_bytes "hidden") [] []
    ltac:(reflexivity) ltac:(reflexivity) ltac:(vm_compute; discriminate))
    as ((blob & He & _ & _ & Hd) & _). eauto.
Defined.

Lemma pairwise_sub_separates_witness :
  derive_pairwise_sub toy_seed "login.example.org" "@alice:pseud0.org" <>
  derive_pairwise_sub toy_seed "other.example.org" "@alice:pseud0.org".
Proof.
  intros He. destruct (pairwise_sub_separates toy_seed "login.example.org" "@alice:pseud0.org"
    "other.example.org" "@alice:pseud0.org" ltac:(vm_compute; discriminate) eq_refl eq_refl
    eq_refl eq_refl) as (_ & H). destruct (H He) as [[E _]|[_ E]]; [discriminate E|].
  vm_compute in E. discriminate E.
Defined.
