(* ===== verification/Wire.v ===== *)
(** * Flat protocol objects

    What the signed documents and the Matrix messages share: JSON objects whose
    fields are strings, booleans, 64-bit integers and nulls.  Such an object
    always has a text and a canonical text, both valid UTF-8 and of bounded
    length; its canonical text determines its fields; its text reads back. *)

From S2P Require Import Prelude Errors Utf8 Json Jcs Strict.

(** [serde_json::to_vec] on a flat object. *)
Definition to_vec `{JsonText} (fields : list (string * Value)) : result (list byte) :=
  ok_or (as_bytes <$> print (VObject fields)) InternalError.

(** Strings are Rust strings. *)
Definition utf8_value (v : Value) : Prop :=
  match v with VString s => utf8_ok s | _ => True end.

Definition wire_fields (m : list (string * Value)) : Prop :=
  plain_fields m /\ Forall (fun kv => utf8_ok (fst kv) /\ utf8_value (snd kv)) m.

Lemma plain_int z : in_i64 z -> plain (json_int z).
Proof.
  unfold in_i64, json_int, num_of_i64, i64_max. intros.
  destruct (z <? 0) eqn:E; bool_hyp; simpl; unfold i64_max; lia.
Qed.

Lemma as_i64_json_int z : in_i64 z -> as_i64 (num_of_i64 z) = Some z.
Proof.
  unfold in_i64, num_of_i64, i64_max, as_i64. intros. destruct (z <? 0) eqn:E; bool_hyp; [done|].
  by destruct (Z.leb_spec z i64_max) as [|Hz]; [|unfold i64_max in Hz; lia].
Qed.

Lemma json_int_inj a b : json_int a = json_int b -> a = b.
Proof. unfold json_int, num_of_i64. repeat case_if; intros [= ->]; done. Qed.

Lemma json_str_inj a b : json_str a = json_str b -> a = b.
Proof. by intros [= ->]. Qed.

Lemma plain_opt o : plain (json_opt o).
Proof. by destruct o. Qed.

Lemma utf8_opt o : (forall s, o = Some s -> utf8_ok s) -> utf8_value (json_opt o).
Proof. destruct o as [s|]; cbn; auto. Qed.

#[export] Hint Resolve plain_int plain_opt : relay.

(** Discharges [plain_fields] and [wire_fields] of an object with literal keys,
    from hypotheses on its integers and strings. *)
Ltac plain_tac :=
  split; [by_decide|]; repeat (apply List.Forall_cons; [cbn [fst snd]|]);
  try apply List.Forall_nil; try (exact I); auto with relay.
Ltac wire_tac :=
  split; [plain_tac|]; repeat (apply List.Forall_cons; [split; cbn [fst snd]|]);
  try apply List.Forall_nil; try (exact I); try (apply utf8_ok_ascii; reflexivity);
  auto with relay.

Section Wire.
Context `{JsonTextLaws}.

Lemma canonical_total f : plain_fields f -> exists t, canonicalize_object f = Ok t.
Proof. intros [? ?]%plain_flat. by apply canonicalize_object_total. Qed.

Lemma canonical_perm f g t :
  plain_fields f -> plain_fields g -> canonicalize_object f = Ok t ->
  canonicalize_object g = Ok t -> f ≡ₚ g.
Proof. intros [? _]%plain_flat [? _]%plain_flat. by apply canonicalize_object_binds. Qed.

(** A key of one object and not of the other separates their texts. *)
Lemma canonical_keys_differ f g t k :
  plain_fields f -> plain_fields g -> canonicalize_object f = Ok t ->
  canonicalize_object g = Ok t -> k ∈ List.map fst f -> k ∉ List.map fst g -> False.
Proof. intros Hf Hg Et Et' Hk Hn. apply Hn. by rewrite <- (canonical_perm f g t). Qed.

(** Objects with the same keys in the same order have the same canonical text
    only if they are equal. *)
Lemma perm_same_keys (f g : list (string * Value)) :
  NoDup (List.map fst f) -> List.map fst f = List.map fst g -> f ≡ₚ g -> f = g.
Proof.
  revert g. induction f as [|[k x] f IH]; intros [|[k' y] g]; simpl; try done.
  intros [Hk Hnd]%NoDup_cons [= <- Hkeys] Hp.
  assert (x = y) as <-.
  { assert ((k, x) ∈ (k, y) :: g) as Hin by (rewrite <- Hp; by left).
    apply elem_of_cons in Hin as [[= <-]|Hin]; [done|]. exfalso. apply Hk.
    rewrite Hkeys. by eapply entry_key. }
  f_equal. apply IH; try done. by eapply Permutation_cons_inv.
Qed.

Lemma canonical_inj f g t :
  plain_fields f -> plain_fields g -> List.map fst f = List.map fst g ->
  canonicalize_object f = Ok t -> canonicalize_object g = Ok t -> f = g.
Proof.
  intros Hf Hg Hk Et Et'. apply perm_same_keys; [apply Hf|done|].
  by eapply canonical_perm.
Qed.

Lemma print_wire_total m : plain_fields m -> exists t, print (VObject m) = Some t.
Proof.
  intros [_ Hp]%plain_flat. destruct (print_members_total true m Hp) as [t Ht].
  exists ("{" +:+ t). cbn [print]. change (fun kv => _) with print_member. by rewrite Ht.
Qed.

Lemma utf8_num z : utf8_ok (z_to_string z).
Proof.
  apply utf8_ok_ascii. eapply str_forallb_impl; [|apply z_to_string_chars].
  intros c. unfold is_num_char, is_ascii. intros Hc. apply Z.ltb_lt.
  destruct c as [[] [] [] [] [] [] [] []]; try discriminate Hc; reflexivity.
Qed.

Lemma print_wire_utf8 m t : wire_fields m -> print (VObject m) = Some t -> utf8_ok t.
Proof.
  intros [[_ Hp] Hu]. cbn [print]. change (fun kv => _) with print_member.
  destruct (print_seq _ _ true m) as [w|] eqn:Ew; [|done]. intros [= <-].
  apply (utf8_ok_app "{"); [by apply utf8_ok_ascii|].
  assert (Hg : forall first w, print_seq "}" print_member first m = Some w -> utf8_ok w); [|eauto].
  clear Ew. induction m as [|[k v] m IH]; intros first u; simpl.
  { intros [= <-]. by apply utf8_ok_ascii. }
  apply Forall_cons in Hu as [[Hk Hv] Hu]. apply Forall_cons in Hp as [Hpv Hp].
  unfold print_member at 1; cbn [fst snd] in *.
  destruct (json_string k) as [tk|] eqn:Ek; [|done]. destruct (print v) as [tv|] eqn:Ev; [|done].
  destruct (print_seq _ _ false m) as [x|] eqn:Ex; [|done]. intros [= <-].
  apply utf8_ok_app; [destruct first; by apply utf8_ok_ascii|].
  apply utf8_ok_app; [|by eapply IH].
  apply utf8_ok_app; [by eapply json_string_utf8|].
  apply (utf8_ok_app ":"); [by apply utf8_ok_ascii|].
  destruct v as [|[]|[]| | |]; simpl in *; try done; try (injection Ev as <-);
    try apply utf8_num; try (by apply utf8_ok_ascii). by eapply json_string_utf8.
Qed.

(** Reading back what [to_vec] wrote. *)
Lemma from_slice_to_vec `{JsonReader} `{!JsonReaderLaws} {T} (from_value : Value -> option T) m b :
  wire_fields m -> to_vec m = Ok b ->
  from_slice from_value b = ok_or (from_value (VObject m)) InvalidRequest.
Proof.
  intros Hm Hb. unfold to_vec in Hb. apply ok_or_Ok, fmap_Some in Hb as (t & Ht & ->).
  apply from_slice_print; [apply Hm|done|]. by eapply print_wire_utf8.
Qed.

Lemma to_vec_total m : plain_fields m -> exists b, to_vec m = Ok b.
Proof. intros (t & Ht)%print_wire_total. unfold to_vec. rewrite Ht. cbn. eauto. Qed.

(** A bound on the size of a text: six characters for a byte of a string, and no
    more decimal digits than bits in a number. *)
Definition value_size (v : Value) : Z :=
  match v with
  | VString s => 6 * slen s + 2
  | VNumber _ => 65
  | _ => 5
  end.

Definition fields_size (m : list (string * Value)) : Z :=
  foldr (fun kv n => 6 * slen (fst kv) + 4 + value_size (snd kv) + n) 2 m.

Lemma uint_text_len d : slen (NilEmpty.string_of_uint d) = Z.of_nat (Decimal.nb_digits d).
Proof.
  induction d; cbn [NilEmpty.string_of_uint Decimal.nb_digits]; rewrite ?slen_cons;
    first [rewrite slen_nil | idtac]; lia.
Qed.

Lemma double_digits d :
  (Decimal.nb_digits (Decimal.Little.double d) <= S (Decimal.nb_digits d) /\
   Decimal.nb_digits (Decimal.Little.succ_double d) <= S (Decimal.nb_digits d))%nat.
Proof. induction d; simpl; lia. Qed.

(** A number has no more decimal digits than binary ones. *)
Lemma pos_digits p : (Decimal.nb_digits (Pos.to_uint p) <= Pos.size_nat p)%nat.
Proof.
  unfold Pos.to_uint. rewrite DecimalFacts.nb_digits_rev.
  induction p as [p IH|p IH|]; cbn [Pos.to_little_uint Pos.size_nat];
    [destruct (double_digits (Pos.to_little_uint p))..|simpl]; lia.
Qed.

Lemma pos_text_len p n : (Pos.size_nat p <= n)%nat -> (1 <= n)%nat ->
  slen (NilZero.string_of_uint (Pos.to_uint p)) <= Z.of_nat n.
Proof.
  intros Hp Hn. pose proof (pos_digits p). unfold NilZero.string_of_uint.
  destruct (Pos.to_uint p) eqn:E; [rewrite slen_cons, slen_nil; lia|..];
    rewrite <- E in *; rewrite uint_text_len; lia.
Qed.

Lemma size_nat_log p n : Z.pos p < 2 ^ Z.of_nat n -> (Pos.size_nat p <= n)%nat.
Proof.
  revert n. induction p as [p IH|p IH|]; intros [|n] Hp; cbn [Pos.size_nat]; try lia;
    try (change (2 ^ Z.of_nat 0) with 1 in Hp; lia); apply le_n_S;
    try (apply IH; rewrite Nat2Z.inj_succ, Z.pow_succ_r in Hp by lia; lia).
Qed.

Lemma int_text_len z : in_i64 z -> slen (z_to_string z) <= 65.
Proof.
  unfold in_i64, i64_min, i64_max, z_to_string. intros Hz.
  destruct z as [|p|p]; cbn [Z.to_int NilZero.string_of_int].
  - by vm_compute.
  - transitivity (Z.of_nat 64); [|lia]. apply pos_text_len; [apply size_nat_log|]; lia.
  - rewrite slen_cons. assert (slen (NilZero.string_of_uint (Pos.to_uint p)) <= Z.of_nat 64); [|lia].
    apply pos_text_len; [apply size_nat_log|]; lia.
Qed.

Lemma print_wire_len m t :
  plain_fields m -> print (VObject m) = Some t -> slen t <= fields_size m.
Proof.
  intros [_ Hp]. cbn [print]. change (fun kv => _) with print_member.
  destruct (print_seq _ _ true m) as [w|] eqn:Ew; [|done]. intros [= <-].
  rewrite slen_cons.
  assert (Hg : forall first w, print_seq "}" print_member first m = Some w ->
    1 + slen w <= fields_size m); [|eauto].
  clear Ew. induction Hp as [|[k v] m Hpv _ IH]; intros first u; simpl.
  { intros [= <-]. by vm_compute. }
  unfold print_member at 1; cbn [fst snd] in *.
  destruct (json_string k) as [tk|] eqn:Ek; [|done]. destruct (print v) as [tv|] eqn:Ev; [|done].
  destruct (print_seq _ _ false m) as [x|] eqn:Ex; [|done]. intros [= <-].
  apply IH in Ex. pose proof (json_string_len _ _ Ek) as Hk.
  assert (slen tv <= value_size v).
  { destruct v as [|b|n|s| |]; simpl in Hpv, Ev |- *; try done.
    - by injection Ev as <-.
    - by destruct b; injection Ev as <-.
    - destruct n as [u|i|]; try done; injection Ev as <-; apply int_text_len;
        unfold in_i64; unfold i64_min, i64_max in *; lia.
    - by apply json_string_len. }
  rewrite !slen_app. destruct first; rewrite ?slen_app, ?slen_cons, ?slen_nil; lia.
Qed.

Lemma to_vec_len m b : plain_fields m -> to_vec m = Ok b -> blen b <= fields_size m.
Proof.
  intros Hm Hb. unfold to_vec in Hb. apply ok_or_Ok, fmap_Some in Hb as (t & Ht & ->).
  rewrite blen_as_bytes. by apply print_wire_len.
Qed.

End Wire.
