(* ===== verification/Metadata.v ===== *)
(** * Site metadata (src/src/protocol/metadata.rs) *)

From S2P Require Import Prelude Errors Constants Utf8 Validation Base64url Json Jcs Strict.
From S2P Require Import Crypto Keys Wire.

Record SiteMetadata := {
  meta_version : Z;
  meta_domain : string;
  meta_display_name : string;
  meta_public_key : string;
  meta_signature : string
}.

#[export] Instance SiteMetadata_eq_dec : EqDecision SiteMetadata.
Proof. solve_decision. Defined.

(** [#[derive(Deserialize)]]. *)
Definition metadata_from_value (v : Value) : option SiteMetadata :=
  m ← struct_fields ["version"; "domain"; "displayName"; "publicKey"; "signature"] v;
  version ← field_i64 "version" m;
  domain ← field_str "domain" m;
  display_name ← field_str "displayName" m;
  public_key ← field_str "publicKey" m;
  signature ← field_str "signature" m;
  Some {| meta_version := version; meta_domain := domain; meta_display_name := display_name;
          meta_public_key := public_key; meta_signature := signature |}.

Definition metadata_fields (m : SiteMetadata) : list (string * Value) :=
  [("displayName", json_str (meta_display_name m));
   ("domain", json_str (meta_domain m));
   ("publicKey", json_str (meta_public_key m));
   ("version", json_int (meta_version m))].

Section Code.
Context `{Base64} `{Crypto} `{JsonText}.

(** [SiteMetadata::validate_for_domain]. *)
Definition validate_for_domain (m : SiteMetadata) (expected_domain : string) : result unit :=
  if negb (meta_version m =? PROTOCOL_VERSION) then problem UnsupportedVersion
  else
    validate_domain_field (meta_domain m) ;?
    if negb (String.eqb (meta_domain m) expected_domain) then problem DomainVerificationFailed
    else if is_empty (trim (meta_display_name m))
            || (MAX_DISPLAY_NAME <? slen (meta_display_name m))
    then problem DomainVerificationFailed
    else if negb (slen (meta_public_key m) =? 43) then problem DomainVerificationFailed
    else
      let? canonical := canonicalize_object (metadata_fields m) in
      map_err (verify (meta_public_key m) (as_bytes canonical) (meta_signature m))
        DomainVerificationFailed.
End Code.

(** What makes metadata valid for a domain. *)
Record metadata_valid `{Base64} `{Crypto} `{JsonText} (m : SiteMetadata) (domain : string) : Prop := {
  mv_version : meta_version m = 1;
  mv_domain : meta_domain m = domain;
  mv_name : validate_domain domain = Ok tt;
  mv_display : trim (meta_display_name m) <> "" /\ slen (meta_display_name m) <= 100;
  mv_key : slen (meta_public_key m) = 43;
  mv_signed : exists text, canonicalize_object (metadata_fields m) = Ok text /\
    verify (meta_public_key m) (as_bytes text) (meta_signature m) = Ok tt
}.

Lemma validate_for_domain_Ok `{Base64} `{Crypto} `{JsonText} m domain :
  validate_for_domain m domain = Ok tt <-> metadata_valid m domain.
Proof.
  unfold validate_for_domain, validate_domain_field, is_empty, PROTOCOL_VERSION, MAX_DISPLAY_NAME.
  split.
  - intros Hv. case_if_in Hv; [done|]. inv_ok Hv. destruct a.
    repeat case_if_in Hv; try done. bool_hyp. inv_ok Hv. subst. apply map_err_Ok in Hv.
    split; eauto.
  - intros [-> <- -> [Hd Hl] -> (text & -> & Hv)]. cbn [negb Z.eqb rbind].
    rewrite String.eqb_refl. cbn [negb].
    apply String.eqb_neq in Hd as ->. destruct (Z.ltb_spec 100 (slen (meta_display_name m))); [lia|].
    cbn. by rewrite Hv.
Qed.

(** Values of the Rust type. *)
Definition metadata_wf (m : SiteMetadata) : Prop :=
  in_i64 (meta_version m) /\ utf8_ok (meta_domain m) /\ utf8_ok (meta_display_name m) /\
  utf8_ok (meta_public_key m) /\ utf8_ok (meta_signature m).

Lemma metadata_plain m : metadata_wf m -> plain_fields (metadata_fields m).
Proof. intros (? & _). plain_tac. Qed.
