(* ===== verification/Registration.v ===== *)
(** * Registration requests (src/src/protocol/registration.rs) *)

From S2P Require Import Prelude Errors Constants Utf8 Validation Base64url Json Jcs Strict.
From S2P Require Import Wire.
#[local] Set Warnings "-clear-no-such-hyp".

Record RegistrationRequest := {
  reg_version : Z;
  reg_domain : string;
  reg_session_id : string;
  reg_nonce : string;
  reg_iat : Z;
  reg_exp : Z;
  reg_requested_display_name : string;
  reg_qr_signature : string;
  reg_registration_signature : string
}.

#[export] Instance RegistrationRequest_eq_dec : EqDecision RegistrationRequest.
Proof. solve_decision. Defined.

(** [status] is the literal the service sends. *)
Record RegistrationResponse := {
  resp_version : Z;
  resp_session_id : string;
  resp_status : string;
  resp_expires_at : Z
}.

(** [#[derive(Deserialize)]]. *)
Definition registration_from_value (v : Value) : option RegistrationRequest :=
  m ← struct_fields ["version"; "domain"; "sessionId"; "nonce"; "iat"; "exp";
                     "requestedDisplayName"; "qrSignature"; "registrationSignature"] v;
  version ← field_i64 "version" m;
  domain ← field_str "domain" m;
  session_id ← field_str "sessionId" m;
  nonce ← field_str "nonce" m;
  iat ← field_i64 "iat" m;
  exp ← field_i64 "exp" m;
  requested_display_name ← field_str "requestedDisplayName" m;
  qr_signature ← field_str "qrSignature" m;
  registration_signature ← field_str "registrationSignature" m;
  Some {| reg_version := version; reg_domain := domain; reg_session_id := session_id;
          reg_nonce := nonce; reg_iat := iat; reg_exp := exp;
          reg_requested_display_name := requested_display_name;
          reg_qr_signature := qr_signature;
          reg_registration_signature := registration_signature |}.

(** [#[derive(Serialize)]], in declaration order. *)
Definition request_fields (r : RegistrationRequest) : list (string * Value) :=
  [("version", json_int (reg_version r));
   ("domain", json_str (reg_domain r));
   ("sessionId", json_str (reg_session_id r));
   ("nonce", json_str (reg_nonce r));
   ("iat", json_int (reg_iat r));
   ("exp", json_int (reg_exp r));
   ("requestedDisplayName", json_str (reg_requested_display_name r));
   ("qrSignature", json_str (reg_qr_signature r));
   ("registrationSignature", json_str (reg_registration_signature r))].

(** [RegistrationRequest::validate]. *)
Definition validate (r : RegistrationRequest) : result unit :=
  if negb (reg_version r =? PROTOCOL_VERSION) then problem UnsupportedVersion
  else
    validate_domain_field (reg_domain r) ;?
    validate_id (reg_session_id r) ;?
    validate_id (reg_nonce r) ;?
    validate_window (reg_iat r) (reg_exp r) ;?
    validate_display_name (reg_requested_display_name r) false ;?
    validate_signature_b64 (reg_qr_signature r) ;?
    validate_signature_b64 (reg_registration_signature r) ;?
    Ok tt.

Definition qr_fields (r : RegistrationRequest) : list (string * Value) :=
  [("domain", json_str (reg_domain r));
   ("exp", json_int (reg_exp r));
   ("iat", json_int (reg_iat r));
   ("nonce", json_str (reg_nonce r));
   ("session", json_str (reg_session_id r));
   ("v", json_int (reg_version r))].

Definition registration_fields (r : RegistrationRequest) : list (string * Value) :=
  [("domain", json_str (reg_domain r));
   ("exp", json_int (reg_exp r));
   ("iat", json_int (reg_iat r));
   ("nonce", json_str (reg_nonce r));
   ("qrSignature", json_str (reg_qr_signature r));
   ("requestedDisplayName", json_str (reg_requested_display_name r));
   ("sessionId", json_str (reg_session_id r));
   ("version", json_int (reg_version r))].

(** [RegistrationRequest::qr_canonical] and [registration_canonical]. *)
Definition qr_canonical `{JsonText} (r : RegistrationRequest) : result (list byte) :=
  let? t := canonicalize_object (qr_fields r) in Ok (as_bytes t).

Definition registration_canonical `{JsonText} (r : RegistrationRequest) : result (list byte) :=
  let? t := canonicalize_object (registration_fields r) in Ok (as_bytes t).

(** [#[derive(Serialize)]] of the response. *)
Definition response_fields (r : RegistrationResponse) : list (string * Value) :=
  [("version", json_int (resp_version r));
   ("sessionId", json_str (resp_session_id r));
   ("status", json_str (resp_status r));
   ("expiresAt", json_int (resp_expires_at r))].

(** What makes a registration request well formed. *)
Record registration_valid (r : RegistrationRequest) : Prop := {
  regv_version : reg_version r = 1;
  regv_domain : slen (reg_domain r) <= 253 /\ domain_name (reg_domain r);
  regv_session : over cls_id 16 128 (reg_session_id r);
  regv_nonce : over cls_id 16 128 (reg_nonce r);
  regv_window : reg_iat r < reg_exp r <= reg_iat r + 300000;
  regv_display : slen (reg_requested_display_name r) <= 100;
  regv_qr_sig : over cls_id 86 86 (reg_qr_signature r);
  regv_sig : over cls_id 86 86 (reg_registration_signature r)
}.

Lemma validate_Ok r :
  in_i64 (reg_iat r) -> in_i64 (reg_exp r) -> validate r = Ok tt <-> registration_valid r.
Proof.
  intros Hi He. unfold validate, validate_domain_field, PROTOCOL_VERSION.
  split.
  - intros Hv. case_if_in Hv; [done|]. bool_hyp. inv_ok Hv.
    repeat match goal with a : unit |- _ => destruct a end. split.
    + done.
    + by apply validate_domain_Ok.
    + by apply validate_id_Ok.
    + by apply validate_id_Ok.
    + by apply validate_window_Ok.
    + apply validate_display_name_Ok in Hok3. tauto.
    + by apply validate_signature_Ok.
    + by apply validate_signature_Ok.
  - intros [-> Hd Hs Hn Hw Hp Hq Hr]. cbn [negb Z.eqb].
    rewrite (proj2 (validate_domain_Ok _)) by done. rewrite !(proj2 (validate_id_Ok _)) by done.
    cbn [rbind]. rewrite (proj2 (validate_window_Ok _ _ Hi He)) by done.
    rewrite (proj2 (validate_display_name_Ok _ false)) by done.
    by rewrite !(proj2 (validate_signature_Ok _)).
Qed.

(** Values of the Rust type. *)
Definition registration_wf (r : RegistrationRequest) : Prop :=
  in_i64 (reg_version r) /\ in_i64 (reg_iat r) /\ in_i64 (reg_exp r).

Lemma qr_plain r : registration_wf r -> plain_fields (qr_fields r).
Proof. intros (? & ? & ?). plain_tac. Qed.
Lemma registration_plain r : registration_wf r -> plain_fields (registration_fields r).
Proof. intros (? & ? & ?). plain_tac. Qed.

Lemma qr_canonical_Ok `{JsonText} r b :
  qr_canonical r = Ok b <-> exists t, canonicalize_object (qr_fields r) = Ok t /\ b = as_bytes t.
Proof. unfold qr_canonical. rewrite rbind_Ok. naive_solver. Qed.
Lemma registration_canonical_Ok `{JsonText} r b :
  registration_canonical r = Ok b <->
  exists t, canonicalize_object (registration_fields r) = Ok t /\ b = as_bytes t.
Proof. unfold registration_canonical. rewrite rbind_Ok. naive_solver. Qed.
