(* ===== verification/Assertion.v ===== *)
(** * Relay assertions (src/src/protocol/assertion.rs) *)

From S2P Require Import Prelude Errors Constants Utf8 Validation Base64url Json Jcs Strict.
From S2P Require Import Crypto Keys Wire.

Record RelayAssertion := {
  a_version : Z;
  a_iss : string;
  a_aud : string;
  a_sub : string;
  a_session_id : string;
  a_nonce : string;
  a_jti : string;
  a_iat : Z;
  a_nbf : Z;
  a_exp : Z;
  a_display_name : string;
  a_subject_key_version : Z;
  a_kid : string;
  a_signature : string
}.

#[export] Instance RelayAssertion_eq_dec : EqDecision RelayAssertion.
Proof. solve_decision. Defined.

(** [#[derive(Serialize)]], in declaration order. *)
Definition assertion_fields (a : RelayAssertion) : list (string * Value) :=
  [("version", json_int (a_version a));
   ("iss", json_str (a_iss a));
   ("aud", json_str (a_aud a));
   ("sub", json_str (a_sub a));
   ("sessionId", json_str (a_session_id a));
   ("nonce", json_str (a_nonce a));
   ("jti", json_str (a_jti a));
   ("iat", json_int (a_iat a));
   ("nbf", json_int (a_nbf a));
   ("exp", json_int (a_exp a));
   ("displayName", json_str (a_display_name a));
   ("subjectKeyVersion", json_int (a_subject_key_version a));
   ("kid", json_str (a_kid a));
   ("signature", json_str (a_signature a))].

(** [#[derive(Deserialize)]]: what a site that uses the type reads. *)
Definition assertion_from_value (v : Value) : option RelayAssertion :=
  m ← struct_fields ["version"; "iss"; "aud"; "sub"; "sessionId"; "nonce"; "jti"; "iat"; "nbf";
                     "exp"; "displayName"; "subjectKeyVersion"; "kid"; "signature"] v;
  version ← field_i64 "version" m;
  iss ← field_str "iss" m;
  aud ← field_str "aud" m;
  sub ← field_str "sub" m;
  session_id ← field_str "sessionId" m;
  nonce ← field_str "nonce" m;
  jti ← field_str "jti" m;
  iat ← field_i64 "iat" m;
  nbf ← field_i64 "nbf" m;
  exp ← field_i64 "exp" m;
  display_name ← field_str "displayName" m;
  subject_key_version ← field_i32 "subjectKeyVersion" m;
  kid ← field_str "kid" m;
  signature ← field_str "signature" m;
  Some {| a_version := version; a_iss := iss; a_aud := aud; a_sub := sub;
          a_session_id := session_id; a_nonce := nonce; a_jti := jti; a_iat := iat;
          a_nbf := nbf; a_exp := exp; a_display_name := display_name;
          a_subject_key_version := subject_key_version; a_kid := kid;
          a_signature := signature |}.

(** The fields of [canonical_without_signature]. *)
Definition assertion_signed_fields (a : RelayAssertion) : list (string * Value) :=
  [("aud", json_str (a_aud a));
   ("displayName", json_str (a_display_name a));
   ("exp", json_int (a_exp a));
   ("iat", json_int (a_iat a));
   ("iss", json_str (a_iss a));
   ("jti", json_str (a_jti a));
   ("kid", json_str (a_kid a));
   ("nbf", json_int (a_nbf a));
   ("nonce", json_str (a_nonce a));
   ("sessionId", json_str (a_session_id a));
   ("sub", json_str (a_sub a));
   ("subjectKeyVersion", json_int (a_subject_key_version a));
   ("version", json_int (a_version a))].

Section Code.
Context `{Base64} `{Crypto} `{JsonText}.

Definition canonical_without_signature (a : RelayAssertion) : result string :=
  canonicalize_object (assertion_signed_fields a).

(** [RelayAssertion::sign]; [with_signature] is the assignment to the field. *)
Definition with_signature (a : RelayAssertion) (signature : string) : RelayAssertion :=
  {| a_version := a_version a; a_iss := a_iss a; a_aud := a_aud a; a_sub := a_sub a;
     a_session_id := a_session_id a; a_nonce := a_nonce a; a_jti := a_jti a; a_iat := a_iat a;
     a_nbf := a_nbf a; a_exp := a_exp a; a_display_name := a_display_name a;
     a_subject_key_version := a_subject_key_version a; a_kid := a_kid a;
     a_signature := signature |}.

Definition sign (signing_key : list byte) (kid aud sub session_id nonce jti : string)
    (iat exp : Z) (display_name : string) (subject_key_version : Z) : result RelayAssertion :=
  validate_kid kid ;?
  validate_id session_id ;?
  validate_id nonce ;?
  validate_site_account_id sub ;?
  validate_display_name display_name true ;?
  let assertion :=
    {| a_version := PROTOCOL_VERSION; a_iss := RELAY_ORIGIN; a_aud := aud; a_sub := sub;
       a_session_id := session_id; a_nonce := nonce; a_jti := jti; a_iat := iat; a_nbf := iat;
       a_exp := exp; a_display_name := display_name;
       a_subject_key_version := subject_key_version; a_kid := kid; a_signature := "" |} in
  let? canonical := canonical_without_signature assertion in
  let assertion := with_signature assertion (Keys.sign signing_key (as_bytes canonical)) in
  validate_signature_b64 (a_signature assertion) ;?
  Ok assertion.

Definition to_bytes (a : RelayAssertion) : result (list byte) := to_vec (assertion_fields a).
End Code.

(** Values of the Rust type. *)
Definition assertion_wf (a : RelayAssertion) : Prop :=
  (in_i64 (a_version a) /\ in_i64 (a_iat a) /\ in_i64 (a_nbf a) /\ in_i64 (a_exp a) /\
   in_i32 (a_subject_key_version a)) /\
  (utf8_ok (a_iss a) /\ utf8_ok (a_aud a) /\ utf8_ok (a_sub a) /\ utf8_ok (a_session_id a) /\
   utf8_ok (a_nonce a) /\ utf8_ok (a_jti a) /\ utf8_ok (a_display_name a) /\
   utf8_ok (a_kid a) /\ utf8_ok (a_signature a)).

Lemma in_i32_i64 z : in_i32 z -> in_i64 z.
Proof. unfold in_i32, in_i64, i32_min, i32_max, i64_min, i64_max. lia. Qed.
#[export] Hint Resolve in_i32_i64 : relay.

Lemma assertion_signed_plain a : assertion_wf a -> plain_fields (assertion_signed_fields a).
Proof. intros [(? & ? & ? & ? & ?) _]. plain_tac. Qed.

Lemma assertion_wire a : assertion_wf a -> wire_fields (assertion_fields a).
Proof.
  intros [(? & ? & ? & ? & ?) (? & ? & ? & ? & ? & ? & ? & ? & ?)]. wire_tac.
Qed.

(** What [sign] produced. *)
Lemma assertion_sign_Ok `{Base64Laws} `{CryptoLaws} `{JsonText} seed kid aud sub sid nonce jti iat exp dn skv a :
  sign seed kid aud sub sid nonce jti iat exp dn skv = Ok a ->
  (over cls_kid 1 64 kid /\ over cls_id 16 128 sid /\ over cls_id 16 128 nonce /\
   over cls_id 22 128 sub /\ 0 < slen dn <= 100) /\
  exists text, canonical_without_signature a = Ok text /\
    a = {| a_version := 1; a_iss := RELAY_ORIGIN; a_aud := aud; a_sub := sub;
           a_session_id := sid; a_nonce := nonce; a_jti := jti; a_iat := iat; a_nbf := iat;
           a_exp := exp; a_display_name := dn; a_subject_key_version := skv; a_kid := kid;
           a_signature := Keys.sign seed (as_bytes text) |}.
Proof.
  unfold sign. intros Hs. inv_ok Hs. repeat match goal with a : unit |- _ => destruct a end.
  injection Hs as <-. split.
  - apply validate_kid_Ok in Hok. apply validate_id_Ok in Hok0, Hok1.
    apply validate_account_Ok in Hok2. apply validate_display_name_Ok in Hok3 as [? Hn].
    specialize (Hn eq_refl). done.
  - match goal with H : canonical_without_signature _ = Ok ?t |- _ => exists t; done end.
Qed.

Lemma assertion_sign_total `{Base64Laws} `{CryptoLaws} `{JsonTextLaws} seed kid aud sub sid nonce jti iat exp dn skv :
  over cls_kid 1 64 kid -> over cls_id 16 128 sid -> over cls_id 16 128 nonce ->
  over cls_id 22 128 sub -> 0 < slen dn <= 100 ->
  in_i64 iat -> in_i64 exp -> in_i32 skv ->
  exists a, sign seed kid aud sub sid nonce jti iat exp dn skv = Ok a.
Proof.
  intros Hk Hs Hn Hsub Hd Hi He Hv. unfold sign.
  rewrite (proj2 (validate_kid_Ok _)), !(proj2 (validate_id_Ok _)),
    (proj2 (validate_account_Ok _)), (proj2 (validate_display_name_Ok _ true)) by (done || lia).
  cbn [rbind]. unfold canonical_without_signature.
  match goal with |- context [assertion_signed_fields ?a] =>
    destruct (canonical_total (assertion_signed_fields a)) as [t Ht] end.
  { plain_tac. apply plain_int. by vm_compute. }
  rewrite Ht. cbn [rbind with_signature a_signature].
  rewrite (proj2 (validate_signature_Ok _)) by apply sign_over. cbn. eauto.
Qed.

(** A signed assertion is written in less than 64 KiB. *)
Lemma assertion_bytes_small `{Base64Laws} `{CryptoLaws} `{JsonTextLaws} seed kid aud sub sid nonce jti iat exp dn skv a :
  in_i64 iat -> in_i64 exp -> in_i32 skv -> slen aud <= 253 -> slen jti <= 128 ->
  sign seed kid aud sub sid nonce jti iat exp dn skv = Ok a ->
  exists b, to_bytes a = Ok b /\ blen b <= 65536.
Proof.
  intros Hi He Hv Ha Hj ((Hk & Hs & Hn & Hsub & Hd) & text & _ & ->)%assertion_sign_Ok.
  match goal with |- context [to_bytes ?a] => assert (Hp : plain_fields (assertion_fields a)) end.
  { plain_tac. by vm_compute. }
  destruct (to_vec_total _ Hp) as [b Hb]. exists b. split; [done|].
  etrans; [by apply to_vec_len|]. pose proof (sign_over seed (as_bytes text)) as Hsig.
  unfold over in *. destruct_and!. set (sg := Keys.sign _ _) in *. clearbody sg.
  cbv -[slen Z.add Z.mul Z.le json_int num_of_i64];
  repeat match goal with |- context [slen ?s] =>
    match s with String _ _ => let n := eval vm_compute in (slen s) in change (slen s) with n end end;
  cbn [json_int]; unfold json_int; lia.
Qed.
