(* ===== verification/Revocation.v ===== *)
(** * Relay revocations (src/src/protocol/revocation.rs) *)

From S2P Require Import Prelude Errors Constants Utf8 Validation Base64url Json Jcs Strict.
From S2P Require Import Crypto Keys Wire.

Record RelayRevocation := {
  rv_version : Z;
  rv_iss : string;
  rv_aud : string;
  rv_sub : string;
  rv_jti : string;
  rv_iat : Z;
  rv_reason : string;
  rv_kid : string;
  rv_signature : string
}.

#[export] Instance RelayRevocation_eq_dec : EqDecision RelayRevocation.
Proof. solve_decision. Defined.

(** [#[derive(Serialize)]], in declaration order. *)
Definition revocation_fields (r : RelayRevocation) : list (string * Value) :=
  [("version", json_int (rv_version r));
   ("iss", json_str (rv_iss r));
   ("aud", json_str (rv_aud r));
   ("sub", json_str (rv_sub r));
   ("jti", json_str (rv_jti r));
   ("iat", json_int (rv_iat r));
   ("reason", json_str (rv_reason r));
   ("kid", json_str (rv_kid r));
   ("signature", json_str (rv_signature r))].

(** [#[derive(Deserialize)]]. *)
Definition revocation_from_value (v : Value) : option RelayRevocation :=
  m ← struct_fields ["version"; "iss"; "aud"; "sub"; "jti"; "iat"; "reason"; "kid"; "signature"] v;
  version ← field_i64 "version" m;
  iss ← field_str "iss" m;
  aud ← field_str "aud" m;
  sub ← field_str "sub" m;
  jti ← field_str "jti" m;
  iat ← field_i64 "iat" m;
  reason ← field_str "reason" m;
  kid ← field_str "kid" m;
  signature ← field_str "signature" m;
  Some {| rv_version := version; rv_iss := iss; rv_aud := aud; rv_sub := sub; rv_jti := jti;
          rv_iat := iat; rv_reason := reason; rv_kid := kid; rv_signature := signature |}.

(** The fields of [canonical_without_signature]. *)
Definition revocation_signed_fields (r : RelayRevocation) : list (string * Value) :=
  [("aud", json_str (rv_aud r));
   ("iat", json_int (rv_iat r));
   ("iss", json_str (rv_iss r));
   ("jti", json_str (rv_jti r));
   ("kid", json_str (rv_kid r));
   ("reason", json_str (rv_reason r));
   ("sub", json_str (rv_sub r));
   ("version", json_int (rv_version r))].

Section Code.
Context `{Base64} `{Crypto} `{JsonText}.

Definition canonical_without_signature (r : RelayRevocation) : result string :=
  canonicalize_object (revocation_signed_fields r).

(** The assignment to the field [signature]. *)
Definition with_signature (r : RelayRevocation) (signature : string) : RelayRevocation :=
  {| rv_version := rv_version r; rv_iss := rv_iss r; rv_aud := rv_aud r; rv_sub := rv_sub r;
     rv_jti := rv_jti r; rv_iat := rv_iat r; rv_reason := rv_reason r; rv_kid := rv_kid r;
     rv_signature := signature |}.

(** [RelayRevocation::sign]. *)
Definition sign (signing_key : list byte) (kid aud sub jti : string) (iat : Z) (reason : string)
  : result RelayRevocation :=
  let revocation :=
    {| rv_version := PROTOCOL_VERSION; rv_iss := RELAY_ORIGIN; rv_aud := aud; rv_sub := sub;
       rv_jti := jti; rv_iat := iat; rv_reason := reason; rv_kid := kid; rv_signature := "" |} in
  let? canonical := canonical_without_signature revocation in
  Ok (with_signature revocation (Keys.sign signing_key (as_bytes canonical))).

Definition to_bytes (r : RelayRevocation) : result (list byte) := to_vec (revocation_fields r).
End Code.

(** Values of the Rust type. *)
Definition revocation_wf (r : RelayRevocation) : Prop :=
  (in_i64 (rv_version r) /\ in_i64 (rv_iat r)) /\
  (utf8_ok (rv_iss r) /\ utf8_ok (rv_aud r) /\ utf8_ok (rv_sub r) /\ utf8_ok (rv_jti r) /\
   utf8_ok (rv_reason r) /\ utf8_ok (rv_kid r) /\ utf8_ok (rv_signature r)).

Lemma revocation_signed_plain r : revocation_wf r -> plain_fields (revocation_signed_fields r).
Proof. intros [(? & ?) _]. plain_tac. Qed.

Lemma revocation_wire r : revocation_wf r -> wire_fields (revocation_fields r).
Proof. intros [(? & ?) (? & ? & ? & ? & ? & ? & ?)]. wire_tac. Qed.

Lemma revocation_sign_Ok `{Base64} `{Crypto} `{JsonText} seed kid aud sub jti iat reason r :
  sign seed kid aud sub jti iat reason = Ok r ->
  exists text, canonical_without_signature r = Ok text /\
    r = {| rv_version := 1; rv_iss := RELAY_ORIGIN; rv_aud := aud; rv_sub := sub; rv_jti := jti;
           rv_iat := iat; rv_reason := reason; rv_kid := kid;
           rv_signature := Keys.sign seed (as_bytes text) |}.
Proof. unfold sign. intros Hs. inv_ok Hs. injection Hs as <-. exists a. done. Qed.

Lemma revocation_sign_total `{Base64} `{Crypto} `{JsonTextLaws} seed kid aud sub jti iat reason :
  in_i64 iat -> exists r, sign seed kid aud sub jti iat reason = Ok r.
Proof.
  intros Hi. unfold sign, canonical_without_signature.
  match goal with |- context [revocation_signed_fields ?r] =>
    destruct (canonical_total (revocation_signed_fields r)) as [t Ht] end.
  { plain_tac. apply plain_int. by vm_compute. }
  rewrite Ht. cbn. eauto.
Qed.

(** A revocation notice for a valid account and reason is written in less than
    64 KiB. *)
Lemma revocation_bytes_small `{Base64Laws} `{CryptoLaws} `{JsonTextLaws} seed kid aud sub jti iat reason r :
  in_i64 iat -> slen kid <= 64 -> slen aud <= 253 -> slen sub <= 128 -> slen jti <= 128 ->
  slen reason <= 100 -> sign seed kid aud sub jti iat reason = Ok r ->
  exists b, to_bytes r = Ok b /\ blen b <= 65536.
Proof.
  intros Hi Hk Ha Hsub Hj Hd (text & _ & ->)%revocation_sign_Ok.
  match goal with |- context [to_bytes ?a] => assert (Hp : plain_fields (revocation_fields a)) end.
  { plain_tac. by vm_compute. }
  destruct (to_vec_total _ Hp) as [b Hb]. exists b. split; [done|].
  etrans; [by apply to_vec_len|]. pose proof (sign_over seed (as_bytes text)) as Hsig.
  unfold over in *. destruct_and!. set (sg := Keys.sign _ _) in *. clearbody sg.
  cbv -[slen Z.add Z.mul Z.le json_int num_of_i64];
  repeat match goal with |- context [slen ?s] =>
    match s with String _ _ => let n := eval vm_compute in (slen s) in change (slen s) with n end end;
  cbn [json_int]; unfold json_int; lia.
Qed.
