(* ===== verification/Matrix.v ===== *)
(** * Matrix messages (src/src/protocol/matrix.rs) *)

From S2P Require Import Prelude Errors Constants Utf8 Validation Base64url Json JsonRfc Jcs.
From S2P Require Import Strict StrictRfc Wire.

#[local] Set Warnings "-clear-no-such-hyp".

Inductive MatrixMessage :=
  | Request (session_id nonce : string) (sent_at : Z) (domain : string)
  | Challenge (session_id nonce : string) (sent_at : Z)
      (site_name domain requested_display_name challenge : string) (expires_at : Z)
  | Consent (session_id nonce : string) (sent_at : Z) (approved : bool)
      (display_name : option string) (challenge key_id signature : string)
  | Result (session_id nonce : string) (sent_at : Z) (success : bool)
      (site_account_id reason : option string)
  | Revocation (session_id nonce : string) (sent_at : Z) (site_account_id : string)
      (reason : option string).

#[export] Instance MatrixMessage_eq_dec : EqDecision MatrixMessage.
Proof. solve_decision. Defined.

(** ** The derived serializers: [tag = "kind"], nulls written out *)

Definition message_fields (message : MatrixMessage) : list (string * Value) :=
  match message with
  | Request session_id nonce sent_at domain =>
      [("kind", json_str "request"); ("sessionId", json_str session_id);
       ("nonce", json_str nonce); ("sentAt", json_int sent_at); ("domain", json_str domain)]
  | Challenge session_id nonce sent_at site_name domain requested_display_name challenge expires_at =>
      [("kind", json_str "challenge"); ("sessionId", json_str session_id);
       ("nonce", json_str nonce); ("sentAt", json_int sent_at);
       ("siteName", json_str site_name); ("domain", json_str domain);
       ("requestedDisplayName", json_str requested_display_name);
       ("challenge", json_str challenge); ("expiresAt", json_int expires_at)]
  | Consent session_id nonce sent_at approved display_name challenge key_id signature =>
      [("kind", json_str "consent"); ("sessionId", json_str session_id);
       ("nonce", json_str nonce); ("sentAt", json_int sent_at);
       ("approved", json_bool approved); ("displayName", json_opt display_name);
       ("challenge", json_str challenge); ("keyId", json_str key_id);
       ("signature", json_str signature)]
  | Result session_id nonce sent_at success site_account_id reason =>
      [("kind", json_str "result"); ("sessionId", json_str session_id);
       ("nonce", json_str nonce); ("sentAt", json_int sent_at);
       ("success", json_bool success); ("siteAccountId", json_opt site_account_id);
       ("reason", json_opt reason)]
  | Revocation session_id nonce sent_at site_account_id reason =>
      [("kind", json_str "revocation"); ("sessionId", json_str session_id);
       ("nonce", json_str nonce); ("sentAt", json_int sent_at);
       ("siteAccountId", json_str site_account_id); ("reason", json_opt reason)]
  end.

Definition request_of (m : list (string * Value)) : option MatrixMessage :=
  session_id ← field_str "sessionId" m; nonce ← field_str "nonce" m;
  sent_at ← field_i64 "sentAt" m; domain ← field_str "domain" m;
  Some (Request session_id nonce sent_at domain).

Definition challenge_of (m : list (string * Value)) : option MatrixMessage :=
  session_id ← field_str "sessionId" m; nonce ← field_str "nonce" m;
  sent_at ← field_i64 "sentAt" m; site_name ← field_str "siteName" m;
  domain ← field_str "domain" m;
  requested_display_name ← field_str "requestedDisplayName" m;
  challenge ← field_str "challenge" m; expires_at ← field_i64 "expiresAt" m;
  Some (Challenge session_id nonce sent_at site_name domain requested_display_name challenge
          expires_at).

Definition consent_of (m : list (string * Value)) : option MatrixMessage :=
  session_id ← field_str "sessionId" m; nonce ← field_str "nonce" m;
  sent_at ← field_i64 "sentAt" m; approved ← field_bool "approved" m;
  display_name ← field_opt_str "displayName" m; challenge ← field_str "challenge" m;
  key_id ← field_str "keyId" m; signature ← field_str "signature" m;
  Some (Consent session_id nonce sent_at approved display_name challenge key_id signature).

Definition result_of (m : list (string * Value)) : option MatrixMessage :=
  session_id ← field_str "sessionId" m; nonce ← field_str "nonce" m;
  sent_at ← field_i64 "sentAt" m; success ← field_bool "success" m;
  site_account_id ← field_opt_str "siteAccountId" m; reason ← field_opt_str "reason" m;
  Some (Result session_id nonce sent_at success site_account_id reason).

Definition revocation_of (m : list (string * Value)) : option MatrixMessage :=
  session_id ← field_str "sessionId" m; nonce ← field_str "nonce" m;
  sent_at ← field_i64 "sentAt" m; site_account_id ← field_str "siteAccountId" m;
  reason ← field_opt_str "reason" m;
  Some (Revocation session_id nonce sent_at site_account_id reason).

(** The tag and the rest of a tagged object or array. *)
Definition tagged (v : Value) : option (string * Value) :=
  match v with
  | VObject m =>
      match obj_get "kind" m with
      | Some (VString kind) =>
          Some (kind, VObject (List.filter (fun kv => negb (String.eqb (fst kv) "kind")) m))
      | _ => None
      end
  | VArray (VString kind :: l) => Some (kind, VArray l)
  | _ => None
  end.

Definition message_from_value (v : Value) : option MatrixMessage :=
  '(kind, content) ← tagged v;
  if String.eqb kind "request" then
    struct_fields ["sessionId"; "nonce"; "sentAt"; "domain"] content ≫= request_of
  else if String.eqb kind "challenge" then
    struct_fields ["sessionId"; "nonce"; "sentAt"; "siteName"; "domain"; "requestedDisplayName";
                   "challenge"; "expiresAt"] content ≫= challenge_of
  else if String.eqb kind "consent" then
    struct_fields ["sessionId"; "nonce"; "sentAt"; "approved"; "displayName"; "challenge";
                   "keyId"; "signature"] content ≫= consent_of
  else if String.eqb kind "result" then
    struct_fields ["sessionId"; "nonce"; "sentAt"; "success"; "siteAccountId"; "reason"] content
      ≫= result_of
  else if String.eqb kind "revocation" then
    struct_fields ["sessionId"; "nonce"; "sentAt"; "siteAccountId"; "reason"] content
      ≫= revocation_of
  else None.

(** ** Validation *)

(** [if let Some(x) = o { check(x)?; }] *)
Definition check_some (check : string -> result unit) (o : option string) : result unit :=
  match o with Some s => check s | None => Ok tt end.

Definition validate_outbound (message : MatrixMessage) : result unit :=
  match message with
  | Challenge session_id nonce _ site_name domain requested_display_name challenge _ =>
      validate_id session_id ;?
      validate_id nonce ;?
      validate_domain_field domain ;?
      if is_empty site_name || (MAX_DISPLAY_NAME <? slen site_name) then problem InvalidRequest
      else if MAX_DISPLAY_NAME <? slen requested_display_name then problem InvalidRequest
      else validate_challenge_token challenge
  | Result session_id nonce _ _ site_account_id reason =>
      validate_id session_id ;?
      validate_id nonce ;?
      check_some validate_site_account_id site_account_id ;?
      check_some validate_reason reason
  | Revocation session_id nonce _ site_account_id reason =>
      validate_id session_id ;?
      validate_id nonce ;?
      validate_site_account_id site_account_id ;?
      check_some validate_reason reason
  | _ => Ok tt
  end.

Definition validate_inbound (message : MatrixMessage) : result unit :=
  match message with
  | Request session_id nonce _ domain =>
      validate_id session_id ;?
      validate_id nonce ;?
      validate_domain_field domain
  | Consent session_id nonce _ approved display_name challenge key_id signature =>
      validate_id session_id ;?
      validate_id nonce ;?
      validate_challenge_token challenge ;?
      if negb (starts_with "did:" key_id) || (512 <? slen key_id) then problem InvalidSignature
      else
        validate_signature_b64 signature ;?
        match approved, display_name with
        | true, Some name =>
            if negb (is_empty name) && (slen name <=? MAX_DISPLAY_NAME) then Ok tt
            else problem InvalidRequest
        | false, None => Ok tt
        | _, _ => problem InvalidRequest
        end
  | Revocation session_id nonce _ site_account_id reason =>
      validate_id session_id ;?
      validate_id nonce ;?
      validate_site_account_id site_account_id ;?
      check_some validate_reason reason
  | Challenge _ _ _ _ _ _ _ _ | Result _ _ _ _ _ _ => problem InvalidRequest
  end.

(** ** The body of an event *)

Definition encode `{Base64} `{JsonText} (message : MatrixMessage) : result string :=
  validate_outbound message ;?
  let? json := to_vec (message_fields message) in
  if MAX_DECODED_BODY <? blen json then problem InvalidRequest
  else Ok (MATRIX_PREFIX +:+ Base64url.encode json).

Definition decode `{Base64} `{JsonReader} (body : string) : result MatrixMessage :=
  if (MAX_DECODED_BODY * 2 <? slen body) || negb (starts_with MATRIX_PREFIX body)
  then problem InvalidRequest
  else
    let encoded := str_drop (String.length MATRIX_PREFIX) body in
    let? bytes := Base64url.decode encoded in
    if MAX_DECODED_BODY <? blen bytes then problem InvalidRequest
    else
      let? message := from_slice message_from_value bytes in
      validate_inbound message ;?
      Ok message.

(** ** What the holder signs *)

Definition consent_fields (approved : bool) (challenge : string) (display_name : option string)
    (nonce session_id : string) (sent_at : Z) : list (string * Value) :=
  [("approved", json_bool approved);
   ("challenge", json_str challenge);
   ("nonce", json_str nonce);
   ("sessionId", json_str session_id);
   ("sentAt", json_int sent_at)]
  ++ match display_name with Some name => [("displayName", json_str name)] | None => [] end.

Definition consent_signed_bytes `{JsonText} (approved : bool) (challenge : string)
    (display_name : option string) (nonce session_id : string) (sent_at : Z)
  : result (list byte) :=
  let? t := canonicalize_object
              (consent_fields approved challenge display_name nonce session_id sent_at) in
  Ok (as_bytes t).

(** ** Values of the Rust type *)

Definition utf8_opt_ok (o : option string) : Prop :=
  match o with Some s => utf8_ok s | None => True end.

Definition message_wf (message : MatrixMessage) : Prop :=
  match message with
  | Request session_id nonce sent_at domain =>
      in_i64 sent_at /\ utf8_ok session_id /\ utf8_ok nonce /\ utf8_ok domain
  | Challenge session_id nonce sent_at site_name domain display challenge expires_at =>
      in_i64 sent_at /\ in_i64 expires_at /\ utf8_ok session_id /\ utf8_ok nonce /\
      utf8_ok site_name /\ utf8_ok domain /\ utf8_ok display /\ utf8_ok challenge
  | Consent session_id nonce sent_at _ display_name challenge key_id signature =>
      in_i64 sent_at /\ utf8_ok session_id /\ utf8_ok nonce /\ utf8_opt_ok display_name /\
      utf8_ok challenge /\ utf8_ok key_id /\ utf8_ok signature
  | Result session_id nonce sent_at _ site_account_id reason =>
      in_i64 sent_at /\ utf8_ok session_id /\ utf8_ok nonce /\ utf8_opt_ok site_account_id /\
      utf8_opt_ok reason
  | Revocation session_id nonce sent_at site_account_id reason =>
      in_i64 sent_at /\ utf8_ok session_id /\ utf8_ok nonce /\ utf8_ok site_account_id /\
      utf8_opt_ok reason
  end.

Lemma utf8_opt_value o : utf8_opt_ok o -> utf8_value (json_opt o).
Proof. by destruct o. Qed.
#[export] Hint Resolve utf8_opt_value : relay.

Lemma message_wire message : message_wf message -> wire_fields (message_fields message).
Proof.
  destruct message; cbn [message_wf message_fields];
    repeat match goal with |- _ /\ _ -> _ => intros [?H ?] | |- _ -> _ => intros ? end;
    repeat match goal with H : _ /\ _ |- _ => destruct H end; wire_tac.
Qed.

(** The derived reader inverts the derived writer. *)
Lemma message_from_fields message :
  message_wf message -> message_from_value (VObject (message_fields message)) = Some message.
Proof.
  intros Hwf.
  assert (Hi : forall z, in_i64 z -> as_i64 (num_of_i64 z) = Some z) by apply as_i64_json_int.
  destruct message as [sid n t d|sid n t sn d rd c e|sid n t ap [dn|] c k sg
    |sid n t ok [sa|] [re|]|sid n t sa [re|]]; cbn [message_wf] in Hwf;
  cbv -[as_i64 num_of_i64]; rewrite !Hi by (decompose [and] Hwf; assumption); reflexivity.
Qed.

(** ** What the relay accepts from the room *)

Definition opt_reason_ok (o : option string) : Prop :=
  match o with Some r => slen r <= 100 | None => True end.

(** Only the three messages a holder sends, each with valid identifiers; a
    consent carries a display name exactly when it approves. *)
Definition inbound_ok (message : MatrixMessage) : Prop :=
  match message with
  | Request session_id nonce _ domain =>
      over cls_id 16 128 session_id /\ over cls_id 16 128 nonce /\
      slen domain <= 253 /\ domain_name domain
  | Consent session_id nonce _ approved display_name challenge key_id signature =>
      over cls_id 16 128 session_id /\ over cls_id 16 128 nonce /\
      over cls_id 16 512 challenge /\
      starts_with "did:" key_id = true /\ slen key_id <= 512 /\ over cls_id 86 86 signature /\
      match display_name with
      | Some name => approved = true /\ 0 < slen name <= 100
      | None => approved = false
      end
  | Revocation session_id nonce _ site_account_id reason =>
      over cls_id 16 128 session_id /\ over cls_id 16 128 nonce /\
      over cls_id 22 128 site_account_id /\ opt_reason_ok reason
  | Challenge _ _ _ _ _ _ _ _ | Result _ _ _ _ _ _ => False
  end.

Lemma check_reason_Ok o : check_some validate_reason o = Ok tt <-> opt_reason_ok o.
Proof. destruct o; cbn; [apply validate_reason_Ok|done]. Qed.

Lemma is_empty_false s : is_empty s = false <-> 0 < slen s.
Proof.
  pose proof (slen_nonneg s). pose proof (is_empty_spec s).
  destruct (is_empty s); intuition (lia || done || congruence).
Qed.

(** A chain of checks succeeds when each does. *)
Lemma rbind_unit_Ok (c k : result unit) : (c ;? k) = Ok tt <-> c = Ok tt /\ k = Ok tt.
Proof. rewrite rbind_Ok. split; [intros ([] & ? & ?)|intros []]; eauto. Qed.

Lemma rbind_unit_Ok_gen {A} (c : result unit) (k : result A) a :
  (c ;? k) = Ok a <-> c = Ok tt /\ k = Ok a.
Proof. rewrite rbind_Ok. split; [intros ([] & ? & ?)|intros []]; eauto. Qed.

Lemma consent_display_Ok approved display_name :
  match approved, display_name with
  | true, Some name =>
      if negb (is_empty name) && (slen name <=? MAX_DISPLAY_NAME) then Ok tt
      else problem InvalidRequest
  | false, None => Ok tt
  | _, _ => problem InvalidRequest
  end = Ok tt <->
  match display_name with
  | Some name => approved = true /\ 0 < slen name <= 100
  | None => approved = false
  end.
Proof.
  unfold MAX_DISPLAY_NAME. destruct approved, display_name as [name|]; try (split; [done|intuition done]).
  destruct (is_empty name) eqn:E; cbn [negb andb].
  - apply is_empty_spec in E. split; [done|lia].
  - apply is_empty_false in E. destruct (Z.leb_spec (slen name) 100); split; try done; lia.
Qed.

Lemma validate_inbound_Ok message : validate_inbound message = Ok tt <-> inbound_ok message.
Proof.
  destruct message; cbn [validate_inbound inbound_ok]; unfold validate_domain_field;
    rewrite ?rbind_unit_Ok, ?validate_id_Ok, ?validate_domain_Ok, ?validate_challenge_Ok,
      ?validate_account_Ok, ?check_reason_Ok; try tauto; try (split; [done|tauto]).
  destruct (starts_with "did:" key_id); cbn [negb orb]; [|split; [|]; intuition done].
  destruct (Z.ltb_spec 512 (slen key_id)); [split; intuition (done || lia)|].
  rewrite rbind_unit_Ok, validate_signature_Ok, consent_display_Ok. intuition lia.
Qed.

(** What the relay sends. *)
Definition outbound_ok (message : MatrixMessage) : Prop :=
  match message with
  | Challenge session_id nonce _ site_name domain display challenge _ =>
      over cls_id 16 128 session_id /\ over cls_id 16 128 nonce /\
      (slen domain <= 253 /\ domain_name domain) /\ 0 < slen site_name <= 100 /\
      slen display <= 100 /\ over cls_id 16 512 challenge
  | Result session_id nonce _ _ site_account_id reason =>
      over cls_id 16 128 session_id /\ over cls_id 16 128 nonce /\
      match site_account_id with Some a => over cls_id 22 128 a | None => True end /\
      opt_reason_ok reason
  | Revocation session_id nonce _ site_account_id reason =>
      over cls_id 16 128 session_id /\ over cls_id 16 128 nonce /\
      over cls_id 22 128 site_account_id /\ opt_reason_ok reason
  | _ => True
  end.

Lemma validate_outbound_Ok message : validate_outbound message = Ok tt <-> outbound_ok message.
Proof.
  destruct message as [| |sid n t ap dn c k sg|sid n t ok [sa|] re|];
    cbn [validate_outbound outbound_ok check_some]; unfold validate_domain_field, MAX_DISPLAY_NAME;
    rewrite ?rbind_unit_Ok, ?validate_id_Ok, ?validate_domain_Ok,
      ?validate_account_Ok, ?check_reason_Ok; try tauto.
  destruct (is_empty site_name) eqn:E; cbn [orb].
  { apply is_empty_spec in E. intuition (done || lia). }
  apply is_empty_false in E. destruct (Z.ltb_spec 100 (slen site_name)); [intuition (done || lia)|].
  destruct (Z.ltb_spec 100 (slen requested_display_name)); [intuition (done || lia)|].
  rewrite validate_challenge_Ok. intuition lia.
Qed.

(** The integers of a message are of type [i64]. *)
Definition message_ints (message : MatrixMessage) : Prop :=
  match message with
  | Request _ _ sent_at _ | Consent _ _ sent_at _ _ _ _ _ | Result _ _ sent_at _ _ _
  | Revocation _ _ sent_at _ _ => in_i64 sent_at
  | Challenge _ _ sent_at _ _ _ _ expires_at => in_i64 sent_at /\ in_i64 expires_at
  end.

Lemma message_wf_ints message : message_wf message -> message_ints message.
Proof. destruct message; cbn; tauto. Qed.

Lemma message_plain message : message_ints message -> plain_fields (message_fields message).
Proof.
  destruct message; cbn [message_ints message_fields];
    intros Hi; [|destruct Hi as [Hi ?]|..]; plain_tac.
Qed.

(** *** Integers the reader yields *)

Lemma obj_get_wf k m v : value_wf (VObject m) -> obj_get k m = Some v -> value_wf v.
Proof.
  rewrite value_wf_object. induction 1 as [|[k' x] m Hx _ IH]; simpl; [done|].
  destruct (String.eqb k k'); [by intros [= <-]|done].
Qed.

Lemma field_i64_range k m z : value_wf (VObject m) -> field_i64 k m = Some z -> in_i64 z.
Proof.
  intros Hwf. unfold field_i64. destruct (obj_get k m) as [v|] eqn:E; [|done].
  apply obj_get_wf in E; [|done]. destruct v as [| |[u|i|]| | |]; simpl; try done.
  - destruct (Z.leb_spec u i64_max); [|done]. intros [= <-]. simpl in E.
    unfold in_i64, i64_min. lia.
  - intros [= <-]. simpl in E. unfold in_i64, i64_max. lia.
Qed.

Lemma struct_fields_wf names v m : value_wf v -> struct_fields names v = Some m -> value_wf (VObject m).
Proof.
  intros Hwf. destruct v as [| | | |l|m']; simpl; try done.
  - case_if; [|done]. intros [= <-]. apply value_wf_object. apply value_wf_array in Hwf.
    revert names Heqb. induction Hwf as [|x l Hx _ IH]; intros [|n names]; simpl; try done.
    all: intros; constructor; (done || by apply IH).
  - case_if; [|done]. by intros [= <-].
Qed.

Lemma tagged_wf v kind content : value_wf v -> tagged v = Some (kind, content) -> value_wf content.
Proof.
  destruct v as [| | | |[|[| | |s| |] l]|m]; try done; intros Hwf.
  - intros [= <- <-]. apply value_wf_array in Hwf. apply Forall_cons in Hwf as [_ Hwf].
    by apply value_wf_array.
  - cbn [tagged]. destruct (obj_get "kind" m) as [[| | |s| |]|]; try done. intros [= <- <-].
    rewrite value_wf_object in *. induction Hwf as [|kv m Hkv _ IH]; simpl; [constructor|].
    case_if; [by constructor|done].
Qed.

Lemma message_from_value_ints v message :
  value_wf v -> message_from_value v = Some message -> message_ints message.
Proof.
  intros Hv. unfold message_from_value. intros ([kind content] & Ht & Hm)%bind_Some.
  apply tagged_wf in Ht; [|done].
  repeat case_if_in Hm; try done; apply bind_Some in Hm as (m & Hs & Hm);
    apply struct_fields_wf in Hs; try done;
    unfold request_of, challenge_of, consent_of, result_of, revocation_of in Hm;
    repeat (apply bind_Some in Hm as (? & ? & Hm)); injection Hm as <-; cbn [message_ints];
    try split; by eapply field_i64_range.
Qed.

(** *** Encoding and decoding *)

Section Laws.
Context `{Base64Laws} `{JsonTextLaws} `{JsonReader} `{!JsonReaderLaws}.

Lemma encode_Ok message body :
  encode message = Ok body <->
  outbound_ok message /\ exists json, to_vec (message_fields message) = Ok json /\
    blen json <= 32768 /\ body = MATRIX_PREFIX +:+ Base64url.encode json.
Proof.
  unfold encode, MAX_DECODED_BODY. rewrite rbind_unit_Ok_gen, validate_outbound_Ok, rbind_Ok.
  split; intros [Ho Hj]; (split; [done|]); destruct Hj as (json & Hj & Hb); exists json;
    (split; [done|]); revert Hb; destruct (Z.ltb_spec 32768 (blen json)); intros Hb.
  - done.
  - by injection Hb as <-.
  - lia.
  - destruct Hb as [_ ->]. done.
Qed.

(** Every message the relay sends fits: its text is at most 32768 bytes. *)
Lemma outbound_encodes message :
  message_ints message -> outbound_ok message ->
  match message with Request _ _ _ _ | Consent _ _ _ _ _ _ _ _ => False | _ => True end ->
  exists body, encode message = Ok body.
Proof.
  intros Hi Ho Hk. pose proof (message_plain message Hi) as Hp.
  destruct (to_vec_total _ Hp) as [json Hj]. eexists. apply encode_Ok. split; [done|].
  exists json. split; [done|]. split; [|reflexivity].
  apply to_vec_len in Hj as ->; [|done].
  destruct message as [| |sid n t ap dn c k sg|sid n t ok [sa|] [re|]|sid n t sa [re|]]; try done;
    cbn [outbound_ok opt_reason_ok] in Ho; unfold over in Ho; decompose [and] Ho;
    cbv -[slen Z.add Z.mul Z.le json_int num_of_i64];
    repeat match goal with |- context [slen ?s] =>
      match s with String _ _ => let n := eval vm_compute in (slen s) in change (slen s) with n end end;
    cbn [json_int]; unfold json_int; lia.
Qed.

Lemma decode_message_Ok body message :
  decode body = Ok message <->
  slen body <= 65536 /\ inbound_ok message /\
  exists json, body = MATRIX_PREFIX +:+ Base64url.encode json /\ blen json <= 32768 /\
    from_slice message_from_value json = Ok message.
Proof.
  unfold decode, MAX_DECODED_BODY, starts_with. change (32768 * 2) with 65536. split.
  - intros Hd. case_if_in Hd; [done|]. bool_hyp.
    match goal with Hp : String.prefix _ _ = true |- _ => apply prefix_inv in Hp end.
    inv_ok Hd. apply Base64url.decode_Ok in Hok. case_if_in Hd; [done|]. bool_hyp. inv_ok Hd.
    destruct a1. injection Hd as <-. apply validate_inbound_Ok in Hok1.
    split; [done|]. split; [done|]. exists a. rewrite Hok. by auto.
  - intros (Hl & Hi & json & -> & Hj & Hf). rewrite prefix_app, str_drop_app.
    destruct (Z.ltb_spec 65536 (slen (MATRIX_PREFIX +:+ Base64url.encode json))); [lia|].
    cbn [negb orb]. rewrite (proj2 (Base64url.decode_Ok _ json) eq_refl). cbn [rbind].
    destruct (Z.ltb_spec 32768 (blen json)); [lia|]. rewrite Hf. cbn [rbind].
    by rewrite (proj2 (validate_inbound_Ok message) Hi).
Qed.

Lemma decode_encode message body :
  message_wf message -> encode message = Ok body ->
  decode body = (validate_inbound message ;? Ok message).
Proof.
  intros Hwf (Ho & json & Hj & Hl & ->)%encode_Ok. unfold decode, starts_with, MAX_DECODED_BODY.
  rewrite prefix_app, str_drop_app, slen_app, Base64url.encode_len.
  change (slen MATRIX_PREFIX) with 20.
  destruct (Z.ltb_spec (32768 * 2) (20 + (4 * blen json + 2) / 3)) as [Hlt|_].
  { exfalso. Z.div_mod_to_equations. lia. }
  cbn [negb orb]. rewrite (proj2 (Base64url.decode_Ok _ json) eq_refl). cbn [rbind].
  destruct (Z.ltb_spec 32768 (blen json)); [lia|].
  rewrite (from_slice_to_vec message_from_value _ json (message_wire _ Hwf) Hj).
  by rewrite message_from_fields.
Qed.

(** A decoded message has 64-bit time stamps. *)
Lemma decode_ints body message : decode body = Ok message -> message_ints message.
Proof.
  intros (_ & _ & json & _ & _ & Hf)%decode_message_Ok.
  apply from_slice_Ok in Hf as (s & _ & _ & Hs).
  apply from_str_Ok in Hs as (e & rest & Hr & Hok & _ & Hv).
  eapply message_from_value_ints; [|exact Hv].
  by apply event_value_ok; [eapply json_read_wf|].
Qed.

(** *** The consent text *)

Lemma consent_plain ap c dn n sid t : in_i64 t -> plain_fields (consent_fields ap c dn n sid t).
Proof. intros. destruct dn; plain_tac. Qed.

Lemma consent_total ap c dn n sid t :
  in_i64 t -> exists b, consent_signed_bytes ap c dn n sid t = Ok b.
Proof.
  intros Ht. destruct (canonical_total _ (consent_plain ap c dn n sid t Ht)) as [x Hx].
  unfold consent_signed_bytes. rewrite Hx. cbn. eauto.
Qed.

End Laws.

(** ** Properties *)

(** C23: Whatever message the relay encodes, decoding the body gives the inbound
    check of that very message and the message itself; and a challenge, result or
    revocation that passes the outbound check is always encoded, because its text
    never exceeds the 32768 bytes allowed. *)
Theorem matrix_roundtrip `{Base64Laws} `{JsonTextLaws} `{JsonReader} `{!JsonReaderLaws}
    message body :
  message_wf message ->
  (encode message = Ok body -> decode body = (validate_inbound message ;? Ok message)) /\
  (validate_outbound message = Ok tt ->
   match message with Request _ _ _ _ | Consent _ _ _ _ _ _ _ _ => False | _ => True end ->
   exists b, encode message = Ok b).
Proof.
  intros Hwf. split; [by apply decode_encode|]. intros Ho%validate_outbound_Ok.
  apply outbound_encodes; [by apply message_wf_ints|done].
Qed.

(** C24: [decode] accepts nothing but a body of at most 65536 bytes with the
    protocol's prefix whose payload is the unpadded base64url of at most 32768
    bytes of strict JSON, and of the five messages only a request, a consent or a
    revocation: never a challenge or a result, so the relay cannot be made to act
    on its own messages; every identifier it hands on is within its class, time
    stamps are 64-bit, and a consent has a display name exactly if it approves. *)
Theorem decode_sound `{Base64Laws} `{JsonTextLaws} `{JsonReader} `{!JsonReaderLaws} body message :
  decode body = Ok message ->
  slen body <= 65536 /\
  (exists json, body = MATRIX_PREFIX +:+ Base64url.encode json /\ blen json <= 32768 /\
     from_slice message_from_value json = Ok message) /\
  inbound_ok message /\ message_ints message.
Proof.
  intros Hd. pose proof (decode_ints _ _ Hd). apply decode_message_Ok in Hd as (? & ? & ?). done.
Qed.

(** ** Witnesses: the source's own request *)

Import Rfc4648 Rfc8259 RfcReader.

Definition sample_request : MatrixMessage :=
  Request "session_123456789" "nonce_12345678901" 1800000001000 "login.example.org".

Definition sample_body : string :=
  match encode sample_request with Ok b => b | Err _ => "" end.

Ltac ascii_wf := repeat split; try (apply utf8_ok_ascii; reflexivity);
  unfold i64_min, i64_max; lia.

Lemma matrix_roundtrip_witness : decode sample_body = Ok sample_request.
Proof.
  assert (Hwf : message_wf sample_request) by ascii_wf.
  destruct (matrix_roundtrip sample_request sample_body Hwf) as [Hr _].
  rewrite Hr; vm_compute; reflexivity.
Defined.

Lemma decode_sound_witness : inbound_ok sample_request /\ slen sample_body <= 65536.
Proof.
  assert (Hd : decode sample_body = Ok sample_request) by (vm_compute; reflexivity).
  destruct (decode_sound sample_body sample_request Hd) as (Hl & _ & Hi & _).
  exact (conj Hi Hl).
Defined.
