(* ===== verification/Documents.v ===== *)
(** * What the signatures cover

    Seven texts are signed in the protocol: the QR code and the registration by
    the site, the site's metadata, the consent (with and without a display name)
    by the holder, and the assertion and the revocation by the relay.  Here: what
    the relay signs reads back and verifies at the site, and no text of one kind
    is a text of another. *)

From S2P Require Import Prelude Errors Constants Utf8 Validation Base64url Json JsonRfc Jcs.
From S2P Require Import Strict StrictRfc Crypto CryptoToy Keys Wire Metadata Registration.
From S2P Require Import Assertion Revocation Matrix.

#[local] Set Warnings "-clear-no-such-hyp".

(** ** The signed texts *)

Inductive SignedText :=
  | QrCode (r : RegistrationRequest)
  | RegistrationText (r : RegistrationRequest)
  | MetadataText (m : SiteMetadata)
  | ConsentText (approved : bool) (challenge : string) (display_name : option string)
      (nonce session_id : string) (sent_at : Z)
  | AssertionText (a : RelayAssertion)
  | RevocationText (r : RelayRevocation).

Definition signed_fields (t : SignedText) : list (string * Value) :=
  match t with
  | QrCode r => qr_fields r
  | RegistrationText r => registration_fields r
  | MetadataText m => metadata_fields m
  | ConsentText ap c dn n sid t => consent_fields ap c dn n sid t
  | AssertionText a => assertion_signed_fields a
  | RevocationText r => revocation_signed_fields r
  end.

Definition signed_wf (t : SignedText) : Prop :=
  match t with
  | QrCode r | RegistrationText r => registration_wf r
  | MetadataText m => metadata_wf m
  | ConsentText _ _ _ _ _ t => in_i64 t
  | AssertionText a => assertion_wf a
  | RevocationText r => revocation_wf r
  end.

(** The bytes that are signed. *)
Definition signed_bytes `{JsonText} (t : SignedText) : result (list byte) :=
  match t with
  | QrCode r => qr_canonical r
  | RegistrationText r => registration_canonical r
  | MetadataText m => let? t := canonicalize_object (metadata_fields m) in Ok (as_bytes t)
  | ConsentText ap c dn n sid t => consent_signed_bytes ap c dn n sid t
  | AssertionText a => let? t := Assertion.canonical_without_signature a in Ok (as_bytes t)
  | RevocationText r => let? t := Revocation.canonical_without_signature r in Ok (as_bytes t)
  end.

(** Keys that tell the kinds apart. *)
Definition kind_marks (keys : list string) : list bool :=
  List.map (fun k => bool_decide (k ∈ keys))
    ["session"; "qrSignature"; "publicKey"; "approved"; "displayName"; "nbf"; "reason"].

#[export] Instance kind_marks_proper : Proper ((≡ₚ) ==> (=)) kind_marks.
Proof. intros l l' Hp. apply map_ext. intros k. apply bool_decide_ext. by rewrite Hp. Qed.

Lemma signed_plain t : signed_wf t -> plain_fields (signed_fields t).
Proof.
  destruct t; cbn [signed_wf signed_fields]; auto using qr_plain, registration_plain,
    metadata_plain, consent_plain, assertion_signed_plain, revocation_signed_plain.
Qed.

Lemma signed_bytes_Ok `{JsonText} t b :
  signed_bytes t = Ok b <-> exists s, canonicalize_object (signed_fields t) = Ok s /\ b = as_bytes s.
Proof.
  destruct t; cbn [signed_bytes signed_fields]; unfold qr_canonical, registration_canonical,
    consent_signed_bytes, Assertion.canonical_without_signature,
    Revocation.canonical_without_signature; rewrite rbind_Ok;
    (split; intros (s & Hs & Hb); exists s; (split; [done|]); [by injection Hb as <-|by subst]).
Qed.

(** Two texts of different kinds differ in a marking key, so equal texts have the
    same keys in the same order. *)
Lemma signed_same_keys t u :
  kind_marks (List.map fst (signed_fields t)) = kind_marks (List.map fst (signed_fields u)) ->
  List.map fst (signed_fields t) = List.map fst (signed_fields u).
Proof.
  destruct t as [r|r|m|ap c [dn|] n sid t|a|r], u as [r'|r'|m'|ap' c' [dn'|] n' sid' t'|a'|r'];
    intros Hm; try reflexivity; vm_compute in Hm; discriminate Hm.
Qed.

Lemma signed_bytes_inj `{JsonTextLaws} t u b :
  signed_wf t -> signed_wf u -> signed_bytes t = Ok b -> signed_bytes u = Ok b ->
  signed_fields t = signed_fields u.
Proof.
  intros Ht Hu (s & Hs & ->)%signed_bytes_Ok (s' & Hs' & Hb)%signed_bytes_Ok.
  apply as_bytes_inj in Hb as <-. apply signed_plain in Ht, Hu.
  assert (Hp : signed_fields t ≡ₚ signed_fields u) by by eapply canonical_perm.
  apply perm_same_keys; [apply Ht| |done]. apply signed_same_keys. by rewrite Hp.
Qed.

(** ** What a site reads *)

Section Site.
Context `{Base64Laws} `{CryptoLaws} `{JsonTextLaws} `{JsonReader} `{!JsonReaderLaws}.

Lemma assertion_from_fields a :
  assertion_wf a -> assertion_from_value (VObject (assertion_fields a)) = Some a.
Proof.
  intros [(? & ? & ? & ? & Hv) _].
  assert (Hi : forall z, in_i64 z -> as_i64 (num_of_i64 z) = Some z) by apply as_i64_json_int.
  assert (Hvb : in_i32b (a_subject_key_version a) = true) by by apply in_i32b_spec.
  destruct a as [v i u s n o j t w x d k q g]. cbn [a_version a_iat a_nbf a_exp a_subject_key_version] in *.
  cbv -[as_i64 num_of_i64 in_i32b]. rewrite !Hi by auto with relay. by rewrite Hvb.
Qed.

Lemma revocation_from_fields r :
  revocation_wf r -> revocation_from_value (VObject (revocation_fields r)) = Some r.
Proof.
  intros [(? & ?) _].
  assert (Hi : forall z, in_i64 z -> as_i64 (num_of_i64 z) = Some z) by apply as_i64_json_int.
  destruct r as [v i u s j t w k g]. cbn [rv_version rv_iat] in *. cbv -[as_i64 num_of_i64]. by rewrite !Hi.
Qed.

Lemma assertion_to_bytes a :
  assertion_wf a -> exists b, Assertion.to_bytes a = Ok b /\ from_slice assertion_from_value b = Ok a.
Proof.
  intros Hwf. pose proof (assertion_wire a Hwf) as Hw.
  destruct (to_vec_total (assertion_fields a)) as [b Hb]; [apply Hw|]. exists b. split; [done|].
  by rewrite (from_slice_to_vec assertion_from_value _ b Hw Hb), assertion_from_fields.
Qed.

Lemma revocation_to_bytes r :
  revocation_wf r -> exists b, Revocation.to_bytes r = Ok b /\ from_slice revocation_from_value b = Ok r.
Proof.
  intros Hwf. pose proof (revocation_wire r Hwf) as Hw.
  destruct (to_vec_total (revocation_fields r)) as [b Hb]; [apply Hw|]. exists b. split; [done|].
  by rewrite (from_slice_to_vec revocation_from_value _ b Hw Hb), revocation_from_fields.
Qed.

End Site.

(** A registration request is read back from its text by the relay. *)
Lemma registration_from_fields r :
  registration_wf r -> registration_from_value (VObject (request_fields r)) = Some r.
Proof.
  intros (? & ? & ?).
  assert (Hi : forall z, in_i64 z -> as_i64 (num_of_i64 z) = Some z) by apply as_i64_json_int.
  destruct r as [v d s n i e p q g]. cbn [reg_version reg_iat reg_exp] in *.
  cbv -[as_i64 num_of_i64]. by rewrite !Hi.
Qed.

Lemma over_utf8 p lo hi s : (forall c, p c = true -> is_ascii c = true) -> over p lo hi s -> utf8_ok s.
Proof. intros Hp [Hs _]. apply utf8_ok_ascii. by eapply str_forallb_impl. Qed.

Lemma cls_kid_ascii c : cls_kid c = true -> is_ascii c = true.
Proof. destruct c as [[] [] [] [] [] [] [] []]; vm_compute; congruence. Qed.
Lemma cls_id_ascii c : cls_id c = true -> is_ascii c = true.
Proof. intros. apply cls_kid_ascii. unfold cls_kid. by apply orb_true_intro; left. Qed.

Lemma cls_domain_ascii c : cls_domain c = true -> is_ascii c = true.
Proof. intros ?%cls_domain_cz. unfold is_ascii. apply Z.ltb_lt. lia. Qed.

Lemma domain_utf8 d : domain_name d -> utf8_ok d.
Proof.
  intros Hd. apply utf8_ok_ascii. eapply str_forallb_impl; [apply cls_domain_ascii|by apply domain_name_chars].
Qed.

Lemma assertion_sign_wf `{Base64Laws} `{CryptoLaws} `{JsonText}
    seed kid aud sub sid nonce jti iat exp dn skv a :
  in_i64 iat -> in_i64 exp -> in_i32 skv -> utf8_ok aud -> utf8_ok jti -> utf8_ok dn ->
  Assertion.sign seed kid aud sub sid nonce jti iat exp dn skv = Ok a -> assertion_wf a.
Proof.
  intros Hi He Hv Ha Hj Hd Hs. apply Assertion.assertion_sign_Ok in Hs as ((? & ? & ? & ? & _) & t & _ & ->).
  pose proof (sign_over seed (as_bytes t)) as Hg.
  assert (Hc : forall lo hi s, over cls_id lo hi s -> utf8_ok s)
    by (intros lo hi s; apply over_utf8, cls_id_ascii).
  assert (utf8_ok kid) by (eapply over_utf8; [apply cls_kid_ascii|eassumption]).
  assert (in_i64 1) by by vm_compute.
  assert (utf8_ok RELAY_ORIGIN) by by apply utf8_ok_ascii.
  unfold assertion_wf. cbn [a_version a_iss a_aud a_sub a_session_id a_nonce a_jti a_iat a_nbf a_exp
    a_display_name a_subject_key_version a_kid a_signature]. eauto 20.
Qed.

Lemma revocation_sign_wf `{Base64Laws} `{CryptoLaws} `{JsonText} seed kid aud sub jti iat reason r :
  in_i64 iat -> utf8_ok kid -> utf8_ok aud -> utf8_ok sub -> utf8_ok jti -> utf8_ok reason ->
  Revocation.sign seed kid aud sub jti iat reason = Ok r -> revocation_wf r.
Proof.
  intros Hi Hk Ha Hs Hj Hr Hsign. apply Revocation.revocation_sign_Ok in Hsign as (t & _ & ->).
  pose proof (over_utf8 _ _ _ _ cls_id_ascii (sign_over seed (as_bytes t))).
  assert (in_i64 1) by by vm_compute.
  assert (utf8_ok RELAY_ORIGIN) by by apply utf8_ok_ascii.
  unfold revocation_wf. cbn [rv_version rv_iss rv_aud rv_sub rv_jti rv_iat rv_reason rv_kid
    rv_signature]. eauto 20.
Qed.

(** ** Properties *)

(** C20: The bytes signed in the protocol determine what was signed: if two of the
    seven texts have the same bytes they are of the same kind and agree on every
    field.  So a signature on a QR code is never a signature on a registration, a
    refusal is never an approval, and neither the relay's assertions nor its
    revocations can be passed off as anything else or for another audience,
    subject, session or expiry. *)
Theorem signed_texts_determined `{JsonTextLaws} t u b :
  signed_wf t -> signed_wf u -> signed_bytes t = Ok b ->
  (signed_bytes u = Ok b -> signed_fields t = signed_fields u) /\
  (forall a a', t = AssertionText a -> u = AssertionText a' -> signed_bytes u = Ok b ->
     Assertion.with_signature a "" = Assertion.with_signature a' "") /\
  (forall r r', t = QrCode r -> u = RegistrationText r' -> signed_bytes u <> Ok b).
Proof.
  intros Ht Hu Hb. pose proof (signed_bytes_inj t u b Ht Hu Hb) as Hi. split; [done|]. split.
  - intros a a' -> -> E. specialize (Hi E). destruct a, a'. cbn in Hi.
    injection Hi; intros; subst. unfold Assertion.with_signature; cbn.
    repeat match goal with E : num_of_i64 ?x = num_of_i64 ?y |- _ =>
      assert (x = y) as -> by (apply json_int_inj; unfold json_int; by rewrite E); clear E end.
    done.
  - intros r r' -> -> E. specialize (Hi E). discriminate Hi.
Qed.

(** C25: [RelayAssertion::sign] succeeds exactly when the key id, session, nonce,
    subject and display name are within their classes; the body then sent parses
    at the site to the very assertion, which is version 1, issued by the relay,
    not valid before its issue time, carries the given audience, subject, session,
    nonce, token id, expiry and name, and whose signature the site's check
    accepts under the relay's public key. *)
Theorem assertion_reaches_site `{Base64Laws} `{CryptoLaws} `{JsonTextLaws} `{JsonReader}
    `{!JsonReaderLaws} seed kid aud sub sid nonce jti iat exp dn skv :
  blen seed = 32 -> in_i64 iat -> in_i64 exp -> in_i32 skv ->
  utf8_ok aud -> utf8_ok jti -> utf8_ok dn ->
  ((exists a, Assertion.sign seed kid aud sub sid nonce jti iat exp dn skv = Ok a) <->
   over cls_kid 1 64 kid /\ over cls_id 16 128 sid /\ over cls_id 16 128 nonce /\
   over cls_id 22 128 sub /\ 0 < slen dn <= 100) /\
  (forall a, Assertion.sign seed kid aud sub sid nonce jti iat exp dn skv = Ok a ->
   a = {| a_version := 1; a_iss := RELAY_ORIGIN; a_aud := aud; a_sub := sub; a_session_id := sid;
          a_nonce := nonce; a_jti := jti; a_iat := iat; a_nbf := iat; a_exp := exp;
          a_display_name := dn; a_subject_key_version := skv; a_kid := kid;
          a_signature := a_signature a |} /\
   exists body text,
     Assertion.to_bytes a = Ok body /\ from_slice assertion_from_value body = Ok a /\
     Assertion.canonical_without_signature a = Ok text /\
     verify (Base64url.encode (public_key_raw seed)) (as_bytes text) (a_signature a) = Ok tt).
Proof.
  intros Hseed Hi He Hv Ha Hj Hd. split.
  - split; [intros (a & Hs); by apply Assertion.assertion_sign_Ok in Hs as [? _]|].
    intros (? & ? & ? & ? & ?). by apply Assertion.assertion_sign_total.
  - intros a Hs. pose proof (assertion_sign_wf _ _ _ _ _ _ _ _ _ _ _ a Hi He Hv Ha Hj Hd Hs) as Hwf.
    destruct (assertion_to_bytes a Hwf) as (body & Hb & Hr).
    apply Assertion.assertion_sign_Ok in Hs as (_ & text & Ht & ->). split; [done|].
    exists body, text. split; [exact Hb|]. split; [exact Hr|]. split; [exact Ht|].
    exact (verify_sign seed (as_bytes text) [] Hseed (or_introl eq_refl)).
Qed.

(** A revocation notice always can be signed; its body parses at the site to
    the notice, which names the audience and subject given, and its signature
    verifies under the relay's public key. *)
Lemma revocation_reaches_site `{Base64Laws} `{CryptoLaws} `{JsonTextLaws} `{JsonReader}
    `{!JsonReaderLaws} seed kid aud sub jti iat reason :
  blen seed = 32 -> in_i64 iat ->
  utf8_ok kid -> utf8_ok aud -> utf8_ok sub -> utf8_ok jti -> utf8_ok reason ->
  exists r body text,
    Revocation.sign seed kid aud sub jti iat reason = Ok r /\
    (rv_version r, rv_iss r, rv_aud r, rv_sub r, rv_jti r, rv_iat r, rv_reason r, rv_kid r) =
      (1, RELAY_ORIGIN, aud, sub, jti, iat, reason, kid) /\
    Revocation.to_bytes r = Ok body /\ from_slice revocation_from_value body = Ok r /\
    Revocation.canonical_without_signature r = Ok text /\
    verify (Base64url.encode (public_key_raw seed)) (as_bytes text) (rv_signature r) = Ok tt.
Proof.
  intros Hseed Hi Hk Ha Hs Hj Hr.
  destruct (Revocation.revocation_sign_total seed kid aud sub jti iat reason Hi) as (r & Hsign).
  pose proof (revocation_sign_wf _ _ _ _ _ _ _ r Hi Hk Ha Hs Hj Hr Hsign) as Hwf.
  destruct (revocation_to_bytes r Hwf) as (body & Hb & Hread).
  pose proof Hsign as (text & Ht & Hrec)%Revocation.revocation_sign_Ok.
  exists r, body, text. rewrite Hrec in *. split; [exact Hsign|]. split; [reflexivity|].
  split; [exact Hb|]. split; [exact Hread|]. split; [exact Ht|].
  exact (verify_sign seed (as_bytes text) [] Hseed (or_introl eq_refl)).
Qed.

(** ** Witnesses *)

Import Rfc4648 Rfc8259 RfcReader Toy.

Ltac utf8_tac := apply utf8_ok_ascii; reflexivity.
Ltac i64_tac := unfold in_i64, in_i32, i32_min, i32_max, i64_min, i64_max; lia.

Definition sample_sub : string := Base64url.encode (repeat x03 32).
Definition sample_jti : string := Base64url.encode (repeat x04 16).

Lemma signed_texts_determined_witness :
  let t := ConsentText true "challenge_123456" (Some "Alice") "nonce_12345678901"
             "session_123456789" 1800000003000 in
  exists b, signed_bytes t = Ok b /\ signed_fields t = signed_fields t.
Proof.
  intros t. assert (Hwf : signed_wf t) by (cbn; i64_tac).
  destruct (consent_total true "challenge_123456" (Some "Alice") "nonce_12345678901"
    "session_123456789" 1800000003000 Hwf) as (b & Hb). exists b. split; [exact Hb|].
  exact (proj1 (signed_texts_determined t t b Hwf Hwf Hb) Hb).
Defined.

(** The assertion of the source's own test. *)
Lemma assertion_reaches_site_witness :
  exists a, Assertion.sign toy_seed "relay-2026-01" "login.example.org" sample_sub
    "session_123456789" "nonce_12345678901" sample_jti 1800000003500 1800000300000 "Alice" 1 = Ok a.
Proof.
  assert (Hu : utf8_ok sample_jti) by utf8_tac.
  apply (assertion_reaches_site toy_seed "relay-2026-01" "login.example.org" sample_sub
    "session_123456789" "nonce_12345678901" sample_jti 1800000003500 1800000300000 "Alice" 1
    eq_refl ltac:(i64_tac) ltac:(i64_tac) ltac:(i64_tac) ltac:(utf8_tac) Hu ltac:(utf8_tac)).
  repeat split; try reflexivity; vm_compute; congruence.
Defined.

Lemma revocation_reaches_site_witness :
  exists r, Revocation.sign toy_seed "relay-2026-01" "login.example.org" sample_sub sample_jti
    1800000003500 "user_revoked" = Ok r /\ rv_aud r = "login.example.org".
Proof.
  destruct (revocation_reaches_site toy_seed "relay-2026-01" "login.example.org" sample_sub
    sample_jti 1800000003500 "user_revoked" eq_refl ltac:(i64_tac) ltac:(utf8_tac)
    ltac:(utf8_tac) ltac:(utf8_tac) ltac:(utf8_tac) ltac:(utf8_tac)) as (r & b & t & Hs & Hf & _).
  exists r. split; [exact Hs|]. by injection Hf.
Defined.
