(* ===== verification/RoomPolicy.v ===== *)
(** * Room policy (src/src/room_policy.rs) and its use on invitations
    (src/src/matrix/rooms.rs, [auto_join_invites] of src/src/matrix/client.rs)

    matrix_sdk's rooms are a parameter: [SdkRoom] records what the SDK answers to
    each question the code asks about a room, [None] where the call fails. *)

From S2P Require Import Prelude Errors Constants.

#[local] Set Warnings "-clear-no-such-hyp".

(** ** room_policy.rs *)

Record RoomSnapshot := {
  rs_encrypted : bool;
  rs_is_direct : bool;
  rs_members : list string;
  rs_sender : string;
  rs_relay_user_id : string
}.

Record InviteSnapshot := {
  is_encrypted : bool;
  is_encryption_unknown : bool;
  is_is_direct : bool;
  is_joined_member_count : Z;
  is_invited_member_count : Z;
  is_members : list string;
  is_relay_user_id : string
}.

Inductive RoomPolicyViolation := Unencrypted | UnexpectedMember | UnexpectedSender | Guest.

#[export] Instance violation_eq_dec : EqDecision RoomPolicyViolation.
Proof. solve_decision. Defined.

(** [Result<(), RoomPolicyViolation>]. *)
Definition verdict : Type := unit + RoomPolicyViolation.
Definition allow : verdict := inl tt.
Definition refuse (v : RoomPolicyViolation) : verdict := inr v.
Definition allowed (v : verdict) : bool := match v with inl _ => true | inr _ => false end.

(** [m.ends_with(":guest") || m.contains("guest")]. *)
Definition guest_like (m : string) : bool := ends_with ":guest" m || contains "guest" m.

(** The relay's own id in a snapshot. *)
Definition snapshot_relay (s : RoomSnapshot) : string :=
  if String.eqb (rs_relay_user_id s) "" then MATRIX_USER_ID else rs_relay_user_id s.

Definition check_room (s : RoomSnapshot) : verdict :=
  if negb (rs_encrypted s) then refuse Unencrypted
  else if negb (length (rs_members s) =? 2)%nat then refuse UnexpectedMember
  else
    let relay := snapshot_relay s in
    if negb (existsb (fun m => String.eqb m relay) (rs_members s)) then refuse UnexpectedMember
    else if existsb guest_like (rs_members s) then refuse Guest
    else if String.eqb (rs_sender s) relay
            || negb (existsb (fun m => String.eqb m (rs_sender s)) (rs_members s))
    then refuse UnexpectedSender
    else allow.

Definition check_invite (s : InviteSnapshot) : verdict :=
  if negb (is_encrypted s) && negb (is_encryption_unknown s) then refuse Unencrypted
  else
    let summary_unknown := (is_joined_member_count s =? 0) && (is_invited_member_count s =? 0) in
    if negb summary_unknown
       && (negb (is_joined_member_count s =? 1) || negb (is_invited_member_count s =? 1))
    then refuse UnexpectedMember
    else if negb (existsb (fun m => String.eqb m (is_relay_user_id s)) (is_members s))
    then refuse UnexpectedMember
    else
      let peers := List.filter (fun m => negb (String.eqb m (is_relay_user_id s))) (is_members s) in
      if (1 <? length peers)%nat then refuse UnexpectedMember
      else if summary_unknown && negb (length peers =? 1)%nat then refuse UnexpectedMember
      else if match head peers with Some peer => guest_like peer | None => false end
      then refuse Guest
      else allow.

(** ** rooms.rs *)

Inductive RoomState := Joined | Left | Invited | OtherState.
Inductive EncryptionState := Encrypted | NotEncrypted | EncryptionUnknown.
Inductive Membership := Join | Invite | OtherMembership.

#[export] Instance room_state_eq_dec : EqDecision RoomState.
Proof. solve_decision. Defined.
#[export] Instance encryption_eq_dec : EqDecision EncryptionState.
Proof. solve_decision. Defined.
#[export] Instance membership_eq_dec : EqDecision Membership.
Proof. solve_decision. Defined.

Record SdkRoom := {
  room_id : string;
  room_state : RoomState;
  (** [members(ACTIVE)]: user id and membership. *)
  room_members : option (list (string * Membership));
  (** [is_direct().await]. *)
  room_direct : option bool;
  (** [encryption_state()] before [request_encryption_state()], that call, and
      [encryption_state()] after it. *)
  room_encryption : EncryptionState;
  room_request_encryption : option unit;
  room_encryption_after : EncryptionState;
  room_joined_count : Z;
  room_invited_count : Z;
  (** [sync_members()] and [members_no_sync(JOIN)]. *)
  room_sync_members : option unit;
  room_members_no_sync : option (list (string * Membership))
}.

Definition unwrap_or {A} (d : A) (o : option A) : A := match o with Some a => a | None => d end.

(** The members that have joined, as user ids. *)
Definition joined_ids (members : list (string * Membership)) : list string :=
  List.map fst (List.filter (fun m => bool_decide (snd m = Join)) members).

(** [rooms::snapshot]. *)
Definition snapshot (room : SdkRoom) (sender relay_user_id : string) : result RoomSnapshot :=
  let? members := ok_or (room_members room) InternalError in
  Ok {| rs_encrypted := bool_decide (room_encryption room = Encrypted);
        rs_is_direct := unwrap_or false (room_direct room);
        rs_members := joined_ids members;
        rs_sender := sender;
        rs_relay_user_id := relay_user_id |}.

Definition invite_is_safe (room : SdkRoom) (relay_user_id : string) : result bool :=
  if negb (bool_decide (room_state room = Invited)) then Ok false
  else
    let? members := ok_or (room_members room) InternalError in
    Ok (allowed (check_invite
      {| is_encrypted := bool_decide (room_encryption room = Encrypted);
         is_encryption_unknown := bool_decide (room_encryption room = EncryptionUnknown);
         is_is_direct := unwrap_or false (room_direct room);
         is_joined_member_count := room_joined_count room;
         is_invited_member_count := room_invited_count room;
         is_members := List.map fst members;
         is_relay_user_id := relay_user_id |})).

Definition joined_room_is_safe (room : SdkRoom) (relay_user_id : string) : result bool :=
  if negb (bool_decide (room_state room = Joined)) then Ok false
  else
    let? _ := ok_or (room_request_encryption room) InternalError in
    let? _ := ok_or (room_sync_members room) InternalError in
    let? members := ok_or (room_members_no_sync room) InternalError in
    let ids := joined_ids members in
    match find (fun m => negb (String.eqb m relay_user_id)) ids with
    | None => Ok false
    | Some peer =>
        Ok (allowed (check_room
          {| rs_encrypted := bool_decide (room_encryption_after room = Encrypted);
             rs_is_direct := unwrap_or false (room_direct room);
             rs_members := ids;
             rs_sender := peer;
             rs_relay_user_id := relay_user_id |}))
    end.

(** ** client.rs: auto_join_invites

    [join], [leave] and [get_room] are the SDK's; [inr m] is an SDK error, whose
    text becomes the payload of [RelayError::Internal]. *)
Record Sdk := {
  sdk_join : SdkRoom -> unit + string;
  sdk_leave : SdkRoom -> unit + string;
  sdk_get_room : string -> option SdkRoom
}.

Definition sdk_result (r : unit + string) : result unit :=
  match r with inl _ => Ok tt | inr m => Err (Internal m) end.

Inductive RoomAction := ActJoin (id : string) | ActLeave (id : string) | ActKeep (id : string).

(** The loop over [client.invited_rooms()], with the actions attempted; [ActKeep] stands
    for the log line of a room the relay stays in.  A call whose result is an error ends
    the loop. *)
Fixpoint auto_join_invites (sdk : Sdk) (relay_user_id : string) (rooms : list SdkRoom)
  : list RoomAction * result unit :=
  match rooms with
  | [] => ([], Ok tt)
  | room :: rest =>
      match invite_is_safe room relay_user_id with
      | Err e => ([], Err e)
      | Ok false =>
          match sdk_result (sdk_leave sdk room) with
          | Err e => ([ActLeave (room_id room)], Err e)
          | Ok _ =>
              let '(acts, r) := auto_join_invites sdk relay_user_id rest in
              (ActLeave (room_id room) :: acts, r)
          end
      | Ok true =>
          match sdk_result (sdk_join sdk room) with
          | Err e => ([ActJoin (room_id room)], Err e)
          | Ok _ =>
              match sdk_get_room sdk (room_id room) with
              | None => ([ActJoin (room_id room)], problem InternalError)
              | Some joined =>
                  match joined_room_is_safe joined relay_user_id with
                  | Err e => ([ActJoin (room_id room)], Err e)
                  | Ok true =>
                      let '(acts, r) := auto_join_invites sdk relay_user_id rest in
                      (ActJoin (room_id room) :: ActKeep (room_id joined) :: acts, r)
                  | Ok false =>
                      match sdk_result (sdk_leave sdk joined) with
                      | Err e => ([ActJoin (room_id room); ActLeave (room_id joined)], Err e)
                      | Ok _ =>
                          let '(acts, r) := auto_join_invites sdk relay_user_id rest in
                          (ActJoin (room_id room) :: ActLeave (room_id joined) :: acts, r)
                      end
                  end
              end
          end
      end
  end.

(** ** What the policy allows *)

Record room_ok (s : RoomSnapshot) : Prop := {
  ro_encrypted : rs_encrypted s = true;
  (** The members are the relay and the sender, and no one else. *)
  ro_members : rs_members s ≡ₚ [snapshot_relay s; rs_sender s];
  ro_distinct : rs_sender s <> snapshot_relay s;
  ro_guest : Forall (fun m => contains "guest" m = false /\ ends_with ":guest" m = false) (rs_members s)
}.

Lemma existsb_eqb x l : existsb (fun m => String.eqb m x) l = true <-> x ∈ l.
Proof.
  rewrite existsb_exists. setoid_rewrite String.eqb_eq. rewrite list_elem_of_In. naive_solver.
Qed.

Lemma guest_like_false m :
  guest_like m = false <-> contains "guest" m = false /\ ends_with ":guest" m = false.
Proof. unfold guest_like. rewrite orb_false_iff. tauto. Qed.

Lemma check_room_allow s : check_room s = allow <-> room_ok s.
Proof.
  unfold check_room, allow, refuse. split.
  - intros H. repeat case_if_in H; try done. bool_hyp.
    match goal with H : existsb guest_like _ = false |- _ => apply existsb_false in H as Hg end.
    repeat match goal with
    | H : existsb (fun m => String.eqb m _) _ = true |- _ => apply existsb_eqb in H
    | H : Nat.eqb _ _ = true |- _ => apply Nat.eqb_eq in H
    end.
    split; [done| |done|eapply Forall_impl; [exact Hg|]; intros m; apply guest_like_false].
    destruct (rs_members s) as [|a [|b [|]]]; try done.
    rewrite !elem_of_cons, elem_of_nil in *.
    repeat match goal with H : _ \/ _ |- _ => destruct H end; subst; try done.
    by rewrite Permutation_swap.
  - intros [-> Hm Hd Hg]. cbn [negb].
    rewrite (Permutation_length Hm). cbn [length Nat.eqb negb].
    rewrite (proj2 (existsb_eqb _ _)) by (rewrite Hm; left). cbn [negb].
    rewrite (proj2 (existsb_false _ _)).
    2: { eapply Forall_impl; [exact Hg|]. intros m. apply guest_like_false. }
    rewrite (proj2 (String.eqb_neq _ _)) by done.
    rewrite (proj2 (existsb_eqb (rs_sender s) _)) by (rewrite Hm; right; left). done.
Qed.

(** What a pre-join check lets through: no room known to be unencrypted, at most
    one member besides the relay, who must be a member. *)
Record invite_ok (s : InviteSnapshot) : Prop := {
  io_encrypted : is_encrypted s = true \/ is_encryption_unknown s = true;
  io_relay : is_relay_user_id s ∈ is_members s;
  io_counts : (is_joined_member_count s = 0 /\ is_invited_member_count s = 0) \/
              (is_joined_member_count s = 1 /\ is_invited_member_count s = 1);
  io_peers : exists peers,
    List.filter (fun m => negb (String.eqb m (is_relay_user_id s))) (is_members s) = peers /\
    (peers = [] /\ is_joined_member_count s = 1 \/
     exists peer, peers = [peer] /\ guest_like peer = false)
}.

Lemma check_invite_allow s : check_invite s = allow <-> invite_ok s.
Proof.
  unfold check_invite, allow, refuse. split.
  - intros H. repeat case_if_in H; try done.
    match goal with H : negb (existsb _ _) = false |- _ =>
      apply negb_false_iff, existsb_eqb in H end.
    split; [|done| |].
    + destruct (is_encrypted s), (is_encryption_unknown s); auto.
    + destruct (is_joined_member_count s =? 0) eqn:E1, (is_invited_member_count s =? 0) eqn:E2;
        cbn [andb negb] in *; bool_hyp; auto.
    + eexists. split; [reflexivity|].
      destruct (List.filter _ (is_members s)) as [|p [|]]; cbn [length head Nat.ltb Nat.leb] in *;
        try done; [left|right; eauto].
      split; [done|].
      destruct (is_joined_member_count s =? 0) eqn:E1, (is_invited_member_count s =? 0) eqn:E2;
        cbn [andb negb Nat.eqb] in *; bool_hyp; done.
  - intros [He Hr Hc (peers & Hp & Hpeers)]. rewrite Hp, (proj2 (existsb_eqb _ _) Hr). cbn [negb].
    assert (negb (is_encrypted s) && negb (is_encryption_unknown s) = false) as ->
      by by destruct He as [-> | ->]; rewrite ?andb_false_r.
    destruct Hc as [[E1 E2]|[E1 E2]]; rewrite E1, E2; cbn [andb negb orb Z.eqb Pos.eqb];
      destruct Hpeers as [[-> ?]|(peer & -> & Hg)]; cbn; try lia; by rewrite ?Hg.
Qed.

(** What the invite check of a room looks at. *)
Definition invite_of (room : SdkRoom) (members : list (string * Membership)) (relay : string)
  : InviteSnapshot := {|
  is_encrypted := bool_decide (room_encryption room = Encrypted);
  is_encryption_unknown := bool_decide (room_encryption room = EncryptionUnknown);
  is_is_direct := unwrap_or false (room_direct room);
  is_joined_member_count := room_joined_count room;
  is_invited_member_count := room_invited_count room;
  is_members := List.map fst members;
  is_relay_user_id := relay |}.

(** A room the relay may join: it is invited there, and the policy allows the invite. *)
Definition may_join (relay : string) (room : SdkRoom) : Prop :=
  room_state room = Invited /\
  exists members, room_members room = Some members /\ invite_ok (invite_of room members relay).

(** A room the relay may stay in: it is joined, its state could be fetched, and the
    policy allows the room with the first member besides the relay as its peer. *)
Definition kept_ok (relay : string) (joined : SdkRoom) : Prop :=
  room_state joined = Joined /\
  is_Some (room_request_encryption joined) /\ is_Some (room_sync_members joined) /\
  exists members peer, room_members_no_sync joined = Some members /\
    find (fun m => negb (String.eqb m relay)) (joined_ids members) = Some peer /\
    room_ok {| rs_encrypted := bool_decide (room_encryption_after joined = Encrypted);
               rs_is_direct := unwrap_or false (room_direct joined);
               rs_members := joined_ids members;
               rs_sender := peer;
               rs_relay_user_id := relay |}.

(** The SDK answered all that a check asks. *)
Definition invite_known (room : SdkRoom) : Prop :=
  room_state room = Invited -> is_Some (room_members room).
Definition joined_known (joined : SdkRoom) : Prop :=
  room_state joined = Joined -> is_Some (room_request_encryption joined) /\
    is_Some (room_sync_members joined) /\ is_Some (room_members_no_sync joined).

Lemma allowed_true v : allowed v = true <-> v = allow.
Proof. destruct v as [[]|]; cbn; unfold allow; split; done. Qed.

(** The three answers of the invite check. *)
Lemma invite_is_safe_cases room relay :
  match invite_is_safe room relay with
  | Ok true => may_join relay room
  | Ok false => ~ may_join relay room /\ invite_known room
  | Err e => e = Problem InternalError /\ ~ invite_known room
  end.
Proof.
  unfold invite_is_safe, may_join, invite_known. case_bool_decide as Hs; cbn [negb].
  2: { split; [by intros [? _]|done]. }
  destruct (room_members room) as [members|]; cbn [ok_or rbind].
  2: { split; [done|]. intros Hk. by destruct (Hk Hs). }
  fold (invite_of room members relay). destruct (allowed _) eqn:Ea.
  - apply allowed_true, check_invite_allow in Ea. split; [done|]. by exists members.
  - split; [|by eexists]. intros (_ & m & [= <-] & Hok). apply check_invite_allow, allowed_true in Hok. congruence.
Qed.

(** The three answers of the check after the join. *)
Lemma joined_room_is_safe_cases room relay :
  match joined_room_is_safe room relay with
  | Ok true => kept_ok relay room
  | Ok false => ~ kept_ok relay room /\ joined_known room
  | Err e => e = Problem InternalError /\ ~ joined_known room
  end.
Proof.
  unfold joined_room_is_safe, kept_ok, joined_known. case_bool_decide as Hs; cbn [negb].
  2: { split; [by intros [? _]|done]. }
  destruct (room_request_encryption room) as [[]|]; cbn [ok_or rbind].
  2: { split; [done|]. intros Hk. by destruct (Hk Hs) as [[? ?] _]. }
  destruct (room_sync_members room) as [[]|]; cbn [ok_or rbind].
  2: { split; [done|]. intros Hk. by destruct (Hk Hs) as (_ & [? ?] & _). }
  destruct (room_members_no_sync room) as [members|]; cbn [ok_or rbind].
  2: { split; [done|]. intros Hk. by destruct (Hk Hs) as (_ & _ & [? ?]). }
  destruct (find _ _) as [peer|] eqn:Ef.
  2: { split; [|eauto]. intros (_ & _ & _ & ms & p & [= <-] & Hp & _). congruence. }
  destruct (allowed _) eqn:Ea.
  - apply allowed_true, check_room_allow in Ea. split_and!; eauto.
  - split; [|eauto]. intros (_ & _ & _ & ms & p & [= <-] & Hp & Hok).
    rewrite Ef in Hp. injection Hp as <-. apply check_room_allow, allowed_true in Hok. congruence.
Qed.

(** *** A pass over the invitations *)

Section Pass.
Variables (sdk : Sdk) (relay : string).

(** A room that was dealt with: refused, joined and kept, or joined and left. *)
Inductive handled (room : SdkRoom) : list RoomAction -> Prop :=
  | handled_refused :
      ~ may_join relay room -> invite_known room -> sdk_leave sdk room = inl tt ->
      handled room [ActLeave (room_id room)]
  | handled_kept joined :
      may_join relay room -> sdk_join sdk room = inl tt ->
      sdk_get_room sdk (room_id room) = Some joined -> kept_ok relay joined ->
      handled room [ActJoin (room_id room); ActKeep (room_id joined)]
  | handled_left joined :
      may_join relay room -> sdk_join sdk room = inl tt ->
      sdk_get_room sdk (room_id room) = Some joined ->
      ~ kept_ok relay joined -> joined_known joined -> sdk_leave sdk joined = inl tt ->
      handled room [ActJoin (room_id room); ActLeave (room_id joined)].

(** A room at which the pass stopped, with the error.  In the three cases after a join
    that did not fail ([stopped_gone], [stopped_unchecked], [stopped_leaving]) the relay
    is left in a room that the policy has not allowed. *)
Inductive stopped (room : SdkRoom) : list RoomAction -> RelayError -> Prop :=
  | stopped_unknown :
      ~ invite_known room -> stopped room [] (Problem InternalError)
  | stopped_refusing m :
      ~ may_join relay room -> invite_known room -> sdk_leave sdk room = inr m ->
      stopped room [ActLeave (room_id room)] (Internal m)
  | stopped_joining m :
      may_join relay room -> sdk_join sdk room = inr m ->
      stopped room [ActJoin (room_id room)] (Internal m)
  | stopped_gone :
      may_join relay room -> sdk_join sdk room = inl tt -> sdk_get_room sdk (room_id room) = None ->
      stopped room [ActJoin (room_id room)] (Problem InternalError)
  | stopped_unchecked joined :
      may_join relay room -> sdk_join sdk room = inl tt ->
      sdk_get_room sdk (room_id room) = Some joined -> ~ joined_known joined ->
      stopped room [ActJoin (room_id room)] (Problem InternalError)
  | stopped_leaving joined m :
      may_join relay room -> sdk_join sdk room = inl tt ->
      sdk_get_room sdk (room_id room) = Some joined ->
      ~ kept_ok relay joined -> joined_known joined -> sdk_leave sdk joined = inr m ->
      stopped room [ActJoin (room_id room); ActLeave (room_id joined)] (Internal m).

(** A pass deals with the rooms in order until one stops it. *)
Inductive pass : list SdkRoom -> list RoomAction -> result unit -> Prop :=
  | pass_done : pass [] [] (Ok tt)
  | pass_next room part rest acts r :
      handled room part -> pass rest acts r -> pass (room :: rest) (part ++ acts) r
  | pass_stop room last e rest :
      stopped room last e -> pass (room :: rest) last (Err e).

Lemma sdk_result_Ok r : sdk_result r = Ok tt -> r = inl tt.
Proof. by destruct r as [[]|]. Qed.

Lemma auto_join_pass rooms acts r : auto_join_invites sdk relay rooms = (acts, r) -> pass rooms acts r.
Proof.
  revert acts. induction rooms as [|room rest IH]; intros acts; cbn [auto_join_invites].
  { intros [= <- <-]. constructor. }
  pose proof (invite_is_safe_cases room relay) as Hi.
  destruct (invite_is_safe room relay) as [[]|e].
  2: { destruct Hi as [Hi Hk]. destruct (sdk_leave sdk room) as [[]|m] eqn:El; cbn [sdk_result].
       - destruct (auto_join_invites sdk relay rest) as [acts' r']. intros [= <- <-].
         apply (pass_next room [_]); [by apply handled_refused|by apply IH].
       - intros [= <- <-]. by apply pass_stop, stopped_refusing. }
  2: { destruct Hi as [-> Hk]. intros [= <- <-]. by apply pass_stop, stopped_unknown. }
  destruct (sdk_join sdk room) as [[]|m] eqn:Ej; cbn [sdk_result].
  2: { intros [= <- <-]. by apply pass_stop, stopped_joining. }
  destruct (sdk_get_room sdk (room_id room)) as [joined|] eqn:Eg.
  2: { intros [= <- <-]. by apply pass_stop, stopped_gone. }
  pose proof (joined_room_is_safe_cases joined relay) as Hj.
  destruct (joined_room_is_safe joined relay) as [[]|e].
  - destruct (auto_join_invites sdk relay rest) as [acts' r']. intros [= <- <-].
    apply (pass_next room [_; _]); [by eapply handled_kept|by apply IH].
  - destruct Hj as [Hj Hk]. destruct (sdk_leave sdk joined) as [[]|m] eqn:El; cbn [sdk_result].
    + destruct (auto_join_invites sdk relay rest) as [acts' r']. intros [= <- <-].
      apply (pass_next room [_; _]); [by eapply handled_left|by apply IH].
    + intros [= <- <-]. by eapply pass_stop, stopped_leaving.
  - destruct Hj as [-> Hk]. intros [= <- <-]. by eapply pass_stop, stopped_unchecked.
Qed.

(** What follows a join: the relay keeps the room, or leaves it, or the pass ends there
    with an error. *)
Definition join_followed (room : SdkRoom) (post : list RoomAction) (r : result unit) : Prop :=
  match post with
  | ActKeep id :: _ => exists joined, sdk_get_room sdk (room_id room) = Some joined /\
      room_id joined = id /\ kept_ok relay joined
  | ActLeave id :: _ => exists joined, sdk_get_room sdk (room_id room) = Some joined /\
      room_id joined = id /\ ~ kept_ok relay joined
  | ActJoin _ :: _ => False
  | [] => exists e, r = Err e
  end.

Lemma pass_joins rooms acts r pre id post :
  pass rooms acts r -> acts = pre ++ ActJoin id :: post ->
  exists room, room ∈ rooms /\ room_id room = id /\ may_join relay room /\ join_followed room post r.
Proof.
  intros Hp. revert pre. induction Hp as [|room part rest acts r Hh _ IH|room last e rest Hs]; intros pre.
  - by destruct pre.
  - assert (Hlater : forall pre, acts = pre ++ ActJoin id :: post -> exists x, x ∈ room :: rest /\
      room_id x = id /\ may_join relay x /\ join_followed x post r).
    { intros pre' E. destruct (IH pre' E) as (x & Hx & Hrest). exists x. by split; [right|]. }
    destruct Hh as [Hm _ _|joined Hm _ Eg Hk|joined Hm _ Eg Hk _ _]; cbn [app];
      destruct pre as [|a [|b pre]]; cbn [app]; intros [=]; try done;
      try (by eapply (Hlater [])); try (by eapply (Hlater (_ :: _))); try (by eapply Hlater); subst.
    + exists room. split_and!; [left|done|done|]. by exists joined.
    + exists room. split_and!; [left|done|done|]. by exists joined.
  - intros ->. assert (Hroom : may_join relay room -> room_id room = id -> join_followed room post (Err e) ->
      exists x, x ∈ room :: rest /\ room_id x = id /\ may_join relay x /\ join_followed x post (Err e)).
    { intros. exists room. split_and!; [left|done..]. }
    inversion Hs; destruct pre as [|a [|b [|c pre]]]; simplify_eq/=; apply Hroom; try done; by eexists.
Qed.

Lemma pass_keeps rooms acts r id :
  pass rooms acts r -> ActKeep id ∈ acts ->
  exists pre room post joined, acts = pre ++ ActJoin (room_id room) :: ActKeep id :: post /\
    room ∈ rooms /\ sdk_get_room sdk (room_id room) = Some joined /\ room_id joined = id /\ kept_ok relay joined.
Proof.
  intros Hp Hin. assert (Hj : exists pre room post, room ∈ rooms /\
    acts = pre ++ ActJoin (room_id room) :: ActKeep id :: post).
  { induction Hp as [|room part rest acts r Hh _ IH|room last e rest Hs]; [by apply elem_of_nil in Hin| |].
    - apply elem_of_app in Hin as [Hin|Hin].
      + destruct Hh; rewrite ?elem_of_cons, ?elem_of_nil in Hin; destruct_or?; simplify_eq.
        exists [], room, acts. split; [left|done].
      + destruct (IH Hin) as (pre & x & post & Hx & ->). exists (part ++ pre), x, post.
        by split; [right|rewrite app_assoc].
    - destruct Hs; rewrite ?elem_of_cons, ?elem_of_nil in Hin; destruct_or?; done. }
  destruct Hj as (pre & room & post & Hroom & E).
  destruct (pass_joins rooms acts r pre _ _ Hp E) as (x & Hx & Hid & _ & joined & Eg & Ej & Hk).
  exists pre, x, post, joined. split; [by rewrite Hid|by split_and!].
Qed.
End Pass.

(** ** Properties *)

(** A room is accepted for the protocol exactly when it is encrypted and its
    members are the relay and the sender, two different users neither of whom
    looks like a guest; an unencrypted room is reported as such before anything
    else is looked at, and a third member, whoever sends, is always a violation. *)
Lemma check_room_exact s :
  (check_room s = allow <-> room_ok s) /\
  (check_room s = refuse Unencrypted <-> rs_encrypted s = false) /\
  (rs_encrypted s = true -> length (rs_members s) <> 2%nat ->
   check_room s = refuse UnexpectedMember).
Proof.
  split; [apply check_room_allow|]. unfold check_room, refuse, allow. split.
  - destruct (rs_encrypted s); cbn [negb]; [|done]. split; [|done].
    intros H. repeat case_if_in H; discriminate H.
  - intros -> Hl. cbn [negb]. by apply Nat.eqb_neq in Hl as ->.
Qed.

(** C18: A pass over the invitations, however it ends, deals with the rooms in order up
    to the first that stops it.  A room is joined only if the relay is invited there and
    the invite passes the policy.  After every join either the joined room passes the
    policy (encrypted, exactly the relay and one non-guest peer) and is kept, or it does
    not and the relay leaves it, or the pass ends right there with an error; a room that
    is refused is left without a join, and a failing [leave] or a check that cannot be
    made ends the pass.  So every room the relay keeps passes the policy, and the rooms it
    may be in otherwise are the last of a pass that ended in an error. *)
Theorem auto_join_enforces sdk relay rooms acts r :
  auto_join_invites sdk relay rooms = (acts, r) ->
  pass sdk relay rooms acts r /\
  (forall pre id post, acts = pre ++ ActJoin id :: post ->
     exists room, room ∈ rooms /\ room_id room = id /\ may_join relay room /\
       join_followed sdk relay room post r) /\
  (forall id, ActKeep id ∈ acts -> exists pre room post joined,
     acts = pre ++ ActJoin (room_id room) :: ActKeep id :: post /\ room ∈ rooms /\
     sdk_get_room sdk (room_id room) = Some joined /\ room_id joined = id /\ kept_ok relay joined).
Proof.
  intros H%auto_join_pass. split; [done|]. split.
  - intros pre id post. by apply pass_joins.
  - intros id. by apply pass_keeps with (r := r).
Qed.

(** ** Witnesses *)

Definition relay_id : string := MATRIX_USER_ID.
Definition alice : string := "@alice:pseud0.org".

Definition sample_room (state : RoomState) (peers : list string) : SdkRoom := {|
  room_id := "!dm:pseud0.org"; room_state := state;
  room_members := Some ((relay_id, Join) :: List.map (fun p => (p, Join)) peers);
  room_direct := None; room_encryption := Encrypted; room_request_encryption := Some tt;
  room_encryption_after := Encrypted; room_joined_count := 1; room_invited_count := 1;
  room_sync_members := Some tt;
  room_members_no_sync := Some ((relay_id, Join) :: List.map (fun p => (p, Join)) peers)
|}.

Definition sample_sdk (joined : option SdkRoom) : Sdk := {|
  sdk_join _ := inl tt; sdk_leave _ := inl tt; sdk_get_room _ := joined
|}.

(** A pass that joins a room, keeps it, and is stopped by an invite that cannot be
    left. *)
Definition stubborn_sdk : Sdk := {|
  sdk_join _ := inl tt;
  sdk_leave _ := inr "forbidden";
  sdk_get_room _ := Some (sample_room Joined [alice])
|}.

Lemma auto_join_enforces_witness :
  pass stubborn_sdk relay_id
    [sample_room Invited [alice]; sample_room Joined [alice]; sample_room Invited [alice]]
    [ActJoin "!dm:pseud0.org"; ActKeep "!dm:pseud0.org"; ActLeave "!dm:pseud0.org"]
    (Err (Internal "forbidden")).
Proof. apply auto_join_enforces. vm_compute. reflexivity. Defined.

(** A third member found after the join makes the relay leave. *)
Example leaves_third_member :
  auto_join_invites (sample_sdk (Some (sample_room Joined [alice; "@mallory:pseud0.org"])))
    relay_id [sample_room Invited [alice]] =
  ([ActJoin "!dm:pseud0.org"; ActLeave "!dm:pseud0.org"], Ok tt).
Proof. reflexivity. Qed.

(** An error between the join and the check ends the pass with the room joined and
    unchecked; it is no longer an invitation, so no later pass looks at it. *)
Example error_after_join_keeps_room :
  auto_join_invites (sample_sdk None) relay_id [sample_room Invited [alice]] =
  ([ActJoin "!dm:pseud0.org"], problem InternalError).
Proof. reflexivity. Qed.
