(* ===== verification/Ssrf.v ===== *)
(** * Outbound targets (src/src/outbound/ssrf.rs)

    Which addresses the relay refuses to connect to.  The classification methods
    of [std::net] are written out; the specification is a list of CIDR blocks. *)

From S2P Require Import Prelude Errors Constants Ip Validation.

#[local] Set Warnings "-clear-no-such-hyp".

(** [Duration]s in milliseconds. *)
Definition CONNECT_TIMEOUT : Z := 3000.
Definition FIRST_BYTE_TIMEOUT : Z := 5000.
Definition TOTAL_TIMEOUT : Z := 10000.

(** [SocketAddr]. *)
Record SocketAddr := { sock_ip : IpAddr; sock_port : Z }.

Definition site_url (domain path : string) : result (string * string) :=
  validate_domain domain ;?
  if negb (starts_with "/" path) || contains "://" path || contains_char "@" path
     || contains_char "#" path
  then problem DomainVerificationFailed
  else Ok (domain, path).

(** ** std::net::Ipv4Addr *)

Section V4.
Variables a b c d : Z.

Definition v4_unspecified : bool := (a =? 0) && (b =? 0) && (c =? 0) && (d =? 0).
Definition v4_loopback : bool := a =? 127.
Definition v4_private : bool :=
  (a =? 10) || ((a =? 172) && (16 <=? b) && (b <=? 31)) || ((a =? 192) && (b =? 168)).
Definition v4_link_local : bool := (a =? 169) && (b =? 254).
Definition v4_broadcast : bool := (a =? 255) && (b =? 255) && (c =? 255) && (d =? 255).
Definition v4_multicast : bool := (224 <=? a) && (a <=? 239).
Definition v4_documentation : bool :=
  ((a =? 192) && (b =? 0) && (c =? 2)) || ((a =? 198) && (b =? 51) && (c =? 100))
  || ((a =? 203) && (b =? 0) && (c =? 113)).

Definition is_blocked_v4 : bool :=
  v4_unspecified
  || v4_loopback
  || v4_private
  || v4_link_local
  || v4_broadcast
  || v4_multicast
  || v4_documentation
  || ((a =? 100) && ((64 <=? b) && (b <=? 127)))
  || ((a =? 192) && (b =? 0) && (c =? 0))
  || ((a =? 198) && ((18 <=? b) && (b <=? 19)))
  || ((a =? 169) && (b =? 254))
  || ((a =? 169) && (b =? 254) && (c =? 169) && (d =? 254))
  || ((a =? 0) && (b =? 0) && (c =? 0) && (d =? 0)).
End V4.

(** ** std::net::Ipv6Addr *)

(** [to_ipv4_mapped]: the four octets of [::ffff:a.b.c.d]. *)
Definition to_ipv4_mapped (ip : IpAddr) : option (Z * Z * Z * Z) :=
  match ip with
  | V6 s0 s1 s2 s3 s4 s5 s6 s7 =>
      if (s0 =? 0) && (s1 =? 0) && (s2 =? 0) && (s3 =? 0) && (s4 =? 0) && (s5 =? 0xffff)
      then Some (s6 / 256, s6 mod 256, s7 / 256, s7 mod 256)
      else None
  | V4 _ _ _ _ => None
  end.

Definition is_blocked_v6 (s0 s1 s2 s3 s4 s5 s6 s7 : Z) : bool :=
  match to_ipv4_mapped (V6 s0 s1 s2 s3 s4 s5 s6 s7) with
  | Some (a, b, c, d) => is_blocked_v4 a b c d
  | None =>
      bool_decide (V6 s0 s1 s2 s3 s4 s5 s6 s7 = V6 0 0 0 0 0 0 0 0)
      || bool_decide (V6 s0 s1 s2 s3 s4 s5 s6 s7 = V6 0 0 0 0 0 0 0 1)
      || (Z.land s0 0xff00 =? 0xff00)
      || (Z.land s0 0xfe00 =? 0xfc00)
      || (Z.land s0 0xffc0 =? 0xfe80)
      || ((s0 =? 0x2001) && (s1 =? 0xdb8))
      || bool_decide (V6 s0 s1 s2 s3 s4 s5 s6 s7 = V6 0xfd00 0 0 0 0 0 0 0)
  end.

Definition is_blocked_ip (ip : IpAddr) : bool :=
  match ip with
  | V4 a b c d => is_blocked_v4 a b c d
  | V6 s0 s1 s2 s3 s4 s5 s6 s7 => is_blocked_v6 s0 s1 s2 s3 s4 s5 s6 s7
  end.

Definition pick_public_address (resolved : list IpAddr) : result IpAddr :=
  ok_or (find (fun ip => negb (is_blocked_ip ip)) resolved) DomainVerificationFailed.

Definition pinned_socket (ip : IpAddr) : SocketAddr := {| sock_ip := ip; sock_port := 443 |}.

Definition timeouts : Z * Z * Z := (CONNECT_TIMEOUT, FIRST_BYTE_TIMEOUT, TOTAL_TIMEOUT).

(** ** Blocks *)

(** The address as an unsigned integer of 32 or 128 bits. *)
Definition bits4 (a b c d : Z) : Z := a * 2 ^ 24 + b * 2 ^ 16 + c * 2 ^ 8 + d.
Definition bits6 (s0 s1 s2 s3 s4 s5 s6 s7 : Z) : Z :=
  s0 * 2 ^ 112 + s1 * 2 ^ 96 + s2 * 2 ^ 80 + s3 * 2 ^ 64 + s4 * 2 ^ 48 + s5 * 2 ^ 32 + s6 * 2 ^ 16
  + s7.

(** [x] is in the block of the [width - len] low bits around [base]. *)
Definition in_cidr (width : Z) (x : Z) (block : Z * Z) : Prop :=
  let '(base, len) := block in x / 2 ^ (width - len) = base / 2 ^ (width - len).

(** RFC 6890 and friends: the IPv4 blocks refused. *)
Definition BLOCKED_V4 : list (Z * Z) :=
  [(bits4 0 0 0 0, 32); (bits4 127 0 0 0, 8); (bits4 10 0 0 0, 8); (bits4 172 16 0 0, 12);
   (bits4 192 168 0 0, 16); (bits4 169 254 0 0, 16); (bits4 255 255 255 255, 32);
   (bits4 224 0 0 0, 4); (bits4 192 0 2 0, 24); (bits4 198 51 100 0, 24);
   (bits4 203 0 113 0, 24); (bits4 100 64 0 0, 10); (bits4 192 0 0 0, 24);
   (bits4 198 18 0 0, 15)].

(** The IPv6 blocks refused, besides the mapped IPv4 ones. *)
Definition BLOCKED_V6 : list (Z * Z) :=
  [(0, 128); (1, 128); (bits6 0xff00 0 0 0 0 0 0 0, 8); (bits6 0xfc00 0 0 0 0 0 0 0, 7);
   (bits6 0xfe80 0 0 0 0 0 0 0, 10); (bits6 0x2001 0xdb8 0 0 0 0 0 0, 32)].

(** Proves the first disjunct (or conjunction of atoms) that [tac] can. *)
Ltac pick_disjunct tac :=
  lazymatch goal with
  | |- _ \/ _ => solve [left; pick_disjunct tac] || (right; pick_disjunct tac)
  | |- _ /\ _ => solve [split; pick_disjunct tac]
  | _ => solve [tac]
  end.

Lemma bits4_shift a b c d :
  octet a -> octet b -> octet c -> octet d ->
  bits4 a b c d / 2 ^ 28 = a / 16 /\ bits4 a b c d / 2 ^ 24 = a /\
  bits4 a b c d / 2 ^ 22 = a * 4 + b / 64 /\ bits4 a b c d / 2 ^ 20 = a * 16 + b / 16 /\
  bits4 a b c d / 2 ^ 17 = a * 128 + b / 2 /\ bits4 a b c d / 2 ^ 16 = a * 256 + b /\
  bits4 a b c d / 2 ^ 8 = a * 65536 + b * 256 + c /\ bits4 a b c d / 2 ^ 0 = bits4 a b c d.
Proof.
  unfold octet, bits4. intros. repeat split; try (symmetry; apply Z.div_unique with (r := _));
    Z.div_mod_to_equations; lia.
Qed.

Lemma blocked_v4_spec a b c d :
  octet a -> octet b -> octet c -> octet d ->
  is_blocked_v4 a b c d = true <-> Exists (in_cidr 32 (bits4 a b c d)) BLOCKED_V4.
Proof.
  intros Ha Hb Hc Hd.
  destruct (bits4_shift a b c d Ha Hb Hc Hd) as (H28 & H24 & H22 & H20 & H17 & H16 & H8 & H0).
  unfold BLOCKED_V4, in_cidr. rewrite !Exists_cons, Exists_nil.
  repeat match goal with |- context [32 - ?n] =>
    let k := eval vm_compute in (32 - n) in change (32 - n) with k end.
  rewrite H28, H24, H22, H20, H17, H16, H8, H0.
  repeat match goal with |- context [bits4 ?x ?y ?z ?t / ?k] =>
    let v := eval vm_compute in (bits4 x y z t / k) in change (bits4 x y z t / k) with v end.
  unfold is_blocked_v4, v4_unspecified, v4_loopback, v4_private, v4_link_local, v4_broadcast,
    v4_multicast, v4_documentation.
  rewrite !orb_true_iff, !andb_true_iff, !Z.eqb_eq, !Z.leb_le.
  unfold octet, bits4 in *. clear H28 H24 H22 H20 H17 H16 H8 H0.
  split; intros H; destruct_or?; destruct_and?; subst;
    pick_disjunct ltac:(Z.div_mod_to_equations; lia).
Qed.

(** The masks of the code are prefix comparisons. *)
Definition segments : list Z :=
  flat_map (fun h => List.map (fun l => h * 256 + l) (seqZ 0 256)) (seqZ 0 256).

Lemma mask_check :
  forallb (fun s => Bool.eqb (Z.land s 0xff00 =? 0xff00) (s / 256 =? 255)
                    && Bool.eqb (Z.land s 0xfe00 =? 0xfc00) (s / 512 =? 126)
                    && Bool.eqb (Z.land s 0xffc0 =? 0xfe80) (s / 64 =? 1018)) segments = true.
Proof. vm_compute. reflexivity. Qed.

Lemma masks s : segment s ->
  (Z.land s 0xff00 =? 0xff00) = (s / 256 =? 255) /\
  (Z.land s 0xfe00 =? 0xfc00) = (s / 512 =? 126) /\
  (Z.land s 0xffc0 =? 0xfe80) = (s / 64 =? 1018).
Proof.
  intros Hs. pose proof (proj1 (forallb_forall _ _) mask_check s) as H. cbv beta in H.
  assert (Hin : In s segments).
  { unfold segment in Hs. apply in_flat_map. exists (s / 256).
    split; [apply list_elem_of_In, elem_of_seqZ; Z.div_mod_to_equations; lia|].
    apply in_map_iff. exists (s mod 256). split; [Z.div_mod_to_equations; lia|].
    apply list_elem_of_In, elem_of_seqZ. Z.div_mod_to_equations. lia. }
  specialize (H Hin). apply andb_prop in H as [H H3]. apply andb_prop in H as [H1 H2].
  apply eqb_prop in H1, H2, H3. auto.
Qed.

Lemma bits6_shift s0 s1 s2 s3 s4 s5 s6 s7 :
  Forall segment [s0; s1; s2; s3; s4; s5; s6; s7] ->
  let x := bits6 s0 s1 s2 s3 s4 s5 s6 s7 in
  x / 2 ^ 112 = s0 /\ x / 2 ^ 96 = s0 * 65536 + s1 /\
  (x = 0 <-> V6 s0 s1 s2 s3 s4 s5 s6 s7 = V6 0 0 0 0 0 0 0 0) /\
  (x = 1 <-> V6 s0 s1 s2 s3 s4 s5 s6 s7 = V6 0 0 0 0 0 0 0 1).
Proof.
  rewrite !Forall_cons. unfold segment, bits6. intros H. destruct_and? H.
  repeat split; try (symmetry; apply Z.div_unique with
    (r := s1 * 2 ^ 96 + s2 * 2 ^ 80 + s3 * 2 ^ 64 + s4 * 2 ^ 48 + s5 * 2 ^ 32 + s6 * 2 ^ 16 + s7); lia);
    try (symmetry; apply Z.div_unique with
    (r := s2 * 2 ^ 80 + s3 * 2 ^ 64 + s4 * 2 ^ 48 + s5 * 2 ^ 32 + s6 * 2 ^ 16 + s7); lia).
  - intros. f_equal; lia.
  - intros [= -> -> -> -> -> -> -> ->]. lia.
  - intros. f_equal; lia.
  - intros [= -> -> -> -> -> -> -> ->]. lia.
Qed.

Lemma blocked_v6_spec s0 s1 s2 s3 s4 s5 s6 s7 :
  Forall segment [s0; s1; s2; s3; s4; s5; s6; s7] ->
  to_ipv4_mapped (V6 s0 s1 s2 s3 s4 s5 s6 s7) = None ->
  is_blocked_v6 s0 s1 s2 s3 s4 s5 s6 s7 = true <->
  Exists (in_cidr 128 (bits6 s0 s1 s2 s3 s4 s5 s6 s7)) BLOCKED_V6.
Proof.
  intros Hs Hm. pose proof (bits6_shift _ _ _ _ _ _ _ _ Hs) as (H112 & H96 & H0 & H1).
  unfold is_blocked_v6. rewrite Hm.
  apply Forall_cons in Hs as [Hs0 Hs]. apply Forall_cons in Hs as [Hs1 _].
  destruct (masks s0 Hs0) as (-> & -> & ->).
  rewrite !orb_true_iff, !andb_true_iff, !bool_decide_eq_true, !Z.eqb_eq, <- H0, <- H1.
  unfold BLOCKED_V6, in_cidr. rewrite !Exists_cons, Exists_nil.
  set (x := bits6 s0 s1 s2 s3 s4 s5 s6 s7) in *.
  assert (Hd : forall n k, 112 + n = k -> 0 <= n -> x / 2 ^ k = s0 / 2 ^ n).
  { intros n k <- Hn. rewrite Z.pow_add_r, <- Z.div_div, H112 by lia. done. }
  change (128 - 128) with 0. change (128 - 8) with 120. change (128 - 7) with 121.
  change (128 - 10) with 118. change (128 - 32) with 96.
  rewrite (Hd 8 120), (Hd 9 121), (Hd 6 118), H96 by lia.
  change (2 ^ 0) with 1. change (2 ^ 8) with 256. change (2 ^ 9) with 512. change (2 ^ 6) with 64.
  rewrite !Z.div_1_r.
  repeat match goal with |- context [bits6 ?a ?b ?c ?d ?e ?f ?g ?h / ?k] =>
    let v := eval vm_compute in (bits6 a b c d e f g h / k) in
    change (bits6 a b c d e f g h / k) with v end.
  clear H112 H96 H0 H1 Hd. clearbody x. unfold segment in *.
  split; intros H; destruct_or?; destruct_and?; subst; try (injection H as -> -> -> -> -> -> -> ->);
    pick_disjunct ltac:(first [reflexivity | assumption | Z.div_mod_to_equations; lia]).
Qed.

(** ** Properties *)

(** C34: The relay refuses exactly these addresses: for IPv4 the listed blocks
    (this host, loopback, private, link local with the cloud metadata address,
    broadcast, multicast, documentation, shared CGNAT, IETF protocol and
    benchmarking space); for IPv6 those of the embedded address when it is
    IPv4-mapped, and otherwise the unspecified and loopback addresses, multicast,
    unique local, link local and documentation space.  The address chosen from a
    resolver's answer is its first allowed one, and is never refused. *)
Theorem blocked_exactly ip resolved :
  ip_wf ip ->
  match ip with
  | V4 a b c d => is_blocked_ip ip = true <-> Exists (in_cidr 32 (bits4 a b c d)) BLOCKED_V4
  | V6 s0 s1 s2 s3 s4 s5 s6 s7 =>
      match to_ipv4_mapped ip with
      | Some (a, b, c, d) => is_blocked_ip ip = is_blocked_ip (V4 a b c d)
      | None =>
          is_blocked_ip ip = true <->
          Exists (in_cidr 128 (bits6 s0 s1 s2 s3 s4 s5 s6 s7)) BLOCKED_V6
      end
  end /\
  (forall x, pick_public_address resolved = Ok x -> exists l1 l2, resolved = l1 ++ x :: l2 /\
     Forall (fun y => is_blocked_ip y = true) l1 /\ is_blocked_ip x = false) /\
  (pick_public_address resolved = problem DomainVerificationFailed <->
   Forall (fun y => is_blocked_ip y = true) resolved).
Proof.
  intros Hwf. split; [|split].
  - destruct ip as [a b c d|s0 s1 s2 s3 s4 s5 s6 s7].
    + destruct Hwf as (? & ? & ? & ?). by apply blocked_v4_spec.
    + destruct (to_ipv4_mapped _) as [[[[a b] c] d]|] eqn:E.
      * cbn [is_blocked_ip]. unfold is_blocked_v6. by rewrite E.
      * by apply blocked_v6_spec.
  - intros x Hx%ok_or_Ok. induction resolved as [|y l IH]; simpl in Hx; [done|].
    destruct (is_blocked_ip y) eqn:E; cbn [negb] in Hx.
    + destruct (IH Hx) as (l1 & l2 & -> & Hl & Hb). exists (y :: l1), l2. auto.
    + injection Hx as <-. exists [], l. auto.
  - unfold pick_public_address. induction resolved as [|y l IH]; simpl; [split; auto|].
    rewrite Forall_cons. destruct (is_blocked_ip y) eqn:E; cbn [negb]; [|split; [done|intros []; done]].
    rewrite IH. tauto.
Qed.

Lemma blocked_exactly_witness :
  is_blocked_ip (V4 169 254 169 254) = true <->
  Exists (in_cidr 32 (bits4 169 254 169 254)) BLOCKED_V4.
Proof.
  apply (blocked_exactly (V4 169 254 169 254) []). repeat split; lia.
Defined.

(** Special-purpose blocks the list leaves out: 0.0.0.0/8 but for its first
    address, 240.0.0.0/4 but for broadcast, and IPv4 addresses embedded in IPv6
    otherwise than by mapping (here 64:ff9b::10.0.0.1 and ::10.0.0.1). *)
Example reserved_not_blocked :
  List.map is_blocked_ip
    [V4 0 0 0 1; V4 240 0 0 1; V6 0x64 0xff9b 0 0 0 0 0x0a00 1; V6 0 0 0 0 0 0 0x0a00 1] =
  [false; false; false; false].
Proof. reflexivity. Qed.

(** The targets of the source's own tests. *)
Example site_url_vectors :
  List.map (fun d => is_ok (site_url d METADATA_PATH))
    ["login.example.org"; "login.example.org."; "127.0.0.1"; "login.example.org:8443";
     "user:pass@login.example.org"] = [true; false; false; false; false].
Proof. vm_compute. reflexivity. Qed.
