(* ===== verification/Site.v ===== *)
(** * The site client (src/src/outbound/site_client.rs)

    The HTTP exchange with a site.  DNS, TCP and TLS are a parameter: [Net] gives
    a resolver's answer and, for a socket, a server name and the bytes of a
    request, either no connection or the reads that follow.  [SiteFetcher] is the
    source's trait, with the law its callers rely on. *)

From S2P Require Import Prelude Errors Constants Ip Utf8 Validation Base64url Json JsonRfc.
From S2P Require Import Jcs Strict StrictRfc Crypto CryptoToy Keys Wire Metadata Ssrf.

#[local] Set Warnings "-clear-no-such-hyp".

Record SiteResponse := { sr_status : Z; sr_body : list byte }.

(** ** Text helpers of std *)

Definition CRLF : string := String (zc 13) (String (zc 10) "").

(** [str::split_once] and [str::split]. *)
Fixpoint split_once (p s : string) : option (string * string) :=
  match strip_prefix p s with
  | Some r => Some ("", r)
  | None =>
      match s with
      | EmptyString => None
      | String c s' =>
          match split_once p s' with
          | Some (a, b) => Some (String c a, b)
          | None => None
          end
      end
  end.

Fixpoint split_fuel (fuel : nat) (p s : string) : list string :=
  match fuel, split_once p s with
  | S f, Some (a, b) => a :: split_fuel f p b
  | _, _ => [s]
  end.
Definition split (p s : string) : list string := split_fuel (String.length s) p s.

(** [str::split_whitespace], over the code points. *)
Fixpoint words (l cur : list Z) : list (list Z) :=
  match l with
  | [] => match cur with [] => [] | _ => [rev cur] end
  | z :: l' =>
      if is_whitespace z then match cur with [] => words l' [] | _ => rev cur :: words l' [] end
      else words l' (z :: cur)
  end.
Definition split_whitespace (s : string) : list string :=
  match utf8_decode (as_bytes s) with
  | Some l => List.map (fun w => of_bytes (utf8_encode w)) (words l [])
  | None => []
  end.

(** [str::parse::<u16>]. *)
Fixpoint read_dec (acc : Z) (s : string) : option Z :=
  match s with
  | EmptyString => Some acc
  | String c s' => if is_digit c then read_dec (acc * 10 + (cz c - 48)) s' else None
  end.
Definition parse_u16 (s : string) : option Z :=
  let digits := match strip_prefix "+" s with Some r => r | None => s end in
  if String.eqb digits "" then None
  else match read_dec 0 digits with
       | Some z => if z <? 65536 then Some z else None
       | None => None
       end.

Fixpoint to_ascii_lowercase (s : string) : string :=
  match s with
  | EmptyString => EmptyString
  | String c s' => String (if is_upper c then zc (cz c + 32) else c) (to_ascii_lowercase s')
  end.

(** ** parse_http_response *)

Definition parse_http_response (raw : list byte) (max_body : Z) : result SiteResponse :=
  let? text := ok_or (from_utf8 raw) DomainVerificationFailed in
  let? (header, body) := ok_or (split_once (CRLF +:+ CRLF) text) DomainVerificationFailed in
  let lines := split CRLF header in
  let? status_line := ok_or (head lines) DomainVerificationFailed in
  let? status :=
    ok_or (split_whitespace status_line !! 1%nat ≫= parse_u16) DomainVerificationFailed in
  let redirected := existsb (fun line => starts_with "location:" (to_ascii_lowercase line)) (tail lines) in
  if redirected || ((300 <=? status) && (status <? 400)) then problem DomainVerificationFailed
  else if max_body <? slen body then problem DomainVerificationFailed
  else Ok {| sr_status := status; sr_body := as_bytes body |}.

(** ** The exchange *)

(** What a read returns; [RdOk []] is the end of the stream. *)
Inductive ReadEvent := RdOk (chunk : list byte) | RdErr.

Record Net := {
  (** [DnsResolver::resolve]. *)
  net_resolve : string -> result (list IpAddr);
  (** Connecting, the TLS handshake for a server name, and writing the request:
      [None] when one of them fails or times out; otherwise the reads, up to the
      total timeout. *)
  net_exchange : SocketAddr -> string -> list byte -> option (list ReadEvent)
}.

(** The loop after the first read. *)
Fixpoint read_loop (max_body : Z) (buf : list byte) (reads : list ReadEvent) : result (list byte) :=
  if max_body + 1024 <? blen buf then problem DomainVerificationFailed
  else
    match reads with
    | RdOk [] :: _ => Ok buf
    | RdOk chunk :: reads' => read_loop max_body (buf ++ chunk) reads'
    | RdErr :: _ | [] => problem DomainVerificationFailed
    end.

(** The first read, with its own timeout, then the loop. *)
Definition read_all (max_body : Z) (reads : list ReadEvent) : result (list byte) :=
  match reads with
  | RdOk chunk :: reads' => read_loop max_body chunk reads'
  | RdErr :: _ | [] => problem DomainVerificationFailed
  end.

(** The bytes written: the head, and the body when there is one. *)
Definition request_head (host path method : string) (extra_headers : list (string * string))
    (body : list byte) : string :=
  method +:+ " " +:+ path +:+ " HTTP/1.1" +:+ CRLF +:+ "Host: " +:+ host +:+ CRLF
  +:+ "Accept: application/json" +:+ CRLF +:+ "Connection: close" +:+ CRLF
  +:+ (if negb (blen body =? 0) then
         "Content-Type: application/json" +:+ CRLF
         +:+ "Content-Length: " +:+ z_to_string (blen body) +:+ CRLF
       else "")
  +:+ String.concat "" (List.map (fun h => fst h +:+ ": " +:+ snd h +:+ CRLF) extra_headers)
  +:+ CRLF.

(** [SsrfSiteClient::request]. *)
Definition request (net : Net) (domain path method : string)
    (extra_headers : list (string * string)) (body : list byte) (max_body : Z)
  : result SiteResponse :=
  let? (host, path) := site_url domain path in
  let? ips := net_resolve net host in
  let? ip := pick_public_address ips in
  if is_blocked_ip ip then problem DomainVerificationFailed
  else
    let bytes := as_bytes (request_head host path method extra_headers body) ++ body in
    let? reads := ok_or (net_exchange net (pinned_socket ip) host bytes) DomainVerificationFailed in
    let? buf := read_all max_body reads in
    parse_http_response buf max_body.

Section Client.
Context `{Base64} `{Crypto} `{JsonText} `{JsonReader}.

(** [SiteFetcher for SsrfSiteClient]. *)
Definition fetch_metadata (net : Net) (domain : string) : result SiteMetadata :=
  let? response := request net domain METADATA_PATH "GET" [] [] MAX_METADATA_BYTES in
  if negb (sr_status response =? 200) then problem DomainVerificationFailed
  else
    let? metadata :=
      map_err (from_slice metadata_from_value (sr_body response)) DomainVerificationFailed in
    validate_for_domain metadata domain ;?
    Ok metadata.

Definition post_json (net : Net) (domain path : string) (body : list byte)
    (idempotency_key : option string) : result SiteResponse :=
  let headers := match idempotency_key with
                 | Some key => [("Idempotency-Key", key)]
                 | None => []
                 end in
  request net domain path "POST" headers body MAX_SITE_RESPONSE_BYTES.

(** [SiteFetcher for RecordingSite]: the metadata it holds. *)
Definition recording_fetch_metadata (metadata : option SiteMetadata) (domain : string)
  : result SiteMetadata :=
  let? metadata := ok_or metadata DomainVerificationFailed in
  validate_for_domain metadata domain ;?
  Ok metadata.
End Client.

(** ** Lemmas *)

(** The first occurrence: any other leaves at least as much in front of it. *)
Lemma split_once_first p s a b a' b' :
  split_once p s = Some (a, b) -> s = a' +:+ p +:+ b' -> (String.length a <= String.length a')%nat.
Proof.
  revert a a'. induction s as [|c s IH]; intros a a'; cbn [split_once].
  - destruct (strip_prefix p "") as [r|]; [|done]. intros [= <- <-] _. cbn. lia.
  - destruct (strip_prefix p (String c s)) as [r|] eqn:E; [intros [= <- <-] _; cbn; lia|].
    destruct (split_once p s) as [[x y]|]; [|done]. intros [= <- <-] Hs.
    destruct a' as [|d a']; cbn in Hs.
    + assert (strip_prefix p (String c s) = Some b') as Hp by by apply strip_prefix_Some. congruence.
    + injection Hs as -> Hs. cbn. pose proof (IH x a' eq_refl Hs). lia.
Qed.

Lemma split_once_Some p s a b : split_once p s = Some (a, b) -> s = a +:+ p +:+ b.
Proof.
  revert a b. induction s as [|c s IH]; intros a b; cbn [split_once].
  - destruct (strip_prefix p "") as [r|] eqn:E; [|done]. intros [= <- <-].
    by apply strip_prefix_Some in E.
  - destruct (strip_prefix p (String c s)) as [r|] eqn:E.
    + intros [= <- <-]. by apply strip_prefix_Some in E.
    + destruct (split_once p s) as [[x y]|] eqn:E'; [|done]. intros [= <- <-].
      cbn. f_equal. by apply IH.
Qed.

Lemma read_dec_nonneg acc s z : 0 <= acc -> read_dec acc s = Some z -> 0 <= z.
Proof.
  revert acc. induction s as [|c s IH]; intros acc Ha; cbn [read_dec]; [by intros [= <-]|].
  destruct (is_digit c) eqn:E; [|done]. apply digit_range in E. apply IH. lia.
Qed.

Lemma parse_u16_range s z : parse_u16 s = Some z -> 0 <= z < 65536.
Proof.
  unfold parse_u16. case_if; [done|]. destruct (read_dec _ _) as [x|] eqn:E; [|done].
  case_if; [|done]. intros [= <-]. bool_hyp. split; [|done]. by eapply read_dec_nonneg; [|exact E].
Qed.

(** The first line of a header is a status line with this code as its second word, and
    none of the others is a [Location] header, in any case of letters. *)
Definition direct_header (header : string) (status : Z) : Prop :=
  exists status_line rest, split CRLF header = status_line :: rest /\
    split_whitespace status_line !! 1%nat ≫= parse_u16 = Some status /\
    Forall (fun line => starts_with "location:" (to_ascii_lowercase line) = false) rest.

(** What an accepted response is: UTF-8, split at its first empty line into a header
    without redirect and the body that is handed on. *)
Record accepted_response (raw : list byte) (max : Z) (r : SiteResponse) (header : string) : Prop := {
  ar_text : exists text, from_utf8 raw = Some text;
  ar_raw : raw = as_bytes (header +:+ CRLF +:+ CRLF) ++ sr_body r;
  ar_first : forall header' rest, raw = as_bytes (header' +:+ CRLF +:+ CRLF) ++ as_bytes rest ->
    slen header <= slen header';
  ar_header : direct_header header (sr_status r);
  ar_status : 0 <= sr_status r < 300 \/ 400 <= sr_status r < 65536;
  ar_size : blen (sr_body r) <= max
}.

Lemma parse_response_Ok raw max r :
  parse_http_response raw max = Ok r -> exists header, accepted_response raw max r header.
Proof.
  unfold parse_http_response. intros Hp. inv_ok Hp. pose proof Hok as Htext.
  apply from_utf8_Some in Hok as [<- _].
  destruct a0 as [header body]. pose proof Hok0 as Hsplit. apply split_once_Some in Hok0 as ->. inv_ok Hp.
  repeat case_if_in Hp; try done. injection Hp as <-.
  match goal with H : _ || _ = false |- _ => apply orb_false_elim in H as [Hr Hst] end.
  match goal with H : _ ≫= parse_u16 = Some _ |- _ => pose proof H as Hcode; apply bind_Some in H as (w & _ & Hw) end.
  apply parse_u16_range in Hw. bool_hyp. exists header. split; cbn [sr_status sr_body].
  - by eexists.
  - by rewrite <- as_bytes_app, !str_app_assoc.
  - intros header' rest E. rewrite <- as_bytes_app in E. apply as_bytes_inj in E.
    rewrite !str_app_assoc in E. unfold slen.
    pose proof (split_once_first _ _ _ _ header' rest Hsplit) as Hf. rewrite str_app_assoc in Hf. by apply Hf in E; lia.
  - match goal with H : head _ = Some _ |- _ => rename H into Hhead end.
    destruct (split CRLF header) as [|line rest] eqn:El; [done|]. injection Hhead as ->.
    exists a, rest. split; [done|]. split; [done|]. by apply existsb_false.
  - apply andb_false_iff in Hst as [|]; bool_hyp; lia.
  - by rewrite blen_as_bytes.
Qed.

(** What the reads of an exchange gave: chunks up to the end of the stream. *)
Lemma read_loop_chunks max buf reads b : read_loop max buf reads = Ok b ->
  exists chunks rest, reads = List.map RdOk chunks ++ RdOk [] :: rest /\ b = buf ++ concat chunks.
Proof.
  revert buf. induction reads as [|e reads IH]; intros buf; cbn [read_loop]; (case_if; [done|]); [done|].
  destruct e as [[|x c]|]; [|intros (chunks & rest & -> & ->)%IH|done].
  - intros [= <-]. exists [], reads. split; [done|]. by rewrite app_nil_r.
  - exists ((x :: c) :: chunks), rest. split; [done|]. cbn [concat]. by rewrite <- app_assoc.
Qed.

Lemma read_all_chunks max reads b : read_all max reads = Ok b ->
  exists chunks rest, reads = List.map RdOk chunks ++ RdOk [] :: rest /\ b = concat chunks.
Proof.
  unfold read_all. destruct reads as [|[chunk|] reads]; [done| |done].
  intros (chunks & rest & -> & ->)%read_loop_chunks. by exists (chunk :: chunks), rest.
Qed.

Lemma read_loop_bound max buf reads b :
  Forall (fun e => match e with RdOk c => blen c <= 2048 | RdErr => True end) reads ->
  blen buf <= max + 1024 + 2048 -> read_loop max buf reads = Ok b -> blen b <= max + 1024.
Proof.
  intros Hr. revert buf. induction Hr as [|e reads He Hr IH]; intros buf Hb; cbn [read_loop];
    (case_if; [done|]; bool_hyp); [done|].
  destruct e as [[|x c]|]; [by intros [= <-]| |done].
  apply IH. rewrite blen_app. lia.
Qed.

(** ** The interface of the callers *)

(** The trait, one call at a time: its implementations are the client above and
    the recording one of the tests. *)
Class SiteFetcher := {
  site_fetch_metadata : string -> result SiteMetadata;
  site_post_json : string -> string -> list byte -> option string -> result SiteResponse
}.

(** A caller may rely on the metadata it is given being valid for the domain. *)
Class SiteFetcherLaws `{Base64} `{Crypto} `{JsonText} `{SiteFetcher} : Prop := {
  site_metadata_valid : forall domain m,
    site_fetch_metadata domain = Ok m -> metadata_valid m domain
}.

Lemma fetch_metadata_valid `{Base64} `{Crypto} `{JsonText} `{JsonReader} net domain m :
  fetch_metadata net domain = Ok m -> metadata_valid m domain.
Proof.
  unfold fetch_metadata. intros Hf. inv_ok Hf. case_if_in Hf; [done|]. inv_ok Hf.
  destruct a1. injection Hf as <-. by apply validate_for_domain_Ok.
Qed.

Lemma recording_metadata_valid `{Base64} `{Crypto} `{JsonText} metadata domain m :
  recording_fetch_metadata metadata domain = Ok m -> metadata_valid m domain.
Proof.
  unfold recording_fetch_metadata. intros Hf. inv_ok Hf. destruct a0. injection Hf as <-.
  by apply validate_for_domain_Ok.
Qed.

#[export] Instance ssrf_fetcher `{Base64} `{Crypto} `{JsonText} `{JsonReader} (net : Net)
  : SiteFetcher := {|
  site_fetch_metadata := fetch_metadata net;
  site_post_json := post_json net
|}.

#[export] Instance ssrf_fetcher_laws `{Base64} `{Crypto} `{JsonText} `{JsonReader} (net : Net)
  : SiteFetcherLaws (H2 := ssrf_fetcher net).
Proof. constructor. apply fetch_metadata_valid. Qed.

(** *** Framing of the request *)

(** Printable ASCII, which excludes the line terminators. *)
Definition plain_char (c : ascii) : bool := (32 <=? cz c) && (cz c <? 127).
Definition plain_line (s : string) : Prop := str_forallb plain_char s = true.

Definition terminated (lines : list string) : string :=
  String.concat "" (List.map (fun l => l +:+ CRLF) lines).

(** The lines of a request's head. *)
Definition head_lines (host path method : string) (extra_headers : list (string * string))
    (body : list byte) : list string :=
  [method +:+ " " +:+ path +:+ " HTTP/1.1"; "Host: " +:+ host; "Accept: application/json";
   "Connection: close"]
  ++ (if negb (blen body =? 0) then
        ["Content-Type: application/json"; "Content-Length: " +:+ z_to_string (blen body)]
      else [])
  ++ List.map (fun h => fst h +:+ ": " +:+ snd h) extra_headers.

Lemma terminated_cons l lines : terminated (l :: lines) = l +:+ CRLF +:+ terminated lines.
Proof.
  unfold terminated. cbn [List.map]. rewrite <- str_app_assoc.
  destruct (List.map _ lines); [by rewrite str_app_nil_r|]. done.
Qed.

Lemma terminated_app l m : terminated (l ++ m) = terminated l +:+ terminated m.
Proof.
  induction l as [|x l IH]; [done|]. cbn [app]. by rewrite !terminated_cons, IH, !str_app_assoc.
Qed.

Lemma request_head_lines host path method hs body :
  request_head host path method hs body = terminated (head_lines host path method hs body) +:+ CRLF.
Proof.
  unfold request_head, head_lines. rewrite !terminated_app.
  assert (Hh : terminated (List.map (fun h => fst h +:+ ": " +:+ snd h) hs) =
    String.concat "" (List.map (fun h => fst h +:+ ": " +:+ snd h +:+ CRLF) hs)).
  { unfold terminated. rewrite map_map. f_equal. apply map_ext. intros h. by rewrite !str_app_assoc. }
  rewrite Hh. destruct (blen body =? 0); cbn [negb];
    rewrite !terminated_cons, !str_app_assoc; unfold terminated at 1; cbn [List.map String.concat];
    by rewrite ?str_app_assoc.
Qed.

Lemma plain_cls s : str_forallb cls_domain s = true \/ str_forallb cls_id s = true -> plain_line s.
Proof.
  intros [H|H]; (eapply str_forallb_impl; [|exact H]);
    intros [[] [] [] [] [] [] [] []]; vm_compute; congruence.
Qed.

Lemma plain_num z : plain_line (z_to_string z).
Proof.
  eapply str_forallb_impl; [|apply z_to_string_chars].
  intros [[] [] [] [] [] [] [] []]; vm_compute; congruence.
Qed.

Lemma plain_app s t : plain_line s -> plain_line t -> plain_line (s +:+ t).
Proof. unfold plain_line. rewrite str_forallb_app. by intros -> ->. Qed.

(** ** Properties *)

(** What the client did for an accepted response: it sent the request, framed for the
    domain, to port 443 of an allowed address of the resolver's answer, read the chunks up
    to the end of the stream, and accepted their concatenation. *)
Definition answered (net : Net) (domain path method : string) (headers : list (string * string))
    (body : list byte) (max : Z) (r : SiteResponse) : Prop :=
  validate_domain domain = Ok tt /\
  exists ips ip chunks rest header,
    net_resolve net domain = Ok ips /\ ip ∈ ips /\ is_blocked_ip ip = false /\
    net_exchange net {| sock_ip := ip; sock_port := 443 |} domain
      (as_bytes (request_head domain path method headers body) ++ body) =
      Some (List.map RdOk chunks ++ RdOk [] :: rest) /\
    accepted_response (concat chunks) max r header.

Lemma request_ends_answered net domain path method headers body max r :
  request net domain path method headers body max = Ok r -> answered net domain path method headers body max r.
Proof.
  unfold request, site_url. intros Hr. inv_ok Hr. destruct a as [host p].
  inv_ok Hok. destruct a. case_if_in Hok; [done|]. injection Hok as <- <-. split; [done|].
  inv_ok Hr. case_if_in Hr; [done|]. inv_ok Hr.
  match goal with H : read_all _ _ = Ok _ |- _ => apply read_all_chunks in H as (chunks & rest & -> & ->) end.
  apply parse_response_Ok in Hr as [header Hr].
  match goal with H : pick_public_address ?l = Ok ?x |- _ => exists l, x, chunks, rest, header;
    unfold pick_public_address in H; apply ok_or_Ok, find_some in H as [Hin _] end.
  split_and!; try done. by apply list_elem_of_In.
Qed.

(** C19: The client talks to nothing but port 443 of an allowed address of the
    resolver's answer for a valid domain, under that domain's server name: two
    networks that agree there give the same result, whatever else they do.  A response
    is accepted only as the bytes that such an address sent for this request up to the
    end of the stream: UTF-8, with a status that is no redirect and no [Location]
    header; what is handed on is exactly what follows the first empty line, within the
    limit.  Metadata handed to the caller was such a response to a GET of the metadata
    path, with status 200, is what the strict reader makes of its body, and is valid for
    the domain asked for. *)
Theorem ssrf_confined `{Base64} `{Crypto} `{JsonText} `{JsonReader}
    net net' domain path method headers body max :
  (validate_domain domain = Ok tt -> net_resolve net domain = net_resolve net' domain) ->
  (forall ips ip bytes, net_resolve net domain = Ok ips -> ip ∈ ips -> is_blocked_ip ip = false ->
     net_exchange net {| sock_ip := ip; sock_port := 443 |} domain bytes =
     net_exchange net' {| sock_ip := ip; sock_port := 443 |} domain bytes) ->
  request net domain path method headers body max =
    request net' domain path method headers body max /\
  (forall r, request net domain path method headers body max = Ok r ->
     answered net domain path method headers body max r) /\
  (forall m, fetch_metadata net domain = Ok m -> metadata_valid m domain /\
     exists r, answered net domain METADATA_PATH "GET" [] [] MAX_METADATA_BYTES r /\
       sr_status r = 200 /\ from_slice metadata_from_value (sr_body r) = Ok m).
Proof.
  intros Hdns Hconn. split; [|split].
  - unfold request, site_url. destruct (validate_domain domain) as [[]|e]; [|done].
    cbn [rbind]. case_if; [done|]. cbn [rbind]. rewrite <- (Hdns eq_refl).
    destruct (net_resolve net domain) as [ips|e] eqn:Er; [|done]. cbn [rbind].
    destruct (pick_public_address ips) as [ip|e] eqn:Ep; [|done]. cbn [rbind].
    case_if; [done|]. unfold pinned_socket. rewrite (Hconn ips ip); try done.
    unfold pick_public_address in Ep. apply ok_or_Ok, find_some in Ep as [Hin _].
    by apply list_elem_of_In.
  - intros r. apply request_ends_answered.
  - intros m Hm. split; [by apply (fetch_metadata_valid net)|]. unfold fetch_metadata in Hm.
    inv_ok Hm. case_if_in Hm; [done|]. inv_ok Hm. bool_hyp. injection Hm as <-.
    exists a. split; [by apply request_ends_answered|]. by split.
Qed.

(** C35: The head of every POST the relay makes to a site is a sequence of lines
    of printable characters, each ended by CRLF, then an empty line: nothing in
    the domain, the body or an idempotency key of base64url characters (which the
    token ids the relay draws are) can add a header or end the head early; and the
    declared length is that of the body that follows. *)
Theorem request_framing domain path body key :
  validate_domain domain = Ok tt -> path = ASSERTION_PATH \/ path = REVOCATION_PATH ->
  match key with Some k => str_forallb cls_id k = true | None => True end ->
  let headers := match key with Some k => [("Idempotency-Key", k)] | None => [] end in
  let lines := head_lines domain path "POST" headers body in
  request_head domain path "POST" headers body = terminated lines +:+ CRLF /\
  Forall plain_line lines /\
  (blen body <> 0 -> "Content-Length: " +:+ z_to_string (blen body) ∈ lines).
Proof.
  intros Hd Hp Hk headers lines. split; [apply request_head_lines|].
  apply validate_domain_Ok in Hd as [_ Hd%domain_name_chars]. split.
  - unfold lines, head_lines. rewrite !Forall_app. split; [|split].
    + repeat constructor; try done; [by destruct Hp as [-> | ->]|].
      apply (plain_app "Host: "); [done|]. apply plain_cls. by left.
    + destruct (negb _); [|constructor]. repeat constructor.
      apply (plain_app "Content-Length: "); [done|apply plain_num].
    + unfold headers. destruct key as [k|]; [|constructor]. repeat constructor. cbn [fst snd].
      apply (plain_app "Idempotency-Key"); [done|]. apply (plain_app ": "); [done|].
      apply plain_cls. by right.
  - intros Hb. unfold lines, head_lines. destruct (Z.eqb_spec (blen body) 0); [done|].
    cbn [negb]. apply elem_of_app. right. apply elem_of_app. left. right. left.
Qed.

(** ** Witnesses: a site behind a resolver that also answers a private address *)

Import Rfc4648 Rfc8259 RfcReader Toy.

Definition sample_site_key : list byte := repeat x05 32.

(** The metadata a site publishes, signed with its key. *)
Definition published_metadata (domain : string) (key : list byte) : SiteMetadata :=
  let m signature := {| meta_version := 1; meta_domain := domain; meta_display_name := "Example";
                        meta_public_key := encode (public_key_raw key);
                        meta_signature := signature |} in
  match canonicalize_object (metadata_fields (m "")) with
  | Ok text => m (sign key (as_bytes text))
  | Err _ => m ""
  end.

Definition sample_metadata : SiteMetadata := published_metadata "login.example.org" sample_site_key.

Definition sample_metadata_body : list byte :=
  match to_vec (metadata_fields sample_metadata
                ++ [("signature", json_str (meta_signature sample_metadata))]) with
  | Ok b => b
  | Err _ => []
  end.

(** [private] is what the private address would answer. *)
Definition sample_net (private : option (list ReadEvent)) : Net := {|
  net_resolve _ := Ok [V4 10 0 0 1; V4 93 184 216 34];
  net_exchange sock _ _ :=
    if bool_decide (sock_ip sock = V4 93 184 216 34) then
      Some [RdOk (as_bytes ("HTTP/1.1 200 OK" +:+ CRLF +:+ CRLF));
            RdOk sample_metadata_body; RdOk []]
    else private
|}.

Example sample_fetch : fetch_metadata (sample_net None) "login.example.org" = Ok sample_metadata.
Proof. vm_compute. reflexivity. Qed.

Lemma ssrf_confined_witness :
  request (sample_net None) "login.example.org" METADATA_PATH "GET" [] [] MAX_METADATA_BYTES =
  request (sample_net (Some [RdOk (as_bytes "secret"); RdOk []])) "login.example.org"
    METADATA_PATH "GET" [] [] MAX_METADATA_BYTES /\
  exists r, answered (sample_net None) "login.example.org" METADATA_PATH "GET" [] [] MAX_METADATA_BYTES r /\
    sr_status r = 200.
Proof.
  destruct (ssrf_confined (sample_net None) (sample_net (Some [RdOk (as_bytes "secret"); RdOk []]))
    "login.example.org" METADATA_PATH "GET" [] [] MAX_METADATA_BYTES) as (Hsame & _ & Hmeta).
  - reflexivity.
  - intros ips ip bytes [= <-] Hin Hb. apply elem_of_cons in Hin as [->|Hin]; [discriminate Hb|].
    apply list_elem_of_singleton in Hin as ->. reflexivity.
  - split; [exact Hsame|]. destruct (Hmeta sample_metadata sample_fetch) as (_ & r & Ha & Hs & _).
    exists r. exact (conj Ha Hs).
Defined.

(** A [Location] header is refused whatever the status, in any case of letters. *)
Example location_refused :
  List.map (fun line => is_ok (parse_http_response
      (as_bytes ("HTTP/1.1 200 OK" +:+ CRLF +:+ line +:+ CRLF +:+ CRLF +:+ "{}")) 100))
    ["Server: x"; "location: /elsewhere"; "LoCaTiOn:/elsewhere"] = [true; false; false].
Proof. vm_compute. reflexivity. Qed.

Lemma request_framing_witness :
  Forall plain_line (head_lines "login.example.org" ASSERTION_PATH "POST"
    [("Idempotency-Key", "AQIDBA")] (as_bytes "body")).
Proof.
  apply (request_framing "login.example.org" ASSERTION_PATH (as_bytes "body") (Some "AQIDBA")).
  - vm_compute. reflexivity.
  - left. reflexivity.
  - reflexivity.
Defined.
