(* ===== verification/Tables.v ===== *)
(** * The tables (migrations/0001_init.sql)

    The rows of the database and the statements the relay issues on them, as pure
    functions.  A table is the list of its rows in insertion order; a replay
    ledger, which is only ever inserted into by key, is a map from the key to the
    expiry.  Timestamps are milliseconds since the epoch. *)

From S2P Require Import Prelude Errors.
From stdpp Require Import gmap sorting.
#[local] Open Scope Z_scope.

#[export] Instance byte_countable : Countable byte.
Proof.
  apply (inj_countable' Byte.to_N (fun n => default x00 (Byte.of_N n))).
  intros b. by rewrite Byte.of_to_N.
Defined.

(** ** Rows *)

Record SessionRow := {
  s_id : Z;
  s_domain : string;
  s_session_id : string;
  s_nonce_hash : list byte;
  s_nonce_ciphertext : list byte;
  s_iat : Z;
  s_exp : Z;
  s_requested_display_name : string;
  s_site_display_name : string;
  s_site_public_key : string;
  s_qr_signature : string;
  s_registration_signature : string;
  s_registration_hash : list byte;
  s_state : string;
  s_version : Z;
  s_request_event_id : option string;
  s_request_room_ciphertext : option (list byte);
  s_request_sender_ciphertext : option (list byte);
  s_challenge_hash : option (list byte);
  s_challenge_expires_at : option Z;
  s_consent_event_id : option string;
  s_display_name_ciphertext : option (list byte);
  s_assertion_jti : option string;
  s_assertion_ciphertext : option (list byte);
  s_expires_at : Z
}.

Record GrantRow := {
  g_id : Z;
  g_domain : string;
  g_subject_hash : list byte;
  g_subject_ciphertext : list byte;
  g_matrix_user_ciphertext : list byte;
  g_session_id : string;
  g_nonce_hash : list byte;
  g_subject_key_version : Z;
  g_revoked_at : option Z
}.

Record DeliveryJob := {
  j_id : Z;
  j_kind : string;
  j_domain : string;
  j_jti : string;
  j_payload_ciphertext : list byte;
  j_idempotency_key : string;
  j_session_id : string;
  j_nonce_hash : list byte;
  j_attempts : Z;
  j_next_retry_at : option Z;
  j_status : string
}.

#[export] Instance SessionRow_eq_dec : EqDecision SessionRow.
Proof. solve_decision. Defined.
#[export] Instance GrantRow_eq_dec : EqDecision GrantRow.
Proof. solve_decision. Defined.
#[export] Instance DeliveryJob_eq_dec : EqDecision DeliveryJob.
Proof. solve_decision. Defined.

Record Db := {
  db_sessions : list SessionRow;
  db_grants : list GrantRow;
  db_jobs : list DeliveryJob;
  db_request_events : gmap string Z;
  db_challenge_hashes : gmap (list byte) Z;
  db_consent_events : gmap string Z;
  db_assertion_jtis : gmap string Z;
  db_revocation_jtis : gmap string Z
}.

Definition empty_db : Db := {|
  db_sessions := []; db_grants := []; db_jobs := []; db_request_events := ∅;
  db_challenge_hashes := ∅; db_consent_events := ∅; db_assertion_jtis := ∅;
  db_revocation_jtis := ∅
|}.

Definition set_sessions (l : list SessionRow) (d : Db) : Db := {|
  db_sessions := l; db_grants := db_grants d; db_jobs := db_jobs d;
  db_request_events := db_request_events d; db_challenge_hashes := db_challenge_hashes d;
  db_consent_events := db_consent_events d; db_assertion_jtis := db_assertion_jtis d;
  db_revocation_jtis := db_revocation_jtis d |}.
Definition set_grants (l : list GrantRow) (d : Db) : Db := {|
  db_sessions := db_sessions d; db_grants := l; db_jobs := db_jobs d;
  db_request_events := db_request_events d; db_challenge_hashes := db_challenge_hashes d;
  db_consent_events := db_consent_events d; db_assertion_jtis := db_assertion_jtis d;
  db_revocation_jtis := db_revocation_jtis d |}.
Definition set_jobs (l : list DeliveryJob) (d : Db) : Db := {|
  db_sessions := db_sessions d; db_grants := db_grants d; db_jobs := l;
  db_request_events := db_request_events d; db_challenge_hashes := db_challenge_hashes d;
  db_consent_events := db_consent_events d; db_assertion_jtis := db_assertion_jtis d;
  db_revocation_jtis := db_revocation_jtis d |}.

(** The five replay ledgers; [challenge_hash] is the one of bytes. *)
Inductive Ledger := RequestEvents | ConsentEvents | AssertionJtis | RevocationJtis.

Definition ledger (l : Ledger) (d : Db) : gmap string Z :=
  match l with
  | RequestEvents => db_request_events d
  | ConsentEvents => db_consent_events d
  | AssertionJtis => db_assertion_jtis d
  | RevocationJtis => db_revocation_jtis d
  end.

Definition set_ledger (l : Ledger) (m : gmap string Z) (d : Db) : Db := {|
  db_sessions := db_sessions d; db_grants := db_grants d; db_jobs := db_jobs d;
  db_request_events := match l with RequestEvents => m | _ => db_request_events d end;
  db_challenge_hashes := db_challenge_hashes d;
  db_consent_events := match l with ConsentEvents => m | _ => db_consent_events d end;
  db_assertion_jtis := match l with AssertionJtis => m | _ => db_assertion_jtis d end;
  db_revocation_jtis := match l with RevocationJtis => m | _ => db_revocation_jtis d end |}.

Definition set_challenge_hashes (m : gmap (list byte) Z) (d : Db) : Db := {|
  db_sessions := db_sessions d; db_grants := db_grants d; db_jobs := db_jobs d;
  db_request_events := db_request_events d; db_challenge_hashes := m;
  db_consent_events := db_consent_events d; db_assertion_jtis := db_assertion_jtis d;
  db_revocation_jtis := db_revocation_jtis d |}.

(** ** Statements *)

(** [query_opt]: more than one row is an error. *)
Definition query_opt {A} (rows : list A) : result (option A) :=
  match rows with
  | [] => Ok None
  | [r] => Ok (Some r)
  | _ => problem InternalError
  end.

(** The unique constraints of [sessions]. *)
Definition session_conflict (n s : SessionRow) : bool :=
  String.eqb (s_domain n) (s_domain s)
  && (String.eqb (s_session_id n) (s_session_id s)
      || bool_decide (s_nonce_hash n = s_nonce_hash s)).

(** [INSERT INTO sessions ... ON CONFLICT DO NOTHING]: rows inserted. *)
Definition insert_session (n : SessionRow) (d : Db) : Z * Db :=
  if existsb (session_conflict n) (db_sessions d) then (0, d)
  else (1, set_sessions (db_sessions d ++ [n]) d).

(** [COALESCE($n, column)]. *)
Definition coalesce {A} (new old : option A) : option A :=
  match new with Some _ => new | None => old end.

(** The columns [cas_update] may set. *)
Record SessionPatch := {
  p_state : string;
  p_request_event_id : option string;
  p_request_room_ciphertext : option (list byte);
  p_request_sender_ciphertext : option (list byte);
  p_challenge_hash : option (list byte);
  p_challenge_expires_at : option Z;
  p_consent_event_id : option string;
  p_display_name_ciphertext : option (list byte);
  p_assertion_jti : option string;
  p_assertion_ciphertext : option (list byte)
}.

Definition apply_patch (p : SessionPatch) (s : SessionRow) : SessionRow := {|
  s_id := s_id s; s_domain := s_domain s; s_session_id := s_session_id s;
  s_nonce_hash := s_nonce_hash s; s_nonce_ciphertext := s_nonce_ciphertext s;
  s_iat := s_iat s; s_exp := s_exp s;
  s_requested_display_name := s_requested_display_name s;
  s_site_display_name := s_site_display_name s; s_site_public_key := s_site_public_key s;
  s_qr_signature := s_qr_signature s; s_registration_signature := s_registration_signature s;
  s_registration_hash := s_registration_hash s;
  s_state := p_state p;
  s_version := s_version s + 1;
  s_request_event_id := coalesce (p_request_event_id p) (s_request_event_id s);
  s_request_room_ciphertext := coalesce (p_request_room_ciphertext p) (s_request_room_ciphertext s);
  s_request_sender_ciphertext :=
    coalesce (p_request_sender_ciphertext p) (s_request_sender_ciphertext s);
  s_challenge_hash := coalesce (p_challenge_hash p) (s_challenge_hash s);
  s_challenge_expires_at := coalesce (p_challenge_expires_at p) (s_challenge_expires_at s);
  s_consent_event_id := coalesce (p_consent_event_id p) (s_consent_event_id s);
  s_display_name_ciphertext := coalesce (p_display_name_ciphertext p) (s_display_name_ciphertext s);
  s_assertion_jti := coalesce (p_assertion_jti p) (s_assertion_jti s);
  s_assertion_ciphertext := coalesce (p_assertion_ciphertext p) (s_assertion_ciphertext s);
  s_expires_at := s_expires_at s |}.

Definition cas_match (id version : Z) (s : SessionRow) : bool :=
  (s_id s =? id) && (s_version s =? version).

(** [UPDATE sessions SET ... WHERE id = $1 AND version = $2]: rows updated; an
    INTEGER column that overflows is an error. *)
Definition update_session (id version : Z) (p : SessionPatch) (d : Db) : result (Z * Db) :=
  let hits := List.filter (cas_match id version) (db_sessions d) in
  if existsb (fun s => i32_max <? s_version s + 1) hits then problem InternalError
  else
    Ok (Z.of_nat (length hits),
        set_sessions
          (List.map (fun s => if cas_match id version s then apply_patch p s else s) (db_sessions d))
          d).

(** [INSERT INTO grants ... ON CONFLICT (domain, subject_hash) DO UPDATE ...
    RETURNING *]. *)
Definition grant_match (domain : string) (subject_hash : list byte) (g : GrantRow) : bool :=
  String.eqb (g_domain g) domain && bool_decide (g_subject_hash g = subject_hash).

Definition regrant (session_id : string) (nonce_hash : list byte) (g : GrantRow) : GrantRow := {|
  g_id := g_id g; g_domain := g_domain g; g_subject_hash := g_subject_hash g;
  g_subject_ciphertext := g_subject_ciphertext g;
  g_matrix_user_ciphertext := g_matrix_user_ciphertext g;
  g_session_id := session_id; g_nonce_hash := nonce_hash;
  g_subject_key_version := g_subject_key_version g; g_revoked_at := None |}.

Definition upsert (n : GrantRow) (d : Db) : GrantRow * Db :=
  match List.filter (grant_match (g_domain n) (g_subject_hash n)) (db_grants d) with
  | [] => (n, set_grants (db_grants d ++ [n]) d)
  | g :: _ =>
      let upd := regrant (g_session_id n) (g_nonce_hash n) in
      (upd g,
       set_grants
         (List.map (fun g => if grant_match (g_domain n) (g_subject_hash n) g then upd g else g)
            (db_grants d)) d)
  end.

(** [UPDATE grants SET revoked_at = NOW() WHERE id = $1 AND revoked_at IS NULL]. *)
Definition revoke (id now : Z) (d : Db) : Db :=
  set_grants
    (List.map (fun g =>
       if (g_id g =? id) && bool_decide (g_revoked_at g = None) then
         {| g_id := g_id g; g_domain := g_domain g; g_subject_hash := g_subject_hash g;
            g_subject_ciphertext := g_subject_ciphertext g;
            g_matrix_user_ciphertext := g_matrix_user_ciphertext g;
            g_session_id := g_session_id g; g_nonce_hash := g_nonce_hash g;
            g_subject_key_version := g_subject_key_version g; g_revoked_at := Some now |}
       else g) (db_grants d)) d.

(** [INSERT INTO delivery_jobs ... ON CONFLICT (jti) DO NOTHING]. *)
Definition insert_job (n : DeliveryJob) (d : Db) : Db :=
  if existsb (fun j => String.eqb (j_jti j) (j_jti n)) (db_jobs d) then d
  else set_jobs (db_jobs d ++ [n]) d.

(** The claim: the first [limit] pending jobs that are due, by id, have their
    attempts counted and their next attempt put off by five seconds. *)
Definition job_due (now : Z) (j : DeliveryJob) : bool :=
  String.eqb (j_status j) "pending"
  && match j_next_retry_at j with None => true | Some t => t <=? now end.

Definition job_le (a b : DeliveryJob) : Prop := j_id a <= j_id b.
#[export] Instance job_le_dec a b : Decision (job_le a b).
Proof. unfold job_le. apply _. Defined.

Definition set_status (st : string) (j : DeliveryJob) : DeliveryJob := {|
  j_id := j_id j; j_kind := j_kind j; j_domain := j_domain j; j_jti := j_jti j;
  j_payload_ciphertext := j_payload_ciphertext j; j_idempotency_key := j_idempotency_key j;
  j_session_id := j_session_id j; j_nonce_hash := j_nonce_hash j; j_attempts := j_attempts j;
  j_next_retry_at := j_next_retry_at j; j_status := st |}.

Definition attempt (now : Z) (j : DeliveryJob) : DeliveryJob := {|
  j_id := j_id j; j_kind := j_kind j; j_domain := j_domain j; j_jti := j_jti j;
  j_payload_ciphertext := j_payload_ciphertext j; j_idempotency_key := j_idempotency_key j;
  j_session_id := j_session_id j; j_nonce_hash := j_nonce_hash j; j_attempts := j_attempts j + 1;
  j_next_retry_at := Some (now + 5000); j_status := j_status j |}.

Definition claimed (now limit : Z) (d : Db) : list Z :=
  List.map j_id
    (take (Z.to_nat limit) (merge_sort job_le (List.filter (job_due now) (db_jobs d)))).

(** The rows the UPDATE returns, and the tables after it; an INTEGER column that
    overflows is an error. *)
Definition claim (now limit : Z) (d : Db) : result (list DeliveryJob * Db) :=
  let hit j := bool_decide (j_id j ∈ claimed now limit d) in
  let hits := List.filter hit (db_jobs d) in
  if existsb (fun j => i32_max <? j_attempts j + 1) hits then problem InternalError
  else
    Ok (List.map (attempt now) hits,
        set_jobs (List.map (fun j => if hit j then attempt now j else j) (db_jobs d)) d).

Definition mark (st : string) (id : Z) (d : Db) : Db :=
  set_jobs (List.map (fun j => if j_id j =? id then set_status st j else j) (db_jobs d)) d.
