(* ===== verification/Statements.v ===== *)
(** * The statements of the relay (src/src/db)

    Every SQL statement the relay issues in a transaction, as data: a constructor
    per statement with its parameters, indexed by what it returns.  [stmt_run] is
    its meaning on the tables the transaction sees; [auto_run] is that of the
    statements that run on a pooled connection and commit by themselves. *)

From S2P Require Import Prelude Errors Tables.
From stdpp Require Import gmap.
#[local] Open Scope Z_scope.

(** ** Rows to insert *)

Record NewSession := {
  ns_domain : string;
  ns_session_id : string;
  ns_nonce_hash : list byte;
  ns_nonce_ciphertext : list byte;
  ns_iat : Z;
  ns_exp : Z;
  ns_requested_display_name : string;
  ns_site_display_name : string;
  ns_site_public_key : string;
  ns_qr_signature : string;
  ns_registration_signature : string;
  ns_registration_hash : list byte
}.

(** The row of the INSERT, with the defaults of the columns it does not name. *)
Definition new_row (n : NewSession) (id expires_at : Z) : SessionRow := {|
  s_id := id; s_domain := ns_domain n; s_session_id := ns_session_id n;
  s_nonce_hash := ns_nonce_hash n; s_nonce_ciphertext := ns_nonce_ciphertext n;
  s_iat := ns_iat n; s_exp := ns_exp n;
  s_requested_display_name := ns_requested_display_name n;
  s_site_display_name := ns_site_display_name n; s_site_public_key := ns_site_public_key n;
  s_qr_signature := ns_qr_signature n; s_registration_signature := ns_registration_signature n;
  s_registration_hash := ns_registration_hash n;
  s_state := "SITE_REGISTERED"; s_version := 0;
  s_request_event_id := None; s_request_room_ciphertext := None;
  s_request_sender_ciphertext := None; s_challenge_hash := None; s_challenge_expires_at := None;
  s_consent_event_id := None; s_display_name_ciphertext := None; s_assertion_jti := None;
  s_assertion_ciphertext := None; s_expires_at := expires_at |}.

Definition grant_row (id : Z) (domain : string) (subject_hash subject_ct user_ct : list byte)
    (session_id : string) (nonce_hash : list byte) (skv : Z) : GrantRow := {|
  g_id := id; g_domain := domain; g_subject_hash := subject_hash;
  g_subject_ciphertext := subject_ct; g_matrix_user_ciphertext := user_ct;
  g_session_id := session_id; g_nonce_hash := nonce_hash; g_subject_key_version := skv;
  g_revoked_at := None |}.

Definition job_row (id : Z) (kind domain jti : string) (payload : list byte)
    (session_id : string) (nonce_hash : list byte) (due : Z) : DeliveryJob := {|
  j_id := id; j_kind := kind; j_domain := domain; j_jti := jti; j_payload_ciphertext := payload;
  j_idempotency_key := jti; j_session_id := session_id; j_nonce_hash := nonce_hash;
  j_attempts := 0; j_next_retry_at := Some due; j_status := "pending" |}.

(** A key that is already reserved is a conflict, whenever it expires. *)
Definition insert_key (l : Ledger) (value : string) (expires_at : Z) (conflict : ProblemCode)
    (d : Db) : result unit * Db :=
  match ledger l d !! value with
  | Some _ => (problem conflict, d)
  | None => (Ok tt, set_ledger l (<[value := expires_at]> (ledger l d)) d)
  end.

Definition insert_challenge (hash : list byte) (expires_at : Z) (d : Db) : result unit * Db :=
  match db_challenge_hashes d !! hash with
  | Some _ => (problem ChallengeReplayed, d)
  | None => (Ok tt, set_challenge_hashes (<[hash := expires_at]> (db_challenge_hashes d)) d)
  end.

(** The sequences behind the BIGSERIAL columns; they are not rolled back. *)
Record Seqs := { seq_sessions : Z; seq_grants : Z; seq_jobs : Z }.

Definition next_session (s : Seqs) : Seqs :=
  {| seq_sessions := seq_sessions s + 1; seq_grants := seq_grants s; seq_jobs := seq_jobs s |}.
Definition next_grant (s : Seqs) : Seqs :=
  {| seq_sessions := seq_sessions s; seq_grants := seq_grants s + 1; seq_jobs := seq_jobs s |}.
Definition next_job (s : Seqs) : Seqs :=
  {| seq_sessions := seq_sessions s; seq_grants := seq_grants s; seq_jobs := seq_jobs s + 1 |}.

(** ** Statements in a transaction *)

(** Whether a SELECT ends in [FOR UPDATE]. *)
Inductive RowLock := NoLock | ForUpdate.

Inductive Stmt : Type -> Type :=
  (** [INSERT INTO sessions ... ON CONFLICT DO NOTHING]: rows inserted. *)
  | InsertSession (n : NewSession) (expires_at : Z) : Stmt Z
  (** [SELECT * FROM sessions WHERE ...], through [query_opt]. *)
  | SelectSession (lock : RowLock) (p : SessionRow -> bool) : Stmt (option SessionRow)
  (** [UPDATE sessions SET ... WHERE id = $1 AND version = $2]: rows updated. *)
  | UpdateSession (id version : Z) (p : SessionPatch) : Stmt Z
  (** The inserts into the replay ledgers, with the error of a repeated key. *)
  | InsertText (l : Ledger) (value : string) (expires_at : Z) (conflict : ProblemCode) : Stmt unit
  | InsertChallenge (hash : list byte) (expires_at : Z) : Stmt unit
  (** [INSERT INTO grants ... ON CONFLICT ... DO UPDATE ... RETURNING *]. *)
  | UpsertGrant (domain : string) (subject_hash subject_ciphertext matrix_user_ciphertext : list byte)
      (session_id : string) (nonce_hash : list byte) (subject_key_version : Z) : Stmt GrantRow
  (** [SELECT * FROM grants WHERE ...], through [query_opt]. *)
  | SelectGrant (lock : RowLock) (p : GrantRow -> bool) : Stmt (option GrantRow)
  (** [UPDATE grants SET revoked_at = NOW() WHERE id = $1 AND revoked_at IS NULL]. *)
  | RevokeGrant (id : Z) : Stmt unit
  (** [INSERT INTO delivery_jobs ... ON CONFLICT (jti) DO NOTHING]. *)
  | InsertJob (kind domain jti : string) (payload_ciphertext : list byte) (session_id : string)
      (nonce_hash : list byte) : Stmt unit.

(** What a statement returns, the tables after it, and the sequences; a failed
    statement changes nothing. *)
Definition stmt_run {A} (st : Stmt A) (now : Z) (s : Seqs) (d : Db) : result A * Db * Seqs :=
  match st in Stmt A return result A * Db * Seqs with
  | InsertSession n expires_at =>
      let '(inserted, d') := insert_session (new_row n (seq_sessions s) expires_at) d in
      (Ok inserted, d', next_session s)
  | SelectSession _ p => (query_opt (List.filter p (db_sessions d)), d, s)
  | UpdateSession id version p =>
      match update_session id version p d with
      | Ok (updated, d') => (Ok updated, d', s)
      | Err e => (Err e, d, s)
      end
  | InsertText l value expires_at conflict => (insert_key l value expires_at conflict d, s)
  | InsertChallenge hash expires_at => (insert_challenge hash expires_at d, s)
  | UpsertGrant domain sh sct uct sid nh skv =>
      let '(g, d') := upsert (grant_row (seq_grants s) domain sh sct uct sid nh skv) d in
      (Ok g, d', next_grant s)
  | SelectGrant _ p => (query_opt (List.filter p (db_grants d)), d, s)
  | RevokeGrant id => (Ok tt, revoke id now d, s)
  | InsertJob kind domain jti payload sid nh =>
      (Ok tt, insert_job (job_row (seq_jobs s) kind domain jti payload sid nh now) d, next_job s)
  end.

(** ** Statements on a pooled connection *)

Inductive Auto : Type -> Type :=
  | Claim (limit : Z) : Auto (list DeliveryJob)
  | Mark (status : string) (id : Z) : Auto unit.

Definition auto_run {A} (st : Auto A) (now : Z) (d : Db) : result (A * Db) :=
  match st in Auto A return result (A * Db) with
  | Claim limit => claim now limit d
  | Mark status id => Ok (tt, mark status id d)
  end.

(** The order of the rows a statement returns is the server's. *)
Definition auto_returned {A} (order : list DeliveryJob -> list DeliveryJob) (st : Auto A) : A -> A :=
  match st in Auto A return A -> A with
  | Claim _ => order
  | Mark _ _ => fun a => a
  end.
