(* ===== verification/World.v ===== *)
(** * The relay's state and the world around it
    (src/src/state.rs, src/src/clock.rs, [begin] and [millis_to_utc] of src/src/db)

    A handler is a program [M A]: a tree of the operations [Op] it performs, one
    for every place where the source awaits or touches shared state, that ends in
    a [result].  [run] is the handler alone: each operation is performed on the
    [World].  Everything the relay does not decide itself (the clock, random bytes,
    whether a statement, a commit or a message gets through, what a site answers)
    is an oracle of the class [Env], asked by the number of the step. *)

From S2P Require Import Prelude Errors Constants Utf8 Validation Base64url Json Crypto Keys.
From S2P Require Import Metadata Ssrf Site Tables Statements.

(** ** AppState: what does not change *)

Record AppState := {
  st_at_rest : list byte;
  st_lookup_pepper : list byte;
  st_subject_secret : list byte;
  st_subject_key_version : Z;
  st_signing_key : list byte;
  st_signing_kid : string;
  st_relay_user_id : string
}.

(** ** Metrics *)

Record Metrics := {
  m_registrations : Z;
  m_registration_failures : Z;
  m_challenges : Z;
  m_consents : Z;
  m_replay_conflicts : Z;
  m_ssrf_rejections : Z;
  m_room_violations : Z;
  m_deliveries : Z
}.

Definition no_metrics : Metrics := Build_Metrics 0 0 0 0 0 0 0 0.

Inductive Metric :=
  | Registrations | RegistrationFailures | Challenges | Consents | ReplayConflicts
  | SsrfRejections | RoomViolations | Deliveries.

(** [fetch_add(1)] on an [AtomicU64]. *)
Definition incr (z : Z) : Z := (z + 1) mod 2 ^ 64.

Definition metrics_inc (f : Metric) (m : Metrics) : Metrics :=
  {| m_registrations := match f with Registrations => incr (m_registrations m) | _ => m_registrations m end;
     m_registration_failures :=
       match f with RegistrationFailures => incr (m_registration_failures m) | _ => m_registration_failures m end;
     m_challenges := match f with Challenges => incr (m_challenges m) | _ => m_challenges m end;
     m_consents := match f with Consents => incr (m_consents m) | _ => m_consents m end;
     m_replay_conflicts :=
       match f with ReplayConflicts => incr (m_replay_conflicts m) | _ => m_replay_conflicts m end;
     m_ssrf_rejections :=
       match f with SsrfRejections => incr (m_ssrf_rejections m) | _ => m_ssrf_rejections m end;
     m_room_violations :=
       match f with RoomViolations => incr (m_room_violations m) | _ => m_room_violations m end;
     m_deliveries := match f with Deliveries => incr (m_deliveries m) | _ => m_deliveries m end |}.

(** ** The world *)

Record OutboundNotice := { n_room_id : string; n_body : string }.

(** A call of [post_json]. *)
Record SitePost := { po_domain : string; po_path : string; po_body : list byte;
                     po_key : option string }.

(** An open transaction: its view of the tables and its [NOW()]. *)
Record Tx := { tx_db : Db; tx_now : Z }.

Record World := {
  w_db : Db;
  w_tx : option Tx;
  w_seqs : Seqs;
  w_step : nat;
  w_notices : list OutboundNotice;
  w_posts : list SitePost;
  w_metrics : Metrics;
  w_sync_ready : bool;
  w_last_matrix_sync_ms : Z;
  w_reg_window : Z;
  w_reg_count : Z
}.

Definition set_db (d : Db) (w : World) : World := {|
  w_db := d; w_tx := w_tx w; w_seqs := w_seqs w; w_step := w_step w; w_notices := w_notices w;
  w_posts := w_posts w; w_metrics := w_metrics w; w_sync_ready := w_sync_ready w;
  w_last_matrix_sync_ms := w_last_matrix_sync_ms w; w_reg_window := w_reg_window w;
  w_reg_count := w_reg_count w |}.
Definition set_tx (t : option Tx) (w : World) : World := {|
  w_db := w_db w; w_tx := t; w_seqs := w_seqs w; w_step := w_step w; w_notices := w_notices w;
  w_posts := w_posts w; w_metrics := w_metrics w; w_sync_ready := w_sync_ready w;
  w_last_matrix_sync_ms := w_last_matrix_sync_ms w; w_reg_window := w_reg_window w;
  w_reg_count := w_reg_count w |}.
Definition set_seqs (s : Seqs) (w : World) : World := {|
  w_db := w_db w; w_tx := w_tx w; w_seqs := s; w_step := w_step w; w_notices := w_notices w;
  w_posts := w_posts w; w_metrics := w_metrics w; w_sync_ready := w_sync_ready w;
  w_last_matrix_sync_ms := w_last_matrix_sync_ms w; w_reg_window := w_reg_window w;
  w_reg_count := w_reg_count w |}.
Definition bump (w : World) : World := {|
  w_db := w_db w; w_tx := w_tx w; w_seqs := w_seqs w; w_step := S (w_step w);
  w_notices := w_notices w; w_posts := w_posts w; w_metrics := w_metrics w;
  w_sync_ready := w_sync_ready w; w_last_matrix_sync_ms := w_last_matrix_sync_ms w;
  w_reg_window := w_reg_window w; w_reg_count := w_reg_count w |}.
Definition set_notices (l : list OutboundNotice) (w : World) : World := {|
  w_db := w_db w; w_tx := w_tx w; w_seqs := w_seqs w; w_step := w_step w; w_notices := l;
  w_posts := w_posts w; w_metrics := w_metrics w; w_sync_ready := w_sync_ready w;
  w_last_matrix_sync_ms := w_last_matrix_sync_ms w; w_reg_window := w_reg_window w;
  w_reg_count := w_reg_count w |}.
Definition set_posts (l : list SitePost) (w : World) : World := {|
  w_db := w_db w; w_tx := w_tx w; w_seqs := w_seqs w; w_step := w_step w;
  w_notices := w_notices w; w_posts := l; w_metrics := w_metrics w;
  w_sync_ready := w_sync_ready w; w_last_matrix_sync_ms := w_last_matrix_sync_ms w;
  w_reg_window := w_reg_window w; w_reg_count := w_reg_count w |}.
Definition set_metrics (m : Metrics) (w : World) : World := {|
  w_db := w_db w; w_tx := w_tx w; w_seqs := w_seqs w; w_step := w_step w;
  w_notices := w_notices w; w_posts := w_posts w; w_metrics := m;
  w_sync_ready := w_sync_ready w; w_last_matrix_sync_ms := w_last_matrix_sync_ms w;
  w_reg_window := w_reg_window w; w_reg_count := w_reg_count w |}.
Definition set_sync (ready : bool) (last : Z) (w : World) : World := {|
  w_db := w_db w; w_tx := w_tx w; w_seqs := w_seqs w; w_step := w_step w;
  w_notices := w_notices w; w_posts := w_posts w; w_metrics := w_metrics w;
  w_sync_ready := ready; w_last_matrix_sync_ms := last; w_reg_window := w_reg_window w;
  w_reg_count := w_reg_count w |}.
Definition set_window (window count : Z) (w : World) : World := {|
  w_db := w_db w; w_tx := w_tx w; w_seqs := w_seqs w; w_step := w_step w;
  w_notices := w_notices w; w_posts := w_posts w; w_metrics := w_metrics w;
  w_sync_ready := w_sync_ready w; w_last_matrix_sync_ms := w_last_matrix_sync_ms w;
  w_reg_window := window; w_reg_count := count |}.

(** Before the first event. *)
Definition initial_world (sync_ready : bool) (last : Z) : World := {|
  w_db := empty_db; w_tx := None; w_seqs := Build_Seqs 1 1 1; w_step := 0; w_notices := [];
  w_posts := []; w_metrics := no_metrics; w_sync_ready := sync_ready;
  w_last_matrix_sync_ms := last; w_reg_window := 0; w_reg_count := 0 |}.

(** ** The environment *)

(** What became of an effect: done, not done, or done although an error was
    reported (a connection lost after the server acted). *)
Inductive IoOutcome := IoOk | IoLost | IoAmbiguous.

#[export] Instance IoOutcome_eq_dec : EqDecision IoOutcome.
Proof. solve_decision. Defined.

Class Env := {
  (** [Clock::now_ms] and [SystemTime::now] in seconds. *)
  env_now : nat -> Z;
  env_unix_secs : nat -> Z;
  (** [thread_rng().fill_bytes] on a buffer of a length. *)
  env_rand : nat -> nat -> list byte;
  (** Whether a connection is had, a transaction begun, a statement run. *)
  env_pool : nat -> bool;
  env_begin : nat -> bool;
  env_sql : nat -> bool;
  (** The server's clock. *)
  env_db_now : nat -> Z;
  (** An autocommitted statement, and a COMMIT. *)
  env_exec : nat -> IoOutcome;
  env_commit : nat -> IoOutcome;
  env_rollback : nat -> bool;
  (** The order in which an UPDATE returns its rows. *)
  env_returning : nat -> list DeliveryJob -> list DeliveryJob;
  (** [MessageSink::send_notice], with the error it reports. *)
  env_notice : nat -> IoOutcome;
  env_notice_error : nat -> RelayError;
  (** The site client, as it stands at that moment. *)
  env_site : nat -> SiteFetcher;
  (** chrono's [Utc.timestamp_millis_opt(ms).single()], as milliseconds. *)
  env_timestamp_millis : Z -> option Z
}.

Class EnvLaws `{Base64} `{Crypto} `{JsonText} `{Env} : Prop := {
  env_now_i64 : forall n, in_i64 (env_now n);
  env_rand_len : forall n k, length (env_rand n k) = k;
  env_returning_all : forall n l, Permutation (env_returning n l) l;
  env_timestamp_iff : forall ms t, env_timestamp_millis ms = Some t <->
    t = ms /\ -8334601228800000 <= ms <= 8210266876799999;
  env_site_laws : forall n, SiteFetcherLaws (H2 := env_site n)
}.

(** ** Operations *)

Inductive Op : Type -> Type :=
  (** [Clock::now_ms], [SystemTime::now] in seconds, [fill_bytes]. *)
  | Now : Op Z
  | UnixSecs : Op Z
  | Rand (len : nat) : Op (list byte)
  (** [pool.get()], [client.transaction()], and the drop of a transaction. *)
  | PoolGet : Op bool
  | Begin : Op bool
  | Drop : Op unit
  (** A statement of the open transaction, and its end. *)
  | Exec {A} (st : Stmt A) : Op (result A)
  | Commit : Op (result unit)
  | Rollback : Op (result unit)
  (** A statement on a pooled connection, and [SELECT 1]. *)
  | ExecAuto {A} (st : Auto A) : Op (result A)
  | SelectOne : Op bool
  (** [outbox.send_notice], [site.fetch_metadata], [site.post_json]. *)
  | Notice (room_id body : string) : Op (result unit)
  | Metadata (domain : string) : Op (result SiteMetadata)
  | Post (domain path : string) (body : list byte) (key : option string) : Op (result SiteResponse)
  (** [Metrics::inc]. *)
  | Inc (f : Metric) : Op unit
  (** The atomics of the limiter and of the sync state. *)
  | LoadWindow : Op Z
  | StoreWindow (window : Z) : Op unit
  | StoreCount (count : Z) : Op unit
  | FetchAddCount : Op Z
  | LoadReady : Op bool
  | LoadLastSync : Op Z
  | StoreReady (ready : bool) : Op unit
  | StoreLastSync (last : Z) : Op unit.

(** ** Programs *)

Inductive M (A : Type) : Type :=
  | Ret (r : result A)
  | Vis {X : Type} (o : Op X) (k : X -> M A).
Arguments Ret {A} r.
Arguments Vis {A X} o k.

Definition ret {A} (a : A) : M A := Ret (Ok a).
Definition raise {A} (e : RelayError) : M A := Ret (Err e).
Definition fail {A} (c : ProblemCode) : M A := raise (Problem c).
Definition lift {A} (r : result A) : M A := Ret r.

Fixpoint bind {A B} (m : M A) (k : A -> M B) : M B :=
  match m with
  | Ret (Ok a) => k a
  | Ret (Err e) => Ret (Err e)
  | Vis o c => Vis o (fun x => bind (c x) k)
  end.

Notation "'let!' x ':=' c 'in' k" := (bind c (fun x => k))
  (at level 10, x pattern, c at level 200, k at level 200) : relay_scope.
Notation "c ';!' k" := (bind c (fun _ => k))
  (at level 100, k at level 200, right associativity) : relay_scope.

(** [.map_err(f)] where [f] has an effect. *)
Fixpoint on_err {A} (m : M A) (f : RelayError -> M A) : M A :=
  match m with
  | Ret (Ok a) => Ret (Ok a)
  | Ret (Err e) => f e
  | Vis o c => Vis o (fun x => on_err (c x) f)
  end.

(** [match m.await { Ok(..) => .., Err(..) => .. }]. *)
Fixpoint try {A} (m : M A) : M (result A) :=
  match m with
  | Ret r => Ret (Ok r)
  | Vis o c => Vis o (fun x => try (c x))
  end.

(** A transaction that is dropped, and with it rolled back when it was not
    committed, on every way out. *)
Fixpoint dropping {A} (m : M A) : M A :=
  match m with
  | Ret r => Vis Drop (fun _ => Ret r)
  | Vis o c => Vis o (fun x => dropping (c x))
  end.

(** One operation, for its answer; and one that can fail. *)
Definition op {X} (o : Op X) : M X := Vis o (fun x => Ret (Ok x)).
Definition op_result {X} (o : Op (result X)) : M X := Vis o (fun r => Ret r).

Definition now_ms : M Z := op Now.
Definition fill_bytes (len : nat) : M (list byte) := op (Rand len).
Definition inc (f : Metric) : M unit := op (Inc f).

Definition pool_get : M unit :=
  let! up := op PoolGet in
  if up then ret tt else fail InternalError.

(** [db::begin]. *)
Definition begin : M unit :=
  let! up := op Begin in
  if up then ret tt else fail InternalError.

(** A connection, and a transaction on it. *)
Definition with_tx {A} (body : M A) : M A := pool_get ;! begin ;! dropping body.

Definition tx_stmt {A} (st : Stmt A) : M A := op_result (Exec st).

(** [tx.commit()] and [tx.rollback()], which consume the transaction. *)
Definition commit : M unit := op_result Commit.
Definition rollback : M unit := op_result Rollback.

(** A statement on a pooled connection, committed by itself. *)
Definition pool_exec {A} (st : Auto A) : M A := pool_get ;! op_result (ExecAuto st).

(** [outbox.send_notice]. *)
Definition send_notice (room_id body : string) : M unit := op_result (Notice room_id body).

(** [site.fetch_metadata] and [site.post_json]. *)
Definition site_metadata (domain : string) : M SiteMetadata := op_result (Metadata domain).
Definition site_post (domain path : string) (body : list byte) (key : option string)
  : M SiteResponse := op_result (Post domain path body key).

(** [state.at_rest.encrypt], with a nonce of its own. *)
Definition at_rest_encrypt `{Crypto} (state : AppState) (plaintext : list byte) : M (list byte) :=
  let! nonce := fill_bytes 12 in
  lift (encrypt (st_at_rest state) nonce plaintext).

(** ** The handler alone *)

Section Run.
Context `{Env}.

(** [sessions::millis_to_utc]. *)
Definition millis_to_utc (ms : Z) : result Z := ok_or (env_timestamp_millis ms) InvalidRequest.

(** A statement runs on the tables of the open transaction. *)
Definition perform_stmt {A} (st : Stmt A) (w : World) : result A * World :=
  match w_tx w with
  | Some t =>
      let '(r, d, s) := stmt_run st (tx_now t) (w_seqs w) (tx_db t) in
      (r, set_seqs s (set_tx (Some {| tx_db := d; tx_now := tx_now t |}) w))
  | None => (problem InternalError, w)
  end.

(** What an outcome leaves of an effect. *)
Definition after_io {A} (outcome : IoOutcome) (failed : RelayError) (a : A) (undone done : World)
  : result A * World :=
  match outcome with
  | IoOk => (Ok a, done)
  | IoLost => (Err failed, undone)
  | IoAmbiguous => (Err failed, done)
  end.

Definition committed (w : World) : World :=
  set_tx None (match w_tx w with Some t => set_db (tx_db t) w | None => w end).

(** Performing an operation at a step. *)
Definition perform_at {X} (o : Op X) (n : nat) (w : World) : X * World :=
  match o in Op X return X * World with
  | Now => (env_now n, w)
  | UnixSecs => (env_unix_secs n, w)
  | Rand len => (env_rand n len, w)
  | PoolGet => (env_pool n, w)
  | Begin =>
      (env_begin n,
       if env_begin n then set_tx (Some {| tx_db := w_db w; tx_now := env_db_now n |}) w else w)
  | Drop => (tt, set_tx None w)
  | Exec st => if env_sql n then perform_stmt st w else (problem InternalError, w)
  | Commit => after_io (env_commit n) (Problem InternalError) tt (set_tx None w) (committed w)
  | Rollback => (if env_rollback n then Ok tt else problem InternalError, set_tx None w)
  | ExecAuto st =>
      match auto_run st (env_db_now n) (w_db w) with
      | Ok (a, d) =>
          after_io (env_exec n) (Problem InternalError) (auto_returned (env_returning n) st a) w
            (set_db d w)
      | Err e => (if bool_decide (env_exec n = IoLost) then problem InternalError else Err e, w)
      end
  | SelectOne => (env_sql n, w)
  | Notice room_id body =>
      after_io (env_notice n) (env_notice_error n) tt w
        (set_notices (w_notices w ++ [{| n_room_id := room_id; n_body := body |}]) w)
  | Metadata domain => (@site_fetch_metadata (env_site n) domain, w)
  | Post domain path body key =>
      (@site_post_json (env_site n) domain path body key,
       set_posts (w_posts w ++ [{| po_domain := domain; po_path := path; po_body := body;
                                   po_key := key |}]) w)
  | Inc f => (tt, set_metrics (metrics_inc f (w_metrics w)) w)
  | LoadWindow => (w_reg_window w, w)
  | StoreWindow window => (tt, set_window window (w_reg_count w) w)
  | StoreCount count => (tt, set_window (w_reg_window w) count w)
  | FetchAddCount => (w_reg_count w, set_window (w_reg_window w) (incr (w_reg_count w)) w)
  | LoadReady => (w_sync_ready w, w)
  | LoadLastSync => (w_last_matrix_sync_ms w, w)
  | StoreReady ready => (tt, set_sync ready (w_last_matrix_sync_ms w) w)
  | StoreLastSync last => (tt, set_sync (w_sync_ready w) last w)
  end.

(** Every operation is a step. *)
Definition perform {X} (o : Op X) (w : World) : X * World := perform_at o (w_step w) (bump w).

Fixpoint run {A} (m : M A) (w : World) : result A * World :=
  match m with
  | Ret r => (r, w)
  | Vis o k => let '(x, w') := perform o w in run (k x) w'
  end.

Lemma run_bind {A B} (m : M A) (k : A -> M B) w :
  run (bind m k) w =
  let '(r, w') := run m w in match r with Ok a => run (k a) w' | Err e => (Err e, w') end.
Proof.
  revert w. induction m as [[a|e]|X o c IH]; intros w; [done|done|]. cbn. destruct (perform o w). apply IH.
Qed.

Lemma run_on_err {A} (m : M A) f w :
  run (on_err m f) w =
  let '(r, w') := run m w in match r with Ok a => (Ok a, w') | Err e => run (f e) w' end.
Proof.
  revert w. induction m as [[a|e]|X o c IH]; intros w; [done|done|]. cbn. destruct (perform o w). apply IH.
Qed.

Lemma run_try {A} (m : M A) w : run (try m) w = let '(r, w') := run m w in (Ok r, w').
Proof. revert w. induction m as [r|X o c IH]; intros w; [done|]. cbn. destruct (perform o w). apply IH. Qed.

Lemma run_dropping {A} (m : M A) w :
  run (dropping m) w = let '(r, w') := run m w in (r, set_tx None (bump w')).
Proof. revert w. induction m as [r|X o c IH]; intros w; [done|]. cbn. destruct (perform o w). apply IH. Qed.
End Run.

(** A program applied to a world is run. *)
#[warnings="-uniform-inheritance"] Coercion run : M >-> Funclass.
