(* ===== verification/Spec.v ===== *)
(** * Specifications of handlers

    What a handler does is stated on the observable part of the world: the
    committed tables, the open transaction, the messages sent and the requests
    made.  [spec o m Q]: from every world that shows [o], the computation [m] ends
    with a result and an observation that satisfy [Q], whatever the environment
    answers. *)

From S2P Require Import Prelude Errors Constants Base64url Json Crypto Keys Metadata Ssrf.
From S2P Require Import Site Tables Statements World.

#[local] Set Warnings "-clear-no-such-hyp".

Record Obs := MkObs {
  o_db : Db;
  o_tx : option Tx;
  o_notices : list OutboundNotice;
  o_posts : list SitePost
}.

Definition obs (w : World) : Obs := MkObs (w_db w) (w_tx w) (w_notices w) (w_posts w).

Definition spec `{Env} {A} (o : Obs) (m : M A) (Q : result A -> Obs -> Prop) : Prop :=
  forall w, obs w = o -> Q (fst (m w)) (obs (snd (m w))).

Section Rules.
Context `{Env} {A B : Type}.
Implicit Types (o : Obs) (m : M A) (Q : result A -> Obs -> Prop).

Lemma spec_use o m Q w : obs w = o -> spec o m Q -> Q (fst (m w)) (obs (snd (m w))).
Proof. intros Hw Hs. by apply Hs. Qed.

Lemma spec_ret o (a : A) Q : Q (Ok a) o -> spec o (ret a) Q.
Proof. by intros HQ w <-. Qed.

Lemma spec_raise o e Q : Q (Err e) o -> spec o (raise e) Q.
Proof. by intros HQ w <-. Qed.

Lemma spec_fail o c Q : Q (problem c) o -> spec o (fail c) Q.
Proof. by intros HQ w <-. Qed.

Lemma spec_lift o (r : result A) Q : Q r o -> spec o (lift r) Q.
Proof. by intros HQ w <-. Qed.

Lemma spec_bind o (c : M B) (k : B -> M A) Q :
  spec o c (fun r o' => match r with Ok b => spec o' (k b) Q | Err e => Q (Err e) o' end) ->
  spec o (bind c k) Q.
Proof.
  intros Hc w Hw. specialize (Hc w Hw). rewrite run_bind.
  destruct (c w) as [[b|e] w']; simpl in *; [by apply Hc|done].
Qed.

Lemma spec_on_err o m f Q :
  spec o m (fun r o' => match r with Ok a => Q (Ok a) o' | Err e => spec o' (f e) Q end) ->
  spec o (on_err m f) Q.
Proof.
  intros Hm w Hw. specialize (Hm w Hw). rewrite run_on_err.
  destruct (m w) as [[a|e] w']; simpl in *; [done|by apply Hm].
Qed.

Lemma spec_mono o m Q Q' : (forall r o', Q r o' -> Q' r o') -> spec o m Q -> spec o m Q'.
Proof. intros HQ Hm w Hw. apply HQ. by apply Hm. Qed.

(** An operation, by what it answers and leaves at any step. *)
Lemma spec_vis {X} o (p : Op X) (k : X -> M A) Q :
  (forall n w, obs w = o -> let '(x, w') := perform_at p n w in spec (obs w') (k x) Q) ->
  spec o (Vis p k) Q.
Proof.
  intros Hp w Hw. specialize (Hp (w_step w) (bump w) Hw). cbn. unfold perform.
  destruct (perform_at p _ _) as [x w']. by apply Hp.
Qed.
End Rules.

(** An operation, for its answer. *)
Lemma spec_op `{Env} {X} o (p : Op X) Q :
  (forall n w, obs w = o -> let '(x, w') := perform_at p n w in Q (Ok x) (obs w')) -> spec o (op p) Q.
Proof.
  intros Hp. apply spec_vis. intros n w Hw. specialize (Hp n w Hw).
  destruct (perform_at p n w). by apply spec_ret.
Qed.

(** An operation that the observation does not see, whatever it answers. *)
Lemma spec_quiet `{Env} {X} o (p : Op X) Q :
  (forall n w, obs (perform_at p n w).2 = obs w) -> (forall x, Q (Ok x) o) -> spec o (op p) Q.
Proof.
  intros Hp HQ. apply spec_op. intros n w <-. specialize (Hp n w).
  destruct (perform_at p n w). cbn in Hp. rewrite Hp. apply HQ.
Qed.

Lemma spec_op_result `{Env} {X} o (p : Op (result X)) Q :
  (forall n w, obs w = o -> let '(x, w') := perform_at p n w in Q x (obs w')) -> spec o (op_result p) Q.
Proof.
  intros Hp. apply spec_vis. intros n w Hw. specialize (Hp n w Hw).
  destruct (perform_at p n w). by apply spec_lift.
Qed.

Lemma spec_try `{Env} {A} o (m : M A) Q :
  spec o m (fun r o' => Q (Ok r) o') -> spec o (try m) Q.
Proof. intros Hm w Hw. specialize (Hm w Hw). rewrite run_try. by destruct (m w). Qed.

(** Something the relay depends on failed at some step; a rule's failing branch
    has it as a hypothesis, so that without faults those branches are void. *)
Inductive fault `{Env} : Prop :=
  | fault_pool n : env_pool n = false -> fault
  | fault_begin n : env_begin n = false -> fault
  | fault_sql n : env_sql n = false -> fault
  | fault_exec n : env_exec n <> IoOk -> fault
  | fault_commit n : env_commit n <> IoOk -> fault
  | fault_rollback n : env_rollback n = false -> fault
  | fault_notice n : env_notice n <> IoOk -> fault.

Section Effects.
Context `{Env}.
Implicit Types (db d : Db) (ns : list OutboundNotice) (ps : list SitePost).

Lemma spec_inc o f Q : Q (Ok tt) o -> spec o (inc f) Q.
Proof. intros HQ. apply spec_op. by intros n w <-. Qed.

Lemma spec_pool_get o Q :
  Q (Ok tt) o -> (fault -> Q (problem InternalError) o) -> spec o pool_get Q.
Proof.
  intros H1 H2. apply spec_bind, spec_op. intros n w <-. cbn.
  case_if; [by apply spec_ret|apply spec_fail, H2; by eapply fault_pool].
Qed.

Lemma spec_begin db ns ps Q :
  (fault -> Q (problem InternalError) (MkObs db None ns ps)) ->
  (forall n, Q (Ok tt) (MkObs db (Some {| tx_db := db; tx_now := env_db_now n |}) ns ps)) ->
  spec (MkObs db None ns ps) begin Q.
Proof.
  intros HF HQ. apply spec_bind, spec_op. intros n w Hw. cbn.
  destruct (env_begin n) eqn:E; [|rewrite Hw; apply spec_fail, HF; by eapply fault_begin].
  injection Hw as <- Htx <- <-. apply spec_ret, HQ.
Qed.

Lemma spec_drop {A} o (body : M A) Q :
  spec o body (fun r o' => Q r (MkObs (o_db o') None (o_notices o') (o_posts o'))) ->
  spec o (dropping body) Q.
Proof. intros Hb w Hw. specialize (Hb w Hw). rewrite run_dropping. by destruct (body w). Qed.

(** Whatever leaves the handler leaves no transaction open. *)
Lemma spec_with_tx {A} db ns ps (body : M A) Q :
  (fault -> Q (problem InternalError) (MkObs db None ns ps)) ->
  (forall now, spec (MkObs db (Some {| tx_db := db; tx_now := env_db_now now |}) ns ps) body
     (fun r o => Q r (MkObs (o_db o) None (o_notices o) (o_posts o)))) ->
  spec (MkObs db None ns ps) (with_tx body) Q.
Proof.
  intros HF Hb. apply spec_bind, spec_pool_get; [|done].
  apply spec_bind, spec_begin; [done|]. intros now. by apply spec_drop.
Qed.

Lemma spec_tx_stmt {A} db d now ns ps (st : Stmt A) Q :
  (fault -> Q (problem InternalError) (MkObs db (Some {| tx_db := d; tx_now := now |}) ns ps)) ->
  (forall s, match stmt_run st now s d with
             | (r, d', _) => Q r (MkObs db (Some {| tx_db := d'; tx_now := now |}) ns ps)
             end) ->
  spec (MkObs db (Some {| tx_db := d; tx_now := now |}) ns ps) (tx_stmt st) Q.
Proof.
  intros HF Hf. apply spec_op_result. intros n w Hw. cbn [perform_at].
  destruct (env_sql n) eqn:E; [|rewrite Hw; apply HF; by eapply fault_sql].
  unfold perform_stmt. injection Hw as Hdb Htx Hns Hps. rewrite Htx. cbn [tx_db tx_now].
  specialize (Hf (w_seqs w)). destruct (stmt_run st now (w_seqs w) d) as [[r d'] s'].
  unfold obs. cbn. by rewrite Hdb, Hns, Hps.
Qed.

(** A commit publishes the transaction, or reports an error and did or did not. *)
Lemma spec_commit db d now ns ps Q :
  Q (Ok tt) (MkObs d None ns ps) ->
  (fault -> Q (problem InternalError) (MkObs d None ns ps)) ->
  (fault -> Q (problem InternalError) (MkObs db None ns ps)) ->
  spec (MkObs db (Some {| tx_db := d; tx_now := now |}) ns ps) commit Q.
Proof.
  intros H1 H2 H3. apply spec_op_result. intros n w Hw.
  injection Hw as Hdb Htx Hns Hps. cbn [perform_at]. unfold committed. rewrite Htx. unfold obs.
  assert (Hf : env_commit n <> IoOk -> fault) by apply fault_commit.
  destruct (env_commit n); cbn; rewrite ?Hdb, Hns, Hps; [done|apply H3, Hf; done|apply H2, Hf; done].
Qed.

Lemma spec_rollback db t ns ps Q :
  Q (Ok tt) (MkObs db None ns ps) -> (fault -> Q (problem InternalError) (MkObs db None ns ps)) ->
  spec (MkObs db t ns ps) rollback Q.
Proof.
  intros H1 H2. apply spec_op_result. intros n w Hw. injection Hw as Hdb Htx Hns Hps.
  unfold obs. cbn. rewrite Hdb, Hns, Hps. case_if; [done|apply H2; by eapply fault_rollback].
Qed.

Lemma spec_pool_exec {A} db t ns ps (st : Auto A) Q :
  (fault -> Q (problem InternalError) (MkObs db t ns ps)) ->
  (forall n, match auto_run st (env_db_now n) db with
             | Ok (a, d) => Q (Ok (auto_returned (env_returning n) st a)) (MkObs d t ns ps) /\
                            (fault -> Q (problem InternalError) (MkObs d t ns ps))
             | Err e => Q (Err e) (MkObs db t ns ps)
             end) ->
  spec (MkObs db t ns ps) (pool_exec st) Q.
Proof.
  intros HF Hf. apply spec_bind, spec_pool_get; [|done].
  apply spec_op_result. intros n w Hw. injection Hw as Hdb Htx Hns Hps. specialize (Hf n).
  cbn [perform_at]. rewrite Hdb. unfold obs.
  assert (Hx : env_exec n <> IoOk -> fault) by apply fault_exec.
  destruct (auto_run _ _ _) as [[a d]|e].
  - destruct (env_exec n); cbn; rewrite ?Hdb, Htx, Hns, Hps; [apply Hf|by apply HF, Hx|].
    by apply Hf, Hx.
  - cbn. rewrite Hdb, Htx, Hns, Hps. case_bool_decide as E; [|done]. apply HF, Hx. by rewrite E.
Qed.

Lemma spec_send_notice db t ns ps room body Q :
  Q (Ok tt) (MkObs db t (ns ++ [{| n_room_id := room; n_body := body |}]) ps) ->
  (forall e, fault -> Q (Err e) (MkObs db t ns ps)) ->
  (forall e, fault -> Q (Err e) (MkObs db t (ns ++ [{| n_room_id := room; n_body := body |}]) ps)) ->
  spec (MkObs db t ns ps) (send_notice room body) Q.
Proof.
  intros H1 H2 H3. apply spec_op_result. intros n w Hw.
  injection Hw as Hdb Htx Hns Hps. cbn [perform_at]. unfold obs.
  assert (Hf : env_notice n <> IoOk -> fault) by apply fault_notice.
  destruct (env_notice n); cbn; rewrite Hdb, Htx, Hns, Hps;
    [done|apply H2, Hf; done|apply H3, Hf; done].
Qed.

Lemma spec_site_metadata o domain Q :
  (forall n, Q (@site_fetch_metadata (env_site n) domain) o) -> spec o (site_metadata domain) Q.
Proof. intros HQ. apply spec_op_result. intros n w <-. apply HQ. Qed.

Lemma spec_site_post db t ns ps domain path body key Q :
  (forall n, Q (@site_post_json (env_site n) domain path body key)
     (MkObs db t ns (ps ++ [{| po_domain := domain; po_path := path; po_body := body;
                               po_key := key |}]))) ->
  spec (MkObs db t ns ps) (site_post domain path body key) Q.
Proof.
  intros HQ. apply spec_op_result. intros n w Hw. injection Hw as Hdb Htx Hns Hps.
  unfold obs. cbn. rewrite Hps, Hdb, Htx, Hns. apply HQ.
Qed.

Lemma spec_now_ms o Q : (forall n, Q (Ok (env_now n)) o) -> spec o now_ms Q.
Proof. intros HQ. apply spec_op. intros n w <-. apply HQ. Qed.

Lemma spec_fill_bytes o k Q : (forall n, Q (Ok (env_rand n k)) o) -> spec o (fill_bytes k) Q.
Proof. intros HQ. apply spec_op. intros n w <-. apply HQ. Qed.

Lemma spec_at_rest_encrypt `{!Crypto} o state p Q :
  (forall n, Q (encrypt (st_at_rest state) (env_rand n 12) p) o) ->
  spec o (at_rest_encrypt state p) Q.
Proof. intros HQ. apply spec_bind, spec_fill_bytes. intros n. by apply spec_lift. Qed.
End Effects.
