(* ===== verification/Db.v ===== *)
(** * The database operations (src/src/db)

    [sessions.rs], [replay.rs], [grants.rs] and [delivery.rs]: which of the
    [Statements] each function sends in the open transaction or on a pooled
    connection, and what it makes of the answer. *)

From S2P Require Import Prelude Errors Constants Base64url Json Crypto Keys Metadata Ssrf.
From S2P Require Import Site Tables Statements World Spec.
From stdpp Require Import gmap.
#[local] Open Scope Z_scope.

(** ** sessions.rs *)

Definition is_terminal (s : SessionRow) : bool :=
  bool_decide (s_state s ∈ ["REFUSED"; "ASSERTION_DELIVERED"; "EXPIRED"; "CANCELLED"; "REVOKED"]).

Inductive InsertOutcome := Created | Identical.

#[export] Instance InsertOutcome_eq_dec : EqDecision InsertOutcome.
Proof. solve_decision. Defined.

Section Ops.
Context `{Env}.

(** A [SELECT] of a session through [query_opt]. *)
Definition select_session (lock : RowLock) (p : SessionRow -> bool) : M (option SessionRow) :=
  tx_stmt (SelectSession lock p).

Definition by_session (domain session_id : string) (s : SessionRow) : bool :=
  String.eqb (s_domain s) domain && String.eqb (s_session_id s) session_id.

Definition by_session_and_nonce (session_id : string) (nonce_hash : list byte) (s : SessionRow)
  : bool :=
  String.eqb (s_session_id s) session_id && bool_decide (s_nonce_hash s = nonce_hash).

Definition matching (domain session_id : string) (nonce_hash : list byte) (s : SessionRow) : bool :=
  by_session domain session_id s && bool_decide (s_nonce_hash s = nonce_hash).

Definition get_by_session (domain session_id : string) : M (option SessionRow) :=
  select_session ForUpdate (by_session domain session_id).

Definition get_by_session_and_nonce (session_id : string) (nonce_hash : list byte)
  : M (option SessionRow) :=
  select_session ForUpdate (by_session_and_nonce session_id nonce_hash).

Definition get_matching (domain session_id : string) (nonce_hash : list byte)
  : M (option SessionRow) :=
  select_session ForUpdate (matching domain session_id nonce_hash).

(** The comparison that makes a repeated registration identical. *)
Definition same_registration (existing : SessionRow) (n : NewSession) : bool :=
  bool_decide (s_registration_hash existing = ns_registration_hash n)
  && bool_decide (s_nonce_hash existing = ns_nonce_hash n)
  && String.eqb (s_qr_signature existing) (ns_qr_signature n)
  && String.eqb (s_registration_signature existing) (ns_registration_signature n).

Definition insert_registered (session : NewSession) : M InsertOutcome :=
  let! expires_at := lift (millis_to_utc (i64_add (ns_exp session) REPLAY_GRACE_MS)) in
  let! inserted := tx_stmt (InsertSession session expires_at) in
  if inserted =? 1 then ret Created
  else
    let! existing := get_by_session (ns_domain session) (ns_session_id session) in
    match existing with
    | Some existing =>
        if same_registration existing session then ret Identical else fail SessionConflict
    | None => fail SessionConflict
    end.

Definition cas_update (id expected_version : Z) (p : SessionPatch) : M bool :=
  let! updated := tx_stmt (UpdateSession id expected_version p) in
  ret (updated =? 1).

(** ** replay.rs *)

(** [insert_text] with [map_unique]. *)
Definition insert_text (l : Ledger) (value : string) (expires_at : Z) (conflict : ProblemCode)
  : M unit :=
  tx_stmt (InsertText l value expires_at conflict).

Definition reserve_request_event (event_id : string) (expires_at : Z) : M unit :=
  insert_text RequestEvents event_id expires_at ChallengeReplayed.

Definition reserve_challenge_hash (hash : list byte) (expires_at : Z) : M unit :=
  tx_stmt (InsertChallenge hash expires_at).

Definition reserve_consent_event (event_id : string) (expires_at : Z) : M unit :=
  insert_text ConsentEvents event_id expires_at ConsentReplayed.

Definition reserve_assertion_jti (jti : string) (expires_at : Z) : M unit :=
  insert_text AssertionJtis jti expires_at AssertionReplayed.

Definition reserve_revocation_jti (jti : string) (expires_at : Z) : M unit :=
  insert_text RevocationJtis jti expires_at AssertionReplayed.

(** ** grants.rs *)

Definition upsert_grant (domain : string) (subject_hash subject_ciphertext
    matrix_user_ciphertext : list byte) (session_id : string) (nonce_hash : list byte)
    (subject_key_version : Z) : M GrantRow :=
  tx_stmt (UpsertGrant domain subject_hash subject_ciphertext matrix_user_ciphertext session_id
    nonce_hash subject_key_version).

Definition find_active_grant (domain : string) (subject_hash : list byte)
  : M (option GrantRow) :=
  tx_stmt (SelectGrant ForUpdate (grant_match domain subject_hash)).

Definition mark_revoked (id : Z) : M unit :=
  tx_stmt (RevokeGrant id).

(** ** delivery.rs *)

Definition enqueue (kind domain jti : string) (payload_ciphertext : list byte)
    (session_id : string) (nonce_hash : list byte) : M unit :=
  tx_stmt (InsertJob kind domain jti payload_ciphertext session_id nonce_hash).

Definition claim_due (limit : Z) : M (list DeliveryJob) := pool_exec (Claim limit).

Definition mark_delivered (id : Z) : M unit :=
  pool_exec (Mark "delivered" id).

Definition mark_failed (id : Z) : M unit :=
  pool_exec (Mark "failed" id).

(** ** mod.rs: ping *)

Definition ping : M unit :=
  pool_get ;!
  let! up := op SelectOne in
  if up then ret tt else fail InternalError.
End Ops.

(** ** What each operation does to an observation *)

Lemma query_opt_Ok {A} (l : list A) r :
  query_opt l = Ok r -> match r with Some x => l = [x] | None => l = [] end.
Proof. destruct l as [|x [|y l]]; intros [= <-]; done. Qed.

Lemma query_opt_Err {A} (l : list A) e : query_opt l = Err e -> e = Problem InternalError.
Proof. destruct l as [|x [|y l]]; by intros [= <-]. Qed.

Lemma filter_single {A} (p : A -> bool) l x : List.filter p l = [x] -> x ∈ l /\ p x = true.
Proof.
  intros H. assert (Hin : In x (List.filter p l)) by (rewrite H; by left).
  apply filter_In in Hin as [? ?]. split; [by apply list_elem_of_In|done].
Qed.

Lemma claim_Ok now limit d jobs d' :
  claim now limit d = Ok (jobs, d') ->
  jobs = List.map (attempt now)
    (List.filter (fun j => bool_decide (j_id j ∈ claimed now limit d)) (db_jobs d)) /\
  d' = set_jobs (List.map (fun j => if bool_decide (j_id j ∈ claimed now limit d) then attempt now j else j)
    (db_jobs d)) d.
Proof. unfold claim. case_if; by intros [= <- <-]. Qed.

(** The session a query found. *)
Lemma query_found {A} (p : A -> bool) l x :
  query_opt (List.filter p l) = Ok (Some x) -> x ∈ l /\ p x = true.
Proof. intros H%query_opt_Ok. by apply filter_single. Qed.

Section Rules.
Context `{Env}.
Variables (db d : Db) (now : Z) (ns : list OutboundNotice) (ps : list SitePost).

(** The observation with the open transaction's tables [x]. *)
Definition at_tx (x : Db) : Obs := MkObs db (Some {| tx_db := x; tx_now := now |}) ns ps.

Lemma spec_select lock p Q :
  (fault -> Q (problem InternalError) (at_tx d)) ->
  Q (query_opt (List.filter p (db_sessions d))) (at_tx d) ->
  spec (at_tx d) (select_session lock p) Q.
Proof. intros HF HQ. apply spec_tx_stmt; [done|]. by intros sq. Qed.

Lemma spec_find_grant domain subject_hash Q :
  (fault -> Q (problem InternalError) (at_tx d)) ->
  Q (query_opt (List.filter (grant_match domain subject_hash) (db_grants d))) (at_tx d) ->
  spec (at_tx d) (find_active_grant domain subject_hash) Q.
Proof. intros HF HQ. apply spec_tx_stmt; [done|]. by intros sq. Qed.

Lemma spec_cas_update id version p Q :
  (fault -> Q (problem InternalError) (at_tx d)) ->
  match update_session id version p d with
  | Ok (n, d') => Q (Ok (n =? 1)) (at_tx d')
  | Err e => Q (Err e) (at_tx d)
  end ->
  spec (at_tx d) (cas_update id version p) Q.
Proof.
  intros HF HQ. apply spec_bind, spec_tx_stmt; [done|]. intros sq. unfold stmt_run.
  destruct (update_session id version p d) as [[n d']|e]; [by apply spec_ret|done].
Qed.

Lemma spec_insert_text l value expires conflict Q :
  (fault -> Q (problem InternalError) (at_tx d)) ->
  (is_Some (ledger l d !! value) -> Q (problem conflict) (at_tx d)) ->
  (ledger l d !! value = None ->
     Q (Ok tt) (at_tx (set_ledger l (<[value := expires]> (ledger l d)) d))) ->
  spec (at_tx d) (insert_text l value expires conflict) Q.
Proof.
  intros HF HC HQ. apply spec_tx_stmt; [done|]. intros sq. unfold stmt_run, insert_key.
  destruct (ledger l d !! value) eqn:E; [apply HC|apply HQ]; eauto.
Qed.

Lemma spec_reserve_challenge hash expires Q :
  (fault -> Q (problem InternalError) (at_tx d)) ->
  (is_Some (db_challenge_hashes d !! hash) -> Q (problem ChallengeReplayed) (at_tx d)) ->
  (db_challenge_hashes d !! hash = None ->
     Q (Ok tt) (at_tx (set_challenge_hashes (<[hash := expires]> (db_challenge_hashes d)) d))) ->
  spec (at_tx d) (reserve_challenge_hash hash expires) Q.
Proof.
  intros HF HC HQ. apply spec_tx_stmt; [done|]. intros sq. unfold stmt_run, insert_challenge.
  destruct (db_challenge_hashes d !! hash) eqn:E; [apply HC|apply HQ]; eauto.
Qed.

Lemma spec_upsert_grant domain sh sct uct sid nh skv Q :
  (fault -> Q (problem InternalError) (at_tx d)) ->
  (forall id, Q (Ok (fst (upsert (grant_row id domain sh sct uct sid nh skv) d)))
     (at_tx (snd (upsert (grant_row id domain sh sct uct sid nh skv) d)))) ->
  spec (at_tx d) (upsert_grant domain sh sct uct sid nh skv) Q.
Proof.
  intros HF HQ. apply spec_tx_stmt; [done|]. intros s. specialize (HQ (seq_grants s)).
  unfold stmt_run. by destruct (upsert _ d).
Qed.

Lemma spec_mark_revoked id Q :
  (fault -> Q (problem InternalError) (at_tx d)) -> Q (Ok tt) (at_tx (revoke id now d)) ->
  spec (at_tx d) (mark_revoked id) Q.
Proof. intros HF HQ. apply spec_tx_stmt; [done|]. by intros sq. Qed.

Lemma spec_enqueue kind domain jti payload sid nh Q :
  (fault -> Q (problem InternalError) (at_tx d)) ->
  (forall id, Q (Ok tt) (at_tx (insert_job (job_row id kind domain jti payload sid nh now) d))) ->
  spec (at_tx d) (enqueue kind domain jti payload sid nh) Q.
Proof. intros HF HQ. apply spec_tx_stmt; [done|]. intros s. apply (HQ (seq_jobs s)). Qed.

(** Jobs are claimed: the returned ones come in any order. *)
Lemma spec_claim_due t limit Q :
  (forall n l, Permutation (env_returning n l) l) ->
  (fault -> Q (problem InternalError) (MkObs db t ns ps)) ->
  (forall clock, match claim clock limit db with
    | Ok (jobs, d') =>
        (forall l, Permutation l jobs -> Q (Ok l) (MkObs d' t ns ps)) /\
        (fault -> Q (problem InternalError) (MkObs d' t ns ps))
    | Err e => Q (Err e) (MkObs db t ns ps)
    end) ->
  spec (MkObs db t ns ps) (claim_due limit) Q.
Proof.
  intros Hall HF HQ. apply spec_pool_exec; [done|]. intros n. specialize (HQ (env_db_now n)). unfold auto_run, auto_returned.
  destruct (claim _ _ _) as [[jobs d']|e]; [|done]. destruct HQ as [Hl HF']. split; [|done].
  apply Hl, Hall.
Qed.

Lemma spec_insert_registered session Q :
  (fault -> Q (problem InternalError) (at_tx d)) ->
  match env_timestamp_millis (i64_add (ns_exp session) REPLAY_GRACE_MS) with
  | None => Q (problem InvalidRequest) (at_tx d)
  | Some expires =>
      forall id,
        if existsb (session_conflict (new_row session id expires)) (db_sessions d) then
          match query_opt (List.filter (by_session (ns_domain session) (ns_session_id session))
                             (db_sessions d)) with
          | Err e => Q (Err e) (at_tx d)
          | Ok (Some s) =>
              if same_registration s session then Q (Ok Identical) (at_tx d)
              else Q (problem SessionConflict) (at_tx d)
          | Ok None => Q (problem SessionConflict) (at_tx d)
          end
        else Q (Ok Created) (at_tx (set_sessions (db_sessions d ++ [new_row session id expires]) d))
  end ->
  spec (at_tx d) (insert_registered session) Q.
Proof.
  intros HF HQ. apply spec_bind, spec_lift. unfold millis_to_utc.
  destruct (env_timestamp_millis _) as [expires|]; [|done]. cbn [ok_or].
  apply spec_bind, spec_tx_stmt; [apply HF|]. intros s. specialize (HQ (seq_sessions s)).
  unfold stmt_run. unfold insert_session. destruct (existsb _ _); cbn [Z.eqb].
  - apply spec_bind, spec_select; [apply HF|]. destruct (query_opt _) as [[x|]|]; [|by apply spec_fail|done].
    case_if; [by apply spec_ret|by apply spec_fail].
  - by apply spec_ret.
Qed.
End Rules.

(** ** Stepping through a handler *)

(** One step of a computation whose next effect has a rule; the branches on which
    it fails are left to the caller. *)
Ltac spec_step :=
  cbv beta iota zeta delta [problem];
  (lazymatch goal with
  | |- spec _ (bind _ _) _ => apply spec_bind
  | |- spec _ (on_err _ _) _ => apply spec_on_err
  | |- spec _ (ret _) _ => apply spec_ret
  | |- spec _ (fail _) _ => apply spec_fail
  | |- spec _ (raise _) _ => apply spec_raise
  | |- spec _ (lift ?r) _ => apply spec_lift
  | |- spec _ (op _) _ => apply spec_quiet; [done|intros ?]
  | |- spec _ now_ms _ => apply spec_now_ms; intros ?
  | |- spec _ (fill_bytes _) _ => apply spec_fill_bytes; intros ?
  | |- spec _ (inc _) _ => apply spec_inc
  | |- spec _ (at_rest_encrypt _ _) _ => apply spec_at_rest_encrypt; intros ?
  | |- spec _ (site_metadata _) _ => apply spec_site_metadata; intros ?
  | |- spec _ (site_post _ _ _ _) _ => apply spec_site_post; intros ?
  | |- spec _ (with_tx _) _ => apply spec_with_tx; [intros ?|intros ?]
  | |- spec _ commit _ => apply spec_commit; [|intros ?|intros ?]
  | |- spec _ rollback _ => apply spec_rollback; [|intros ?]
  | |- spec _ (send_notice _ _) _ => apply spec_send_notice; [|intros ? ?|intros ? ?]
  | |- spec _ (get_matching _ _ _) _ => apply spec_select; [intros ?|]
  | |- spec _ (get_by_session_and_nonce _ _) _ => apply spec_select; [intros ?|]
  | |- spec _ (find_active_grant _ _) _ => apply spec_find_grant; [intros ?|]
  | |- spec _ (cas_update _ _ _) _ => apply spec_cas_update; [intros ?|]
  | |- spec _ (reserve_challenge_hash _ _) _ =>
      apply spec_reserve_challenge; [intros ?|intros ?|intros ?]
  | |- spec _ (reserve_request_event _ _) _ => apply spec_insert_text; [intros ?|intros ?|intros ?]
  | |- spec _ (reserve_consent_event _ _) _ => apply spec_insert_text; [intros ?|intros ?|intros ?]
  | |- spec _ (reserve_assertion_jti _ _) _ => apply spec_insert_text; [intros ?|intros ?|intros ?]
  | |- spec _ (reserve_revocation_jti _ _) _ => apply spec_insert_text; [intros ?|intros ?|intros ?]
  | |- spec _ (upsert_grant _ _ _ _ _ _ _) _ => apply spec_upsert_grant; [intros ?|intros ?]
  | |- spec _ (mark_revoked _) _ => apply spec_mark_revoked; [intros ?|]
  | |- spec _ (enqueue _ _ _ _ _ _) _ => apply spec_enqueue; [intros ?|intros ?]
  end);
  cbv beta iota zeta delta [problem].
