(* ===== verification/Register.v ===== *)
(** * Registering a session (src/src/services/registration.rs) *)

From S2P Require Import Prelude Errors Constants Utf8 Validation Base64url Json Jcs Strict.
From S2P Require Import Crypto Keys Wire Metadata Registration Ssrf Site Tables Statements World Spec.
From S2P Require Import Db.

#[local] Set Warnings "-clear-no-such-hyp".

Section Code.
Context `{Base64} `{Crypto} `{JsonText} `{Env}.

Definition register_session (state : AppState) (request : RegistrationRequest)
  : M (RegistrationResponse * bool) :=
  lift (Registration.validate request) ;!
  let! now := now_ms in
  if reg_exp request <=? now then fail RequestExpired
  else
    let! metadata :=
      on_err (site_metadata (reg_domain request))
        (fun _ => inc SsrfRejections ;! fail DomainVerificationFailed) in
    let! qr := lift (qr_canonical request) in
    lift (map_err (verify (meta_public_key metadata) qr (reg_qr_signature request))
            InvalidSignature) ;!
    let! canonical := lift (registration_canonical request) in
    lift (map_err (verify (meta_public_key metadata) canonical
                     (reg_registration_signature request)) InvalidSignature) ;!
    let! nonce_hash := lift (keyed_hash (st_lookup_pepper state) (as_bytes (reg_nonce request))) in
    let! nonce_ciphertext := at_rest_encrypt state (as_bytes (reg_nonce request)) in
    let! serialized := lift (to_vec (request_fields request)) in
    let! registration_hash := lift (keyed_hash (st_lookup_pepper state) serialized) in
    let! outcome :=
      with_tx (
        let! outcome := insert_registered
          {| ns_domain := reg_domain request; ns_session_id := reg_session_id request;
             ns_nonce_hash := nonce_hash; ns_nonce_ciphertext := nonce_ciphertext;
             ns_iat := reg_iat request; ns_exp := reg_exp request;
             ns_requested_display_name := reg_requested_display_name request;
             ns_site_display_name := meta_display_name metadata;
             ns_site_public_key := meta_public_key metadata;
             ns_qr_signature := reg_qr_signature request;
             ns_registration_signature := reg_registration_signature request;
             ns_registration_hash := registration_hash |} in
        commit ;!
        ret outcome) in
    match outcome with
    | Created => inc Registrations
    | Identical => ret tt
    end ;!
    ret ({| resp_version := 1; resp_session_id := reg_session_id request;
            resp_status := "registered"; resp_expires_at := reg_exp request |},
         bool_decide (outcome = Created)).
End Code.

(** ** What registering does *)

(** The request is well formed, live at some moment, and both its signatures are
    of the key in metadata that its domain serves and that is valid for it. *)
Definition authentic `{Base64} `{Crypto} `{JsonText} `{Env} (r : RegistrationRequest)
    (m : SiteMetadata) : Prop :=
  registration_valid r /\ metadata_valid m (reg_domain r) /\ (exists n, env_now n < reg_exp r) /\
  (exists n, @site_fetch_metadata (env_site n) (reg_domain r) = Ok m) /\
  (exists b, qr_canonical r = Ok b /\ verify (meta_public_key m) b (reg_qr_signature r) = Ok tt) /\
  (exists b, registration_canonical r = Ok b /\
     verify (meta_public_key m) b (reg_registration_signature r) = Ok tt).

(** The row of a registration: the request's fields, the site's name and key as
    its metadata gives them, the nonce only hashed and sealed. *)
Definition session_of `{Base64} `{Crypto} `{JsonText} (state : AppState) (r : RegistrationRequest)
    (m : SiteMetadata) (n : NewSession) : Prop :=
  exists nonce_hash nonce_ct reg_hash serialized,
    n = {| ns_domain := reg_domain r; ns_session_id := reg_session_id r;
           ns_nonce_hash := nonce_hash; ns_nonce_ciphertext := nonce_ct;
           ns_iat := reg_iat r; ns_exp := reg_exp r;
           ns_requested_display_name := reg_requested_display_name r;
           ns_site_display_name := meta_display_name m;
           ns_site_public_key := meta_public_key m;
           ns_qr_signature := reg_qr_signature r;
           ns_registration_signature := reg_registration_signature r;
           ns_registration_hash := reg_hash |} /\
    keyed_hash (st_lookup_pepper state) (as_bytes (reg_nonce r)) = Ok nonce_hash /\
    decrypt (st_at_rest state) nonce_ct = Ok (as_bytes (reg_nonce r)) /\
    to_vec (request_fields r) = Ok serialized /\
    keyed_hash (st_lookup_pepper state) serialized = Ok reg_hash.

Definition registered `{Base64} `{Crypto} `{JsonText} `{Env} (state : AppState)
    (r : RegistrationRequest) (d d' : Db) : Prop :=
  exists m n id expires, authentic r m /\ session_of state r m n /\
    env_timestamp_millis (i64_add (reg_exp r) REPLAY_GRACE_MS) = Some expires /\
    existsb (session_conflict (new_row n id expires)) (db_sessions d) = false /\
    d' = set_sessions (db_sessions d ++ [new_row n id expires]) d.

Definition registration_response (r : RegistrationRequest) : RegistrationResponse :=
  {| resp_version := 1; resp_session_id := reg_session_id r; resp_status := "registered";
     resp_expires_at := reg_exp r |}.

Section Spec.
Context `{Base64Laws} `{CryptoLaws} `{JsonTextLaws} `{Env} `{!EnvLaws}.

Lemma at_rest_decrypt state n p ct :
  encrypt (st_at_rest state) (env_rand n 12) p = Ok ct -> decrypt (st_at_rest state) ct = Ok p.
Proof.
  apply decrypt_encrypt. unfold blen, NONCE_LEN. by rewrite env_rand_len.
Qed.

(** Every way a registration can be refused. *)
Inductive register_error (state : AppState) (r : RegistrationRequest) (db : Db)
  : RelayError -> Prop :=
  | re_invalid e : Registration.validate r = Err e -> register_error state r db e
  | re_expired n : reg_exp r <= env_now n -> register_error state r db (Problem RequestExpired)
  | re_domain n e :
      @site_fetch_metadata (env_site n) (reg_domain r) = Err e ->
      register_error state r db (Problem DomainVerificationFailed)
  | re_signature m n b :
      @site_fetch_metadata (env_site n) (reg_domain r) = Ok m ->
      (qr_canonical r = Ok b /\ verify (meta_public_key m) b (reg_qr_signature r) <> Ok tt \/
       registration_canonical r = Ok b /\
       verify (meta_public_key m) b (reg_registration_signature r) <> Ok tt) ->
      register_error state r db (Problem InvalidSignature)
  | re_range :
      env_timestamp_millis (i64_add (reg_exp r) REPLAY_GRACE_MS) = None ->
      register_error state r db (Problem InvalidRequest)
  | re_conflict m n s :
      authentic r m -> session_of state r m n -> s ∈ db_sessions db ->
      (forall id expires, session_conflict (new_row n id expires) s = true) ->
      register_error state r db (Problem SessionConflict)
  | re_corrupt :
      (2 <= length (List.filter (by_session (reg_domain r) (reg_session_id r)) (db_sessions db)))%nat ->
      register_error state r db (Problem InternalError)
  | re_fault : fault -> register_error state r db (Problem InternalError).

(** What a call may leave behind: nothing, or the row; nothing is sent. *)
Definition register_post (state : AppState) (r : RegistrationRequest) (db : Db)
    (ns : list OutboundNotice) (ps : list SitePost)
    (res : result (RegistrationResponse * bool)) (o : Obs) : Prop :=
  o_tx o = None /\ o_notices o = ns /\ o_posts o = ps /\
  match res with
  | Ok (resp, true) => resp = registration_response r /\ registered state r db (o_db o)
  | Ok (resp, false) =>
      resp = registration_response r /\ o_db o = db /\
      exists m n s, authentic r m /\ session_of state r m n /\ s ∈ db_sessions db /\
        by_session (reg_domain r) (reg_session_id r) s = true /\ same_registration s n = true
  | Err e =>
      register_error state r db e /\
      (o_db o = db \/ (fault /\ e = Problem InternalError /\ registered state r db (o_db o)))
  end.

Lemma request_total r : registration_wf r -> exists b, to_vec (request_fields r) = Ok b.
Proof. intros (? & ? & ?). apply to_vec_total. plain_tac. Qed.

Lemma canonical_bytes_total r :
  registration_wf r ->
  (exists b, qr_canonical r = Ok b) /\ (exists b, registration_canonical r = Ok b).
Proof.
  intros Hr. destruct (canonical_total _ (qr_plain r Hr)) as [t Ht].
  destruct (canonical_total _ (registration_plain r Hr)) as [u Hu].
  unfold qr_canonical, registration_canonical. rewrite Ht, Hu. cbn. eauto.
Qed.

(** A row of the same registration conflicts with it. *)
Lemma conflict_row m state r n s id expires id' expires' :
  session_of state r m n ->
  session_conflict (new_row n id expires) s = session_conflict (new_row n id' expires') s.
Proof. done. Qed.

Lemma map_err_problem {A} (x : result A) c : map_err x c = problem c \/ exists a, map_err x c = Ok a.
Proof. destruct x; cbn; eauto. Qed.

(** The transaction that stores the session of an authentic request. *)
Lemma store_spec state r db ns ps m session :
  authentic r m -> session_of state r m session ->
  spec (MkObs db None ns ps)
    (let! outcome := with_tx (let! outcome := insert_registered session in commit ;! ret outcome) in
     match outcome with Created => inc Registrations | Identical => ret tt end ;!
     ret (registration_response r, bool_decide (outcome = Created)))
    (register_post state r db ns ps).
Proof.
  intros Ha Hs.
  assert (Hno : forall e, register_error state r db e ->
    register_post state r db ns ps (Err e) (MkObs db None ns ps)) by (repeat split; auto).
  assert ((ns_exp session, ns_domain session, ns_session_id session) = (reg_exp r, reg_domain r, reg_session_id r))
    as [= Eexp Edom Esid] by by destruct Hs as (? & ? & ? & ? & -> & _).
  do 2 spec_step; [by apply Hno, re_fault|].
  spec_step. apply spec_insert_registered; [intros; by apply Hno, re_fault|].
  rewrite Eexp. destruct (env_timestamp_millis _) as [expires|] eqn:Ex; [|by apply Hno, re_range].
  intros id. destruct (existsb _ _) eqn:Ec.
  - assert (Hc : register_error state r db (Problem SessionConflict)).
    { apply existsb_exists in Ec as (s & Hin & Hc). eapply (re_conflict _ _ _ m session s); try done.
      by apply list_elem_of_In. }
    destruct (query_opt _) as [[s|]|e] eqn:Eq; [|by apply Hno|].
    + destruct (same_registration s session) eqn:Hsame; [|by apply Hno].
      apply query_found in Eq as [Hin Hby].
      do 2 spec_step; [spec_step|by apply Hno, re_fault|by apply Hno, re_fault].
      do 3 spec_step. repeat split; auto. exists m, session, s. by rewrite <- Edom, <- Esid.
    + assert (e = Problem InternalError) as -> by by eapply query_opt_Err. apply Hno, re_corrupt.
      rewrite Edom, Esid in Eq. destruct (List.filter _ _) as [|x [|y l]]; try done. simpl. lia.
  - assert (Hr : registered state r db (set_sessions (db_sessions db ++ [new_row session id expires]) db))
      by (exists m, session, id, expires; auto).
    do 2 spec_step; [spec_step| |by apply Hno, re_fault].
    + do 3 spec_step. repeat split; auto.
    + repeat split; auto using re_fault.
Qed.

Lemma register_spec state r db ns ps :
  blen (st_at_rest state) = 32 -> registration_wf r ->
  spec (MkObs db None ns ps) (register_session state r) (register_post state r db ns ps).
Proof.
  intros Hk Hwf. pose proof Hwf as (Hv & Hi & He). unfold register_session.
  assert (Hno : forall e, register_error state r db e ->
    register_post state r db ns ps (Err e) (MkObs db None ns ps)) by (repeat split; auto).
  do 2 spec_step. destruct (Registration.validate r) as [[]|e] eqn:Ev; [|by apply Hno, re_invalid].
  apply validate_Ok in Ev; [|done..].
  do 2 spec_step. destruct (Z.leb_spec (reg_exp r) (env_now n)) as [|Hnow];
    [spec_step; by eapply Hno, re_expired|].
  do 3 spec_step. destruct (site_fetch_metadata (reg_domain r)) as [m|e] eqn:Em.
  2: { do 3 spec_step. by eapply Hno, re_domain. }
  pose proof (site_metadata_valid (SiteFetcherLaws := env_site_laws n0) _ _ Em) as Hm.
  destruct (canonical_bytes_total r Hwf) as [[qr Eqr] [rc Erc]]. rewrite Eqr, Erc.
  do 4 spec_step. destruct (verify _ qr _) as [[]|] eqn:Vqr; cbn [map_err].
  2: { eapply Hno, re_signature; [exact Em|]. left. rewrite Vqr. done. }
  do 4 spec_step. destruct (verify _ rc _) as [[]|] eqn:Vrc; cbn [map_err].
  2: { eapply Hno, re_signature; [exact Em|]. right. rewrite Vrc. done. }
  destruct (keyed_hash_total (st_lookup_pepper state) (as_bytes (reg_nonce r))) as (nh & Enh & _).
  rewrite Enh. do 4 spec_step.
  assert (Hlen : blen (as_bytes (reg_nonce r)) <= 65536)
    by (rewrite blen_as_bytes; destruct (regv_nonce r Ev); lia).
  match goal with |- context [encrypt _ (env_rand ?k 12) _] =>
    destruct (encrypt_total (st_at_rest state) (env_rand k 12) (as_bytes (reg_nonce r)))
      as [ct Ect]; [unfold blen; by rewrite env_rand_len|done|done|] end.
  rewrite Ect. destruct (request_total r Hwf) as [ser Eser]. rewrite Eser.
  do 4 spec_step. destruct (keyed_hash_total (st_lookup_pepper state) ser) as (rh & Erh & _).
  rewrite Erh. cbv beta iota. assert (Ha : authentic r m) by (split_and!; eauto).
  match goal with |- context [insert_registered ?x] => set (session := x) in * end.
  apply (store_spec state r db ns ps m session Ha).
  exists nh, ct, rh, ser. split; [done|]. split; [done|]. split; [by eapply at_rest_decrypt|done].
Qed.
End Spec.
