(* ===== verification/Login.v ===== *)
(** * The login protocol (src/src/services/login.rs) *)

From S2P Require Import Prelude Errors Constants Utf8 Validation Base64url Json Jcs Strict.
From S2P Require Import Crypto Keys Wire Metadata Registration Assertion Revocation Matrix.
From S2P Require Import RoomPolicy Ssrf Site Tables Statements World Spec Db.

#[local] Set Warnings "-clear-no-such-hyp".

Record InboundEvent := {
  ev_event_id : string;
  ev_room_id : string;
  ev_sender : string;
  ev_decrypted : bool;
  ev_redacted : bool;
  ev_body : string;
  ev_room : RoomSnapshot
}.

Inductive HandleResult := Ignored | Sent.

#[export] Instance HandleResult_eq_dec : EqDecision HandleResult.
Proof. solve_decision. Defined.

(** A patch that only moves the state. *)
Definition state_patch (state : string) : SessionPatch := {|
  p_state := state; p_request_event_id := None; p_request_room_ciphertext := None;
  p_request_sender_ciphertext := None; p_challenge_hash := None; p_challenge_expires_at := None;
  p_consent_event_id := None; p_display_name_ciphertext := None; p_assertion_jti := None;
  p_assertion_ciphertext := None |}.

(** The three other calls of [cas_update]. *)
Definition challenge_patch (event_id : string) (room_ct sender_ct challenge_hash : list byte)
    (expires_at : Z) : SessionPatch := {|
  p_state := "CHALLENGE_SENT"; p_request_event_id := Some event_id;
  p_request_room_ciphertext := Some room_ct; p_request_sender_ciphertext := Some sender_ct;
  p_challenge_hash := Some challenge_hash; p_challenge_expires_at := Some expires_at;
  p_consent_event_id := None; p_display_name_ciphertext := None; p_assertion_jti := None;
  p_assertion_ciphertext := None |}.

Definition refused_patch (event_id : string) : SessionPatch := {|
  p_state := "REFUSED"; p_request_event_id := None; p_request_room_ciphertext := None;
  p_request_sender_ciphertext := None; p_challenge_hash := None; p_challenge_expires_at := None;
  p_consent_event_id := Some event_id; p_display_name_ciphertext := None;
  p_assertion_jti := None; p_assertion_ciphertext := None |}.

Definition consent_patch (event_id : string) (display_ct : list byte) (jti : string)
    (assertion_ct : list byte) : SessionPatch := {|
  p_state := "CONSENT_RECEIVED"; p_request_event_id := None; p_request_room_ciphertext := None;
  p_request_sender_ciphertext := None; p_challenge_hash := None; p_challenge_expires_at := None;
  p_consent_event_id := Some event_id; p_display_name_ciphertext := Some display_ct;
  p_assertion_jti := Some jti; p_assertion_ciphertext := Some assertion_ct |}.

Section Code.
Context `{Base64} `{Crypto} `{JsonText} `{JsonReader} `{Env}.

(** ** Results *)

Definition send_failure (room_id session_id nonce reason : string) : M HandleResult :=
  let! now := now_ms in
  let message := Matrix.Result session_id nonce now false None (Some reason) in
  let! body := lift (Matrix.encode message) in
  send_notice room_id body ;!
  ret Sent.

Definition send_success_result (room_id session_id nonce sub : string) : M unit :=
  let! now := now_ms in
  let message := Matrix.Result session_id nonce now true (Some sub) None in
  let! body := lift (Matrix.encode message) in
  send_notice room_id body.

(** ** Request *)

(** [.map_err(|err| { Metrics::inc(replay_conflicts); err })]. *)
Definition count_replay {A} (m : M A) : M A :=
  on_err m (fun err => inc ReplayConflicts ;! raise err).

(** [Some(bytes)] decrypted and read as UTF-8, [None] on any failure. *)
Definition open_text (state : AppState) (ct : option (list byte)) : option string :=
  match ct with
  | Some c => match decrypt (st_at_rest state) c with Ok b => from_utf8 b | Err _ => None end
  | None => None
  end.

(** The part of the handler after the checks, in the open transaction. *)
Definition issue_challenge (state : AppState) (event : InboundEvent) (session : SessionRow)
    (session_id nonce domain : string) (now : Z) : M HandleResult :=
  let! keep := lift (millis_to_utc (i64_add (s_exp session) REPLAY_GRACE_MS)) in
  count_replay (reserve_request_event (ev_event_id event) keep) ;!
  let! challenge_bytes := fill_bytes (Z.to_nat CHALLENGE_BYTES) in
  let challenge := Base64url.encode challenge_bytes in
  let! challenge_hash :=
    lift (keyed_hash (st_lookup_pepper state) (as_bytes challenge)) in
  let! keep := lift (millis_to_utc (i64_add (s_exp session) REPLAY_GRACE_MS)) in
  reserve_challenge_hash challenge_hash keep ;!
  let sent := now in
  let expires_at := challenge_expires_at sent (s_exp session) in
  let! room_ct := at_rest_encrypt state (as_bytes (ev_room_id event)) in
  let! sender_ct := at_rest_encrypt state (as_bytes (ev_sender event)) in
  let! updated := cas_update (s_id session) (s_version session)
    (challenge_patch (ev_event_id event) room_ct sender_ct challenge_hash expires_at) in
  if negb updated then fail SessionConflict
  else
    commit ;!
    let outbound :=
      Matrix.Challenge session_id nonce sent (s_site_display_name session) domain
        (s_requested_display_name session) challenge expires_at in
    let! body := lift (Matrix.encode outbound) in
    send_notice (ev_room_id event) body ;!
    inc Challenges ;!
    ret Sent.

Definition process_request (state : AppState) (event : InboundEvent)
    (session_id nonce : string) (sent_at : Z) (domain : string) : M HandleResult :=
  let! now := now_ms in
  let! nonce_hash := lift (keyed_hash (st_lookup_pepper state) (as_bytes nonce)) in
  with_tx (
    let! found := get_matching domain session_id nonce_hash in
    match found with
    | None => ret Ignored
    | Some session =>
        if (s_exp session <? now)
           || negb (sent_at_in_qr_window sent_at (s_iat session) (s_exp session))
        then ret Ignored
        else if bool_decide (is_Some (s_challenge_hash session)) then commit ;! ret Ignored
        else
          issue_challenge state event session session_id nonce domain now
    end).

(** ** Consent *)

(** The part of the handler after the approval, in the open transaction. *)
Definition mint_assertion (state : AppState) (event : InboundEvent) (session : SessionRow)
    (session_id nonce : string) (nonce_hash : list byte) (now : Z)
    (display_name : option string) : M HandleResult :=
  let! display := lift (ok_or display_name InvalidRequest) in
  let! sub := lift (derive_pairwise_sub (st_subject_secret state) (s_domain session)
                      (ev_sender event)) in
  let! subject_hash := lift (keyed_hash (st_lookup_pepper state) (as_bytes sub)) in
  let! subject_ct := at_rest_encrypt state (as_bytes sub) in
  let! user_ct := at_rest_encrypt state (as_bytes (ev_sender event)) in
  upsert_grant (s_domain session) subject_hash subject_ct user_ct session_id nonce_hash
    (st_subject_key_version state) ;!
  let! jti_bytes := fill_bytes (Z.to_nat JTI_BYTES) in
  let jti := Base64url.encode jti_bytes in
  let exp := Z.min (s_exp session) (i64_add now MAX_TTL_MS) in
  let! assertion := lift (Assertion.sign (st_signing_key state) (st_signing_kid state)
    (s_domain session) sub session_id nonce jti now exp display
    (st_subject_key_version state)) in
  let! keep := lift (millis_to_utc (i64_add (s_exp session) REPLAY_GRACE_MS)) in
  reserve_assertion_jti jti keep ;!
  let! assertion_bytes := lift (Assertion.to_bytes assertion) in
  let! assertion_ct := at_rest_encrypt state assertion_bytes in
  let! display_ct := at_rest_encrypt state (as_bytes display) in
  cas_update (s_id session) (s_version session)
    (consent_patch (ev_event_id event) display_ct jti assertion_ct) ;!
  enqueue "assertion" (s_domain session) jti assertion_ct session_id nonce_hash ;!
  commit ;!
  inc Consents ;!
  ret Sent.

Definition process_consent (state : AppState) (event : InboundEvent)
    (session_id nonce : string) (sent_at : Z) (approved : bool) (display_name : option string)
    (challenge key_id signature : string) : M HandleResult :=
  let! now := now_ms in
  let! nonce_hash := lift (keyed_hash (st_lookup_pepper state) (as_bytes nonce)) in
  let! challenge_hash := lift (keyed_hash (st_lookup_pepper state) (as_bytes challenge)) in
  let! signed := lift (consent_signed_bytes approved challenge display_name nonce session_id
                         sent_at) in
  lift (verify_consent_signature key_id signed signature) ;!
  with_tx (
    let! found := get_by_session_and_nonce session_id nonce_hash in
    let! session := lift (ok_or found SessionNotFound) in
    if (s_exp session <? now)
       || negb (sent_at_in_qr_window sent_at (s_iat session) (s_exp session))
       || match s_challenge_expires_at session with
          | Some exp => (exp <? sent_at) || (exp <? now)
          | None => false
          end
    then
      rollback ;!
      send_failure (ev_room_id event) session_id nonce "request_expired"
    else if negb (bool_decide (s_challenge_hash session = Some challenge_hash)) then ret Ignored
    else
      let stored_sender := open_text state (s_request_sender_ciphertext session) in
      let stored_room := open_text state (s_request_room_ciphertext session) in
      if negb (bool_decide (stored_sender = Some (ev_sender event)))
         || negb (bool_decide (stored_room = Some (ev_room_id event)))
      then inc RoomViolations ;! ret Ignored
      else
        let! keep := lift (millis_to_utc (i64_add (s_exp session) REPLAY_GRACE_MS)) in
        count_replay (reserve_consent_event (ev_event_id event) keep) ;!
        if negb approved then
          cas_update (s_id session) (s_version session) (refused_patch (ev_event_id event)) ;!
          commit ;!
          send_failure (ev_room_id event) session_id nonce "request_cancelled"
        else
          mint_assertion state event session session_id nonce nonce_hash now display_name).

(** ** Revocation *)

(** The part of the handler after the checks, in the open transaction. *)
Definition revoke_grant (state : AppState) (session : SessionRow) (grant : GrantRow)
    (session_id : string) (nonce_hash : list byte) (site_account_id reason : string)
  : M HandleResult :=
  mark_revoked (g_id grant) ;!
  let! jti_bytes := fill_bytes (Z.to_nat JTI_BYTES) in
  let jti := Base64url.encode jti_bytes in
  let! now := now_ms in
  let! keep := lift (millis_to_utc (i64_add now REPLAY_GRACE_MS)) in
  reserve_revocation_jti jti keep ;!
  let! now := now_ms in
  let! revocation := lift (Revocation.sign (st_signing_key state)
    (st_signing_kid state) (s_domain session) site_account_id jti now reason) in
  let! bytes := lift (Revocation.to_bytes revocation) in
  let! payload_ct := at_rest_encrypt state bytes in
  enqueue "revocation" (s_domain session) jti payload_ct session_id nonce_hash ;!
  cas_update (s_id session) (s_version session) (state_patch "REVOKED") ;!
  commit ;!
  ret Sent.

Definition process_revocation (state : AppState) (event : InboundEvent)
    (session_id nonce site_account_id : string) (reason : option string) : M HandleResult :=
  let reason := match reason with Some r => r | None => "user_requested" end in
  let! nonce_hash := lift (keyed_hash (st_lookup_pepper state) (as_bytes nonce)) in
  let! subject_hash := lift (keyed_hash (st_lookup_pepper state) (as_bytes site_account_id)) in
  with_tx (
    let! found := get_by_session_and_nonce session_id nonce_hash in
    match found with
    | None => ret Ignored
    | Some session =>
        let! found := find_active_grant (s_domain session) subject_hash in
        match found with
        | None => ret Ignored
        | Some grant =>
            let! user := lift (decrypt (st_at_rest state) (g_matrix_user_ciphertext grant)) in
            let! stored_user := lift (ok_or (from_utf8 user) InternalError) in
            if negb (String.eqb stored_user (ev_sender event)) then ret Ignored
            else if bool_decide (is_Some (g_revoked_at grant)) then commit ;! ret Ignored
            else
              revoke_grant state session grant session_id nonce_hash site_account_id reason
        end
    end).

(** ** Dispatch *)

Definition handle_inbound (state : AppState) (event : InboundEvent) : M HandleResult :=
  if ev_redacted event || negb (ev_decrypted event) then inc RoomViolations ;! ret Ignored
  else if String.eqb (ev_sender event) (st_relay_user_id state) then ret Ignored
  else if negb (allowed (check_room (ev_room event))) then inc RoomViolations ;! ret Ignored
  else
    match Matrix.decode (ev_body event) with
    | Err _ => ret Ignored
    | Ok (Matrix.Request session_id nonce sent_at domain) =>
        process_request state event session_id nonce sent_at domain
    | Ok (Matrix.Consent session_id nonce sent_at approved display_name challenge key_id
            signature) =>
        process_consent state event session_id nonce sent_at approved display_name challenge
          key_id signature
    | Ok (Matrix.Revocation session_id nonce _ site_account_id reason) =>
        process_revocation state event session_id nonce site_account_id reason
    | Ok _ => ret Ignored
    end.
End Code.
