(* ===== verification/Queue.v ===== *)
(** * The delivery queue (src/src/delivery/queue.rs) *)

From S2P Require Import Prelude Errors Constants Utf8 Validation Base64url Json Jcs Strict.
From S2P Require Import Crypto Keys Wire Metadata Registration Assertion Matrix Ssrf Site.
From S2P Require Import Tables Statements World Spec Db Login.

#[local] Set Warnings "-clear-no-such-hyp".

Section Code.
Context `{Base64} `{Crypto} `{JsonText} `{JsonReader} `{Env}.

Definition after_assertion_accepted (state : AppState) (job : DeliveryJob) (payload : list byte)
  : M unit :=
  let! assertion := lift (from_slice assertion_from_value payload) in
  with_tx (
    let! found := get_matching (j_domain job) (j_session_id job) (j_nonce_hash job) in
    match found with
    | None => ret tt
    | Some session =>
        let! room := lift (ok_or (s_request_room_ciphertext session) InternalError) in
        let! room := lift (decrypt (st_at_rest state) room) in
        let! room_id := lift (ok_or (from_utf8 room) InternalError) in
        let! nonce := lift (decrypt (st_at_rest state) (s_nonce_ciphertext session)) in
        let! nonce := lift (ok_or (from_utf8 nonce) InternalError) in
        cas_update (s_id session) (s_version session) (state_patch "ASSERTION_DELIVERED") ;!
        commit ;!
        send_success_result room_id (j_session_id job) nonce (a_sub assertion)
    end).

Definition deliver (state : AppState) (job : DeliveryJob) : M unit :=
  let! payload := lift (decrypt (st_at_rest state) (j_payload_ciphertext job)) in
  let! path :=
    if String.eqb (j_kind job) "assertion" then ret ASSERTION_PATH
    else if String.eqb (j_kind job) "revocation" then ret REVOCATION_PATH
    else fail InternalError in
  let idempotency := if String.eqb (j_kind job) "assertion" then Some (j_jti job) else None in
  let! response := site_post (j_domain job) path payload idempotency in
  if negb (sr_status response =? 202) && negb (sr_status response =? 200)
  then fail RelayUnavailable
  else if String.eqb (j_kind job) "assertion" then after_assertion_accepted state job payload
  else ret tt.

(** The body of the loop over the claimed jobs. *)
Definition run_job (state : AppState) (job : DeliveryJob) : M unit :=
  let! outcome := try (deliver state job) in
  match outcome with
  | Ok _ => mark_delivered (j_id job) ;! inc Deliveries
  | Err _ => if 8 <=? j_attempts job then mark_failed (j_id job) else ret tt
  end.

Fixpoint run_jobs (state : AppState) (jobs : list DeliveryJob) : M unit :=
  match jobs with
  | [] => ret tt
  | job :: rest => run_job state job ;! run_jobs state rest
  end.

Definition tick (state : AppState) : M unit :=
  let! jobs := claim_due 10 in
  run_jobs state jobs.

Definition process_once (state : AppState) : M unit := tick state.

(** One turn of [run_loop]: the shutdown flag at its top, and what ended the
    wait: the timer, or a change of the flag to a value. *)
Inductive Wake := Timer | Changed (flag : bool).

Fixpoint run_loop (state : AppState) (turns : list (bool * Wake)) : M unit :=
  match turns with
  | [] => ret tt
  | (shutdown, wake) :: rest =>
      if shutdown then ret tt
      else
        try (tick state) ;!
        match wake with
        | Changed true => ret tt
        | _ => run_loop state rest
        end
  end.
End Code.
