(* ===== verification/Http.v ===== *)
(** * The HTTP interface (src/src/http) *)

From S2P Require Import Prelude Errors Constants Utf8 Validation Base64url Json Jcs Strict.
From S2P Require Import Crypto Keys Wire Metadata Registration Ssrf Site Tables Statements World Spec.
From S2P Require Import Db Register.

#[local] Set Warnings "-clear-no-such-hyp".

(** A response: status, headers the code sets, and body. *)
Inductive Body := Text (s : string) | JsonBody (bytes : list byte).
Record Response := {
  re_status : Z;
  re_cache_control : option string;
  re_content_type : string;
  re_body : Body
}.

(** [Json(x)]: a serialization failure is axum's plain 500. *)
Definition json_response `{JsonText} (status : Z) (cache : option string) (content_type : string)
    (fields : list (string * Value)) : Response :=
  match to_vec fields with
  | Ok b => {| re_status := status; re_cache_control := cache; re_content_type := content_type;
               re_body := JsonBody b |}
  | Err _ => {| re_status := INTERNAL_SERVER_ERROR; re_cache_control := cache;
                re_content_type := content_type; re_body := Text "" |}
  end.

Section Code.
Context `{Base64} `{Crypto} `{JsonText} `{JsonReader} `{Env}.

(** ** problems.rs *)

(** [ProblemBody], serialized in camelCase with [type] renamed. *)
Definition problem_fields (code : ProblemCode) (correlation_id : string) : list (string * Value) :=
  [("type", json_str ("https://relay.pseud0.org/problems/" +:+ as_str code));
   ("title", json_str (title code));
   ("status", json_int (status code));
   ("code", json_str (as_str code));
   ("correlationId", json_str correlation_id)].

Definition problem_response (code : ProblemCode) : M Response :=
  let! bytes := fill_bytes 16 in
  ret (json_response (status code) (Some "no-store") "application/problem+json"
         (problem_fields code (Base64url.encode bytes))).

(** [IntoResponse for RelayError]. *)
Definition error_response (e : RelayError) : M Response := problem_response (Errors.code e).

Definition rate_limited : M Response :=
  let! r := problem_response RateLimited in
  ret {| re_status := TOO_MANY_REQUESTS; re_cache_control := re_cache_control r;
         re_content_type := re_content_type r; re_body := re_body r |}.

(** ** jwks.rs *)

(** The one key of the set, as fields. *)
Definition jwk_fields (state : AppState) : list (string * Value) :=
  [("kty", json_str "OKP"); ("crv", json_str "Ed25519");
   ("x", json_str (Base64url.encode (public_key_raw (st_signing_key state))));
   ("use", json_str "sig"); ("alg", json_str "EdDSA");
   ("kid", json_str (st_signing_kid state))].

Definition jwks (state : AppState) : M Response :=
  ret (json_response 200 None "application/json"
         [("keys", VArray [VObject (jwk_fields state)])]).

(** ** routes.rs *)

Definition live : M Response :=
  ret {| re_status := 200; re_cache_control := None;
         re_content_type := "text/plain; charset=utf-8"; re_body := Text "ok" |}.

Definition matrix_sync_is_fresh (now_ms last_sync_ms : Z) (sync_running : bool) : bool :=
  sync_running && (0 <? last_sync_ms)
  && (saturating_sub now_ms last_sync_ms <=? MATRIX_SYNC_STALE_MS).

(** [result.is_err()] of a computation. *)
Definition succeeds {A} (m : M A) : M bool :=
  let! outcome := try m in ret (is_ok outcome).

Definition ready : M Response :=
  let! up := succeeds ping in
  if negb up then problem_response RelayUnavailable
  else
    let! sync_running := op LoadReady in
    let! last_sync := op LoadLastSync in
    let! now := now_ms in
    if negb (matrix_sync_is_fresh now last_sync sync_running) then problem_response RelayUnavailable
    else ret {| re_status := 200; re_cache_control := None;
                re_content_type := "text/plain; charset=utf-8"; re_body := Text "ready" |}.

(** The window of the current second and its counter. *)
Definition rate_limit_ok : M bool :=
  let! now := op UnixSecs in
  let! window := op LoadWindow in
  if negb (window =? now) then
    op (StoreWindow now) ;!
    op (StoreCount 1) ;!
    ret true
  else
    let! previous := op FetchAddCount in
    ret (previous <? 30).

(** The handler behind the limiter. *)
Definition post_registration (state : AppState) (body : list byte) : M Response :=
  if MAX_HTTP_BODY <? blen body then problem_response InvalidRequest
  else
    match from_slice registration_from_value body with
    | Err _ => problem_response InvalidRequest
    | Ok request =>
        let! outcome := try (register_session state request) in
        match outcome with
        | Ok (response, created) =>
            ret (json_response (if created : bool then 201 else 200) (Some "no-store")
                   "application/json" (response_fields response))
        | Err error => inc RegistrationFailures ;! error_response (Problem (Errors.code error))
        end
    end.

Definition site_sessions (state : AppState) (body : list byte) : M Response :=
  let! ok := rate_limit_ok in
  if negb ok then rate_limited else post_registration state body.

(** The router, behind the body limit of tower-http: a body longer than the limit
    is answered with 413 before the handler runs. *)
Inductive Route := PostSiteSessions | GetJwks | GetLive | GetReady.

Definition serve (state : AppState) (route : Route) (body : list byte) : M Response :=
  if MAX_HTTP_BODY <? blen body then
    ret {| re_status := 413; re_cache_control := None;
           re_content_type := "text/plain; charset=utf-8";
           re_body := Text "length limit exceeded" |}
  else
    match route with
    | PostSiteSessions => site_sessions state body
    | GetJwks => jwks state
    | GetLive => live
    | GetReady => ready
    end.
End Code.
