(* ===== verification/Invariant.v ===== *)
(** * Key uniqueness

    The tables' primary and unique keys, as an invariant of the committed tables
    and of the open transaction's view that every effect of the relay keeps,
    whatever fails.  The sequences are part of it: an identifier in use is below
    the next one. *)

From S2P Require Import Prelude Errors Constants Base64url Json Strict Crypto Keys Metadata.
From S2P Require Import Registration Matrix Ssrf Site Tables Statements World Spec Db Register Login.
From S2P Require Import Queue Http.
From stdpp Require Import gmap sorting.
#[local] Open Scope Z_scope.
#[local] Set Warnings "-clear-no-such-hyp".

(** ** The invariant *)

Definition session_key (s : SessionRow) : string * string := (s_domain s, s_session_id s).
Definition nonce_key (s : SessionRow) : string * list byte := (s_domain s, s_nonce_hash s).
Definition grant_key (g : GrantRow) : string * list byte := (g_domain g, g_subject_hash g).

Record unique (d : Db) : Prop := {
  u_session_id : NoDup (List.map s_id (db_sessions d));
  u_session_key : NoDup (List.map session_key (db_sessions d));
  u_nonce_key : NoDup (List.map nonce_key (db_sessions d));
  u_grant_id : NoDup (List.map g_id (db_grants d));
  u_grant_key : NoDup (List.map grant_key (db_grants d));
  u_job_id : NoDup (List.map j_id (db_jobs d));
  u_job_jti : NoDup (List.map j_jti (db_jobs d))
}.

Record below (s : Seqs) (d : Db) : Prop := {
  b_sessions : Forall (fun x => s_id x < seq_sessions s) (db_sessions d);
  b_grants : Forall (fun x => g_id x < seq_grants s) (db_grants d);
  b_jobs : Forall (fun x => j_id x < seq_jobs s) (db_jobs d)
}.

Definition seqs_le (s s' : Seqs) : Prop :=
  seq_sessions s <= seq_sessions s' /\ seq_grants s <= seq_grants s' /\ seq_jobs s <= seq_jobs s'.

Definition keyed (s : Seqs) (d : Db) : Prop := unique d /\ below s d.

(** The world's invariant. *)
Definition keyed_world (w : World) : Prop :=
  keyed (w_seqs w) (w_db w) /\ forall t, w_tx w = Some t -> keyed (w_seqs w) (tx_db t).

Lemma below_le s s' d : seqs_le s s' -> below s d -> below s' d.
Proof.
  intros (H1 & H2 & H3) [B1 B2 B3]. split; eapply Forall_impl; try eassumption; cbn; lia.
Qed.

#[export] Instance seqs_le_refl : Reflexive seqs_le.
Proof. intros s. unfold seqs_le. lia. Qed.
#[export] Instance seqs_le_trans : Transitive seqs_le.
Proof. intros a b c. unfold seqs_le. lia. Qed.

(** ** Lists of rows *)

(** An update that keeps the key keeps the keys of the table. *)
Lemma map_keys {A B} (key : A -> B) (f : A -> A) l :
  (forall x, key (f x) = key x) -> List.map key (List.map f l) = List.map key l.
Proof. intros Hf. rewrite map_map. by apply map_ext. Qed.

Lemma nodup_snoc {A B} (key : A -> B) l x :
  NoDup (List.map key l) -> key x ∉ List.map key l -> NoDup (List.map key (l ++ [x])).
Proof.
  intros Hl Hx. rewrite map_app. apply NoDup_app. split; [done|]. split.
  - intros y Hy ->%list_elem_of_singleton. done.
  - apply NoDup_singleton.
Qed.

Lemma not_in_map {A B} (key : A -> B) (l : list A) k :
  Forall (fun x => key x <> k) l -> k ∉ List.map key l.
Proof.
  intros Hl Hin. apply list_elem_of_fmap in Hin as (x & -> & Hx).
  rewrite Forall_forall in Hl. by apply (Hl x).
Qed.

Lemma filter_nil {A} (p : A -> bool) l : List.filter p l = [] -> Forall (fun x => p x = false) l.
Proof. induction l as [|x l IH]; simpl; [constructor|]. destruct (p x) eqn:E; [done|]. auto. Qed.

Lemma filter_none {A} (p : A -> bool) l : Forall (fun x => p x = false) l -> List.filter p l = [].
Proof. induction 1 as [|x l Hx _ IH]; simpl; [done|]. by rewrite Hx. Qed.

Lemma key_inj {A B} (key : A -> B) l x y :
  NoDup (List.map key l) -> x ∈ l -> y ∈ l -> key x = key y -> x = y.
Proof.
  induction l as [|z l IH]; simpl; [by intros _ ?%not_elem_of_nil|].
  intros [Hz Hl]%NoDup_cons [->|Hx]%elem_of_cons [->|Hy]%elem_of_cons Hk; auto; exfalso; apply Hz.
  - rewrite Hk. apply list_elem_of_fmap. eauto.
  - rewrite <- Hk. apply list_elem_of_fmap. eauto.
Qed.

(** ** Statements keep the keys *)

Lemma below_fresh {A} (key : A -> Z) l n : Forall (fun x => key x < n) l -> n ∉ List.map key l.
Proof. intros Hl. apply not_in_map. eapply Forall_impl; [exact Hl|]. cbn. lia. Qed.

(** Identifiers that are drawn for new rows are in use by no other. *)
Lemma unique_insert_session d x :
  unique d -> s_id x ∉ List.map s_id (db_sessions d) -> unique (insert_session x d).2.
Proof.
  intros [] Hx. unfold insert_session. destruct (existsb _ _) eqn:E; [done|].
  apply existsb_false in E. split; cbn; try done; apply nodup_snoc; try done;
    apply not_in_map; (eapply Forall_impl; [exact E|]); intros y Hy [= H1 H2]; unfold session_conflict in Hy.
  - by rewrite H1, H2, !String.eqb_refl in Hy.
  - by rewrite H1, H2, String.eqb_refl, bool_decide_eq_true_2, orb_true_r in Hy.
Qed.

(** A change of rows that keeps their keys. *)
Lemma unique_map_sessions d f :
  (forall x, s_id (f x) = s_id x /\ session_key (f x) = session_key x /\ nonce_key (f x) = nonce_key x) ->
  unique d -> unique (set_sessions (List.map f (db_sessions d)) d).
Proof. intros Hf []. split; cbn; try done; (rewrite map_keys; [done|intros x; apply Hf]). Qed.

Lemma unique_map_grants d f :
  (forall x, g_id (f x) = g_id x /\ grant_key (f x) = grant_key x) ->
  unique d -> unique (set_grants (List.map f (db_grants d)) d).
Proof. intros Hf []. split; cbn; try done; (rewrite map_keys; [done|intros x; apply Hf]). Qed.

Lemma unique_map_jobs d f :
  (forall x, j_id (f x) = j_id x /\ j_jti (f x) = j_jti x) ->
  unique d -> unique (set_jobs (List.map f (db_jobs d)) d).
Proof. intros Hf []. split; cbn; try done; (rewrite map_keys; [done|intros x; apply Hf]). Qed.

Lemma unique_upsert d g : unique d -> g_id g ∉ List.map g_id (db_grants d) -> unique (upsert g d).2.
Proof.
  intros U Hg. unfold upsert. destruct (List.filter _ _) as [|x l] eqn:E; cbn [snd].
  - apply filter_nil in E. destruct U. split; cbn; try done; apply nodup_snoc; try done.
    apply not_in_map. eapply Forall_impl; [exact E|]. intros y Hy [= H1 H2]. unfold grant_match in Hy.
    by rewrite H1, H2, String.eqb_refl, bool_decide_eq_true_2 in Hy.
  - apply unique_map_grants; [|done]. intros y. by case_if.
Qed.

Lemma unique_insert_job d j : unique d -> j_id j ∉ List.map j_id (db_jobs d) -> unique (insert_job j d).
Proof.
  intros U Hj. unfold insert_job. destruct (existsb _ _) eqn:E; [done|]. apply existsb_false in E.
  destruct U. split; cbn; try done; apply nodup_snoc; try done.
  apply not_in_map. eapply Forall_impl; [exact E|]. intros y Hy H1. cbn beta in Hy. by rewrite H1, String.eqb_refl in Hy.
Qed.

(** The identifier a statement draws is new to the tables, or below a bound. *)
Definition drawn_new {A} (st : Stmt A) (s : Seqs) (d : Db) : Prop :=
  match st with
  | InsertSession _ _ => seq_sessions s ∉ List.map s_id (db_sessions d)
  | UpsertGrant _ _ _ _ _ _ _ => seq_grants s ∉ List.map g_id (db_grants d)
  | InsertJob _ _ _ _ _ _ => seq_jobs s ∉ List.map j_id (db_jobs d)
  | _ => True
  end.

Definition drawn_below {A} (st : Stmt A) (s s' : Seqs) : Prop :=
  match st with
  | InsertSession _ _ => seq_sessions s < seq_sessions s'
  | UpsertGrant _ _ _ _ _ _ _ => seq_grants s < seq_grants s'
  | InsertJob _ _ _ _ _ _ => seq_jobs s < seq_jobs s'
  | _ => True
  end.

Lemma unique_stmt_run {A} (st : Stmt A) now s d :
  unique d -> drawn_new st s d -> unique (stmt_run st now s d).1.2.
Proof.
  intros U Hn. destruct st; unfold stmt_run, insert_key, insert_challenge; cbn [drawn_new] in Hn; try done.
  - pose proof (unique_insert_session d (new_row n (seq_sessions s) expires_at) U Hn).
    by destruct (insert_session _ d).
  - unfold update_session. case_if; [done|]. apply unique_map_sessions; [|done]. intros x. by case_if.
  - by case_match; [|destruct U].
  - by case_match; [|destruct U].
  - match goal with |- context [upsert ?g d] => pose proof (unique_upsert d g U Hn); by destruct (upsert g d) end.
  - apply unique_map_grants; [|done]. intros x. by case_if.
  - by apply unique_insert_job.
Qed.

Lemma below_stmt_run {A} (st : Stmt A) now s s' d :
  below s' d -> drawn_below st s s' -> below s' (stmt_run st now s d).1.2.
Proof.
  intros B Hn. destruct st; unfold stmt_run, insert_key, insert_challenge; cbn [drawn_below] in Hn; try done.
  - unfold insert_session. case_if; [done|]. destruct B. split; cbn; try done. apply Forall_app. auto.
  - unfold update_session. case_if; [done|]. destruct B. split; cbn; try done.
    apply Forall_map. eapply Forall_impl; [done|]. intros x Hx. by case_if.
  - by case_match; [|destruct B].
  - by case_match; [|destruct B].
  - unfold upsert. destruct B. destruct (List.filter _ _); split; cbn; try done; [apply Forall_app; auto|].
    apply Forall_map. eapply Forall_impl; [done|]. intros x Hx. by case_if.
  - destruct B. split; cbn; try done. apply Forall_map. eapply Forall_impl; [done|]. intros x Hx. by case_if.
  - unfold insert_job. case_if; [done|]. destruct B. split; cbn; try done. apply Forall_app. auto.
Qed.

(** ** Every operation keeps the keys *)

Lemma seqs_le_run {A} (st : Stmt A) now s d :
  seqs_le s (stmt_run st now s d).2 /\ drawn_below st s (stmt_run st now s d).2.
Proof.
  destruct st; unfold stmt_run; try done; try (by destruct (_ : _ * _)).
  - destruct (insert_session _ d). split; [unfold seqs_le|]; cbn; lia.
  - by destruct (update_session _ _ _ d) as [[]|].
  - destruct (upsert _ d). split; [unfold seqs_le|]; cbn; lia.
  - split; [unfold seqs_le|]; cbn; lia.
Qed.

Lemma keyed_stmt_run {A} (st : Stmt A) now s d r d' s' :
  keyed s d -> stmt_run st now s d = (r, d', s') -> keyed s' d' /\ seqs_le s s'.
Proof.
  intros [U B] E. destruct (seqs_le_run st now s d) as [Hle Hb]. rewrite E in Hle, Hb. cbn in Hle, Hb.
  assert (Hn : drawn_new st s d) by (destruct B; destruct st; cbn; try done; by apply below_fresh).
  pose proof (unique_stmt_run st now s d U Hn) as H1.
  pose proof (below_stmt_run st now s s' d (below_le s s' d Hle B) Hb) as H2. rewrite E in H1, H2. by split.
Qed.

Lemma unique_auto_run {A} (st : Auto A) now d a d' :
  unique d -> auto_run st now d = Ok (a, d') -> unique d'.
Proof.
  intros U. destruct st; unfold auto_run.
  - intros [_ ->]%claim_Ok. apply unique_map_jobs; [|done]. intros x. by case_if.
  - intros [= _ <-]. apply unique_map_jobs; [|done]. intros x. by case_if.
Qed.

Lemma below_auto_run {A} (st : Auto A) now s d a d' :
  below s d -> auto_run st now d = Ok (a, d') -> below s d'.
Proof.
  intros []. destruct st; unfold auto_run; [intros [_ ->]%claim_Ok|intros [= _ <-]]; split; cbn; try done;
    apply Forall_map; (eapply Forall_impl; [done|]); intros x Hx; by case_if.
Qed.

Lemma keyed_auto_run {A} (st : Auto A) now s d a d' :
  keyed s d -> auto_run st now d = Ok (a, d') -> keyed s d'.
Proof. intros [U B] E. split; [by eapply unique_auto_run|by eapply below_auto_run]. Qed.

(** So whatever program runs, and whatever the environment answers, the keys are
    kept. *)
Lemma keyed_perform `{Env} {X} (o : Op X) n w :
  keyed_world w -> keyed_world (perform_at o n w).2.
Proof.
  intros [Hd Ht]. destruct o; cbn [perform_at]; try by split.
  - destruct (env_begin n); split; try done. by intros t [= <-].
  - destruct (env_sql n); [|by split]. unfold perform_stmt.
    destruct (w_tx w) as [t|] eqn:Et; [|split; [done|cbn; by rewrite Et]].
    destruct (stmt_run _ _ _ _) as [[r d] s] eqn:E. cbn.
    eapply keyed_stmt_run in E as [Hk Hle]; [|by apply Ht]. split; cbn.
    + destruct Hd as [U B]. split; [done|by eapply below_le].
    + by intros t' [= <-].
  - unfold committed. destruct (w_tx w) as [t|] eqn:E, (env_commit n); split; cbn; eauto; done.
  - destruct (auto_run _ _ _) as [[a d]|e] eqn:E; [|by split].
    eapply keyed_auto_run in E; [|done]. destruct (env_exec n); split; cbn; done.
  - destruct (env_notice n); by split.
Qed.

Lemma keyed_run `{Env} {A} (m : M A) w : keyed_world w -> keyed_world (m w).2.
Proof.
  revert w. induction m as [r|X o k IH]; intros w Hw; [done|]. cbn. unfold perform.
  pose proof (keyed_perform o (w_step w) (bump w) Hw) as Hp. destruct (perform_at _ _ _). by apply IH.
Qed.
