(* ===== verification/Rows.v ===== *)
(** * Rows the relay can work with

    The well-formedness of a session row that registration establishes and every
    later step keeps, the well-formedness of the configuration, and what an update
    guarded by the version does when identifiers are unique. *)

From S2P Require Import Prelude Errors Constants Utf8 Validation Base64url Json Strict.
From S2P Require Import Crypto Keys Metadata Registration Matrix Ssrf Site Tables Statements World Spec.
From S2P Require Import Db Register Invariant.

From stdpp Require Import relations.
#[local] Open Scope Z_scope.
#[local] Set Warnings "-clear-no-such-hyp".

(** ** Configuration *)

Record state_wf (state : AppState) : Prop := {
  sw_at_rest : blen (st_at_rest state) = 32;
  sw_subject : 32 <= blen (st_subject_secret state);
  sw_skv : in_i32 (st_subject_key_version state);
  sw_key : blen (st_signing_key state) = 32;
  sw_kid : over cls_kid 1 64 (st_signing_kid state)
}.

(** ** Rows *)

(** The columns of the request are set together. *)
Definition challenge_columns (s : SessionRow) : Prop :=
  match s_challenge_hash s with
  | Some _ =>
      is_Some (s_challenge_expires_at s) /\ is_Some (s_request_event_id s) /\
      is_Some (s_request_room_ciphertext s) /\ is_Some (s_request_sender_ciphertext s)
  | None =>
      s_challenge_expires_at s = None /\ s_request_event_id s = None /\
      s_request_room_ciphertext s = None /\ s_request_sender_ciphertext s = None
  end.

(** *** The life cycle of a session

    Its state, and whether it has a challenge; the moves the relay makes. *)

Definition phase (s : SessionRow) : string * bool :=
  (s_state s, bool_decide (is_Some (s_challenge_hash s))).

Inductive move : string * bool -> string * bool -> Prop :=
  | mv_challenge st : move (st, false) ("CHALLENGE_SENT", true)
  | mv_refuse st : move (st, true) ("REFUSED", true)
  | mv_approve st : move (st, true) ("CONSENT_RECEIVED", true)
  | mv_deliver st : move (st, true) ("ASSERTION_DELIVERED", true)
  | mv_revoke st c : move (st, c) ("REVOKED", c).

Definition registered_phase : string * bool := ("SITE_REGISTERED", false).

(** Where the moves lead. *)
Definition states : list string :=
  ["SITE_REGISTERED"; "CHALLENGE_SENT"; "REFUSED"; "CONSENT_RECEIVED"; "ASSERTION_DELIVERED"; "REVOKED"].

Definition phase_ok (p : string * bool) : Prop :=
  fst p ∈ states /\ (snd p = false -> fst p = "SITE_REGISTERED" \/ fst p = "REVOKED") /\
  (snd p = true -> fst p <> "SITE_REGISTERED").

Lemma move_ok p q : move p q -> phase_ok p -> phase_ok q.
Proof.
  intros [st|st|st|st|st c] (_ & Hf & Ht); (split; [by_decide|]); cbn in *;
    (split; [try done; auto|try done; auto]).
Qed.

Lemma phases_ok p : rtc move registered_phase p -> phase_ok p.
Proof.
  intros Hp. revert Hp. apply rtc_ind_r; [|intros; by eapply move_ok].
  split; [by_decide|]. cbn. auto.
Qed.

Record row_wf `{Env} (s : SessionRow) : Prop := {
  rw_domain : slen (s_domain s) <= 253 /\ domain_name (s_domain s);
  rw_session : over cls_id 16 128 (s_session_id s);
  rw_window : s_iat s < s_exp s <= s_iat s + 300000;
  rw_range : in_i64 (s_iat s) /\ in_i64 (s_exp s);
  rw_requested : slen (s_requested_display_name s) <= 100;
  rw_site : 0 < slen (s_site_display_name s) <= 100;
  rw_keep : env_timestamp_millis (i64_add (s_exp s) REPLAY_GRACE_MS) = Some (s_expires_at s);
  rw_columns : challenge_columns s;
  rw_phase : rtc move registered_phase (phase s)
}.

Definition db_wf `{Env} (d : Db) : Prop := unique d /\ Forall row_wf (db_sessions d).

Section Rows.
Context `{Env}.

Lemma db_wf_row d s : db_wf d -> s ∈ db_sessions d -> row_wf s.
Proof. intros [_ Hd]. rewrite Forall_forall in Hd. auto. Qed.

(** A session with a room was asked for and challenged. *)
Lemma room_challenged s :
  challenge_columns s -> is_Some (s_request_room_ciphertext s) -> is_Some (s_challenge_hash s).
Proof.
  unfold challenge_columns. intros Hc [room Hr].
  destruct (s_challenge_hash s); [by eexists|]. destruct Hc as (_ & _ & Hn & _). congruence.
Qed.

(** A patch that keeps the challenge of a session. *)
Lemma kept_move s p :
  is_Some (s_challenge_hash s) -> p_challenge_hash p = None ->
  (forall st, move (st, true) (p_state p, true)) -> move (phase s) (phase (apply_patch p s)).
Proof. intros [h Hh] Hp Hm. unfold phase. cbn. rewrite Hp, Hh. apply Hm. Qed.

(** A patch that leaves the request's columns as they are, or sets them all. *)
Definition patch_columns (p : SessionPatch) : Prop :=
  match p_challenge_hash p with
  | Some _ =>
      is_Some (p_challenge_expires_at p) /\ is_Some (p_request_event_id p) /\
      is_Some (p_request_room_ciphertext p) /\ is_Some (p_request_sender_ciphertext p)
  | None =>
      p_challenge_expires_at p = None /\ p_request_event_id p = None /\
      p_request_room_ciphertext p = None /\ p_request_sender_ciphertext p = None
  end.

Lemma patch_wf p s :
  patch_columns p -> move (phase s) (phase (apply_patch p s)) -> row_wf s -> row_wf (apply_patch p s).
Proof.
  intros Hp Hm []. split; try done; [|by eapply rtc_r]. clear -Hp rw_columns0.
  unfold challenge_columns, patch_columns, is_Some in *. cbn.
  destruct (p_challenge_hash p), (s_challenge_hash s); cbn in *; destruct_and!;
    repeat match goal with
    | H : exists _, _ = Some _ |- _ => destruct H as [? H]
    | H : _ = None |- _ => rewrite H; clear H
    | H : _ = Some _ |- _ => rewrite H; clear H
    end; cbn; eauto 10.
Qed.

(** The expiry with its grace is a time the database can hold, so that nothing
    near it wraps. *)
Lemma row_exp_range `{Base64, Crypto, JsonText, !EnvLaws} s :
  row_wf s -> -8334601258800000 <= s_exp s <= 8210266876769999.
Proof.
  intros []. apply env_timestamp_iff in rw_keep0 as [_ Hr]. destruct rw_range0 as [_ He].
  revert Hr. unfold i64_add, wrap64, in_i64, i64_min, i64_max, REPLAY_GRACE_MS in *.
  intros Hr. Z.div_mod_to_equations. lia.
Qed.

(** ** Updates *)

Definition patched (s : SessionRow) (p : SessionPatch) (d : Db) : Db :=
  set_sessions
    (List.map (fun x => if cas_match (s_id s) (s_version s) x then apply_patch p x else x)
       (db_sessions d)) d.

Lemma cas_filter l s :
  NoDup (List.map s_id l) -> s ∈ l -> List.filter (cas_match (s_id s) (s_version s)) l = [s].
Proof.
  induction l as [|x l IH]; simpl; [by intros _ ?%not_elem_of_nil|].
  intros [Hx Hl]%NoDup_cons [->|Hin]%elem_of_cons.
  - unfold cas_match at 1. rewrite !Z.eqb_refl. cbn. f_equal. clear IH Hl.
    induction l as [|y l IH]; simpl in *; [done|]. apply not_elem_of_cons in Hx as [Hy Hx].
    unfold cas_match at 1. destruct (Z.eqb_spec (s_id y) (s_id x)); [congruence|]. by apply IH.
  - unfold cas_match at 1. destruct (Z.eqb_spec (s_id x) (s_id s)) as [E|]; [|by apply IH].
    exfalso. apply Hx. rewrite E. apply list_elem_of_fmap. by exists s.
Qed.

Lemma update_session_unique s p d :
  unique d -> s ∈ db_sessions d ->
  update_session (s_id s) (s_version s) p d =
  if i32_max <? s_version s + 1 then problem InternalError else Ok (1, patched s p d).
Proof.
  intros U Hs. unfold update_session. rewrite cas_filter by (apply U || done). cbn [existsb].
  rewrite orb_false_r. by case_if.
Qed.

(** The rows after an update: the patched one, and the others. *)
Lemma elem_of_patched s p d x :
  NoDup (List.map s_id (db_sessions d)) -> s ∈ db_sessions d ->
  x ∈ db_sessions (patched s p d) <->
  x = apply_patch p s \/ (x ∈ db_sessions d /\ x <> s).
Proof.
  intros U Hs. cbn. rewrite list_elem_of_In, in_map_iff. setoid_rewrite <- list_elem_of_In.
  assert (Hm : forall y, y ∈ db_sessions d -> cas_match (s_id s) (s_version s) y = true <-> y = s).
  { intros y Hy. split; [intros Hc|intros ->; unfold cas_match; by rewrite !Z.eqb_refl].
    assert (Hf : y ∈ List.filter (cas_match (s_id s) (s_version s)) (db_sessions d)).
    { apply list_elem_of_In, filter_In. split; [by apply list_elem_of_In|done]. }
    rewrite cas_filter in Hf by done. by apply list_elem_of_singleton in Hf. }
  split.
  - intros (y & Hy & Hin). destruct (cas_match _ _ y) eqn:E.
    + apply Hm in E; [|done]. subst. by left.
    + right. subst. split; [done|]. intros ->. apply not_true_iff_false in E. by apply E, Hm.
  - intros [->|[Hin Hne]]; [exists s|exists x]; rewrite ?(proj2 (Hm _ Hs)) by done; split; try done.
    destruct (cas_match _ _ x) eqn:E; [|done]. by apply Hm in E.
Qed.

Lemma Forall_patched (P : SessionRow -> Prop) s p d :
  (P s -> P (apply_patch p s)) -> NoDup (List.map s_id (db_sessions d)) -> s ∈ db_sessions d ->
  Forall P (db_sessions d) -> Forall P (db_sessions (patched s p d)).
Proof.
  intros Hp U Hs Hd. rewrite Forall_forall in *. intros x [->|[Hx _]]%elem_of_patched; auto.
Qed.
End Rows.

#[export] Hint Resolve patch_wf : relay.

(** A guarded update of a row that was read in the same transaction. *)
Lemma spec_cas_row `{Env} db d0 d now ns ps s p Q :
  unique d0 -> db_sessions d = db_sessions d0 -> s ∈ db_sessions d0 ->
  (fault -> Q (problem InternalError) (at_tx db now ns ps d)) ->
  (i32_max <= s_version s -> Q (problem InternalError) (at_tx db now ns ps d)) ->
  Q (Ok true) (at_tx db now ns ps (patched s p d)) ->
  spec (at_tx db now ns ps d) (cas_update (s_id s) (s_version s) p) Q.
Proof.
  intros U Hd Hs HF HV HQ. apply spec_cas_update; [done|].
  unfold update_session, patched in *. rewrite Hd in *. rewrite cas_filter by (apply U || done).
  cbn [existsb]. rewrite orb_false_r. destruct (Z.ltb_spec i32_max (s_version s + 1)); [|done].
  apply HV. lia.
Qed.

(** ** Registration establishes the invariant *)

Section Registration.
Context `{Base64Laws} `{CryptoLaws} `{JsonTextLaws} `{Env} `{!EnvLaws}.

Lemma trim_nonempty s : trim s <> "" -> 0 < slen s.
Proof. destruct s; [done|]. intros _. unfold slen. cbn [String.length]. lia. Qed.

Lemma new_row_wf state r m n id expires :
  registration_wf r -> authentic r m -> session_of state r m n ->
  env_timestamp_millis (i64_add (reg_exp r) REPLAY_GRACE_MS) = Some expires ->
  row_wf (new_row n id expires).
Proof.
  intros (_ & Hi & He) ([] & [] & _) (nh & nc & rh & ser & -> & _) Ht.
  split; cbn; try done. split; [|apply mv_display]. apply trim_nonempty. apply mv_display.
Qed.
End Registration.
