(* ===== verification/Config.v ===== *)
(** * The configuration (src/src/config.rs)

    [AppConfig::from_env] as a function of the process environment and the file
    system: the secrets, where each is looked for, how it is decoded, and what is
    refused. *)

From S2P Require Import Prelude Errors Constants Utf8 Validation Ip Base64url Crypto CryptoToy Keys.

#[local] Set Warnings "-clear-no-such-hyp".

(** What the process sees: [std::env::var] ([None] when a variable is not set or
    not Unicode), [fs::read] and [Path::exists]. *)
Record Host := {
  env_var : string -> option string;
  read_file : string -> option (list byte);
  file_exists : string -> bool
}.

(** ** std: [SocketAddr] and [i32] as text *)

Record SocketAddr := { sa_ip : IpAddr; sa_scope_id : Z; sa_port : Z }.

Definition read_uint (top : Z) (s : string) : option (Z * string) :=
  read_number 10 (slen s) top true s.

Definition read_port (s : string) : option (Z * string) :=
  match read_given_char ":" s with
  | Some rest => read_uint 65535 rest
  | None => None
  end.

Definition read_scope_id (s : string) : Z * string :=
  match read_given_char "%" s with
  | Some rest => match read_uint (2 ^ 32 - 1) rest with Some (z, rest) => (z, rest) | None => (0, s) end
  | None => (0, s)
  end.

Definition read_socket_addr_v4 (s : string) : option (SocketAddr * string) :=
  match read_ipv4_addr s with
  | Some ((a, b, c, d), rest) =>
      match read_port rest with
      | Some (port, rest) => Some ({| sa_ip := V4 a b c d; sa_scope_id := 0; sa_port := port |}, rest)
      | None => None
      end
  | None => None
  end.

Definition read_socket_addr_v6 (s : string) : option (SocketAddr * string) :=
  match read_given_char "[" s with
  | Some rest =>
      match read_ipv6_addr rest with
      | Some (ip, rest) =>
          let '(scope, rest) := read_scope_id rest in
          match read_given_char "]" rest with
          | Some rest =>
              match read_port rest with
              | Some (port, rest) => Some ({| sa_ip := ip; sa_scope_id := scope; sa_port := port |}, rest)
              | None => None
              end
          | None => None
          end
      | None => None
      end
  | None => None
  end.

(** [str::parse::<SocketAddr>()]. *)
Definition parse_socket_addr (s : string) : option SocketAddr :=
  match (match read_socket_addr_v4 s with Some r => Some r | None => read_socket_addr_v6 s end) with
  | Some (a, "") => Some a
  | _ => None
  end.

(** [str::parse::<i32>()]: a sign, and at least one digit. *)
Definition parse_i32 (s : string) : option Z :=
  let digits (sign : Z) (s : string) :=
    let '(v, n, rest) := read_digits 10 0 0 s in
    if (0 <? n) && String.eqb rest "" && in_i32b (sign * v) then Some (sign * v) else None in
  match s with
  | String c rest =>
      if Ascii.eqb c "+" then digits 1 rest
      else if Ascii.eqb c "-" then digits (-1) rest
      else digits 1 s
  | EmptyString => None
  end.

Example listen_default : parse_socket_addr "0.0.0.0:8080" =
  Some {| sa_ip := V4 0 0 0 0; sa_scope_id := 0; sa_port := 8080 |}.
Proof. reflexivity. Qed.
Example listen_v6 : parse_socket_addr "[::1%7]:443" =
  Some {| sa_ip := V6 0 0 0 0 0 0 0 1; sa_scope_id := 7; sa_port := 443 |}.
Proof. reflexivity. Qed.
Example listen_port_range : parse_socket_addr "127.0.0.1:65536" = None.
Proof. reflexivity. Qed.
Example i32_bounds :
  (parse_i32 "-2147483648", parse_i32 "+7", parse_i32 "2147483648", parse_i32 "-", parse_i32 " 1")
  = (Some i32_min, Some 7, None, None, None).
Proof. reflexivity. Qed.

(** ** AppConfig *)

Record AppConfig := {
  cf_listen : SocketAddr;
  cf_relay_origin : string;
  cf_matrix_homeserver : string;
  cf_matrix_user_id : string;
  cf_matrix_enabled : bool;
  cf_database_url : string;
  cf_crypto_store_path : string;
  cf_data_path : string;
  cf_signing_kid : string;
  cf_subject_key_version : Z;
  cf_signing_key : list byte;
  cf_subject_secret : list byte;
  cf_at_rest : list byte;
  cf_lookup_pepper : list byte;
  cf_matrix_access_token : option string;
  cf_matrix_device_id : option string;
  cf_crypto_passphrase : option string
}.

Section Code.
Context `{Base64} `{Crypto}.
Variable host : Host.

Definition env_bool (name : string) (default : bool) : bool :=
  match env_var host name with
  | Some v => bool_decide (v ∈ ["1"; "true"; "TRUE"; "yes"])
  | None => default
  end.

Definition read_file_bytes (path : string) : result (list byte) :=
  ok_or (read_file host path) InternalError.

Definition read_required_secret (file_var var : string) : result (list byte) :=
  match env_var host file_var with
  | Some path => read_file_bytes path
  | None =>
      match env_var host var with
      | Some value => Ok (as_bytes value)
      | None => problem InternalError
      end
  end.

(** A file read as text and trimmed. *)
Definition read_trimmed (path : string) : result string :=
  let? bytes := read_file_bytes path in
  let? text := ok_or (from_utf8 bytes) InternalError in
  Ok (trim text).

Definition read_optional_secret (file_var var : string) : result (option string) :=
  match (match env_var host file_var with
         | Some path => if file_exists host path then Some path else None
         | None => None
         end) with
  | Some path => let? text := read_trimmed path in Ok (Some text)
  | None => Ok (option_map trim (env_var host var))
  end.

(** [format!("%{b:02X}")]. *)
Definition hex_upper (z : Z) : ascii := if z <? 10 then zc (48 + z) else zc (55 + z).
Definition percent (z : Z) : string :=
  String "%" (String (hex_upper (z / 16)) (String (hex_upper (z mod 16)) EmptyString)).

Definition url_unreserved (c : ascii) : bool :=
  is_upper c || is_lower c || is_digit c || is_hyphen c || Ascii.eqb c "_" || is_dot c
  || Ascii.eqb c "~".

Fixpoint urlencoding (value : string) : string :=
  match value with
  | EmptyString => EmptyString
  | String c rest =>
      (if url_unreserved c then String c EmptyString else percent (cz c)) +:+ urlencoding rest
  end.

Definition database_url : result string :=
  match (match env_var host "DATABASE_URL" with
         | Some url => if is_empty url then None else Some url
         | None => None
         end) with
  | Some url => Ok url
  | None =>
      match (match env_var host "DATABASE_URL_FILE" with
             | Some path => if file_exists host path then Some path else None
             | None => None
             end) with
      | Some path => read_trimmed path
      | None =>
          match env_var host "RELAY_DB_HOST", env_var host "RELAY_DB_NAME",
                env_var host "RELAY_DB_USER", env_var host "RELAY_DB_PASSWORD_FILE" with
          | Some db_host, Some name, Some user, Some password_file =>
              let? password := read_trimmed password_file in
              Ok ("postgres://" +:+ user +:+ ":" +:+ urlencoding password +:+ "@" +:+ db_host
                  +:+ ":5432/" +:+ name)
          | _, _, _, _ => problem InternalError
          end
      end
  end.

Definition normalize_secret_bytes (raw : list byte) : result (list byte) :=
  if blen raw =? 32 then Ok raw
  else
    let? text := ok_or (from_utf8 raw) InvalidRequest in
    match hex_decode (trim text) with
    | Some bytes => if 32 <=? blen bytes then Ok bytes else Ok raw
    | None => Ok raw
    end.

Definition var_or (name fallback : string) : string :=
  match env_var host name with Some v => v | None => fallback end.

Definition from_env : result AppConfig :=
  let? database_url := database_url in
  let? raw := read_required_secret "RELAY_SIGNING_KEY_FILE" "RELAY_SIGNING_KEY" in
  let? signing_key := parse_signing_key raw in
  let? raw := read_required_secret "RELAY_SUBJECT_KEY_FILE" "RELAY_SUBJECT_KEY" in
  let? subject_secret := normalize_secret_bytes raw in
  let? raw := read_required_secret "RELAY_AT_REST_KEY_FILE" "RELAY_AT_REST_KEY" in
  let? at_rest := at_rest_key raw in
  let? raw := read_required_secret "RELAY_LOOKUP_PEPPER_FILE" "RELAY_LOOKUP_PEPPER" in
  let? lookup_pepper := normalize_secret_bytes raw in
  if (blen subject_secret <? 32) || (blen lookup_pepper <? 32) then problem InternalError
  else
    let? listen := ok_or (parse_socket_addr (var_or "LISTEN_ADDR" "0.0.0.0:8080")) InternalError in
    let? matrix_access_token :=
      read_optional_secret "RELAY_MATRIX_ACCESS_TOKEN_FILE" "RELAY_MATRIX_ACCESS_TOKEN" in
    let? matrix_device_id :=
      read_optional_secret "RELAY_MATRIX_DEVICE_ID_FILE" "RELAY_MATRIX_DEVICE_ID" in
    let? crypto_passphrase :=
      read_optional_secret "RELAY_CRYPTO_PASSPHRASE_FILE" "RELAY_CRYPTO_PASSPHRASE" in
    Ok {| cf_listen := listen;
          cf_relay_origin := var_or "RELAY_ORIGIN" RELAY_ORIGIN;
          cf_matrix_homeserver := var_or "MATRIX_HOMESERVER" MATRIX_API;
          cf_matrix_user_id := var_or "MATRIX_USER_ID" MATRIX_USER_ID;
          cf_matrix_enabled := env_bool "MATRIX_ENABLED" true;
          cf_database_url := database_url;
          cf_crypto_store_path := var_or "CRYPTO_STORE_PATH" "./relay/crypto-store";
          cf_data_path := var_or "DATA_PATH" "./relay/data";
          cf_signing_kid := var_or "RELAY_SIGNING_KID" DEFAULT_KID;
          cf_subject_key_version :=
            match env_var host "SUBJECT_KEY_VERSION" with
            | Some v => match parse_i32 v with Some z => z | None => 1 end
            | None => 1
            end;
          cf_signing_key := signing_key; cf_subject_secret := subject_secret;
          cf_at_rest := at_rest; cf_lookup_pepper := lookup_pepper;
          cf_matrix_access_token := matrix_access_token;
          cf_matrix_device_id := matrix_device_id;
          cf_crypto_passphrase := crypto_passphrase |}.
End Code.

(** ** What is accepted *)

(** A result whose error, if it is one, has one of these codes. *)
Definition errs {A} (codes : list ProblemCode) (r : result A) : Prop :=
  match r with
  | Ok _ => True
  | Err e => exists c, c ∈ codes /\ e = Problem c
  end.

Lemma errs_bind {A B} codes (c : result A) (k : A -> result B) :
  errs codes c -> (forall a, c = Ok a -> errs codes (k a)) -> errs codes (rbind c k).
Proof. destruct c; simpl; auto. Qed.
Lemma errs_problem {A} codes c : c ∈ codes -> errs codes (@problem A c).
Proof. intros H. by exists c. Qed.
Lemma errs_ok_or {A} codes (o : option A) c : c ∈ codes -> errs codes (ok_or o c).
Proof. intros H. destruct o; simpl; eauto. Qed.

Section Accepted.
Context `{Base64} `{Crypto}.

#[local] Abbreviation config_errs := (errs [InternalError; InvalidRequest]).

Ltac errs_step :=
  match goal with
  | |- errs _ (Ok _) => exact I
  | |- errs _ (problem _) => apply errs_problem; by_decide
  | |- errs _ (ok_or _ _) => apply errs_ok_or; by_decide
  | |- errs _ (rbind _ _) => apply errs_bind; [|intros ? ?]
  | |- errs _ (if ?b then _ else _) => destruct b
  | |- errs _ (match ?x with _ => _ end) => destruct x
  end.

Lemma errs_secret raw : config_errs (normalize_secret raw).
Proof. unfold normalize_secret. repeat errs_step. Qed.

Lemma errs_from_env host : config_errs (from_env host).
Proof.
  unfold from_env, database_url, read_required_secret, parse_signing_key, at_rest_key, normalize_32,
    normalize_secret_bytes, read_optional_secret, read_trimmed, read_file_bytes.
  repeat (apply errs_secret || errs_step).
Qed.

Lemma in_i32b_true z : in_i32b z = true -> in_i32 z.
Proof. unfold in_i32b, in_i32. intros H'. bool_hyp. lia. Qed.

Lemma parse_i32_range s z : parse_i32 s = Some z -> in_i32 z.
Proof.
  unfold parse_i32. destruct s as [|c s]; [done|].
  assert (Hd : forall sign t, (let '(v, n, rest) := read_digits 10 0 0 t in
    if (0 <? n) && String.eqb rest "" && in_i32b (sign * v) then Some (sign * v) else None) = Some z ->
    in_i32 z).
  { intros sign t. destruct (read_digits _ _ _ t) as [[v n] rest]. case_if; [|done].
    intros [= <-]. bool_hyp. by apply in_i32b_true. }
  repeat case_if; apply Hd.
Qed.

(** The decoded length of a secret of any length. *)
Lemma secret_bytes_cases raw b :
  normalize_secret_bytes raw = Ok b ->
  b = raw \/ (exists text, from_utf8 raw = Some text /\ hex_decode (trim text) = Some b /\ 32 <= blen b).
Proof.
  unfold normalize_secret_bytes. case_if; [intros [= <-]; auto|]. intros Hn. inv_ok Hn.
  destruct (hex_decode (trim a)) as [h|] eqn:E; [|injection Hn as <-; auto].
  revert Hn. case_if; intros [= <-]; [right|auto]. bool_hyp. eauto.
Qed.
End Accepted.

Section Lengths.
Context `{Base64Laws} `{CryptoLaws}.

Lemma config_lengths host c :
  from_env host = Ok c ->
  blen (cf_signing_key c) = 32 /\ blen (cf_at_rest c) = 32 /\ 32 <= blen (cf_subject_secret c) /\
  32 <= blen (cf_lookup_pepper c) /\ in_i32 (cf_subject_key_version c).
Proof.
  intros E. unfold from_env in E. inv_ok E. revert E. case_if; [done|]. intros E. inv_ok E.
  injection E as <-. bool_hyp.
  cbn [cf_signing_key cf_at_rest cf_subject_secret cf_lookup_pepper cf_subject_key_version].
  unfold parse_signing_key, at_rest_key in *. inv_ok Hok1. injection Hok1 as <-.
  inv_ok Hok5. injection Hok5 as <-.
  split_and!; try (by eapply normalize_secret_len); try lia.
  destruct (env_var host "SUBJECT_KEY_VERSION") as [v|]; [|by_decide].
  destruct (parse_i32 v) as [z|] eqn:Ez; [by eapply parse_i32_range|by_decide].
Qed.

(** The subject secret is the secret's bytes, or the bytes it spells. *)
Lemma config_subject host c :
  from_env host = Ok c ->
  exists raw, read_required_secret host "RELAY_SUBJECT_KEY_FILE" "RELAY_SUBJECT_KEY" = Ok raw /\
    (cf_subject_secret c = raw \/ exists text, from_utf8 raw = Some text /\
       hex_decode (trim text) = Some (cf_subject_secret c)).
Proof.
  intros E. unfold from_env in E. inv_ok E. revert E. case_if; [done|]. intros E. inv_ok E.
  injection E as <-. cbn [cf_subject_secret]. eexists. split; [done|].
  apply secret_bytes_cases in Hok3. naive_solver.
Qed.
End Lengths.

(** The inverse of [urlencoding]: percent escapes are read back. *)
Fixpoint url_decode (s : string) : option string :=
  match s with
  | EmptyString => Some EmptyString
  | String c rest =>
      if Ascii.eqb c "%" then
        match rest with
        | String a (String b rest) =>
            match to_digit 16 a, to_digit 16 b with
            | Some x, Some y => String (zc (16 * x + y)) <$> url_decode rest
            | _, _ => None
            end
        | _ => None
        end
      else String c <$> url_decode rest
  end.

Definition url_char (c : ascii) : bool := url_unreserved c || Ascii.eqb c "%".

Lemma escape_char c rest :
  url_decode ((if url_unreserved c then String c EmptyString else percent (cz c)) +:+ rest) =
  String c <$> url_decode rest.
Proof. destruct c as [[] [] [] [] [] [] [] []]; reflexivity. Qed.

Lemma escape_url_char c :
  str_forallb url_char (if url_unreserved c then String c EmptyString else percent (cz c)) = true.
Proof. destruct c as [[] [] [] [] [] [] [] []]; reflexivity. Qed.

(** ** Properties *)

(** The database password survives its way into the URL: percent decoding gives
    the password back, so that different passwords give different URLs, and the
    encoded text holds unreserved characters and escapes only, so that no
    password adds a separator to the URL. *)
Lemma urlencoding_roundtrip password :
  url_decode (urlencoding password) = Some password /\
  str_forallb url_char (urlencoding password) = true.
Proof.
  induction password as [|c s [IH1 IH2]]; [done|]. cbn [urlencoding]. split.
  - by rewrite escape_char, IH1.
  - by rewrite str_forallb_app, escape_url_char.
Qed.

(** An accepted configuration has keys the relay can work with: a signing seed
    and an at-rest key of 32 bytes, a subject secret and a pepper of at least 32
    that are the bytes of their secrets or the bytes these spell in hexadecimal,
    and a key version in range; a refused one is an internal error or an invalid
    request, never anything else. *)
Lemma config_sound `{Base64Laws} `{CryptoLaws} host :
  match from_env host with
  | Ok c =>
      blen (cf_signing_key c) = 32 /\ blen (cf_at_rest c) = 32 /\ 32 <= blen (cf_subject_secret c) /\
      32 <= blen (cf_lookup_pepper c) /\ in_i32 (cf_subject_key_version c) /\
      (exists raw, read_required_secret host "RELAY_SUBJECT_KEY_FILE" "RELAY_SUBJECT_KEY" = Ok raw /\
         (cf_subject_secret c = raw \/ exists text, from_utf8 raw = Some text /\
            hex_decode (trim text) = Some (cf_subject_secret c)))
  | Err e => e = Problem InternalError \/ e = Problem InvalidRequest
  end.
Proof.
  pose proof (errs_from_env host) as He. destruct (from_env host) as [c|e] eqn:E.
  - pose proof (config_lengths host c E) as (? & ? & ? & ? & ?). split_and!; try done.
    by apply config_subject.
  - destruct He as (c & Hc & ->). apply list_elem_of_In in Hc. cbn in Hc. naive_solver.
Qed.

(** ** Witness *)

Import Rfc4648 Toy.

(** A host with every secret in its variable, the pepper in hexadecimal. *)
Definition sample_host : Host := {|
  env_var name :=
    if String.eqb name "DATABASE_URL" then Some "postgres://relay@db/relay"
    else if bool_decide (name ∈ ["RELAY_SIGNING_KEY"; "RELAY_AT_REST_KEY"; "RELAY_SUBJECT_KEY"]) then
      Some "0123456789abcdef0123456789abcdef"
    else if String.eqb name "RELAY_LOOKUP_PEPPER" then
      Some " 000102030405060708090a0b0c0d0e0f101112131415161718191a1b1c1d1e1f "
    else if String.eqb name "SUBJECT_KEY_VERSION" then Some "3"
    else None;
  read_file _ := None;
  file_exists _ := false
|}.

Lemma config_sound_witness : exists c,
  from_env sample_host = Ok c /\ blen (cf_signing_key c) = 32 /\ 32 <= blen (cf_lookup_pepper c).
Proof.
  pose proof (config_sound sample_host) as Hc.
  destruct (from_env sample_host) as [c|e] eqn:E; [|vm_compute in E; discriminate E].
  destruct Hc as (H1 & _ & _ & H2 & _). exact (ex_intro _ c (conj eq_refl (conj H1 H2))).
Defined.

Example sample_config :
  (match from_env sample_host with
   | Ok c => Some (cf_subject_key_version c, cf_matrix_enabled c, blen (cf_lookup_pepper c))
   | Err _ => None
   end) = Some (3, true, 32).
Proof. vm_compute. reflexivity. Qed.

(** Nothing set: refused. *)
Example no_config :
  from_env {| env_var _ := None; read_file _ := None; file_exists _ := false |} =
  problem InternalError.
Proof. reflexivity. Qed.
