(* ===== verification/Startup.v ===== *)
(** * Starting the relay (src/src/lib.rs, src/src/db/mod.rs, src/src/matrix/client.rs)

    [run] up to the moment the server listens: the configuration, the connection
    with its migrations, the advisory lock of the leader, the Matrix runtime, and
    the state the handlers get.  Every call that leaves the process is an answer
    of the record [Surroundings]. *)

From S2P Require Import Prelude Errors Constants Utf8 Validation Ip Base64url Json Crypto.
From S2P Require Import CryptoToy Keys Metadata Ssrf Site Tables Statements World Http Rows Config.

#[local] Set Warnings "-clear-no-such-hyp".

(** ** db/mod.rs: the migrations *)

(** The part of the database schema the migrations look at: the rows of
    [schema_migrations], when that table exists, and whether the tables of
    0001_init.sql exist. *)
Record Schema := { sc_versions : option (list string); sc_tables : bool }.

#[export] Instance Schema_eq_dec : EqDecision Schema.
Proof. solve_decision. Defined.

Definition fresh : Schema := {| sc_versions := None; sc_tables := false |}.

Definition INIT : string := "0001_init".

Definition recorded (s : Schema) : bool :=
  match sc_versions s with Some vs => bool_decide (INIT ∈ vs) | None => false end.

(** [CREATE TABLE IF NOT EXISTS schema_migrations]. *)
Definition create_versions (s : Schema) : option Schema :=
  Some match sc_versions s with
       | Some _ => s
       | None => {| sc_versions := Some []; sc_tables := sc_tables s |}
       end.

(** 0001_init.sql, whose [CREATE TABLE]s do not say [IF NOT EXISTS]; a batch is one
    implicit transaction. *)
Definition create_tables (s : Schema) : option Schema :=
  if sc_tables s then None else Some {| sc_versions := sc_versions s; sc_tables := true |}.

(** [INSERT INTO schema_migrations], with its primary key. *)
Definition insert_version (s : Schema) : option Schema :=
  match sc_versions s with
  | Some vs =>
      if bool_decide (INIT ∈ vs) then None
      else Some {| sc_versions := Some (vs ++ [INIT]); sc_tables := sc_tables s |}
  | None => None
  end.

(** A statement the server may refuse, and whose answer may be lost. *)
Definition ddl (outcome : IoOutcome) (f : Schema -> option Schema) (s : Schema)
  : result unit * Schema :=
  match f s, outcome with
  | Some s', IoOk => (Ok tt, s')
  | Some s', IoAmbiguous => (problem InternalError, s')
  | _, _ => (problem InternalError, s)
  end.

(** What becomes of the calls of one run. *)
Record MigrationIo := {
  mg_pool : bool;
  mg_versions : IoOutcome;
  mg_query : bool;
  mg_init : IoOutcome;
  mg_insert : IoOutcome
}.

Definition run_migrations (io : MigrationIo) (s : Schema) : result unit * Schema :=
  if negb (mg_pool io) then (problem InternalError, s)
  else
    match ddl (mg_versions io) create_versions s with
    | (Err e, s) => (Err e, s)
    | (Ok _, s) =>
        if negb (mg_query io) then (problem InternalError, s)
        else if recorded s then (Ok tt, s)
        else
          match ddl (mg_init io) create_tables s with
          | (Err e, s) => (Err e, s)
          | (Ok _, s) => ddl (mg_insert io) insert_version s
          end
    end.

(** ** The rest of the process's surroundings *)

Record Surroundings := {
  su_host : Host;
  (** [tokio_postgres::Config] parses the URL, and the pool is built. *)
  su_url_parses : string -> bool;
  su_pool_builds : bool;
  su_migration : MigrationIo;
  (** [pg_try_advisory_lock] on a connection, [None] when the call fails. *)
  su_advisory_lock : Z -> option bool;
  (** [create_dir_all], [File::create] and [try_lock_exclusive] under a path. *)
  su_create_dir : string -> bool;
  su_create_lock : string -> bool;
  su_try_lock : string -> bool;
  (** matrix_sdk: building the client, a user id as text, restoring the session. *)
  su_build_client : string -> string -> string -> unit + string;
  su_user_id : string -> bool;
  su_restore : string -> string -> string -> unit + string;
  (** [SystemClock], a thread, and the listening socket. *)
  su_now : Z;
  su_thread : bool;
  su_bind : SocketAddr -> bool
}.

Definition guard (b : bool) (c : ProblemCode) : result unit := if b then Ok tt else problem c.
Definition sdk_call (r : unit + string) : result unit :=
  match r with inl _ => Ok tt | inr m => Err (Internal m) end.

Section Code.
Context `{Base64} `{Crypto}.
Variable su : Surroundings.

(** [db::connect]. *)
Definition connect (url : string) (s : Schema) : result unit * Schema :=
  if negb (su_url_parses su url) then (problem InternalError, s)
  else if negb (su_pool_builds su) then (problem InternalError, s)
  else run_migrations (su_migration su) s.

Definition try_advisory_lock (key : Z) : result bool := ok_or (su_advisory_lock su key) InternalError.

(** [lock_crypto_store]. *)
Definition lock_crypto_store (path : string) : result unit :=
  guard (su_create_dir su path) InternalError ;?
  guard (su_create_lock su path) InternalError ;?
  guard (su_try_lock su path) RelayUnavailable.

(** [MatrixRuntime::start]. *)
Definition start_matrix (config : AppConfig) : result unit :=
  lock_crypto_store (cf_crypto_store_path config) ;?
  let? passphrase := ok_or (cf_crypto_passphrase config) InternalError in
  let? access_token := ok_or (cf_matrix_access_token config) InternalError in
  let? device_id := ok_or (cf_matrix_device_id config) InternalError in
  sdk_call (su_build_client su (cf_matrix_homeserver config) (cf_crypto_store_path config) passphrase) ;?
  guard (su_user_id su (cf_matrix_user_id config)) InternalError ;?
  sdk_call (su_restore su (cf_matrix_user_id config) device_id access_token).

Definition app_state (config : AppConfig) : AppState := {|
  st_at_rest := cf_at_rest config; st_lookup_pepper := cf_lookup_pepper config;
  st_subject_secret := cf_subject_secret config;
  st_subject_key_version := cf_subject_key_version config;
  st_signing_key := cf_signing_key config; st_signing_kid := cf_signing_kid config;
  st_relay_user_id := cf_matrix_user_id config |}.

(** The flags the health check reads, before the first sync. *)
Definition sync_flags (config : AppConfig) : bool * Z :=
  (negb (cf_matrix_enabled config), if cf_matrix_enabled config then 0 else su_now su).

(** [run] up to [axum::serve], in the default build (feature [matrix]): the state
    and the flags the tasks start from. *)
Definition run (s : Schema) : result (AppState * (bool * Z)) * Schema :=
  match from_env (su_host su) with
  | Err e => (Err e, s)
  | Ok config =>
      let '(connected, s) := connect (cf_database_url config) s in
      (map_err connected RelayUnavailable ;?
       (if cf_matrix_enabled config then
          let? leader := map_err (try_advisory_lock ADVISORY_LOCK_KEY) RelayUnavailable in
          guard leader RelayUnavailable
        else Ok tt) ;?
       (if cf_matrix_enabled config then start_matrix config else Ok tt) ;?
       (if cf_matrix_enabled config then guard (su_thread su) RelayUnavailable else Ok tt) ;?
       guard (su_bind su (cf_listen config)) RelayUnavailable ;?
       Ok (app_state config, sync_flags config), s)
  end.
End Code.

(** ** The schema through runs of the migrations *)

(** The version is recorded after the tables were made. *)
Definition schema_ok (s : Schema) : Prop := recorded s = true -> sc_tables s = true.
Definition migrated (s : Schema) : Prop := recorded s = true /\ sc_tables s = true.
(** The tables are there and the record of them is not. *)
Definition half_migrated (s : Schema) : Prop := recorded s = false /\ sc_tables s = true.

Definition smooth (io : MigrationIo) : Prop :=
  mg_pool io = true /\ mg_versions io = IoOk /\ mg_query io = true /\ mg_init io = IoOk /\
  mg_insert io = IoOk.

(** The three statements of a run. *)
Lemma create_versions_spec s : exists s1,
  create_versions s = Some s1 /\ recorded s1 = recorded s /\ sc_tables s1 = sc_tables s /\
  is_Some (sc_versions s1) /\ (recorded s = true -> s1 = s).
Proof. unfold create_versions, recorded. destruct s as [[vs|] t]; cbn; eexists; split_and!; eauto; done. Qed.

Lemma insert_version_spec s :
  recorded s = false -> is_Some (sc_versions s) ->
  exists s1, insert_version s = Some s1 /\ recorded s1 = true /\ sc_tables s1 = sc_tables s.
Proof.
  unfold recorded, insert_version. destruct s as [[vs|] t]; cbn; [|by intros _ []]. intros -> _.
  eexists. split; [done|]. split; [|done]. cbn. apply bool_decide_eq_true, list_elem_of_In, in_or_app.
  right. by left.
Qed.

Lemma create_tables_spec s :
  create_tables s = None /\ sc_tables s = true \/
  sc_tables s = false /\ exists s1, create_tables s = Some s1 /\ sc_tables s1 = true /\
    recorded s1 = recorded s /\ sc_versions s1 = sc_versions s.
Proof. unfold create_tables. destruct s as [vs []]; cbn; [by left|right]. eauto 6. Qed.

Lemma run_migrations_Ok io s s' :
  schema_ok s -> run_migrations io s = (Ok tt, s') -> migrated s'.
Proof.
  unfold run_migrations, ddl, schema_ok, migrated. intros Hs. case_if; [done|].
  destruct (create_versions_spec s) as (s1 & -> & R1 & T1 & V1 & E1).
  destruct (mg_versions io); [|done..]. case_if; [done|]. rewrite R1.
  destruct (recorded s) eqn:R; [intros [= <-]; rewrite (E1 eq_refl); auto|].
  destruct (create_tables_spec s1) as [[-> T]|(T & s2 & -> & T2 & R2 & V2)]; [done|].
  rewrite R1 in R2. rewrite <- V2 in V1.
  destruct (insert_version_spec s2 R2 V1) as (s3 & E3 & R3 & T3).
  destruct (mg_init io); [|done..]. rewrite E3. destruct (mg_insert io); [|done..].
  intros [= <-]. by rewrite T3.
Qed.

Ltac flags := intros; destruct_and?; split_and?; (congruence || done || auto).
Ltac ddl_step := cbn -[create_versions create_tables insert_version recorded].

(** C37: A run of the migrations that succeeds leaves the tables made and recorded;
    on a migrated schema it changes nothing, whatever fails, and succeeds when
    nothing does; from a schema without tables it succeeds when nothing fails;
    but a schema whose tables were made by a run that then failed to record them
    is refused by every later run, which leaves it so. *)
Theorem migrations_exact io s :
  schema_ok s ->
  let r := fst (run_migrations io s) in
  let s' := snd (run_migrations io s) in
  schema_ok s' /\
  (r = Ok tt -> migrated s') /\
  (migrated s -> s' = s /\ (smooth io -> r = Ok tt)) /\
  (sc_tables s = false -> smooth io -> r = Ok tt) /\
  (half_migrated s -> r = problem InternalError /\ half_migrated s').
Proof.
  intros Hs. destruct io as [pool ov query oi on]. unfold run_migrations, ddl, migrated, half_migrated,
    smooth, schema_ok in *. ddl_step.
  destruct (create_versions_spec s) as (s1 & -> & R1 & T1 & V1 & E1).
  destruct pool; ddl_step; [|naive_solver].
  destruct ov; ddl_step; [|naive_solver..].
  destruct query; ddl_step; [|naive_solver]. rewrite R1. destruct (recorded s) eqn:R; ddl_step.
  { specialize (E1 eq_refl) as ->. split_and!; flags. }
  destruct (create_tables_spec s1) as [[-> T]|(T & s2 & -> & T2 & R2 & V2)]; ddl_step.
  { split_and!; flags. }
  rewrite R1 in R2. rewrite <- V2 in V1.
  destruct (insert_version_spec s2 R2 V1) as (s3 & E3 & R3 & T3).
  destruct oi, on; ddl_step; rewrite ?E3; ddl_step; split_and!; flags.
Qed.

(** ** What a started relay has *)

Section Started.
Context `{Base64} `{Crypto}.

Lemma guard_Ok b c : guard b c = Ok tt <-> b = true.
Proof. by destruct b. Qed.

Lemma app_state_wf host config :
  from_env host = Ok config ->
  blen (cf_signing_key config) = 32 /\ blen (cf_at_rest config) = 32 /\
  32 <= blen (cf_subject_secret config) /\ in_i32 (cf_subject_key_version config) ->
  validate_kid (cf_signing_kid config) = Ok tt -> state_wf (app_state config).
Proof. intros _ (H1 & H2 & H3 & H4) Hk%validate_kid_Ok. by split. Qed.

(** The lock on the crypto store and the three credentials. *)
Lemma start_matrix_Ok su config :
  start_matrix su config = Ok tt ->
  su_try_lock su (cf_crypto_store_path config) = true /\ is_Some (cf_crypto_passphrase config) /\
  is_Some (cf_matrix_access_token config) /\ is_Some (cf_matrix_device_id config) /\
  su_user_id su (cf_matrix_user_id config) = true.
Proof.
  unfold start_matrix, lock_crypto_store. intros Hm. inv_ok Hm. inv_ok Hok.
  repeat match goal with H : guard _ _ = Ok ?u |- _ => destruct u; apply guard_Ok in H end.
  split_and!; try done; by eexists.
Qed.

(** Without the Matrix client nothing ever renews the time of the last sync. *)
Lemma unready_without_matrix su config now :
  cf_matrix_enabled config = false -> in_i64 now -> su_now su + MATRIX_SYNC_STALE_MS < now ->
  matrix_sync_is_fresh now (snd (sync_flags su config)) (fst (sync_flags su config)) = false.
Proof.
  unfold sync_flags, matrix_sync_is_fresh, saturating_sub, clamp64, in_i64, i64_min, i64_max. intros -> Hn Hl. cbn.
  unfold MATRIX_SYNC_STALE_MS in *. apply andb_false_iff. destruct (Z.ltb_spec 0 (su_now su)); [right|by left].
  apply Z.leb_gt. lia.
Qed.
End Started.

(** ** Properties of startup *)

(** C33: A relay that starts runs on a migrated schema with the configuration's keys,
    and, when the key id is one that signing accepts, with a state the handlers'
    theorems ask for; with the Matrix client enabled it holds the advisory lock
    and the lock of the crypto store, has all three credentials, and is not ready
    before its first sync; without it, it is ready at once and for no longer than
    120000 ms. *)
Theorem startup_sound `{Base64Laws} `{CryptoLaws} su s state ready last s' :
  schema_ok s -> run su s = (Ok (state, (ready, last)), s') ->
  migrated s' /\
  (validate_kid (st_signing_kid state) = Ok tt -> state_wf state) /\
  exists config, from_env (su_host su) = Ok config /\ state = app_state config /\
    (cf_matrix_enabled config = true ->
       su_advisory_lock su ADVISORY_LOCK_KEY = Some true /\
       su_try_lock su (cf_crypto_store_path config) = true /\ is_Some (cf_crypto_passphrase config) /\
       is_Some (cf_matrix_access_token config) /\ is_Some (cf_matrix_device_id config) /\
       forall now, matrix_sync_is_fresh now last ready = false) /\
    (cf_matrix_enabled config = false -> 0 < su_now su ->
       forall now, in_i64 now -> su_now su <= now ->
       (matrix_sync_is_fresh now last ready = true <-> now <= su_now su + MATRIX_SYNC_STALE_MS)).
Proof.
  intros Hs. unfold run. destruct (from_env (su_host su)) as [config|e] eqn:Ec; [|done].
  destruct (connect su (cf_database_url config) s) as [connected s1] eqn:Ed. intros [= Hr <-].
  inv_ok Hr. injection Hr as <- <- <-. destruct a. split; [|split].
  - unfold connect in Ed. repeat (case_if_in Ed; [injection Ed as <- <-; done|]).
    subst. by eapply run_migrations_Ok.
  - intros Hk. destruct (config_lengths _ _ Ec) as (? & ? & ? & _ & ?).
    by apply (app_state_wf (su_host su)).
  - exists config. split; [done|]. split; [done|].
    destruct (cf_matrix_enabled config) eqn:Em; [split; [intros _|done]|split; [done|intros _]].
    + inv_ok Hok0. unfold try_advisory_lock in Hok4. apply ok_or_Ok in Hok4.
      destruct a0, a1, a. 2: { by apply guard_Ok in Hok0. }
      apply start_matrix_Ok in Hok1 as (? & ? & ? & ? & _). by split_and!.
    + intros Hp now Hn Hl. unfold matrix_sync_is_fresh, saturating_sub, clamp64, in_i64, i64_min, i64_max in *.
      cbn. rewrite andb_true_iff, Z.ltb_lt, Z.leb_le. lia.
Qed.

(** ** Witnesses *)

Import Rfc4648 Toy.

(** The sample host of Config.v with the credentials, and nothing failing. *)
Definition sample_surroundings : Surroundings := {|
  su_host := {|
    env_var name :=
      if bool_decide (name ∈ ["RELAY_MATRIX_ACCESS_TOKEN"; "RELAY_MATRIX_DEVICE_ID";
                              "RELAY_CRYPTO_PASSPHRASE"]) then Some " credential "
      else env_var sample_host name;
    read_file := read_file sample_host; file_exists := file_exists sample_host |};
  su_url_parses _ := true; su_pool_builds := true;
  su_migration := {| mg_pool := true; mg_versions := IoOk; mg_query := true; mg_init := IoOk;
                     mg_insert := IoOk |};
  su_advisory_lock _ := Some true;
  su_create_dir _ := true; su_create_lock _ := true; su_try_lock _ := true;
  su_build_client _ _ _ := inl tt; su_user_id _ := true; su_restore _ _ _ := inl tt;
  su_now := 1800000000000; su_thread := true; su_bind _ := true
|}.

Lemma migrations_exact_witness :
  run_migrations (su_migration sample_surroundings) fresh =
    (Ok tt, {| sc_versions := Some [INIT]; sc_tables := true |}) /\
  migrated (snd (run_migrations (su_migration sample_surroundings) fresh)).
Proof.
  assert (Hf : schema_ok fresh) by done.
  pose proof (migrations_exact (su_migration sample_surroundings) fresh Hf) as (_ & Hm & _).
  split; [reflexivity|]. apply Hm. reflexivity.
Defined.

Lemma startup_sound_witness : exists state,
  run sample_surroundings fresh =
    (Ok (state, (false, 0)), {| sc_versions := Some [INIT]; sc_tables := true |}) /\
  state_wf state.
Proof.
  destruct (run sample_surroundings fresh) as [[[state [ready last]]|e] s'] eqn:E;
    [|vm_compute in E; discriminate E].
  assert (Hf : schema_ok fresh) by done.
  destruct (startup_sound sample_surroundings fresh state ready last s' Hf E) as (_ & Hk & _).
  vm_compute in E. injection E as <- <- <- <-. eexists. split; [reflexivity|].
  apply Hk. vm_compute. reflexivity.
Defined.

(** The answer to the last statement of the first run is lost: from then on no run
    of the migrations succeeds. *)
Example lost_record_wedges : forall io,
  let lost := {| mg_pool := true; mg_versions := IoOk; mg_query := true; mg_init := IoOk;
                 mg_insert := IoLost |} in
  fst (run_migrations io (snd (run_migrations lost fresh))) = problem InternalError.
Proof. by intros [[] [] [] [] []]. Qed.

(** The configuration takes any key id, and with one that signing refuses no
    assertion is ever made. *)
Definition bad_kid_host : Host := {|
  env_var name :=
    if String.eqb name "RELAY_SIGNING_KID" then Some "relay key 1"
    else env_var (su_host sample_surroundings) name;
  read_file := read_file sample_host; file_exists := file_exists sample_host |}.

Example kid_not_checked :
  (match from_env bad_kid_host with
   | Ok c => Some (cf_signing_kid c, is_ok (validate_kid (cf_signing_kid c)))
   | Err _ => None
   end) = Some ("relay key 1", false).
Proof. vm_compute. reflexivity. Qed.
