(* ===== verification/LoginSpec.v ===== *)
(** * What the login handlers do

    The specification of each handler of [Login], on every branch: what it
    requires of the tables, what it leaves in them, what it sends, and the errors
    it can end in. *)

From S2P Require Import Prelude Errors Constants Utf8 Validation Base64url Json Jcs Strict.
From S2P Require Import Crypto Keys Wire Metadata Registration Assertion Revocation Matrix.
From S2P Require Import RoomPolicy Documents Ssrf Site Tables Statements World Spec Db Register Login.
From S2P Require Import Invariant Rows.

#[local] Set Warnings "-clear-no-such-hyp".

(** The moment up to which the events of a session are remembered. *)
Definition keep_until `{Env} (s : SessionRow) : Z := s_expires_at s.

Section Spec.
Context `{Base64Laws} `{CryptoLaws} `{JsonTextLaws} `{JsonReader} `{Env} `{!EnvLaws}.
Variable state : AppState.

Definition hash (text : string) (h : list byte) : Prop :=
  keyed_hash (st_lookup_pepper state) (as_bytes text) = Ok h.

Lemma hash_total text : exists h, keyed_hash (st_lookup_pepper state) (as_bytes text) = Ok h /\ hash text h.
Proof.
  destruct (keyed_hash_total (st_lookup_pepper state) (as_bytes text)) as (h & Hh & _).
  exists h. split; done.
Qed.

(** A text is sealed in a column. *)
Definition sealed (text : string) (ct : list byte) : Prop :=
  decrypt (st_at_rest state) ct = Ok (as_bytes text).

(** Texts of more than 64 KiB are beyond what the cipher is known to take. *)
Definition oversize (text : string) : Prop := 65536 < slen text.

Lemma spec_seal o text Q :
  state_wf state ->
  (oversize text -> Q (problem InternalError) o) -> (forall ct, sealed text ct -> Q (Ok ct) o) ->
  spec o (at_rest_encrypt state (as_bytes text)) Q.
Proof.
  intros Hs HO HQ. apply spec_at_rest_encrypt. intros n.
  destruct (encrypt _ _ _) as [ct|e] eqn:E; [by eapply HQ, at_rest_decrypt|].
  destruct (Z.le_gt_cases (slen text) 65536) as [Hl|Hl].
  - destruct (encrypt_total (st_at_rest state) (env_rand n 12) (as_bytes text)) as [ct Hct];
      [unfold blen; by rewrite env_rand_len|by rewrite blen_as_bytes|apply Hs|congruence].
  - unfold encrypt in E. destruct (aes_encrypt _ _ _); [done|]. injection E as <-. by apply HO.
Qed.

Lemma decrypt_err key b e : decrypt key b = Err e -> e = Problem InternalError.
Proof. unfold decrypt. case_if; [by intros [= <-]|]. destruct (aes_decrypt _ _ _); by intros [= <-]. Qed.

(** Opening a column that holds a text. *)
Lemma spec_open_text {A} o ct (k : string -> M A) Q :
  (open_text state (Some ct) = None -> Q (problem InternalError) o) ->
  (forall text, open_text state (Some ct) = Some text -> spec o (k text) Q) ->
  spec o (let! b := lift (decrypt (st_at_rest state) ct) in
          let! text := lift (ok_or (from_utf8 b) InternalError) in k text) Q.
Proof.
  unfold open_text. intros HN HQ. do 2 spec_step.
  destruct (decrypt _ ct) as [b|e] eqn:E; [|apply decrypt_err in E as ->; by apply HN].
  do 2 spec_step. destruct (from_utf8 b); [by apply HQ|by apply HN].
Qed.

Lemma spec_keep o s Q :
  row_wf s -> Q (Ok (s_expires_at s)) o ->
  spec o (lift (millis_to_utc (i64_add (s_exp s) REPLAY_GRACE_MS))) Q.
Proof. intros Hs HQ. apply spec_lift. unfold millis_to_utc. by rewrite (rw_keep s Hs). Qed.

Lemma token_over n : over cls_id 22 22 (Base64url.encode (env_rand n 16)).
Proof. eapply encode_over; [unfold blen; by rewrite env_rand_len|done]. Qed.

Lemma matching_spec domain sid nh s :
  matching domain sid nh s = true <-> s_domain s = domain /\ s_session_id s = sid /\ s_nonce_hash s = nh.
Proof.
  unfold matching, by_session. rewrite !andb_true_iff, !String.eqb_eq, bool_decide_eq_true. tauto.
Qed.

Lemma by_nonce_spec sid nh s :
  by_session_and_nonce sid nh s = true <-> s_session_id s = sid /\ s_nonce_hash s = nh.
Proof. unfold by_session_and_nonce. by rewrite andb_true_iff, String.eqb_eq, bool_decide_eq_true. Qed.

Lemma grant_match_spec domain h g :
  grant_match domain h g = true <-> g_domain g = domain /\ g_subject_hash g = h.
Proof. unfold grant_match. by rewrite andb_true_iff, String.eqb_eq, bool_decide_eq_true. Qed.


(** The three outcomes of a query. *)
Lemma query_cases {A} (p : A -> bool) l :
  NoDup l ->
  match query_opt (List.filter p l) with
  | Ok (Some s) => s ∈ l /\ p s = true /\ forall s', s' ∈ l -> p s' = true -> s' = s
  | Ok None => forall s, s ∈ l -> p s = false
  | Err e => e = Problem InternalError /\
      exists s s', s ∈ l /\ s' ∈ l /\ s <> s' /\ p s = true /\ p s' = true
  end.
Proof.
  intros Hl. assert (Hin : forall x, x ∈ List.filter p l <-> x ∈ l /\ p x = true).
  { intros x. by rewrite list_elem_of_In, filter_In, <- list_elem_of_In. }
  assert (Hd : NoDup (List.filter p l)) by by apply NoDup_ListNoDup, List.NoDup_filter, NoDup_ListNoDup.
  destruct (List.filter p l) as [|x [|y r]]; cbn.
  - intros s Hs. destruct (p s) eqn:E; [|done]. by destruct (not_elem_of_nil s); apply Hin.
  - destruct (proj1 (Hin x)) as [? ?]; [left|]. split_and!; [done..|]. intros y Hy Hp.
    by apply list_elem_of_singleton, Hin.
  - split; [done|]. exists x, y. apply NoDup_cons in Hd as [Hx _].
    destruct (proj1 (Hin x)) as [? ?]; [left|]. destruct (proj1 (Hin y)) as [? ?]; [right; left|].
    repeat split; try done. intros ->. apply Hx. left.
Qed.


(** A query on a key has no third outcome. *)
Lemma query_key {A B} (key : A -> B) (p : A -> bool) l :
  NoDup (List.map key l) -> (forall x y, p x = true -> p y = true -> key x = key y) ->
  match query_opt (List.filter p l) with
  | Ok (Some s) => s ∈ l /\ p s = true
  | Ok None => forall s, s ∈ l -> p s = false
  | Err e => False
  end.
Proof.
  intros Hk Hp. pose proof (query_cases p l (NoDup_fmap_1 key l Hk)) as Hq.
  destruct (query_opt _) as [[s|]|e]; [tauto|done|].
  destruct Hq as (_ & x & y & Hx & Hy & Hne & Hpx & Hpy). apply Hne, (key_inj key l); auto.
Qed.

Lemma unique_nodup d : unique d -> NoDup (db_sessions d).
Proof. intros U. eapply NoDup_fmap_1. apply U. Qed.

(** ** Looking up sessions and grants *)

(** The session a consent or a revocation names, by its id and nonce alone. *)
Definition session_named (sid nonce : string) (d : Db) (s : SessionRow) : Prop :=
  s ∈ db_sessions d /\ s_session_id s = sid /\ hash nonce (s_nonce_hash s).

Section Lookups.
Variables (db d : Db) (now : Z) (ns : list OutboundNotice) (ps : list SitePost).
Hypothesis Hd : db_wf d.

(** The session of a domain, an id and the hash of a nonce. *)
Lemma spec_get_matching domain sid nh Q :
  (fault -> Q (problem InternalError) (at_tx db now ns ps d)) ->
  ((forall s, ~ (s ∈ db_sessions d /\ matching domain sid nh s = true)) ->
     Q (Ok None) (at_tx db now ns ps d)) ->
  (forall s, s ∈ db_sessions d -> matching domain sid nh s = true ->
     (forall s', s' ∈ db_sessions d -> matching domain sid nh s' = true -> s' = s) ->
     Q (Ok (Some s)) (at_tx db now ns ps d)) ->
  spec (at_tx db now ns ps d) (get_matching domain sid nh) Q.
Proof.
  intros HF HN HS. apply spec_select; [done|].
  assert (Hk : forall x y, matching domain sid nh x = true -> matching domain sid nh y = true ->
    session_key x = session_key y).
  { intros x y (? & ? & ?)%matching_spec (? & ? & ?)%matching_spec. unfold session_key. congruence. }
  pose proof (query_key session_key _ (db_sessions d) (u_session_key _ (proj1 Hd)) Hk) as Hq.
  destruct (query_opt _) as [[s|]|e]; [| |done].
  - destruct Hq as [Hs Hm]. apply HS; [done..|]. intros s' Hs' Hm'.
    apply (key_inj session_key (db_sessions d)); [apply Hd|done..|by apply Hk].
  - apply HN. intros s (Hs & Hm). by rewrite Hq in Hm.
Qed.

Lemma spec_matching domain sid nonce nh Q :
  hash nonce nh -> (fault -> Q (problem InternalError) (at_tx db now ns ps d)) ->
  ((forall s, ~ (session_named sid nonce d s /\ s_domain s = domain)) ->
     Q (Ok None) (at_tx db now ns ps d)) ->
  (forall s, session_named sid nonce d s -> s_domain s = domain -> row_wf s -> nh = s_nonce_hash s ->
     (forall s', session_named sid nonce d s' -> s_domain s' = domain -> s' = s) ->
     Q (Ok (Some s)) (at_tx db now ns ps d)) ->
  spec (at_tx db now ns ps d) (get_matching domain sid nh) Q.
Proof.
  intros Hh HF HN HS.
  assert (Hm : forall s, s ∈ db_sessions d /\ matching domain sid nh s = true <->
    session_named sid nonce d s /\ s_domain s = domain).
  { intros s. rewrite matching_spec. unfold session_named, hash in *. intuition congruence. }
  apply spec_get_matching; [done|intros Hn; apply HN; intros s Hs%Hm; by apply (Hn s)|].
  intros s Hs Hp Honly. destruct (proj1 (Hm s)) as [? ?]; [done|].
  apply HS; [done|done|by eapply db_wf_row|by apply matching_spec in Hp as (_ & _ & ->)|].
  intros s' ??. destruct (proj2 (Hm s')); [done|]. by apply Honly.
Qed.

Lemma spec_by_nonce sid nonce nh Q :
  hash nonce nh -> (fault -> Q (problem InternalError) (at_tx db now ns ps d)) ->
  (forall s s', session_named sid nonce d s -> session_named sid nonce d s' -> s <> s' ->
     Q (problem InternalError) (at_tx db now ns ps d)) ->
  ((forall s, ~ session_named sid nonce d s) -> Q (Ok None) (at_tx db now ns ps d)) ->
  (forall s, session_named sid nonce d s -> row_wf s -> nh = s_nonce_hash s ->
     (forall s', session_named sid nonce d s' -> s' = s) -> Q (Ok (Some s)) (at_tx db now ns ps d)) ->
  spec (at_tx db now ns ps d) (get_by_session_and_nonce sid nh) Q.
Proof.
  intros Hh HF HA HN HS. apply spec_select; [done|].
  assert (Hses : forall s, s ∈ db_sessions d ->
    by_session_and_nonce sid nh s = true <-> session_named sid nonce d s).
  { intros s Hs. rewrite by_nonce_spec. unfold session_named, hash in *. intuition congruence. }
  pose proof (query_cases (by_session_and_nonce sid nh) _ (unique_nodup d (proj1 Hd))) as Hq.
  destruct (query_opt _) as [[s|]|e].
  - destruct Hq as (Hin & Hs & Honly). apply HS; [by apply Hses|by eapply db_wf_row| |].
    + by apply by_nonce_spec in Hs as [_ ->].
    + intros s' Hs'. apply Honly; [apply Hs'|]. apply Hses; [apply Hs'|done].
  - apply HN. intros s Hs. specialize (Hq s (proj1 Hs)). apply Hses in Hs; [congruence|apply Hs].
  - destruct Hq as (-> & s & s' & Hs & Hs' & Hne & Hp & Hp').
    apply (HA s s'); [by apply Hses..|done].
Qed.

Lemma spec_grant domain account ah Q :
  hash account ah -> (fault -> Q (problem InternalError) (at_tx db now ns ps d)) ->
  ((forall g, ~ (g ∈ db_grants d /\ g_domain g = domain /\ hash account (g_subject_hash g))) ->
     Q (Ok None) (at_tx db now ns ps d)) ->
  (forall g, g ∈ db_grants d -> g_domain g = domain -> hash account (g_subject_hash g) ->
     (forall g', g' ∈ db_grants d -> g_domain g' = domain -> hash account (g_subject_hash g') -> g' = g) ->
     Q (Ok (Some g)) (at_tx db now ns ps d)) ->
  spec (at_tx db now ns ps d) (find_active_grant domain ah) Q.
Proof.
  intros Hh HF HN HG. apply spec_find_grant; [done|].
  assert (Hm : forall g, grant_match domain ah g = true <->
    g_domain g = domain /\ hash account (g_subject_hash g)).
  { intros g. rewrite grant_match_spec. unfold hash in *. intuition congruence. }
  assert (Hk : forall x y, grant_match domain ah x = true -> grant_match domain ah y = true ->
    grant_key x = grant_key y).
  { intros x y [? ?]%grant_match_spec [? ?]%grant_match_spec. unfold grant_key. congruence. }
  pose proof (query_key grant_key (grant_match domain ah) (db_grants d) (u_grant_key _ (proj1 Hd)) Hk) as Hq.
  destruct (query_opt _) as [[g|]|e]; [| |done].
  - destruct Hq as [Hg Hgm]. pose proof Hgm as [Hgd Hga]%Hm. apply HG; [done..|]. intros g' Hg' ? ?.
    apply (key_inj grant_key (db_grants d)); [apply Hd|done..|]. apply Hk; [by apply Hm|done].
  - apply HN. intros g (Hg & Hgm%Hm). by rewrite Hq in Hgm.
Qed.
End Lookups.

(** Sealing bytes that are short enough. *)
Lemma spec_seal_bytes o bytes Q :
  state_wf state -> blen bytes <= 65536 ->
  (forall ct, decrypt (st_at_rest state) ct = Ok bytes -> Q (Ok ct) o) ->
  spec o (at_rest_encrypt state bytes) Q.
Proof.
  intros Hs Hl HQ. apply spec_at_rest_encrypt. intros n.
  destruct (encrypt_total (st_at_rest state) (env_rand n 12) bytes) as [ct Hct];
    [unfold blen; by rewrite env_rand_len|done|apply Hs|].
  rewrite Hct. by eapply HQ, at_rest_decrypt.
Qed.

(** ** Requests *)

(** A request is taken up for a session that is live, that the message names with
    its nonce and domain, and that has no challenge yet. *)
Definition request_open (sid nonce : string) (sent_at : Z) (domain : string) (now : Z)
    (d : Db) (s : SessionRow) : Prop :=
  s ∈ db_sessions d /\ s_domain s = domain /\ s_session_id s = sid /\ hash nonce (s_nonce_hash s) /\
  now <= s_exp s /\ sent_at_in_qr_window sent_at (s_iat s) (s_exp s) = true /\
  s_challenge_hash s = None.

(** The tables after a challenge was issued: the session has the event, the room,
    the sender, the hash and the expiry of the challenge, and both are reserved. *)
Definition challenged (ev : InboundEvent) (s : SessionRow) (h room_ct sender_ct : list byte)
    (now : Z) (d : Db) : Db :=
  patched s (challenge_patch (ev_event_id ev) room_ct sender_ct h
               (challenge_expires_at now (s_exp s)))
    (set_challenge_hashes (<[h := s_expires_at s]> (db_challenge_hashes d))
       (set_ledger RequestEvents (<[ev_event_id ev := s_expires_at s]> (db_request_events d)) d)).

(** The message that carries it. *)
Definition challenge_message (s : SessionRow) (nonce challenge : string) (now : Z) : MatrixMessage :=
  Matrix.Challenge (s_session_id s) nonce now (s_site_display_name s) (s_domain s)
    (s_requested_display_name s) challenge (challenge_expires_at now (s_exp s)).

Definition issued (ev : InboundEvent) (sid nonce : string) (sent_at : Z) (domain : string)
    (d d' : Db) (body : string) : Prop :=
  exists s h room_ct sender_ct k n,
    let challenge := Base64url.encode (env_rand n 16) in
    request_open sid nonce sent_at domain (env_now k) d s /\
    hash challenge h /\ sealed (ev_room_id ev) room_ct /\ sealed (ev_sender ev) sender_ct /\
    db_request_events d !! ev_event_id ev = None /\ db_challenge_hashes d !! h = None /\
    d' = challenged ev s h room_ct sender_ct (env_now k) d /\
    Matrix.encode (challenge_message s nonce challenge (env_now k)) = Ok body.

(** Why a request can fail. *)
Inductive request_error (ev : InboundEvent) (d : Db) : RelayError -> Prop :=
  | qe_fault : fault -> request_error ev d (Problem InternalError)
  | qe_event : is_Some (db_request_events d !! ev_event_id ev) ->
      request_error ev d (Problem ChallengeReplayed)
  | qe_challenge n h : hash (Base64url.encode (env_rand n 16)) h ->
      is_Some (db_challenge_hashes d !! h) -> request_error ev d (Problem ChallengeReplayed)
  | qe_size : oversize (ev_room_id ev) \/ oversize (ev_sender ev) ->
      request_error ev d (Problem InternalError)
  | qe_version s : s ∈ db_sessions d -> i32_max <= s_version s ->
      request_error ev d (Problem InternalError).

Definition request_post (ev : InboundEvent) (sid nonce : string) (sent_at : Z) (domain : string)
    (d : Db) (ns : list OutboundNotice) (ps : list SitePost) (r : result HandleResult) (o : Obs)
  : Prop :=
  o_tx o = None /\ o_posts o = ps /\
  match r with
  | Ok Ignored =>
      o_db o = d /\ o_notices o = ns /\
      exists k, forall s, ~ request_open sid nonce sent_at domain (env_now k) d s
  | Ok Sent =>
      exists body, issued ev sid nonce sent_at domain d (o_db o) body /\
        o_notices o = ns ++ [{| n_room_id := ev_room_id ev; n_body := body |}]
  | Err e =>
      (request_error ev d e /\ o_db o = d /\ o_notices o = ns) \/
      (fault /\ exists body, issued ev sid nonce sent_at domain d (o_db o) body /\
        (o_notices o = ns \/ o_notices o = ns ++ [{| n_room_id := ev_room_id ev; n_body := body |}]))
  end.

Lemma challenge_total s nonce n k :
  row_wf s -> over cls_id 16 128 nonce -> env_now k <= s_exp s ->
  exists body, Matrix.encode (challenge_message s nonce (Base64url.encode (env_rand n 16)) (env_now k))
               = Ok body.
Proof.
  intros [] Hn Hk. apply outbound_encodes; [|cbn|done].
  - split; [apply env_now_i64|]. apply challenge_expires_bounds; [apply env_now_i64|tauto|done].
  - destruct (token_over n) as [Hc Hl]. split_and!; try done; try tauto. split; [done|lia].
Qed.

Lemma issue_spec ev sid nonce sent_at domain s n now d ns ps :
  state_wf state -> db_wf d -> row_wf s -> over cls_id 16 128 nonce ->
  request_open sid nonce sent_at domain (env_now n) d s ->
  spec (at_tx d now ns ps d) (issue_challenge state ev s sid nonce domain (env_now n))
    (fun r o => request_post ev sid nonce sent_at domain d ns ps r
       (MkObs (o_db o) None (o_notices o) (o_posts o))).
Proof.
  intros Hst Hd Hwf Hn Hopen. unfold issue_challenge.
  pose proof Hopen as (Hs & <- & <- & _ & Hlive & _).
  assert (Hno : forall e, request_error ev d e -> request_post ev (s_session_id s) nonce sent_at
    (s_domain s) d ns ps (Err e) (MkObs d None ns ps)) by (repeat split; auto).
  spec_step. apply spec_keep; [done|]. spec_step. unfold count_replay. spec_step.
  spec_step; [do 3 spec_step; by apply Hno, qe_fault|do 3 spec_step; by apply Hno, qe_event|].
  do 2 spec_step. change (Z.to_nat CHALLENGE_BYTES) with 16%nat. do 2 spec_step.
  destruct (hash_total (Base64url.encode (env_rand n0 16))) as (h & -> & Hhash).
  spec_step. apply spec_keep; [done|]. do 2 spec_step;
    [by apply Hno, qe_fault|by eapply Hno, qe_challenge|].
  spec_step. apply spec_seal; [done|intros; by apply Hno, qe_size; auto|]. intros room_ct Hroom.
  spec_step. apply spec_seal; [done|intros; by apply Hno, qe_size; auto|]. intros sender_ct Hsender.
  spec_step. apply (spec_cas_row _ d); [apply Hd|done|done|intros; by apply Hno, qe_fault
    |intros; by eapply Hno, qe_version|].
  cbn [negb]. destruct (challenge_total s nonce n0 n Hwf Hn Hlive) as [body Hbody].
  assert (His : issued ev (s_session_id s) nonce sent_at (s_domain s) d
                  (challenged ev s h room_ct sender_ct (env_now n) d) body).
  { exists s, h, room_ct, sender_ct, n, n0. done. }
  assert (Hfault : fault -> forall e l, l = ns \/ l = ns ++ [{| n_room_id := ev_room_id ev; n_body := body |}] ->
    request_post ev (s_session_id s) nonce sent_at (s_domain s) d ns ps (Err e)
      (MkObs (challenged ev s h room_ct sender_ct (env_now n) d) None l ps)).
  { intros HF e l Hl. split_and!; try done. right. eauto. }
  do 2 spec_step; [|by apply Hfault; auto|by apply Hno, qe_fault].
  do 2 spec_step. unfold challenge_message in Hbody. rewrite Hbody.
  do 2 spec_step; [|by apply Hfault; auto|by apply Hfault; auto].
  do 3 spec_step. split_and!; eauto.
Qed.

Lemma request_spec ev sid nonce sent_at domain d ns ps :
  state_wf state -> db_wf d -> over cls_id 16 128 nonce ->
  spec (MkObs d None ns ps) (process_request state ev sid nonce sent_at domain)
    (request_post ev sid nonce sent_at domain d ns ps).
Proof.
  intros Hst Hd Hn. unfold process_request. destruct (hash_total nonce) as (nh & Enh & Hnh).
  assert (HF : fault -> request_post ev sid nonce sent_at domain d ns ps (Err (Problem InternalError))
    (MkObs d None ns ps)) by (repeat split; auto using qe_fault).
  assert (Hig : forall n, (forall s, ~ request_open sid nonce sent_at domain (env_now n) d s) ->
    request_post ev sid nonce sent_at domain d ns ps (Ok Ignored) (MkObs d None ns ps))
    by (intros n Hnone; split_and!; eauto).
  do 4 spec_step. rewrite Enh. spec_step; [by apply HF|]. spec_step.
  apply (spec_matching _ _ _ _ _ Hd domain sid nonce); [done|done| |].
  - intros Hnone. spec_step. apply (Hig n). intros s (Hs & ? & ? & ? & _). by apply (Hnone s).
  - intros s Hs Hdom Hwf -> Honly. pose proof Hs as (Hin & Hsid & _).
    assert (Hig' : ~ request_open sid nonce sent_at domain (env_now n) d s ->
      request_post ev sid nonce sent_at domain d ns ps (Ok Ignored) (MkObs d None ns ps)).
    { intros Hno. apply (Hig n). intros s' Ho. apply Hno. replace s with s'; [done|].
      destruct Ho as (? & ? & ? & ? & _). by apply Honly. }
    destruct (_ || _) eqn:Elate.
    { spec_step. apply Hig'. intros (_ & _ & _ & _ & ? & Hw & _). rewrite Hw in Elate.
      apply orb_true_iff in Elate as [?|?]; [bool_hyp; lia|done]. }
    bool_hyp. destruct (s_challenge_hash s) as [h|] eqn:Ec.
    { change (bool_decide (is_Some (Some h))) with true.
      do 2 spec_step; [spec_step; apply Hig'|by apply HF..]. intros (_ & _ & _ & _ & _ & _ & ?). congruence. }
    change (bool_decide (is_Some (@None (list byte)))) with false. by apply issue_spec.
Qed.

(** ** Consents *)

(** The result message of a refusal, as sent at some moment. *)
Definition failure_notice (ev : InboundEvent) (sid nonce reason : string) (n : OutboundNotice) : Prop :=
  exists k body,
    Matrix.encode (Matrix.Result sid nonce (env_now k) false None (Some reason)) = Ok body /\
    n = {| n_room_id := ev_room_id ev; n_body := body |}.

(** The time checks on a consent: the session's expiry, the window of the QR code
    and, if there is a challenge, its expiry. *)
Definition consent_timely (s : SessionRow) (sent_at now : Z) : Prop :=
  now <= s_exp s /\ sent_at_in_qr_window sent_at (s_iat s) (s_exp s) = true /\
  match s_challenge_expires_at s with Some e => sent_at <= e /\ now <= e | None => True end.

#[local] Instance consent_timely_dec s sent_at now : Decision (consent_timely s sent_at now).
Proof. unfold consent_timely. destruct (s_challenge_expires_at s); apply _. Defined.

(** The consent answers the session's challenge, from the sender and the room of
    the request. *)
Definition consent_bound (ev : InboundEvent) (challenge : string) (s : SessionRow) : Prop :=
  (exists h, s_challenge_hash s = Some h /\ hash challenge h) /\
  open_text state (s_request_sender_ciphertext s) = Some (ev_sender ev) /\
  open_text state (s_request_room_ciphertext s) = Some (ev_room_id ev).

(** A consent that answers a challenge finds one. *)
Lemma bound_move ev c s p :
  consent_bound ev c s -> p_challenge_hash p = None ->
  (forall st, move (st, true) (p_state p, true)) -> move (phase s) (phase (apply_patch p s)).
Proof. intros ((h & Hh & _) & _). apply kept_move. by exists h. Qed.

(** The assertion a consent leads to, with the bytes that are sent to the site. *)
Definition minted (ev : InboundEvent) (s : SessionRow) (nonce display jti : string) (now : Z)
    (sub : string) (bytes : list byte) : Prop :=
  exists a,
    derive_pairwise_sub (st_subject_secret state) (s_domain s) (ev_sender ev) = Ok sub /\
    Assertion.sign (st_signing_key state) (st_signing_kid state) (s_domain s) sub (s_session_id s)
      nonce jti now (Z.min (s_exp s) (now + 300000)) display (st_subject_key_version state) = Ok a /\
    Assertion.to_bytes a = Ok bytes.

(** The tables after it: the consent event and the token id are reserved, the
    grant is there, the session has the assertion, and a job is due. *)
Definition consented (ev : InboundEvent) (s : SessionRow) (jti : string)
    (subject_hash subject_ct user_ct display_ct assertion_ct : list byte) (gid jid due : Z) (d : Db)
  : Db :=
  let d1 := set_ledger ConsentEvents (<[ev_event_id ev := s_expires_at s]> (db_consent_events d)) d in
  let d2 := snd (upsert (grant_row gid (s_domain s) subject_hash subject_ct user_ct (s_session_id s)
                           (s_nonce_hash s) (st_subject_key_version state)) d1) in
  let d3 := set_ledger AssertionJtis (<[jti := s_expires_at s]> (db_assertion_jtis d2)) d2 in
  let d4 := patched s (consent_patch (ev_event_id ev) display_ct jti assertion_ct) d3 in
  insert_job (job_row jid "assertion" (s_domain s) jti assertion_ct (s_session_id s)
                (s_nonce_hash s) due) d4.

Definition refused (ev : InboundEvent) (s : SessionRow) (d : Db) : Db :=
  patched s (refused_patch (ev_event_id ev))
    (set_ledger ConsentEvents (<[ev_event_id ev := s_expires_at s]> (db_consent_events d)) d).

Section Consent.
Variables (ev : InboundEvent) (sid nonce : string) (sent_at : Z) (display_name : option string)
  (challenge key_id signature : string) (d : Db).

(** The holder approves exactly when there is a display name. *)
Definition approved : bool := bool_decide (is_Some display_name).

(** What a signed consent brings about: the tables and the messages added. *)
Inductive consent_outcome : Db -> list OutboundNotice -> Prop :=
  | co_expired s k n :
      session_named sid nonce d s -> ~ consent_timely s sent_at (env_now k) ->
      failure_notice ev sid nonce "request_expired" n -> consent_outcome d [n]
  | co_refused s k n :
      display_name = None ->
      session_named sid nonce d s -> consent_timely s sent_at (env_now k) -> consent_bound ev challenge s ->
      db_consent_events d !! ev_event_id ev = None ->
      failure_notice ev sid nonce "request_cancelled" n -> consent_outcome (refused ev s d) [n]
  | co_minted s k display sub bytes subject_hash subject_ct user_ct display_ct assertion_ct n gid jid due :
      let jti := Base64url.encode (env_rand n 16) in
      display_name = Some display ->
      session_named sid nonce d s -> consent_timely s sent_at (env_now k) -> consent_bound ev challenge s ->
      db_consent_events d !! ev_event_id ev = None -> db_assertion_jtis d !! jti = None ->
      minted ev s nonce display jti (env_now k) sub bytes ->
      hash sub subject_hash -> sealed sub subject_ct -> sealed (ev_sender ev) user_ct ->
      sealed display display_ct -> decrypt (st_at_rest state) assertion_ct = Ok bytes ->
      consent_outcome
        (consented ev s jti subject_hash subject_ct user_ct display_ct assertion_ct gid jid
           (env_db_now due) d) [].

(** Why a consent can fail without a trace. *)
Inductive consent_error : RelayError -> Prop :=
  | ce_fault : fault -> consent_error (Problem InternalError)
  | ce_missing : (forall s, ~ session_named sid nonce d s) -> consent_error (Problem SessionNotFound)
  | ce_ambiguous s s' : session_named sid nonce d s -> session_named sid nonce d s' -> s <> s' ->
      consent_error (Problem InternalError)
  | ce_event : is_Some (db_consent_events d !! ev_event_id ev) ->
      consent_error (Problem ConsentReplayed)
  | ce_jti n : is_Some (db_assertion_jtis d !! Base64url.encode (env_rand n 16)) ->
      consent_error (Problem AssertionReplayed)
  | ce_size : oversize (ev_sender ev) -> consent_error (Problem InternalError)
  | ce_version s : s ∈ db_sessions d -> i32_max <= s_version s -> consent_error (Problem InternalError).

(** The text the holder's signature is checked on. *)
Definition consent_signed : Prop :=
  exists b, consent_signed_bytes approved challenge display_name nonce sid sent_at = Ok b /\
    verify_consent_signature key_id b signature = Ok tt.

Definition consent_post (ns : list OutboundNotice) (ps : list SitePost) (r : result HandleResult)
    (o : Obs) : Prop :=
  o_tx o = None /\ o_posts o = ps /\
  match r with
  | Ok Ignored =>
      consent_signed /\ o_db o = d /\ o_notices o = ns /\
      exists s, session_named sid nonce d s /\ ~ consent_bound ev challenge s
  | Ok Sent => consent_signed /\ exists l, consent_outcome (o_db o) l /\ o_notices o = ns ++ l
  | Err e =>
      (~ consent_signed /\ o_db o = d /\ o_notices o = ns) \/
      (consent_signed /\ consent_error e /\ o_db o = d /\ o_notices o = ns) \/
      (consent_signed /\ fault /\
       exists l, consent_outcome (o_db o) l /\ (o_notices o = ns \/ o_notices o = ns ++ l))
  end.
End Consent.


Lemma failure_total ev sid nonce reason k :
  over cls_id 16 128 sid -> over cls_id 16 128 nonce -> slen reason <= 100 ->
  exists body,
    Matrix.encode (Matrix.Result sid nonce (env_now k) false None (Some reason)) = Ok body /\
    failure_notice ev sid nonce reason {| n_room_id := ev_room_id ev; n_body := body |}.
Proof.
  intros Hs Hn Hr.
  destruct (outbound_encodes (Matrix.Result sid nonce (env_now k) false None (Some reason)))
    as [body Hb]; [apply env_now_i64|by repeat split; try apply Hs; try apply Hn|done|].
  exists body. split; [done|]. by exists k, body.
Qed.

Lemma spec_failure ev sid nonce reason d ns ps Q :
  over cls_id 16 128 sid -> over cls_id 16 128 nonce -> slen reason <= 100 ->
  (forall n, failure_notice ev sid nonce reason n -> Q (Ok Sent) (MkObs d None (ns ++ [n]) ps)) ->
  (forall n e l, fault -> failure_notice ev sid nonce reason n -> l = ns \/ l = ns ++ [n] ->
     Q (Err e) (MkObs d None l ps)) ->
  spec (MkObs d None ns ps) (send_failure (ev_room_id ev) sid nonce reason) Q.
Proof.
  intros Hs Hn Hr HQ HF. unfold send_failure. do 4 spec_step.
  destruct (failure_total ev sid nonce reason n Hs Hn Hr) as (body & Hb & Hno).
  rewrite Hb. do 2 spec_step; [|by eapply HF; eauto..]. spec_step. by apply HQ.
Qed.

(** No wrap in the expiry of an assertion. *)
Lemma assertion_exp s k :
  row_wf s -> env_now k <= s_exp s -> i64_add (env_now k) MAX_TTL_MS = env_now k + 300000.
Proof.
  intros Hs Hk. apply row_exp_range in Hs. pose proof (env_now_i64 k).
  unfold i64_add, wrap64, in_i64, i64_min, i64_max, MAX_TTL_MS in *. rewrite Z.mod_small; lia.
Qed.

Lemma mint_total ev s nonce display n k :
  state_wf state -> row_wf s -> over cls_id 16 128 nonce -> 0 < slen display <= 100 ->
  env_now k <= s_exp s ->
  let jti := Base64url.encode (env_rand n 16) in
  exists sub bytes a,
    minted ev s nonce display jti (env_now k) sub bytes /\ blen bytes <= 65536 /\
    derive_pairwise_sub (st_subject_secret state) (s_domain s) (ev_sender ev) = Ok sub /\
    slen sub = 43 /\
    Assertion.sign (st_signing_key state) (st_signing_kid state) (s_domain s) sub (s_session_id s)
      nonce jti (env_now k) (Z.min (s_exp s) (env_now k + 300000)) display
      (st_subject_key_version state) = Ok a /\ Assertion.to_bytes a = Ok bytes.
Proof.
  intros Hst Hs Hn Hdn Hk jti.
  destruct (derive_pairwise_sub_Ok (st_subject_secret state) (s_domain s) (ev_sender ev))
    as (mac & _ & Hsub & Hover); [apply Hst|].
  assert (Hexp : in_i64 (Z.min (s_exp s) (env_now k + 300000))).
  { pose proof (rw_range s Hs). pose proof (row_exp_range s Hs). pose proof (env_now_i64 k).
    unfold in_i64, i64_min, i64_max in *. lia. }
  destruct (Assertion.assertion_sign_total (st_signing_key state) (st_signing_kid state) (s_domain s)
    (Base64url.encode mac) (s_session_id s) nonce jti (env_now k)
    (Z.min (s_exp s) (env_now k + 300000)) display (st_subject_key_version state)) as [a Ha];
    try done; try apply Hst; try apply Hs; try apply env_now_i64.
  { destruct Hover as [? ?]. split; [done|lia]. }
  assert (Hj : slen jti <= 128) by (pose proof (token_over n) as [_ ?]; unfold jti; lia).
  destruct (Assertion.assertion_bytes_small _ _ _ _ _ _ _ _ _ _ _ a (env_now_i64 k) Hexp (sw_skv _ Hst)
    (proj1 (rw_domain s Hs)) Hj Ha) as (bytes & Hb & Hl).
  exists (Base64url.encode mac), bytes, a. split; [exists a; done|]. destruct Hover. split_and!; try done. lia.
Qed.

Lemma upsert_sessions n d : db_sessions (snd (upsert n d)) = db_sessions d.
Proof. unfold upsert. by case_match. Qed.

Lemma upsert_jtis n d : db_assertion_jtis (snd (upsert n d)) = db_assertion_jtis d.
Proof. unfold upsert. by case_match. Qed.

Lemma mint_spec ev s sid nonce sent_at display challenge key_id signature k now d ns ps :
  state_wf state -> db_wf d -> over cls_id 16 128 nonce -> 0 < slen display <= 100 ->
  consent_signed sid nonce sent_at (Some display) challenge key_id signature ->
  session_named sid nonce d s -> consent_timely s sent_at (env_now k) ->
  consent_bound ev challenge s -> db_consent_events d !! ev_event_id ev = None ->
  spec (at_tx d (env_db_now now) ns ps
          (set_ledger ConsentEvents (<[ev_event_id ev := s_expires_at s]> (db_consent_events d)) d))
    (mint_assertion state ev s sid nonce (s_nonce_hash s) (env_now k) (Some display))
    (fun r o => consent_post ev sid nonce sent_at (Some display) challenge key_id signature d ns ps r
       (MkObs (o_db o) None (o_notices o) (o_posts o))).
Proof.
  intros Hst Hd Hn Hdn Hsig Hs Ht Hb Hev. unfold mint_assertion.
  assert (Hno : forall e, consent_error ev sid nonce d e ->
    consent_post ev sid nonce sent_at (Some display) challenge key_id signature d ns ps (Err e)
      (MkObs d None ns ps)) by (intros e He; split_and!; [done|done|right; left; auto]).
  assert (Hwf : row_wf s) by (eapply db_wf_row; [done|apply Hs]).
  pose proof Hs as (Hin & <- & Hnh). pose proof Ht as (Hlive & _ & _).
  do 2 spec_step. cbn [ok_or].
  spec_step. spec_step.
  destruct (derive_pairwise_sub_Ok (st_subject_secret state) (s_domain s) (ev_sender ev))
    as (mac & _ & Esub & Hover); [apply Hst|]. rewrite Esub. set (sub := Base64url.encode mac) in *.
  destruct (hash_total sub) as (sh & Esh & Hsh). do 2 spec_step. rewrite Esh.
  assert (Hsub : ~ oversize sub) by (destruct Hover; unfold oversize; lia).
  spec_step. apply spec_seal; [done|done|]. intros subject_ct Hsct.
  spec_step. apply spec_seal; [done|intros; by apply Hno, ce_size|]. intros user_ct Huct.
  do 2 spec_step; [by apply Hno, ce_fault|].
  do 2 spec_step. change (Z.to_nat JTI_BYTES) with 16%nat.
  match goal with |- context [env_rand ?m 16] => rename m into n end.
  rewrite (assertion_exp s k Hwf Hlive).
  destruct (mint_total ev s nonce display n k) as (sub' & bytes & a & Hmint & Hlen & Esub' & _ & Hsign & Hbytes);
    [done..|]. assert (sub' = sub) as -> by congruence. rewrite Hsign.
  do 2 spec_step. spec_step. apply spec_keep; [done|].
  do 2 spec_step; [by apply Hno, ce_fault| |].
  { match goal with Hl : is_Some (ledger AssertionJtis _ !! _) |- _ =>
      cbn [ledger] in Hl; rewrite upsert_jtis in Hl end. by eapply Hno, ce_jti. }
  do 2 spec_step. rewrite Hbytes.
  spec_step. apply spec_seal_bytes; [done..|]. intros assertion_ct Hact.
  spec_step. apply spec_seal; [done|unfold oversize; lia|]. intros display_ct Hdct.
  spec_step. apply (spec_cas_row _ d); [apply Hd|exact (upsert_sessions _ _)|done|
    intros; by apply Hno, ce_fault|intros; by eapply Hno, ce_version|].
  do 2 spec_step; [by apply Hno, ce_fault|].
  assert (Hjti : db_assertion_jtis d !! Base64url.encode (env_rand n 16) = None)
    by (match goal with Hl : ledger AssertionJtis _ !! _ = None |- _ =>
          cbn [ledger] in Hl; by rewrite upsert_jtis in Hl end).
  match goal with |- context [insert_job (job_row ?j _ _ _ _ _ _ (env_db_now ?due)) _] =>
    pose proof (co_minted ev (s_session_id s) nonce sent_at (Some display) challenge d s k display sub
      bytes sh subject_ct user_ct display_ct assertion_ct n id j due eq_refl Hs Ht Hb Hev Hjti Hmint
      Hsh Hsct Huct Hdct Hact) as Hout end.
  do 2 spec_step; 
    [|split_and!; [done..|right; right; split_and!; [done..|]; eexists; split; [exact Hout|by left]]
     |by apply Hno, ce_fault].
  do 3 spec_step. split_and!; [done..|]. eexists. split; [exact Hout|]. by rewrite app_nil_r.
Qed.

(** Where the code's checks fail, the message is late or not the answer. *)
Lemma consent_check_late s sent_at now :
  (s_exp s <? now) || negb (sent_at_in_qr_window sent_at (s_iat s) (s_exp s))
    || match s_challenge_expires_at s with
       | Some e => (e <? sent_at) || (e <? now) | None => false end = true <->
  ~ consent_timely s sent_at now.
Proof.
  unfold consent_timely. rewrite !orb_true_iff, negb_true_iff, Z.ltb_lt, <- not_true_iff_false.
  destruct (s_challenge_expires_at s) as [e|]; rewrite ?orb_true_iff, ?Z.ltb_lt;
    destruct (sent_at_in_qr_window _ _ _); intuition (done || lia).
Qed.

Lemma consent_check_bound ev challenge ch s :
  hash challenge ch ->
  consent_bound ev challenge s <->
  negb (bool_decide (s_challenge_hash s = Some ch)) = false /\
  negb (bool_decide (open_text state (s_request_sender_ciphertext s) = Some (ev_sender ev)))
    || negb (bool_decide (open_text state (s_request_room_ciphertext s) = Some (ev_room_id ev))) = false.
Proof.
  intros Hch. rewrite orb_false_iff, !negb_false_iff, !bool_decide_eq_true.
  unfold consent_bound, hash in *. split.
  - intros ((h & Hs & Hh) & ? & ?). split; [congruence|done].
  - intros (Hs & ? & ?). eauto.
Qed.

Lemma refuse_spec ev sid nonce sent_at challenge key_id signature s k now d ns ps :
  state_wf state -> db_wf d -> over cls_id 16 128 sid -> over cls_id 16 128 nonce ->
  consent_signed sid nonce sent_at None challenge key_id signature ->
  session_named sid nonce d s -> consent_timely s sent_at (env_now k) ->
  consent_bound ev challenge s -> db_consent_events d !! ev_event_id ev = None ->
  spec (at_tx d now ns ps
          (set_ledger ConsentEvents (<[ev_event_id ev := s_expires_at s]> (db_consent_events d)) d))
    (cas_update (s_id s) (s_version s) (refused_patch (ev_event_id ev)) ;!
     commit ;!
     send_failure (ev_room_id ev) sid nonce "request_cancelled")
    (fun r o => consent_post ev sid nonce sent_at None challenge key_id signature d ns ps r
       (MkObs (o_db o) None (o_notices o) (o_posts o))).
Proof.
  intros Hst Hd Hsid Hn Hsig Hs Ht Hb Hev.
  assert (Hno : forall e, consent_error ev sid nonce d e ->
    consent_post ev sid nonce sent_at None challenge key_id signature d ns ps (Err e)
      (MkObs d None ns ps)) by (intros e He; split_and!; [done|done|right; left; auto]).
  spec_step. apply (spec_cas_row _ d); [apply Hd|done|apply Hs|intros; by apply Hno, ce_fault
    |intros; eapply Hno, ce_version; [apply Hs|done]|].
  assert (Hout : forall n0, failure_notice ev sid nonce "request_cancelled" n0 ->
    consent_outcome ev sid nonce sent_at None challenge d (refused ev s d) [n0])
    by (intros; by eapply co_refused).
  assert (Hfault : fault -> forall e n0 l, failure_notice ev sid nonce "request_cancelled" n0 ->
    l = ns \/ l = ns ++ [n0] ->
    consent_post ev sid nonce sent_at None challenge key_id signature d ns ps (Err e)
      (MkObs (refused ev s d) None l ps)).
  { intros HF e n0 l Hf Hl. split_and!; [done..|]. right. right. split_and!; [done..|]. eauto. }
  do 2 spec_step;
    [|destruct (failure_total ev sid nonce "request_cancelled" 0) as (body & _ & Hf); eauto; by vm_compute
     |by apply Hno, ce_fault].
  apply spec_failure; [done|done|by vm_compute| |].
  - intros n0 Hf. split_and!; [done..|]. eauto.
  - intros n0 e l HF Hf Hl. eauto.
Qed.

Lemma consent_spec ev sid nonce sent_at display_name challenge key_id signature d ns ps :
  state_wf state -> db_wf d ->
  inbound_ok (Matrix.Consent sid nonce sent_at (approved display_name) display_name challenge key_id signature) ->
  in_i64 sent_at ->
  spec (MkObs d None ns ps)
    (process_consent state ev sid nonce sent_at (approved display_name) display_name challenge key_id signature)
    (consent_post ev sid nonce sent_at display_name challenge key_id signature d ns ps).
Proof.
  intros Hst Hd (Hsid & Hn & _ & _ & _ & _ & Hdn) Hat. unfold process_consent.
  destruct (hash_total nonce) as (nh & Enh & Hnh), (hash_total challenge) as (ch & Ech & Hch).
  destruct (consent_total (approved display_name) challenge display_name nonce sid sent_at Hat)
    as [signed Esigned].
  do 4 spec_step. rewrite Enh. do 2 spec_step. rewrite Ech. do 2 spec_step. rewrite Esigned.
  do 2 spec_step. destruct (verify_consent_signature key_id signed signature) as [[]|e] eqn:Ev.
  2: { split_and!; try done. left. split_and!; try done. intros (b & Eb & Hb). congruence. }
  assert (Hsig : consent_signed sid nonce sent_at display_name challenge key_id signature)
    by (exists signed; done).
  assert (Hno : forall e, consent_error ev sid nonce d e ->
    consent_post ev sid nonce sent_at display_name challenge key_id signature d ns ps (Err e)
      (MkObs d None ns ps)) by (intros e He; split_and!; [done|done|right; left; auto]).
  spec_step; [by apply Hno, ce_fault|]. spec_step.
  apply (spec_by_nonce _ _ _ _ _ Hd sid nonce); [done|intros; by apply Hno, ce_fault| | |].
  { intros s s' ???. by eapply Hno, (ce_ambiguous _ _ _ _ s s'). }
  { intros Hnone. do 2 spec_step. by apply Hno, ce_missing. }
  intros s Hs Hwf -> _. do 2 spec_step. cbn [ok_or].
  destruct (_ || _ || _) eqn:Elate.
  { apply consent_check_late in Elate. do 2 spec_step; [|by apply Hno, ce_fault].
    apply spec_failure; [done|done|by vm_compute| |].
    - intros n0 Hf. split_and!; [done..|]. exists [n0]. split; [|done]. by eapply co_expired.
    - intros n0 e l HF Hf Hl. split_and!; try done. right. right. split_and!; [done..|].
      exists [n0]. split; [|done]. by eapply co_expired. }
  rewrite <- not_true_iff_false, consent_check_late in Elate. apply dec_stable in Elate.
  pose proof (consent_check_bound ev challenge ch s Hch) as Hbound.
  destruct (negb (bool_decide (s_challenge_hash s = Some ch))).
  { spec_step. split_and!; [done..|]. exists s. split; [done|]. intros [Hb _]%Hbound. done. }
  destruct (_ || _).
  { do 3 spec_step. split_and!; [done..|]. exists s. split; [done|]. intros [_ Hb]%Hbound. done. }
  spec_step. apply spec_keep; [done|]. spec_step. unfold count_replay. spec_step.
  spec_step; [do 3 spec_step; by apply Hno, ce_fault|do 3 spec_step; by apply Hno, ce_event|].
  destruct display_name as [display|]; [|by apply (refuse_spec _ _ _ _ _ _ _ _ n); try apply Hbound].
  destruct Hdn as [_ Hdn]. by apply mint_spec; try apply Hbound.
Qed.

(** ** Revocations *)

(** The grant of the account at the session's site, which the sender gave and
    which stands. *)
Definition revocable (ev : InboundEvent) (account : string) (d : Db) (s : SessionRow) (g : GrantRow)
  : Prop :=
  g ∈ db_grants d /\ g_domain g = s_domain s /\ hash account (g_subject_hash g) /\
  open_text state (Some (g_matrix_user_ciphertext g)) = Some (ev_sender ev) /\
  g_revoked_at g = None.

Definition revoked (s : SessionRow) (g : GrantRow) (jti : string) (keep : Z) (payload_ct : list byte)
    (jid now : Z) (d : Db) : Db :=
  let d1 := revoke (g_id g) now d in
  let d2 := set_ledger RevocationJtis (<[jti := keep]> (db_revocation_jtis d)) d1 in
  patched s (state_patch "REVOKED")
    (insert_job (job_row jid "revocation" (s_domain s) jti payload_ct (s_session_id s)
                   (s_nonce_hash s) now) d2).

(** The notice to the site. *)
Definition revocation_notice (s : SessionRow) (account jti reason : string) (now : Z)
    (bytes : list byte) : Prop :=
  exists r,
    Revocation.sign (st_signing_key state) (st_signing_kid state) (s_domain s) account jti now reason
      = Ok r /\ Revocation.to_bytes r = Ok bytes.

Section Revocation.
Variables (ev : InboundEvent) (sid nonce account : string) (reason : option string) (d : Db).

Inductive revocation_outcome : Db -> Prop :=
  | ro_revoked s g n k keep bytes payload_ct jid now :
      let jti := Base64url.encode (env_rand n 16) in
      session_named sid nonce d s -> revocable ev account d s g ->
      db_revocation_jtis d !! jti = None ->
      revocation_notice s account jti (default "user_requested" reason) (env_now k) bytes ->
      decrypt (st_at_rest state) payload_ct = Ok bytes ->
      (exists i, env_timestamp_millis (i64_add (env_now i) REPLAY_GRACE_MS) = Some keep) ->
      revocation_outcome (revoked s g jti keep payload_ct jid (env_db_now now) d).

Inductive revocation_error : RelayError -> Prop :=
  | ve_fault : fault -> revocation_error (Problem InternalError)
  | ve_ambiguous s s' : session_named sid nonce d s -> session_named sid nonce d s' -> s <> s' ->
      revocation_error (Problem InternalError)
  | ve_corrupt g : g ∈ db_grants d -> open_text state (Some (g_matrix_user_ciphertext g)) = None ->
      revocation_error (Problem InternalError)
  | ve_clock k : env_timestamp_millis (i64_add (env_now k) REPLAY_GRACE_MS) = None ->
      revocation_error (Problem InvalidRequest)
  | ve_jti n : is_Some (db_revocation_jtis d !! Base64url.encode (env_rand n 16)) ->
      revocation_error (Problem AssertionReplayed)
  | ve_version s : s ∈ db_sessions d -> i32_max <= s_version s ->
      revocation_error (Problem InternalError).

Definition revocation_post (ns : list OutboundNotice) (ps : list SitePost) (r : result HandleResult)
    (o : Obs) : Prop :=
  o_tx o = None /\ o_posts o = ps /\ o_notices o = ns /\
  match r with
  | Ok Ignored => o_db o = d /\ forall s g, session_named sid nonce d s -> ~ revocable ev account d s g
  | Ok Sent => revocation_outcome (o_db o)
  | Err e => (revocation_error e /\ o_db o = d) \/ (fault /\ revocation_outcome (o_db o))
  end.
End Revocation.

Lemma insert_job_sessions j d : db_sessions (insert_job j d) = db_sessions d.
Proof. unfold insert_job. by case_if. Qed.

Lemma notice_total s account jti k reason :
  state_wf state -> row_wf s -> over cls_id 22 128 account -> slen jti <= 128 -> slen reason <= 100 ->
  exists r bytes,
    Revocation.sign (st_signing_key state) (st_signing_kid state) (s_domain s) account jti (env_now k)
      reason = Ok r /\ Revocation.to_bytes r = Ok bytes /\ blen bytes <= 65536.
Proof.
  intros Hst Hs Hacc Hj Hr.
  destruct (Revocation.revocation_sign_total (st_signing_key state) (st_signing_kid state) (s_domain s) account
    jti (env_now k) reason (env_now_i64 k)) as [r Hsign].
  destruct (Revocation.revocation_bytes_small _ _ _ _ _ _ _ r (env_now_i64 k) (proj2 (proj2 (sw_kid _ Hst)))
    (proj1 (rw_domain s Hs)) (proj2 (proj2 Hacc)) Hj Hr Hsign) as (bytes & Hb & Hl).
  by exists r, bytes.
Qed.

Lemma revoke_spec ev nonce account reason s g now d ns ps :
  state_wf state -> db_wf d -> row_wf s -> over cls_id 22 128 account -> opt_reason_ok reason ->
  session_named (s_session_id s) nonce d s -> revocable ev account d s g ->
  spec (at_tx d (env_db_now now) ns ps d)
    (revoke_grant state s g (s_session_id s) (s_nonce_hash s) account (default "user_requested" reason))
    (fun r o => revocation_post ev (s_session_id s) nonce account reason d ns ps r
       (MkObs (o_db o) None (o_notices o) (o_posts o))).
Proof.
  intros Hst Hd Hwf Hacc Hreason Hs Hrev. unfold revoke_grant.
  assert (Hno : forall e, revocation_error (s_session_id s) nonce d e -> revocation_post ev
    (s_session_id s) nonce account reason d ns ps (Err e) (MkObs d None ns ps))
    by (intros e He; split_and!; [done..|]; left; auto).
  do 2 spec_step; [by apply Hno, ve_fault|]. do 2 spec_step.
  change (Z.to_nat JTI_BYTES) with 16%nat.
  match goal with |- context [env_rand ?m 16] => rename m into n end.
  do 4 spec_step. unfold millis_to_utc.
  match goal with |- context [env_timestamp_millis ?t] =>
    destruct (env_timestamp_millis t) as [keep|] eqn:Ek; cbn [ok_or] end.
  2: { by eapply Hno, ve_clock. }
  do 2 spec_step; [by apply Hno, ve_fault|by eapply Hno, ve_jti|]. do 2 spec_step.
  match goal with |- context [Revocation.sign _ _ _ _ ?j (env_now ?m) ?r] =>
    rename m into k;
    destruct (notice_total s account j k r Hst Hwf Hacc) as (rv & bytes & Hrv & Hbytes & Hlen) end.
  { pose proof (token_over n) as [_ ?]. lia. }
  { destruct reason; [done|by vm_compute]. }
  rewrite Hrv. do 2 spec_step. rewrite Hbytes. do 2 spec_step.
  spec_step. apply spec_seal_bytes; [done..|]. intros payload_ct Hct.
  do 2 spec_step; [by apply Hno, ve_fault|]. spec_step.
  apply (spec_cas_row _ d); [apply Hd|exact (insert_job_sessions _ _)|apply Hs|
    intros; by apply Hno, ve_fault|intros; eapply Hno, ve_version; [apply Hs|done]|].
  match goal with |- context [insert_job (job_row ?j _ _ _ _ _ _ _) _] =>
    pose proof (ro_revoked ev (s_session_id s) nonce account reason d s g n k keep bytes payload_ct
                  j now Hs Hrev) as Hout end.
  cbv zeta in Hout. specialize (Hout ltac:(done) ltac:(by exists rv) Hct (ex_intro _ _ Ek)).
  do 2 spec_step; [by spec_step|split_and!; [done..|]; by right|by apply Hno, ve_fault].
Qed.

Lemma revocation_spec ev sid nonce sent_at account reason d ns ps :
  state_wf state -> db_wf d -> inbound_ok (Matrix.Revocation sid nonce sent_at account reason) ->
  spec (MkObs d None ns ps) (process_revocation state ev sid nonce account reason)
    (revocation_post ev sid nonce account reason d ns ps).
Proof.
  intros Hst Hd (Hsid & Hn & Hacc & Hreason). unfold process_revocation.
  change (match reason with Some r => r | None => "user_requested" end) with (default "user_requested" reason).
  destruct (hash_total nonce) as (nh & Enh & Hnh), (hash_total account) as (ah & Eah & Hah).
  assert (Hno : forall e, revocation_error sid nonce d e ->
    revocation_post ev sid nonce account reason d ns ps (Err e) (MkObs d None ns ps))
    by (intros e He; split_and!; [done..|]; left; auto).
  do 2 spec_step. rewrite Enh. do 2 spec_step. rewrite Eah. spec_step; [by apply Hno, ve_fault|].
  spec_step. apply (spec_by_nonce _ _ _ _ _ Hd sid nonce); [done|intros; by apply Hno, ve_fault| | |].
  { intros s s' ???. by eapply Hno, (ve_ambiguous _ _ _ s s'). }
  { intros Hnone. spec_step. split_and!; [done..|]. by intros s g []%Hnone. }
  intros s Hs Hwf -> Honly. pose proof Hs as (_ & <- & _).
  assert (Hig : (forall g, ~ revocable ev account d s g) ->
    revocation_post ev (s_session_id s) nonce account reason d ns ps (Ok Ignored) (MkObs d None ns ps))
    by (intros Hg; split_and!; [done..|]; by intros s' g ->%Honly).
  spec_step. apply (spec_grant _ _ _ _ _ Hd (s_domain s) account); [done|intros; by apply Hno, ve_fault| |].
  { intros Hnone. spec_step. apply Hig. intros g (? & ? & ? & _). by apply (Hnone g). }
  intros g Hgin Hgd Hgh Hgonly.
  assert (Hig' : ~ revocable ev account d s g ->
    revocation_post ev (s_session_id s) nonce account reason d ns ps (Ok Ignored) (MkObs d None ns ps)).
  { intros Hr. apply Hig. intros g' Hg'. replace g' with g in Hg'; [done|]. symmetry.
    destruct Hg' as (? & ? & Hh & _). by apply Hgonly. }
  apply spec_open_text; [intros; by apply Hno, (ve_corrupt _ _ _ g)|]. intros user Hopen.
  destruct (String.eqb_spec user (ev_sender ev)) as [->|Hne]; cbn [negb].
  2: { spec_step. apply Hig'. intros (_ & _ & _ & Hu & _). congruence. }
  destruct (g_revoked_at g) as [t|] eqn:Er.
  { change (bool_decide (is_Some (Some t))) with true. do 2 spec_step; [spec_step; apply Hig'|by apply Hno, ve_fault..]. intros (_ & _ & _ & _ & ?). congruence. }
  change (bool_decide (is_Some (@None Z))) with false. by apply revoke_spec.
Qed.
End Spec.
