(* ===== verification/QueueSpec.v ===== *)
(** * What the delivery queue does

    A job is opened, posted to the site, and closed by the site's answer. *)

From S2P Require Import Prelude Errors Constants Utf8 Validation Base64url Json Jcs Strict.
From S2P Require Import Crypto Keys Wire Metadata Registration Assertion Revocation Matrix.
From S2P Require Import Documents Ssrf Site Tables Statements World Spec Db Register Login Queue.
From S2P Require Import Invariant Rows LoginSpec.

#[local] Set Warnings "-clear-no-such-hyp".

Section Spec.
Context `{Base64Laws} `{CryptoLaws} `{JsonTextLaws} `{JsonReader} `{Env} `{!EnvLaws}.
Variable state : AppState.

(** The request a job stands for; a job that cannot be opened, or of another
    kind, stands for none. *)
Definition post_of (j : DeliveryJob) : option SitePost :=
  match decrypt (st_at_rest state) (j_payload_ciphertext j) with
  | Err _ => None
  | Ok payload =>
      if String.eqb (j_kind j) "assertion" then
        Some {| po_domain := j_domain j; po_path := ASSERTION_PATH; po_body := payload;
                po_key := Some (j_jti j) |}
      else if String.eqb (j_kind j) "revocation" then
        Some {| po_domain := j_domain j; po_path := REVOCATION_PATH; po_body := payload;
                po_key := None |}
      else None
  end.

(** The result message after a delivered assertion. *)
Definition success_notice (s : SessionRow) (j : DeliveryJob) (a : RelayAssertion)
    (n : OutboundNotice) : Prop :=
  exists k nonce body,
    open_text state (Some (s_nonce_ciphertext s)) = Some nonce /\
    open_text state (s_request_room_ciphertext s) = Some (n_room_id n) /\
    Matrix.encode (Matrix.Result (j_session_id j) nonce (env_now k) true (Some (a_sub a)) None) = Ok body /\
    n_body n = body.

Lemma notice_room s j a n : success_notice s j a n -> is_Some (s_request_room_ciphertext s).
Proof. intros (k & nonce & body & _ & Hroom & _). by destruct (s_request_room_ciphertext s). Qed.

Definition delivered (s : SessionRow) (d : Db) : Db := patched s (state_patch "ASSERTION_DELIVERED") d.

(** What follows the acceptance of an assertion: result, tables and messages. *)
Inductive accepted_outcome (j : DeliveryJob) (payload : list byte) (d : Db)
  : result unit -> Db -> list OutboundNotice -> Prop :=
  | ao_done s a n :
      from_slice assertion_from_value payload = Ok a ->
      s ∈ db_sessions d -> matching (j_domain j) (j_session_id j) (j_nonce_hash j) s = true ->
      success_notice s j a n -> accepted_outcome j payload d (Ok tt) (delivered s d) [n]
  | ao_gone :
      (forall s, ~ (s ∈ db_sessions d /\ matching (j_domain j) (j_session_id j) (j_nonce_hash j) s = true)) ->
      accepted_outcome j payload d (Ok tt) d []
  | ao_unreadable e :
      from_slice assertion_from_value payload = Err e -> accepted_outcome j payload d (Err e) d []
  | ao_corrupt s :
      s ∈ db_sessions d -> matching (j_domain j) (j_session_id j) (j_nonce_hash j) s = true ->
      open_text state (Some (s_nonce_ciphertext s)) = None \/
      open_text state (s_request_room_ciphertext s) = None \/ i32_max <= s_version s ->
      accepted_outcome j payload d (Err (Problem InternalError)) d []
  | ao_unsent s a nonce k e :
      from_slice assertion_from_value payload = Ok a ->
      s ∈ db_sessions d -> matching (j_domain j) (j_session_id j) (j_nonce_hash j) s = true ->
      open_text state (Some (s_nonce_ciphertext s)) = Some nonce ->
      is_Some (s_request_room_ciphertext s) ->
      Matrix.encode (Matrix.Result (j_session_id j) nonce (env_now k) true (Some (a_sub a)) None) = Err e ->
      accepted_outcome j payload d (Err e) (delivered s d) []
  | ao_fault e d' l :
      fault -> d' = d \/ (exists s, s ∈ db_sessions d /\ is_Some (s_request_room_ciphertext s) /\ d' = delivered s d) ->
      accepted_outcome j payload d (Err e) d' l.

Lemma open_text_Ok ct text :
  open_text state (Some ct) = Some text <->
  exists b, decrypt (st_at_rest state) ct = Ok b /\ from_utf8 b = Some text.
Proof.
  unfold open_text. destruct (decrypt _ ct) as [b|]; [|by split; [|intros (? & ? & ?)]].
  split; [by exists b|]. by intros (? & [= <-] & ?).
Qed.

(** Afterwards no transaction is open, and the outcome is one of these. *)
Definition accepted_post (j : DeliveryJob) (payload : list byte) (d : Db) (ns : list OutboundNotice)
    (ps : list SitePost) (r : result unit) (o : Obs) : Prop :=
  o_tx o = None /\ o_posts o = ps /\
  exists l, accepted_outcome j payload d r (o_db o) l /\ o_notices o = ns ++ l.

Lemma accepted_post_intro j payload d ns ps r d' l ns' :
  accepted_outcome j payload d r d' l -> ns' = ns ++ l ->
  accepted_post j payload d ns ps r (MkObs d' None ns' ps).
Proof. intros Ho ->. split_and!; [done..|]. eauto. Qed.

Lemma accepted_spec j payload d ns ps :
  db_wf d ->
  spec (MkObs d None ns ps) (after_assertion_accepted state j payload)
    (accepted_post j payload d ns ps).
Proof.
  intros Hd. unfold after_assertion_accepted.
  assert (Hsame : forall r, accepted_outcome j payload d r d [] ->
    accepted_post j payload d ns ps r (MkObs d None ns ps))
    by (intros r Hr; eapply accepted_post_intro; [done|by rewrite app_nil_r]).
  assert (HF : fault -> accepted_post j payload d ns ps (Err (Problem InternalError)) (MkObs d None ns ps))
    by (intros; apply Hsame, ao_fault; auto).
  do 2 spec_step. destruct (from_slice _ payload) as [a|e] eqn:Ea; [|by apply Hsame, ao_unreadable].
  spec_step; [auto|]. spec_step. apply (spec_get_matching _ _ _ _ _ Hd); [done| |].
  { intros Hn. spec_step. by apply Hsame, ao_gone. }
  intros s Hs Hm _.
  assert (Hcorrupt : open_text state (Some (s_nonce_ciphertext s)) = None \/
    open_text state (s_request_room_ciphertext s) = None \/ i32_max <= s_version s ->
    accepted_post j payload d ns ps (Err (Problem InternalError)) (MkObs d None ns ps))
    by (intros; by eapply Hsame, ao_corrupt).
  do 2 spec_step. destruct (s_request_room_ciphertext s) as [room|] eqn:Eroom; cbn [ok_or];
    [|apply Hcorrupt; rewrite ?Eroom; auto].
  assert (Hr : is_Some (s_request_room_ciphertext s)) by (rewrite Eroom; eauto).
  apply spec_open_text; [intros; apply Hcorrupt; rewrite ?Eroom; auto|]. intros room_id Hroom.
  apply spec_open_text; [intros; apply Hcorrupt; auto|]. intros nonce Hnonce.
  spec_step. apply (spec_cas_row _ d); [apply Hd|done|done|auto|intros; apply Hcorrupt; auto|].
  assert (HF' : forall l, fault -> forall e, accepted_outcome j payload d (Err e) (delivered s d) l)
    by (intros; apply ao_fault; eauto 6).
  do 2 spec_step;
    [|eapply accepted_post_intro; [by apply (HF' [])|by rewrite app_nil_r]|auto].
  unfold send_success_result. do 4 spec_step.
  destruct (Matrix.encode _) as [body|e] eqn:Eb.
  2: { eapply accepted_post_intro; [by eapply ao_unsent|by rewrite app_nil_r]. }
  spec_step.
  - eapply accepted_post_intro; [|done]. eapply ao_done; try done. rewrite <- Eroom in Hroom.
    by eexists _, _, _.
  - eapply accepted_post_intro; [by apply (HF' [])|by rewrite app_nil_r].
  - eapply accepted_post_intro; [|done]. by apply HF'.
Qed.

(** ** One job *)

Definition delivery_post (j : DeliveryJob) (d : Db) (ns : list OutboundNotice) (ps : list SitePost)
    (r : result unit) (o : Obs) : Prop :=
  match post_of j with
  | None => r = problem InternalError /\ o = MkObs d None ns ps
  | Some p =>
      exists k,
        match @site_post_json (env_site k) (po_domain p) (po_path p) (po_body p) (po_key p) with
        | Err e => r = Err e /\ o = MkObs d None ns (ps ++ [p])
        | Ok resp =>
            if (sr_status resp =? 202) || (sr_status resp =? 200) then
              if String.eqb (j_kind j) "assertion" then
                accepted_post j (po_body p) d ns (ps ++ [p]) r o
              else r = Ok tt /\ o = MkObs d None ns (ps ++ [p])
            else r = problem RelayUnavailable /\ o = MkObs d None ns (ps ++ [p])
        end
  end.

Lemma deliver_spec j d ns ps :
  db_wf d -> spec (MkObs d None ns ps) (deliver state j) (delivery_post j d ns ps).
Proof.
  intros Hd. unfold deliver, delivery_post, post_of. do 2 spec_step.
  destruct (decrypt _ _) as [payload|e] eqn:E; [|by apply decrypt_err in E as ->].
  destruct (String.eqb (j_kind j) "assertion") eqn:Ek;
    [|destruct (String.eqb (j_kind j) "revocation"); [|do 2 spec_step; done]].
  - do 4 spec_step. cbn [po_domain po_path po_body po_key].
    match goal with |- context [@site_post_json ?i ?a ?b ?c ?f] =>
      destruct (@site_post_json i a b c f) as [resp|e] eqn:Er; [|exists n; by rewrite Er] end.
    rewrite <- negb_orb. destruct (_ || _) eqn:Es; cbn [negb].
    + eapply spec_mono; [|by apply accepted_spec]. intros r o Hr. exists n. by rewrite Er, Es.
    + spec_step. exists n. by rewrite Er, Es.
  - do 4 spec_step. cbn [po_domain po_path po_body po_key].
    match goal with |- context [@site_post_json ?i ?a ?b ?c ?f] =>
      destruct (@site_post_json i a b c f) as [resp|e] eqn:Er; [|exists n; by rewrite Er] end.
    rewrite <- negb_orb. destruct (_ || _) eqn:Es; cbn [negb]; spec_step; exists n; by rewrite Er, Es.
Qed.
End Spec.
