(* ===== verification/HttpSpec.v ===== *)
(** * What the HTTP interface answers *)

From S2P Require Import Prelude Errors Constants Utf8 Validation Base64url Json Jcs Strict.
From S2P Require Import Crypto Keys Wire Metadata Registration Matrix Ssrf Site Tables Statements World.
From S2P Require Import Spec Db Register Http.

#[local] Set Warnings "-clear-no-such-hyp".

(** A value that was read has been read from a value whose integers are in range. *)
Lemma from_slice_value `{JsonTextLaws} `{JsonReader} `{!JsonReaderLaws} {A} (f : Value -> option A) b x :
  from_slice f b = Ok x -> exists v, value_wf v /\ f v = Some x.
Proof.
  intros (s & _ & _ & Hs)%from_slice_Ok. apply from_str_Ok in Hs as (e & rest & Hr & Hok & _ & Hv).
  exists (event_value e). split; [|done]. by apply event_value_ok; [eapply json_read_wf|].
Qed.

Lemma registration_read_wf `{JsonTextLaws} `{JsonReader} `{!JsonReaderLaws} b r :
  from_slice registration_from_value b = Ok r -> registration_wf r.
Proof.
  intros (v & Hv & Hr)%from_slice_value. unfold registration_from_value in Hr.
  destruct (struct_fields _ v) as [m|] eqn:Em; [|done]. apply struct_fields_wf in Em; [|done].
  cbn [mbind option_bind] in Hr.
  repeat match type of Hr with
  | mbind _ ?o = _ => destruct o eqn:?; [|done]; cbn [mbind option_bind] in Hr
  end.
  injection Hr as <-. split_and!; cbn; eauto using field_i64_range.
Qed.

Section Spec.
Context `{Base64Laws} `{CryptoLaws} `{JsonTextLaws} `{JsonReader} `{!JsonReaderLaws} `{Env} `{!EnvLaws}.
Variable state : AppState.

(** A response that carries a document and must not be stored. *)
Definition document (status : Z) (content_type : string) (bytes : list byte) : Response := {|
  re_status := status; re_cache_control := Some "no-store"; re_content_type := content_type;
  re_body := JsonBody bytes |}.

Lemma json_document st content_type fields b :
  to_vec fields = Ok b -> json_response st (Some "no-store") content_type fields = document st content_type b.
Proof. unfold json_response. by intros ->. Qed.

(** The problem document of a code, with some correlation id. *)
Definition is_problem (c : ProblemCode) (resp : Response) : Prop :=
  exists n b, to_vec (problem_fields c (Base64url.encode (env_rand n 16))) = Ok b /\
    resp = document (status c) "application/problem+json" b.

Lemma problem_total c n : exists b, to_vec (problem_fields c (Base64url.encode (env_rand n 16))) = Ok b.
Proof. apply to_vec_total. plain_tac. destruct c; by vm_compute. Qed.

Lemma spec_problem o c Q :
  (forall resp, is_problem c resp -> Q (Ok resp) o) -> spec o (problem_response c) Q.
Proof.
  intros HQ. unfold problem_response. do 3 spec_step. destruct (problem_total c n) as [b Hb]. apply HQ.
  exists n, b. split; [done|]. by apply json_document.
Qed.

(** The answer to a registration that ended in a result. *)
Definition registration_answer (res : result (RegistrationResponse * bool)) (resp : Response) : Prop :=
  match res with
  | Ok (r, created) => exists b, to_vec (response_fields r) = Ok b /\
      resp = document (if created : bool then 201 else 200) "application/json" b
  | Err e => is_problem (Errors.code e) resp
  end.

(** A request that the limiter let through: the body cannot be used, or it is a
    registration, answered by what became of it. *)
Definition let_through_post (body : list byte) (db : Db) (ns : list OutboundNotice)
    (ps : list SitePost) (resp : Response) (o : Obs) : Prop :=
  (o = MkObs db None ns ps /\ is_problem InvalidRequest resp /\
     (MAX_HTTP_BODY < blen body \/ exists e, from_slice registration_from_value body = Err e)) \/
  (exists r out, blen body <= MAX_HTTP_BODY /\ from_slice registration_from_value body = Ok r /\
     register_post state r db ns ps out o /\ registration_answer out resp).

(** [limited] is the verdict of the limiter: over the rate the answer is 429 and nothing
    else happens, otherwise the request is let through. *)
Definition site_sessions_post (limited : bool) (body : list byte) (db : Db) (ns : list OutboundNotice)
    (ps : list SitePost) (res : result Response) (o : Obs) : Prop :=
  exists resp, res = Ok resp /\
    if limited then o = MkObs db None ns ps /\ is_problem RateLimited resp
    else let_through_post body db ns ps resp o.

(** The verdict, from the second and the counter of the limiter and the clock. *)
Definition over_rate (w : World) : bool :=
  (w_reg_window w =? env_unix_secs (w_step w)) && (30 <=? w_reg_count w).

(** What any answer leaves: everything as it was, or what a registration leaves. *)
Lemma site_sessions_leaves limited body db ns ps res o :
  site_sessions_post limited body db ns ps res o ->
  o = MkObs db None ns ps \/
  exists r out, from_slice registration_from_value body = Ok r /\ register_post state r db ns ps out o.
Proof.
  intros (resp & _ & Ho). destruct limited; [left; apply Ho|].
  destruct Ho as [[-> _]|(r & out & _ & Hr & Hpost & _)]; [by left|right]. by exists r, out.
Qed.

Lemma response_total r :
  in_i64 (reg_exp r) -> exists b, to_vec (response_fields (registration_response r)) = Ok b.
Proof. intros He. assert (in_i64 1) by by vm_compute. apply to_vec_total. plain_tac. Qed.

Lemma spec_rate_limit o Q : (forall ok, Q (Ok ok) o) -> spec o rate_limit_ok Q.
Proof.
  intros HQ. unfold rate_limit_ok. do 4 spec_step. destruct (negb _); repeat spec_step; apply HQ.
Qed.

Lemma post_registration_spec body db ns ps :
  blen (st_at_rest state) = 32 ->
  spec (MkObs db None ns ps) (post_registration state body) (site_sessions_post false body db ns ps).
Proof.
  intros Hk. unfold post_registration.
  assert (Hp : forall resp, is_problem InvalidRequest resp ->
      MAX_HTTP_BODY < blen body \/ (exists e, from_slice registration_from_value body = Err e) ->
    site_sessions_post false body db ns ps (Ok resp) (MkObs db None ns ps))
    by (intros resp; exists resp; split; [done|by left]).
  destruct (Z.ltb_spec MAX_HTTP_BODY (blen body)); [apply spec_problem; auto|].
  destruct (from_slice _ body) as [r|e] eqn:Er; [|apply spec_problem; eauto].
  pose proof (registration_read_wf body r Er) as Hr.
  spec_step. apply spec_try. eapply spec_mono; [|by apply register_spec].
  intros [[resp created]|e] o Hs; cbv beta iota.
  - spec_step. eexists. split; [done|]. right. exists r, (Ok (resp, created)). do 3 (split; [done|]).
    assert (resp = registration_response r) as -> by (destruct created; apply Hs).
    destruct (response_total r) as [b Hb]; [apply Hr|]. exists b. split; [done|]. by apply json_document.
  - do 2 spec_step. apply spec_problem. intros resp Hresp. exists resp. split; [done|].
    right. by exists r, (Err e).
Qed.

Lemma rate_limited_spec body db ns ps :
  spec (MkObs db None ns ps) rate_limited (site_sessions_post true body db ns ps).
Proof.
  unfold rate_limited. spec_step. apply spec_problem. intros resp (n & b & Hb & ->). spec_step.
  eexists. split; [done|]. split; [done|]. by exists n, b.
Qed.

Lemma site_sessions_spec body db ns ps :
  blen (st_at_rest state) = 32 ->
  spec (MkObs db None ns ps) (site_sessions state body)
    (fun res o => exists limited, site_sessions_post limited body db ns ps res o).
Proof.
  intros Hk. unfold site_sessions. spec_step. apply spec_rate_limit. intros []; cbn [negb].
  - eapply spec_mono; [|by apply post_registration_spec]. intros res o Ho. by exists false.
  - eapply spec_mono; [|apply rate_limited_spec]. intros res o Ho. by exists true.
Qed.

(** The other routes leave everything as it is. *)
Lemma ready_spec o :
  spec o ready (fun res o' => o' = o /\ exists resp, res = Ok resp /\
    (is_problem RelayUnavailable resp \/ re_status resp = 200 /\ re_body resp = Text "ready")).
Proof.
  unfold ready, succeeds. do 2 spec_step. apply spec_try.
  assert (Hping : spec o ping (fun _ o' => o' = o)).
  { unfold ping. spec_step. apply spec_pool_get; [|done]. do 2 spec_step. case_match; by spec_step. }
  eapply spec_mono; [|exact Hping]. intros r o' ->. spec_step. destruct (negb _).
  - apply spec_problem. intros resp Hr. eauto.
  - do 6 spec_step. destruct (negb _); [apply spec_problem; eauto|]. spec_step. eauto 6.
Qed.
End Spec.

(** ** The rate limit *)

(** A computation run a number of times in a row. *)
Fixpoint times {A} (n : nat) (m : M A) : M (list A) :=
  match n with
  | O => ret []
  | S n => let! a := m in let! l := times n m in ret (a :: l)
  end.

(** One request: the steps it takes, and the window and the counter it leaves. *)
Lemma rate_limit_run `{Env} w :
  exists n w', rate_limit_ok w =
    (Ok (negb (w_reg_window w =? env_unix_secs (w_step w)) || (w_reg_count w <? 30)), w') /\
    (n <= 4)%nat /\ w_step w' = (w_step w + n)%nat /\ w_reg_window w' = env_unix_secs (w_step w) /\
    w_reg_count w' = if w_reg_window w =? env_unix_secs (w_step w) then incr (w_reg_count w) else 1.
Proof.
  unfold rate_limit_ok. cbn. destruct (Z.eqb_spec (w_reg_window w) (env_unix_secs (w_step w))) as [E|]; cbn.
  - exists 3%nat. eexists. split; [done|]. split_and!; [lia|cbn; lia|done..].
  - exists 4%nat. eexists. split; [done|]. split_and!; [lia|cbn; lia|done..].
Qed.

(** The limiter lets a request through unless it is over the rate, and changes nothing
    but its own window and counter. *)
Lemma rate_limit_verdict `{Env} w : exists w1,
  rate_limit_ok w = (Ok (negb (over_rate w)), w1) /\ obs w1 = obs w /\ (w_step w <= w_step w1)%nat.
Proof.
  pose proof (spec_rate_limit (obs w) (fun _ o => o = obs w) (fun _ => eq_refl) w eq_refl) as Ho.
  destruct (rate_limit_run w) as (n & w1 & Er & _ & Hs & _). rewrite Er in *. exists w1.
  split; [|split; [exact Ho|lia]]. do 2 f_equal. unfold over_rate.
  by rewrite negb_andb, Z.ltb_antisym.
Qed.

(** Within the window of a second the counter decides. *)
Lemma rate_limit_counts `{Env} t n : forall w,
  (forall i, (i < 4 * n)%nat -> env_unix_secs (w_step w + i) = t) ->
  w_reg_window w = t -> 0 <= w_reg_count w -> w_reg_count w + Z.of_nat n < 2 ^ 64 ->
  fst (times n rate_limit_ok w) =
  Ok (repeat true (Z.to_nat (30 - w_reg_count w) `min` n) ++ repeat false (n - Z.to_nat (30 - w_reg_count w))).
Proof.
  induction n as [|n IH]; intros w Hclock Hwin Hc Hn; [by rewrite Nat.min_0_r|].
  cbn [times]. rewrite run_bind. destruct (rate_limit_run w) as (k & w1 & -> & Hk & Hs & Hw1 & Hc1).
  pose proof (Hclock 0%nat ltac:(lia)) as H0. rewrite Nat.add_0_r in H0.
  rewrite H0 in *. rewrite Hwin, Z.eqb_refl in *. cbn [negb orb].
  unfold incr in Hc1. rewrite Z.mod_small in Hc1 by lia.
  specialize (IH w1). rewrite Hc1, Hs in IH. rewrite run_bind.
  assert (Hi : forall i, (i < 4 * n)%nat -> env_unix_secs (w_step w + k + i) = t)
    by (intros i Hi; rewrite <- Nat.add_assoc; apply Hclock; lia).
  specialize (IH Hi Hw1 ltac:(lia) ltac:(lia)).
  destruct (times n rate_limit_ok w1) as [r w2]. cbn [fst] in IH. subst r. cbn. f_equal.
  destruct (Z.ltb_spec (w_reg_count w) 30).
  - replace (Z.to_nat (30 - w_reg_count w)) with (S (Z.to_nat (30 - (w_reg_count w + 1)))) by lia. done.
  - replace (Z.to_nat (30 - w_reg_count w)) with 0%nat by lia.
    replace (Z.to_nat (30 - (w_reg_count w + 1))) with 0%nat by lia. by rewrite !Nat.sub_0_r.
Qed.

(** C38: However many registrations arrive in a second that had none before, exactly
    the first 30 are let through, for as many as the counter can count. *)
Theorem rate_limit_exact `{Env} t n w :
  (forall i, (i < 4 * n)%nat -> env_unix_secs (w_step w + i) = t) ->
  w_reg_window w <> t -> Z.of_nat n < 2 ^ 64 ->
  fst (times n rate_limit_ok w) = Ok (repeat true (30 `min` n) ++ repeat false (n - 30)).
Proof.
  destruct n as [|n]; [done|]. intros Hclock Hwin Hn. cbn [times]. rewrite run_bind.
  destruct (rate_limit_run w) as (k & w1 & -> & Hk & Hs & Hw1 & Hc1).
  pose proof (Hclock 0%nat ltac:(lia)) as H0. rewrite Nat.add_0_r in H0. rewrite H0 in *.
  apply Z.eqb_neq in Hwin. rewrite Hwin in *. cbn [negb orb].
  pose proof (rate_limit_counts t n w1) as Hr.
  assert (Hi : forall i, (i < 4 * n)%nat -> env_unix_secs (w_step w1 + i) = t)
    by (intros i Hi; rewrite Hs, <- Nat.add_assoc; apply Hclock; lia).
  rewrite Hc1 in Hr. specialize (Hr Hi Hw1 ltac:(done) ltac:(lia)). rewrite run_bind.
  destruct (times n rate_limit_ok w1) as [r w2]. cbn [fst] in Hr. subst r. done.
Qed.
