(* ===== verification/TestSupport.v ===== *)
(** * The test support (src/src/lib.rs, module test_support, and the doubles of
    src/src/clock.rs, src/src/state.rs and src/src/outbound/site_client.rs)

    What a site and the relay's surroundings do in the source's tests: the documents
    a site signs, the site that records, the outbox that records, the clock that
    stands still, the fresh state on emptied tables.  An [unwrap] that would panic is
    the error of a [result].  The documents matter beyond the tests: they are what an
    honest site sends, and [Section Honest] shows that the relay accepts them. *)

From S2P Require Import Config Startup.
From S2P Require Import Prelude Errors Constants Utf8 Validation Base64url Json Jcs Strict.
From S2P Require Import Crypto Keys Wire Metadata Registration Assertion Revocation Matrix Documents.
From S2P Require Import Ssrf Site Tables Statements World Spec Db Register Rows.

#[local] Set Warnings "-clear-no-such-hyp".

(** ** The clock that stands still *)

(** [FrozenClock]: the value of its [AtomicI64]. *)
Record FrozenClock := { fc_value : Z }.

Definition frozen_new (ms : Z) : FrozenClock := {| fc_value := ms |}.
Definition frozen_set (ms : Z) (c : FrozenClock) : FrozenClock := {| fc_value := ms |}.
Definition frozen_now_ms (c : FrozenClock) : Z := fc_value c.

(** ** The outbox that records *)

(** [RecordingSink]: its messages, the oldest first. *)
Record RecordingSink := { sink_messages : list OutboundNotice }.

Definition sink_send_notice (room_id body : string) (s : RecordingSink) : result unit * RecordingSink :=
  (Ok tt, {| sink_messages := sink_messages s ++ [{| n_room_id := room_id; n_body := body |}] |}).
Definition sink_recorded (s : RecordingSink) : list OutboundNotice := sink_messages s.

(** [NoopSink], with the [recorded] of the trait. *)
Definition noop_send_notice (room_id body : string) : result unit := Ok tt.
Definition noop_recorded : list OutboundNotice := [].

(** ** The site that records *)

Record RecordingSite := {
  rec_metadata : option SiteMetadata;
  rec_posts : list (string * string * list byte);
  rec_post_status : Z
}.

(** [RecordingSite::with_metadata]. *)
Definition with_metadata (metadata : SiteMetadata) : RecordingSite := {|
  rec_metadata := Some metadata; rec_posts := []; rec_post_status := 202 |}.

Definition quoted (s : string) : string := String (zc 34) s +:+ String (zc 34) "".

(** [post_json]: the call is recorded, the idempotency key is not. *)
Definition rec_post_json (domain path : string) (body : list byte) (key : option string)
    (s : RecordingSite) : result SiteResponse * RecordingSite :=
  (Ok {| sr_status := rec_post_status s;
         sr_body := as_bytes ("{" +:+ quoted "status" +:+ ":" +:+ quoted "accepted" +:+ "}") |},
   {| rec_metadata := rec_metadata s; rec_posts := rec_posts s ++ [(domain, path, body)];
      rec_post_status := rec_post_status s |}).

(** ** test_support *)

(** [test_pool]: the database of [TEST_DATABASE_URL], migrated, when there is one. *)
Definition test_pool (su : Surroundings) (s : Schema) : option unit * Schema :=
  match env_var (su_host su) "TEST_DATABASE_URL" with
  | None => (None, s)
  | Some url => let '(r, s) := connect su url s in (if is_ok r then Some tt else None, s)
  end.

Definition TEST_IAT : Z := 1800000000000.
Definition TEST_EXP : Z := 1800000300000.
Definition TEST_DOMAIN : string := "login.example.org".
Definition TEST_SESSION : string := "session_123456789".
Definition TEST_NONCE : string := "nonce_12345678901".

Section Code.
Context `{Base64} `{Crypto} `{JsonText}.

(** [signed_metadata]. *)
Definition signed_metadata (domain display_name : string) (site_key : list byte)
  : result SiteMetadata :=
  let public := Base64url.encode (public_key_raw site_key) in
  let? canonical := canonicalize_object
    [("displayName", json_str display_name);
     ("domain", json_str domain);
     ("publicKey", json_str public);
     ("version", json_int 1)] in
  Ok {| meta_version := 1; meta_domain := domain; meta_display_name := display_name;
        meta_public_key := public; meta_signature := Keys.sign site_key (as_bytes canonical) |}.

(** [signed_registration]. *)
Definition signed_registration (site_key : list byte) (domain session nonce : string) (iat exp : Z)
  : result RegistrationRequest :=
  let? qr := canonicalize_object
    [("domain", json_str domain);
     ("exp", json_int exp);
     ("iat", json_int iat);
     ("nonce", json_str nonce);
     ("session", json_str session);
     ("v", json_int 1)] in
  let qr_signature := Keys.sign site_key (as_bytes qr) in
  let? registration := canonicalize_object
    [("domain", json_str domain);
     ("exp", json_int exp);
     ("iat", json_int iat);
     ("nonce", json_str nonce);
     ("qrSignature", json_str qr_signature);
     ("requestedDisplayName", json_str "");
     ("sessionId", json_str session);
     ("version", json_int 1)] in
  Ok {| reg_version := 1; reg_domain := domain; reg_session_id := session; reg_nonce := nonce;
        reg_iat := iat; reg_exp := exp; reg_requested_display_name := "";
        reg_qr_signature := qr_signature;
        reg_registration_signature := Keys.sign site_key (as_bytes registration) |}.

(** [RecordingSite::fetch_metadata]. *)
Definition rec_fetch_metadata (domain : string) (s : RecordingSite) : result SiteMetadata :=
  recording_fetch_metadata (rec_metadata s) domain.

(** [test_keys]: the signing key is drawn, the others are constants. *)
Definition test_keys : M (list byte * list byte * list byte * list byte) :=
  let! signing := fill_bytes 32 in
  let! at_rest := lift (at_rest_key (repeat x0b 32)) in
  ret (signing, at_rest, repeat x0d 32, repeat x11 32).

(** The recording site as the trait's client, one call at a time: the world keeps its
    posts. *)
Definition recording_site (site : RecordingSite) : SiteFetcher := {|
  site_fetch_metadata domain := rec_fetch_metadata domain site;
  site_post_json domain path body key := fst (rec_post_json domain path body key site)
|}.

(** The doubles in place of the clock, the site and the outbox of a state. *)
Definition test_env (site : RecordingSite) (clock : FrozenClock) (E : Env) : Env := {|
  env_now _ := frozen_now_ms clock; env_unix_secs := @env_unix_secs E; env_rand := @env_rand E;
  env_pool := @env_pool E; env_begin := @env_begin E; env_sql := @env_sql E;
  env_db_now := @env_db_now E; env_exec := @env_exec E; env_commit := @env_commit E;
  env_rollback := @env_rollback E; env_returning := @env_returning E;
  env_notice _ := IoOk; env_notice_error := @env_notice_error E;
  env_site _ := recording_site site; env_timestamp_millis := @env_timestamp_millis E
|}.

Context `{Env}.

(** [reset_tables]: without a connection, or when the statement fails, nothing
    happens.  [RESTART IDENTITY] restarts the sequences of the ids. *)
Definition reset_tables (w : World) : World :=
  let n := w_step w in
  if env_pool n then
    match env_exec (S n) with
    | IoLost => bump (bump w)
    | _ => set_seqs (Build_Seqs 1 1 1) (set_db empty_db (bump (bump w)))
    end
  else bump w.

(** [state_with_pool], in the environment [test_env] of its site and clock: a state of
    its own, with an outbox, a site and counters that have recorded nothing and a sync
    that is up; the limiter's statics are the process's. *)
Definition state_with_pool (clock_ms : Z) (w : World) : result (AppState * list byte) * World :=
  let '(keys, w) := run test_keys (reset_tables w) in
  match keys with
  | Err e => (Err e, w)
  | Ok (signing, at_rest, subject, pepper) =>
      (Ok ({| st_at_rest := at_rest; st_lookup_pepper := pepper; st_subject_secret := subject;
              st_subject_key_version := 1; st_signing_key := signing;
              st_signing_kid := DEFAULT_KID; st_relay_user_id := MATRIX_USER_ID |}, signing),
       set_posts [] (set_notices [] (set_metrics no_metrics (set_sync true clock_ms w))))
  end.
End Code.

(** *** The doubles and the world agree *)

Section Doubles.
Context `{Base64} `{Crypto} `{JsonText} `{E : Env}.

(** What the world has of the doubles. *)
Definition sink_of (w : World) : RecordingSink := {| sink_messages := w_notices w |}.
Definition posts_of (w : World) : list (string * string * list byte) :=
  List.map (fun p => (po_domain p, po_path p, po_body p)) (w_posts w).

Lemma sink_agrees site clock room_id body w :
  let '(r, w') := run (H := test_env site clock E) (send_notice room_id body) w in
  (r, sink_of w') = sink_send_notice room_id body (sink_of w).
Proof. done. Qed.

Lemma site_agrees site clock domain path body key w :
  rec_posts site = posts_of w ->
  let '(r, w') := run (H := test_env site clock E) (site_post domain path body key) w in
  let '(r', site') := rec_post_json domain path body key site in
  r = r' /\ rec_posts site' = posts_of w'.
Proof. intros Hp. cbn. split; [done|]. unfold posts_of. cbn. by rewrite List.map_app, Hp. Qed.
End Doubles.

(** ** What a site signs is valid *)

Section Honest.
Context `{Base64Laws} `{CryptoLaws} `{JsonTextLaws}.
Variables (key : list byte) (domain : string).
Hypotheses (Hkey : blen key = 32) (Hdomain : validate_domain domain = Ok tt).

Definition site_public_key : string := Base64url.encode (public_key_raw key).

Lemma site_verifies b : verify site_public_key b (Keys.sign key b) = Ok tt.
Proof. apply (verify_sign key b []); auto. Qed.

Lemma signed_metadata_valid name :
  trim name <> "" -> slen name <= 100 ->
  exists m, signed_metadata domain name key = Ok m /\ metadata_valid m domain /\
    meta_public_key m = site_public_key /\ meta_display_name m = name.
Proof.
  intros Hname Hlen. unfold signed_metadata. assert (in_i64 1) by by vm_compute.
  match goal with |- context [canonicalize_object ?f] => destruct (canonical_total f) as [t Ht] end.
  { plain_tac. }
  rewrite Ht. cbn [rbind]. eexists. split; [done|]. split; [|done]. split; cbn; try done.
  - unfold site_public_key. rewrite encode_len. unfold public_key_raw. by rewrite ed_public_len.
  - exists t. split; [exact Ht|]. apply site_verifies.
Qed.

(** The request is well formed, within the sizes of the protocol, and verifies under
    the key of any metadata the site publishes. *)
Lemma signed_registration_valid session nonce iat exp :
  over cls_id 16 128 session -> over cls_id 16 128 nonce -> in_i64 iat -> in_i64 exp ->
  iat < exp <= iat + 300000 ->
  exists r, signed_registration key domain session nonce iat exp = Ok r /\
    registration_valid r /\ registration_wf r /\
    (reg_domain r, reg_session_id r, reg_nonce r, reg_iat r, reg_exp r) =
      (domain, session, nonce, iat, exp) /\ reg_requested_display_name r = "" /\
    (exists b, qr_canonical r = Ok b /\ verify site_public_key b (reg_qr_signature r) = Ok tt) /\
    (exists b, registration_canonical r = Ok b /\
       verify site_public_key b (reg_registration_signature r) = Ok tt).
Proof.
  intros Hs Hn Hi He Hw. unfold signed_registration.
  assert (in_i64 1) by by vm_compute.
  match goal with |- context [canonicalize_object ?f] => destruct (canonical_total f) as [qr Hqr] end.
  { plain_tac. }
  rewrite Hqr. cbn [rbind].
  match goal with |- context [canonicalize_object ?f] => destruct (canonical_total f) as [rc Hrc] end.
  { plain_tac. }
  rewrite Hrc. cbn [rbind]. eexists. split; [done|]. split; [|split; [by split_and!|]].
  - split; cbn; try done; try apply sign_over. by apply validate_domain_Ok.
  - split; [done|]. split; [done|]. split.
    + exists (as_bytes qr). split; [|apply site_verifies].
      apply qr_canonical_Ok. by exists qr.
    + exists (as_bytes rc). split; [|apply site_verifies].
      apply registration_canonical_Ok. by exists rc.
Qed.
End Honest.

(** A well-formed request travels as a body within the limit of the server, which
    reads it back. *)
Lemma registration_travels `{JsonTextLaws} `{JsonReader} `{!JsonReaderLaws} r :
  registration_valid r -> registration_wf r -> utf8_ok (reg_requested_display_name r) ->
  exists b, to_vec (request_fields r) = Ok b /\ from_slice registration_from_value b = Ok r /\
    blen b <= MAX_HTTP_BODY.
Proof.
  intros [Hv [Hdl Hd] Hs Hn Hw Hp Hq Hg] Hwf Hutf. pose proof Hwf as (? & ? & ?).
  assert (Hc : forall lo hi s, over cls_id lo hi s -> utf8_ok s)
    by (intros lo hi s; apply over_utf8, cls_id_ascii).
  assert (Hwire : wire_fields (request_fields r)).
  { assert (utf8_ok (reg_domain r)) by by apply domain_utf8.
    wire_tac; cbn [utf8_value json_str]; eauto. }
  destruct (to_vec_total (request_fields r)) as [b Hb]; [apply Hwire|]. exists b. split; [done|].
  rewrite (from_slice_to_vec registration_from_value _ b Hwire Hb), registration_from_fields by done.
  split; [done|]. pose proof (to_vec_len _ b (proj1 Hwire) Hb) as Hlen.
  destruct Hs as [_ Hs], Hn as [_ Hn], Hq as [_ Hq], Hg as [_ Hg].
  unfold fields_size, request_fields in Hlen. cbn [foldr fst snd value_size json_str json_int] in Hlen.
  repeat match type of Hlen with context [slen (String ?c ?s)] =>
    let n := eval vm_compute in (slen (String c s)) in change (slen (String c s)) with n in Hlen end.
  unfold MAX_HTTP_BODY. lia.
Qed.
