(* ===== verification/UnitTests.v ===== *)
(** * The unit tests of the source (the [mod tests] of the files under src/src)

    Each test as a function that panics or not: an assertion that does not hold and
    the [unwrap] of an error are [None].  Keys and nonces that a test draws are its
    arguments, so that the theorem at the end is about every draw; the signing side
    of P-256, which the relay has no use for, is a parameter.  Tests whose inputs are
    fixed run on the concrete codecs. *)

From S2P Require Import Prelude Errors Constants Utf8 Validation Base64url Json JsonRfc Jcs.
From S2P Require Import Strict StrictRfc Crypto CryptoToy Keys Wire Metadata Registration.
From S2P Require Import Assertion Revocation Matrix RoomPolicy Documents Ip Ssrf Site Http.

#[local] Set Warnings "-clear-no-such-hyp".

(** ** Panics *)

Definition assert (b : bool) : option unit := if b then Some tt else None.
Definition unwrap {A} (r : result A) : option A := match r with Ok a => Some a | Err _ => None end.
Definition is_err {A} (r : result A) : bool := negb (is_ok r).
Definition passes {A} (t : option A) : Prop := is_Some t.

(** [String::from_utf8(..).unwrap()]. *)
Definition text (b : list byte) : option string := from_utf8 b.

(** A text of the tests with ['] for the quotation mark. *)
Fixpoint quotes (s : string) : string :=
  match s with
  | EmptyString => ""
  | String c s' => String (if Ascii.eqb c "'" then QUOTE else c) (quotes s')
  end.

#[export] Instance RoomPolicyViolation_eq_dec : EqDecision RoomPolicyViolation.
Proof. solve_decision. Defined.

(** ** room_policy.rs *)

Definition ok_room : RoomSnapshot := {|
  rs_encrypted := true; rs_is_direct := true;
  rs_members := ["@alice:pseud0.org"; MATRIX_USER_ID];
  rs_sender := "@alice:pseud0.org"; rs_relay_user_id := MATRIX_USER_ID |}.

Definition accepts_encrypted_dm : option unit :=
  assert (allowed (check_room ok_room)) ;;
  let without_direct_hint := {|
    rs_encrypted := rs_encrypted ok_room; rs_is_direct := false; rs_members := rs_members ok_room;
    rs_sender := rs_sender ok_room; rs_relay_user_id := rs_relay_user_id ok_room |} in
  assert (allowed (check_room without_direct_hint)).

Definition unencrypted_room (room : RoomSnapshot) : RoomSnapshot := {|
  rs_encrypted := false; rs_is_direct := rs_is_direct room; rs_members := rs_members room;
  rs_sender := rs_sender room; rs_relay_user_id := rs_relay_user_id room |}.
Definition third_member_room (room : RoomSnapshot) : RoomSnapshot := {|
  rs_encrypted := rs_encrypted room; rs_is_direct := rs_is_direct room;
  rs_members := rs_members room ++ ["@mallory:pseud0.org"];
  rs_sender := rs_sender room; rs_relay_user_id := rs_relay_user_id room |}.

Definition rejects_unencrypted_and_third_member : option unit :=
  assert (bool_decide (check_room (unencrypted_room ok_room) = refuse Unencrypted)) ;;
  assert (bool_decide (check_room (third_member_room ok_room) = refuse UnexpectedMember)).

Definition base_invite : InviteSnapshot := {|
  is_encrypted := true; is_encryption_unknown := false; is_is_direct := true;
  is_joined_member_count := 1; is_invited_member_count := 1;
  is_members := ["@alice:pseud0.org"; MATRIX_USER_ID]; is_relay_user_id := MATRIX_USER_ID |}.

Definition accepts_encrypted_direct_two_party_invite : option unit :=
  assert (allowed (check_invite base_invite)) ;;
  let stripped_invite := {|
    is_encrypted := true; is_encryption_unknown := false; is_is_direct := true;
    is_joined_member_count := 1; is_invited_member_count := 1;
    is_members := [MATRIX_USER_ID]; is_relay_user_id := MATRIX_USER_ID |} in
  assert (allowed (check_invite stripped_invite)) ;;
  let invite_without_direct_hint := {|
    is_encrypted := true; is_encryption_unknown := false; is_is_direct := false;
    is_joined_member_count := 1; is_invited_member_count := 1;
    is_members := [MATRIX_USER_ID]; is_relay_user_id := MATRIX_USER_ID |} in
  assert (allowed (check_invite invite_without_direct_hint)).

Definition rejects_unsafe_invites : option unit :=
  let unencrypted := {|
    is_encrypted := false; is_encryption_unknown := false; is_is_direct := true;
    is_joined_member_count := 1; is_invited_member_count := 1;
    is_members := is_members base_invite; is_relay_user_id := MATRIX_USER_ID |} in
  assert (bool_decide (check_invite unencrypted = refuse Unencrypted)) ;;
  let third_member := {|
    is_encrypted := true; is_encryption_unknown := false; is_is_direct := true;
    is_joined_member_count := 2; is_invited_member_count := 1;
    is_members := is_members base_invite ++ ["@mallory:pseud0.org"];
    is_relay_user_id := MATRIX_USER_ID |} in
  assert (bool_decide (check_invite third_member = refuse UnexpectedMember)) ;;
  let unknown_summary_and_encryption := {|
    is_encrypted := false; is_encryption_unknown := true; is_is_direct := true;
    is_joined_member_count := 0; is_invited_member_count := 0;
    is_members := is_members base_invite; is_relay_user_id := MATRIX_USER_ID |} in
  assert (allowed (check_invite unknown_summary_and_encryption)).

(** ** protocol/domain.rs, protocol/time.rs, http/routes.rs *)

Definition accepts_bare_dns : option unit := unwrap (validate_domain "login.example.org").

Definition rejects_ip_and_trailing_dot : option unit :=
  assert (is_err (validate_domain "127.0.0.1")) ;;
  assert (is_err (validate_domain "login.example.org.")) ;;
  assert (is_err (validate_domain "LOGIN.EXAMPLE.ORG")).

Definition ttl_over_five_minutes_fails : option unit :=
  assert (is_err (validate_window 1800000000000 (1800000000000 + 300001))) ;;
  unwrap (validate_window 1800000000000 (1800000000000 + 300000)).

Definition milliseconds_not_seconds : option unit :=
  let iat := 1800000000000 in
  assert (sent_at_in_qr_window iat iat (iat + 300000)) ;;
  assert (negb (sent_at_in_qr_window 1800000000 iat (iat + 300000))).

Definition matrix_sync_readiness_requires_a_recent_success : option unit :=
  let now := 1800000000000 in
  assert (matrix_sync_is_fresh now now true) ;;
  assert (matrix_sync_is_fresh now (now - MATRIX_SYNC_STALE_MS) true) ;;
  assert (negb (matrix_sync_is_fresh now (now - MATRIX_SYNC_STALE_MS - 1) true)) ;;
  assert (negb (matrix_sync_is_fresh now now false)) ;;
  assert (negb (matrix_sync_is_fresh now 0 true)).

(** ** outbound/ssrf.rs, outbound/site_client.rs *)

Definition is_blocked (s : string) : option bool := is_blocked_ip <$> parse_ip s.

Definition blocks_private_metadata_and_loopback : option unit :=
  is_blocked "127.0.0.1" ≫= assert ;;
  is_blocked "10.0.0.1" ≫= assert ;;
  is_blocked "192.168.1.1" ≫= assert ;;
  is_blocked "169.254.169.254" ≫= assert ;;
  is_blocked "100.64.0.1" ≫= assert ;;
  is_blocked "::1" ≫= assert ;;
  is_blocked "::ffff:10.1.2.3" ≫= assert ;;
  b ← is_blocked "1.1.1.1"; assert (negb b).

Definition rejects_unsafe_url_inputs : option unit :=
  assert (is_err (site_url "login.example.org." "/.well-known/pseud0-web-login")) ;;
  assert (is_err (site_url "127.0.0.1" "/.well-known/pseud0-web-login")) ;;
  unwrap (site_url "login.example.org" "/.well-known/pseud0-web-login") ;;
  Some tt.

Definition rejects_redirect_status : option unit :=
  let raw := as_bytes ("HTTP/1.1 302 Found" +:+ CRLF +:+ "Location: https://evil/" +:+ CRLF +:+ CRLF) in
  assert (is_err (parse_http_response raw 1024)).

(** ** json/strict.rs, crypto/jcs.rs, crypto/base64url.rs *)

Section Codecs.
Context `{Base64} `{JsonText} `{JsonReader}.

(** The structure [Sample] with its derived reader. *)
Record Sample := { sample_a : Z; sample_b : string }.

#[export] Instance Sample_eq_dec : EqDecision Sample.
Proof. solve_decision. Defined.

Definition sample_from_value (v : Value) : option Sample :=
  m ← struct_fields ["a"; "b"] v;
  a ← field_i64 "a" m;
  b ← field_str "b" m;
  Some {| sample_a := a; sample_b := b |}.

Definition sample_from_str (s : string) : result Sample := from_str sample_from_value (quotes s).

Definition rejects_duplicate_keys : option unit :=
  assert (is_err (sample_from_str "{'a':1,'a':2,'b':'x'}")).

Definition rejects_unknown_fields_and_floats : option unit :=
  assert (is_err (sample_from_str "{'a':1,'b':'x','c':true}")) ;;
  assert (is_err (sample_from_str "{'a':1.5,'b':'x'}")).

Definition accepts_exact_object : option unit :=
  parsed ← unwrap (sample_from_str "{'a':1,'b':'x'}");
  assert (bool_decide (parsed = {| sample_a := 1; sample_b := "x" |})).

Definition android_key_sort_vector : option unit :=
  let value := VObject [("z", json_int 1); ("a", json_str "first")] in
  t ← unwrap (canonicalize value);
  assert (bool_decide (t = quotes "{'a':'first','z':1}")).

Definition qr_object_lexicographic_order : option unit :=
  canonical ← unwrap (canonicalize_object
    [("domain", json_str "login.example.org");
     ("exp", json_int 1800000300000);
     ("iat", json_int 1800000000000);
     ("nonce", json_str "nonce_12345678901");
     ("session", json_str "session_123456789");
     ("v", json_int 1)]);
  assert (bool_decide (canonical = quotes
    "{'domain':'login.example.org','exp':1800000300000,'iat':1800000000000,'nonce':'nonce_12345678901','session':'session_123456789','v':1}")).

(** [json!(1.5)], by its bits. *)
Definition rejects_floats : option unit :=
  assert (is_err (canonicalize (VObject [("n", VNumber (NFloat 0x3FF8000000000000))]))).

Definition round_trip_unpadded : option unit :=
  let encoded := Base64url.encode [x01; x02; x03; x04] in
  assert (negb (contains_char "=" encoded)) ;;
  decoded ← unwrap (Base64url.decode encoded);
  assert (bool_decide (decoded = [x01; x02; x03; x04])).

Definition rejects_padding : option unit := assert (is_err (Base64url.decode "AQIDBA==")).

(** ** protocol/matrix.rs *)

Definition request_round_trip_matches_kind_discriminator : option unit :=
  let message := Matrix.Request "session_123456789" "nonce_12345678901" 1800000001000
                   "login.example.org" in
  encoded ← unwrap (Matrix.encode message);
  assert (starts_with MATRIX_PREFIX encoded) ;;
  assert (negb (contains_char "=" encoded)) ;;
  decoded ← unwrap (Matrix.decode encoded);
  assert (bool_decide (decoded = message)) ;;
  bytes ← unwrap (Base64url.decode (str_drop (String.length MATRIX_PREFIX) encoded));
  json ← text bytes;
  assert (contains (quotes "'kind':'request'") json) ;;
  assert (contains (quotes "'sessionId'") json).

(** [serde_json::to_string] gives the text of [to_vec]. *)
Definition result_emits_explicit_nulls : option unit :=
  let message := Matrix.Result "session_123456789" "nonce_12345678901" 4 false None
                   (Some "request_expired") in
  bytes ← unwrap (to_vec (message_fields message));
  json ← text bytes;
  assert (contains (quotes "'siteAccountId':null") json) ;;
  assert (contains (quotes "'reason':'request_expired'") json).

Definition consent_signed_object_omits_null_display_name : option unit :=
  named ← unwrap (consent_signed_bytes true "challenge_123456" (Some "Alice") "nonce_12345678901"
                    "session_123456789" 1800000003000);
  with_name ← text named;
  assert (contains "displayName" with_name) ;;
  unnamed ← unwrap (consent_signed_bytes false "challenge_123456" None "nonce_12345678901"
                      "session_123456789" 1800000003000);
  refused ← text unnamed;
  assert (negb (contains "displayName" refused)).
End Codecs.

(** ** crypto/did_key.rs, crypto/ed25519.rs, crypto/at_rest.rs, crypto/subject.rs *)

Section Keyed.
Context `{Base64} `{Crypto} `{JsonText}.

Definition round_trip_compressed_p256 `{EqDecision P256Key} (public : P256Key) : option unit :=
  let did := encode_p256_did_key public in
  assert (starts_with "did:key:z" did) ;;
  decoded ← unwrap (decode_p256_did_key did);
  assert (bool_decide (decoded = public)).

Definition rejects_other_methods : option unit :=
  assert (is_err (decode_p256_did_key "did:web:example.org")) ;;
  assert (is_err (decode_p256_did_key "did:key:zQ3shokFTS3brHcDQmzN")).

Definition metadata_text (public : string) : result string :=
  canonicalize (VObject
    [("displayName", json_str "Example"); ("domain", json_str "login.example.org");
     ("publicKey", json_str public); ("version", json_int 1)]).

Definition signs_and_verifies_metadata_object (key : list byte) : option unit :=
  let public := Base64url.encode (public_key_raw key) in
  message ← unwrap (metadata_text public);
  let signature := Keys.sign key (as_bytes message) in
  assert (slen signature =? 86) ;;
  unwrap (verify public (as_bytes message) signature) ;;
  assert (is_err (verify public (as_bytes "mutated") signature)).

Definition encrypt_round_trip (nonce : list byte) : option unit :=
  key ← unwrap (at_rest_key (repeat x09 32));
  blob ← unwrap (encrypt key nonce (as_bytes "hidden"));
  opened ← unwrap (decrypt key blob);
  assert (bool_decide (opened = as_bytes "hidden")).

Definition stable_per_domain_and_unlinkable_across_domains : option unit :=
  let secret := repeat x07 32 in
  a ← unwrap (derive_pairwise_sub secret "login.example.org" "@alice:pseud0.org");
  b ← unwrap (derive_pairwise_sub secret "login.example.org" "@alice:pseud0.org");
  c ← unwrap (derive_pairwise_sub secret "other.example.org" "@alice:pseud0.org");
  assert (bool_decide (a = b)) ;;
  assert (bool_decide (a <> c)) ;;
  assert (slen a =? 43) ;;
  assert (negb (contains_char "@" a)).

(** ** crypto/p256_consent.rs *)

(** [SigningKey::sign_prehash] of a drawn key, as [r || s], and [to_der] of that. *)
Variables (public : P256Key) (sign_prehash to_der : list byte -> list byte).

Definition sign_raw (message : list byte) : string :=
  Base64url.encode (sign_prehash (sha256 message)).

(** The text the user of the test signs. *)
Definition refusal_text : result string :=
  canonicalize (VObject
    [("approved", VBool false); ("challenge", json_str "challenge_123456");
     ("nonce", json_str "nonce_12345678901"); ("sessionId", json_str "session_123456789");
     ("sentAt", json_int 1800000003000)]).

Definition raw_r_s_succeeds_and_omits_null_display_name : option unit :=
  let did := encode_p256_did_key public in
  canonical ← unwrap refusal_text;
  assert (negb (contains "displayName" canonical)) ;;
  let signature := sign_raw (as_bytes canonical) in
  unwrap (verify_consent_signature did (as_bytes canonical) signature).

Definition der_and_wrong_did_fail : option unit :=
  let did := encode_p256_did_key public in
  let message := as_bytes (quotes "{'approved':true}") in
  let sig := sign_prehash (sha256 message) in
  let der_b64 := Base64url.encode (to_der sig) in
  assert (is_err (verify_consent_signature did message der_b64)) ;;
  assert (is_err (verify_consent_signature "did:key:zWrong" message (Base64url.encode sig))).

(** ** protocol/assertion.rs *)

Definition test_assertion (key : list byte) : result RelayAssertion :=
  Assertion.sign key "relay-2026-01" "login.example.org" (Base64url.encode (repeat x03 32))
    "session_123456789" "nonce_12345678901" (Base64url.encode (repeat x04 16))
    1800000003500 1800000300000 "Alice" 1.

Definition assertion_is_flat_jcs_not_jwt (key : list byte) : option unit :=
  assertion ← unwrap (test_assertion key);
  raw ← unwrap (Assertion.to_bytes assertion);
  bytes ← text raw;
  assert (negb (contains "eyJ" bytes)) ;;
  assert (contains (quotes "'iss':'https://relay.pseud0.org'") bytes) ;;
  canonical ← unwrap (Assertion.canonical_without_signature assertion);
  unwrap (verify (Base64url.encode (public_key_raw key)) (as_bytes canonical)
            (a_signature assertion)).
End Keyed.

(** ** Lemmas *)

(** A pattern without the character [c] does not straddle it. *)
Lemma prefix_split c p a b : contains_char c p = false ->
  String.prefix p (a +:+ String c b) = String.prefix p a.
Proof.
  unfold contains_char, str_existsb. revert a. induction p as [|d p IH]; intros a Hp; [by destruct a|].
  apply negb_false_iff in Hp. cbn in Hp. apply andb_prop in Hp as [Hd Hp].
  apply negb_true_iff, Ascii.eqb_neq in Hd.
  destruct a as [|x a]; cbn; destruct (ascii_dec d _) as [->|]; try done.
  apply IH. by apply negb_false_iff.
Qed.

Lemma contains_split c p a b : p <> "" -> contains_char c p = false ->
  contains p (a +:+ String c b) = contains p a || contains p b.
Proof.
  intros Hne Hp. induction a as [|x a IH].
  - cbn [append contains]. change (String c b) with ("" +:+ String c b) at 1.
    rewrite prefix_split by done. destruct p; [done|]. done.
  - change (String x a +:+ String c b) with (String x (a +:+ String c b)). cbn [contains].
    change (String x (a +:+ String c b)) with (String x a +:+ String c b) at 1.
    rewrite prefix_split by done. by rewrite IH, orb_assoc.
Qed.

Lemma contains_app p a b : contains p a = true -> contains p (a +:+ b) = true.
Proof.
  assert (Hpre : forall p a, String.prefix p a = true -> String.prefix p (a +:+ b) = true).
  { clear. intros p. induction p as [|d p IH]; intros a; [by destruct (a +:+ b)|].
    destruct a as [|x a]; [done|]. cbn. destruct (ascii_dec d x); [|done]. apply IH. }
  induction a as [|x a IH]; cbn [contains append]; rewrite ?orb_true_iff.
  - intros [H|?]; [|done]. destruct p; [|done]. by destruct b.
  - intros [H|H]; [left; by apply (Hpre p (String x a))|right; auto].
Qed.

(** The last entry of a printed sequence. *)
Lemma print_seq_snoc {A} close (pr : A -> option string) l x first u t :
  l <> [] -> print_seq "" pr first l = Some u -> pr x = Some t ->
  print_seq close pr first (l ++ [x]) = Some (u +:+ "," +:+ t +:+ close).
Proof.
  intros Hne Hu Ht. revert first u Hne Hu. induction l as [|y l IH]; intros first u Hne Hu; [done|].
  cbn [app print_seq] in *. destruct (pr y) as [ty|]; [|done].
  destruct l as [|z l].
  - cbn [app print_seq] in *. rewrite Ht. injection Hu as <-. cbn. by rewrite str_app_nil_r, str_app_assoc.
  - destruct (print_seq "" pr false (z :: l)) as [v|] eqn:Ev; [|done]. injection Hu as <-.
    rewrite (IH false v) by done. by rewrite !str_app_assoc.
Qed.

Lemma contains_char_cls c s : cls_id c = false -> str_forallb cls_id s = true -> contains_char c s = false.
Proof.
  intros Hc. unfold contains_char, str_existsb. rewrite negb_false_iff.
  induction s as [|d s IH]; cbn [str_forallb]; [done|]. intros [Hd Hs]%andb_prop. rewrite IH by done.
  rewrite andb_true_r. apply negb_true_iff, Ascii.eqb_neq. congruence.
Qed.

Lemma assert_passes b : passes (assert b) <-> b = true.
Proof. destruct b; split; try done; [by eexists|by intros [? [=]]]. Qed.

Lemma is_err_iff {A} (r : result A) : is_err r = true <-> is_ok r = false.
Proof. unfold is_err. apply negb_true_iff. Qed.

(** ** What becomes of the tests *)

Module Decided.
Import Rfc4648 Rfc8259 RfcReader.

(** Identifiers need no escape. *)
Lemma quote_id s : str_forallb cls_id s = true -> quote s = String QUOTE (s +:+ String QUOTE "").
Proof.
  intros Hs. unfold quote. do 2 f_equal.
  induction s as [|c s IH]; cbn [str_forallb] in Hs; [done|]. apply andb_prop in Hs as [Hc Hs].
  simpl. rewrite IH by done. revert Hc. destruct c as [[] [] [] [] [] [] [] []]; vm_compute; done.
Qed.

(** The tests that draw nothing. *)
Definition fixed_tests : list (option unit) :=
  [accepts_encrypted_dm; rejects_unencrypted_and_third_member;
   accepts_encrypted_direct_two_party_invite; rejects_unsafe_invites;
   accepts_bare_dns; rejects_ip_and_trailing_dot; ttl_over_five_minutes_fails;
   milliseconds_not_seconds; matrix_sync_readiness_requires_a_recent_success;
   blocks_private_metadata_and_loopback; rejects_unsafe_url_inputs; rejects_redirect_status;
   rejects_duplicate_keys; rejects_unknown_fields_and_floats; accepts_exact_object;
   android_key_sort_vector; qr_object_lexicographic_order; rejects_floats;
   round_trip_unpadded; rejects_padding; request_round_trip_matches_kind_discriminator;
   result_emits_explicit_nulls; consent_signed_object_omits_null_display_name].

Lemma fixed_tests_pass : Forall passes fixed_tests.
Proof. repeat (apply Forall_cons; split; [vm_compute; by eexists|]). constructor. Qed.

(** A key pair of the p256 crate: its signatures have 64 bytes and verify, and DER
    starts with the tag of a sequence. *)
Record key_pair `{Crypto} (public : P256Key) (sign_prehash to_der : list byte -> list byte) : Prop := {
  kp_len : forall d, blen d = 32 -> blen (sign_prehash d) = 64;
  kp_verifies : forall d, exists g,
    p256_sig_from_slice (sign_prehash d) = Some g /\ p256_verify_prehash public d g = true;
  kp_der : forall s, head (to_der s) = Some x30
}.

(** A base-58 text has at least as many digits as the bytes it stands for. *)
Definition base58_short `{Crypto} : Prop :=
  forall s b, bs58_decode s = Some b -> blen b <= slen s.

Section Laws.
Context `{CryptoLaws}.

Lemma encrypt_test nonce : blen nonce = NONCE_LEN -> passes (encrypt_round_trip nonce).
Proof.
  intros Hn. unfold encrypt_round_trip.
  assert (at_rest_key (repeat x09 32) = Ok (repeat x09 32)) as -> by (unfold at_rest_key; by rewrite normalize_secret_raw).
  cbn [unwrap mbind option_bind].
  destruct (encrypt_total (repeat x09 32) nonce (as_bytes "hidden") Hn ltac:(by vm_compute) eq_refl)
    as (blob & Hb). rewrite Hb. cbn [unwrap mbind option_bind].
  rewrite (decrypt_encrypt _ _ _ _ Hn Hb). cbn [unwrap mbind option_bind].
  apply assert_passes. by rewrite bool_decide_eq_true.
Qed.

Lemma did_key_test `{!EqDecision P256Key} (pk : P256Key) : passes (round_trip_compressed_p256 pk).
Proof.
  unfold round_trip_compressed_p256. rewrite decode_encode_did_key. cbn [unwrap mbind option_bind].
  assert (starts_with "did:key:z" (encode_p256_did_key pk) = true) as ->.
  { unfold encode_p256_did_key, starts_with. by apply prefix_app. }
  cbn [assert mbind option_bind]. rewrite bool_decide_eq_true_2 by done. by eexists.
Qed.

(** No text so short is the key id of a P-256 key. *)
Lemma short_did id : base58_short -> slen id < 40 -> is_ok (decode_p256_did_key id) = false.
Proof.
  intros Hb Hl. destruct (decode_p256_did_key id) as [k|] eqn:E; [|done].
  apply decode_p256_did_key_Ok in E as (encoded & point & -> & Hd & Hp & _).
  apply Hb in Hd. rewrite blen_app in Hd. rewrite slen_app in Hl.
  change (slen "did:key:z") with 9 in Hl. change (blen MULTICODEC_P256) with 2 in Hd. lia.
Qed.

Lemma other_methods_test : base58_short -> passes rejects_other_methods.
Proof. intros Hb. unfold rejects_other_methods, is_err. rewrite !short_did by done. by eexists. Qed.

Lemma metadata_text_total p : exists m, metadata_text p = Ok m.
Proof. eexists. vm_compute. reflexivity. Qed.

Lemma metadata_test key : blen key = 32 -> exists m,
  metadata_text (Base64url.encode (public_key_raw key)) = Ok m /\
  (passes (signs_and_verifies_metadata_object key) <->
   is_ok (verify (Base64url.encode (public_key_raw key)) (as_bytes "mutated")
            (Keys.sign key (as_bytes m))) = false).
Proof.
  intros Hk. unfold signs_and_verifies_metadata_object.
  destruct (metadata_text_total (Base64url.encode (public_key_raw key))) as [m Hm].
  exists m. split; [done|]. rewrite Hm. cbn [unwrap mbind option_bind].
  pose proof (sign_over key (as_bytes m)) as [_ Hl].
  assert ((slen (Keys.sign key (as_bytes m)) =? 86) = true) as -> by (apply Z.eqb_eq; lia).
  cbn [assert mbind option_bind].
  pose proof (verify_sign key (as_bytes m) [] Hk (or_introl eq_refl)) as Hv. cbn [app] in Hv.
  rewrite Hv. cbn [unwrap mbind option_bind].
  by rewrite assert_passes, is_err_iff.
Qed.

Lemma unlinkable_test :
  passes stable_per_domain_and_unlinkable_across_domains <->
  hmac_sha256 (repeat x07 32) (sub_input "login.example.org" "@alice:pseud0.org") <>
  hmac_sha256 (repeat x07 32) (sub_input "other.example.org" "@alice:pseud0.org").
Proof.
  unfold stable_per_domain_and_unlinkable_across_domains.
  destruct (derive_pairwise_sub_Ok (repeat x07 32) "login.example.org" "@alice:pseud0.org" ltac:(by vm_compute))
    as (a & Ha & -> & [Hc Hl]).
  destruct (derive_pairwise_sub_Ok (repeat x07 32) "other.example.org" "@alice:pseud0.org" ltac:(by vm_compute))
    as (b & Hb & -> & _).
  rewrite Ha, Hb. cbn [unwrap mbind option_bind].
  rewrite (bool_decide_eq_true_2 (Base64url.encode a = Base64url.encode a)) by done.
  rewrite (contains_char_cls "@") by done.
  assert ((slen (Base64url.encode a) =? 43) = true) as -> by (apply Z.eqb_eq; lia).
  cbn [assert mbind option_bind negb]. case_bool_decide as E; cbn.
  - split; [|by eexists]. intros _ [= ->]. by apply E.
  - split; [by intros [? [=]]|]. intros Hne. apply encode_inj in E as ->. done.
Qed.

Lemma refusal_text_total : exists t, refusal_text = Ok t /\ contains "displayName" t = false.
Proof. eexists. split; vm_compute; reflexivity. Qed.

Lemma raw_test public sign_prehash to_der : key_pair public sign_prehash to_der ->
  exists t, refusal_text = Ok t /\
  (passes (raw_r_s_succeeds_and_omits_null_display_name public sign_prehash) <->
   head (sign_prehash (sha256 (as_bytes t))) <> Some x30).
Proof.
  intros [Hl Hv _]. destruct refusal_text_total as (t & Ht & Hd). exists t. split; [done|].
  unfold raw_r_s_succeeds_and_omits_null_display_name. rewrite Ht. cbn [unwrap mbind option_bind].
  rewrite Hd. cbn [assert negb mbind option_bind]. unfold sign_raw.
  transitivity (verify_consent_signature (encode_p256_did_key public) (as_bytes t)
    (Base64url.encode (sign_prehash (sha256 (as_bytes t)))) = Ok tt).
  { destruct (verify_consent_signature _ _ _) as [[]|]; cbn; split; try done; [by eexists|by intros [? [=]]]. }
  rewrite verify_consent_Ok. split.
  - by intros (k & raw & g & _ & <-%encode_inj & _ & Hh & _).
  - intros Hh. destruct (Hv (sha256 (as_bytes t))) as (g & Hg & Hver).
    exists public, (sign_prehash (sha256 (as_bytes t))), g. split_and!; try done.
    + apply decode_encode_did_key.
    + auto with relay.
Qed.

Lemma der_test public sign_prehash to_der : base58_short -> key_pair public sign_prehash to_der ->
  passes (der_and_wrong_did_fail public sign_prehash to_der).
Proof.
  intros Hb [Hl _ Hder]. unfold der_and_wrong_did_fail.
  assert (Hrefused : forall id m s,
    ~ verify_consent_signature id m s = Ok tt -> is_err (verify_consent_signature id m s) = true).
  { intros id m s Hn. apply is_err_iff. by destruct (verify_consent_signature id m s) as [[]|]. }
  rewrite !Hrefused; [by eexists| |].
  - rewrite verify_consent_Ok. intros (k & raw & g & _ & ->%encode_inj & _ & Hh & _). by rewrite Hder in Hh.
  - rewrite verify_consent_Ok. intros (k & _ & _ & Hk & _).
    pose proof (short_did "did:key:zWrong" Hb ltac:(by vm_compute)) as Hs. by rewrite Hk in Hs.
Qed.

(** The text under the assertion's signature does not depend on the key. *)
Definition unsigned_assertion : RelayAssertion := {|
  a_version := PROTOCOL_VERSION; a_iss := RELAY_ORIGIN; a_aud := "login.example.org";
  a_sub := Base64url.encode (repeat x03 32); a_session_id := "session_123456789";
  a_nonce := "nonce_12345678901"; a_jti := Base64url.encode (repeat x04 16);
  a_iat := 1800000003500; a_nbf := 1800000003500; a_exp := 1800000300000;
  a_display_name := "Alice"; a_subject_key_version := 1; a_kid := "relay-2026-01";
  a_signature := "" |}.

Lemma test_assertion_Ok key : exists t,
  Assertion.canonical_without_signature unsigned_assertion = Ok t /\
  test_assertion key = Ok (Assertion.with_signature unsigned_assertion (Keys.sign key (as_bytes t))).
Proof.
  assert (exists a, test_assertion key = Ok a) as [a Ha].
  { unfold test_assertion. apply assertion_sign_total; by vm_compute. }
  unfold test_assertion in Ha |- *. pose proof (assertion_sign_Ok _ _ _ _ _ _ _ _ _ _ _ _ Ha) as (_ & t & Ht & Ea).
  exists t. split; [rewrite Ea in Ht; exact Ht|]. rewrite Ha. f_equal. exact Ea.
Qed.

(** The entries before the signature, and what is printed of them. *)
Definition assertion_prefix : string := Eval vm_compute in
  match print_seq "" print_member true (take 13 (assertion_fields unsigned_assertion)) with
  | Some u => "{" +:+ u +:+ "," +:+ quote "signature" +:+ ":"
  | None => ""
  end.

Lemma assertion_text sig : str_forallb cls_id sig = true ->
  (let a := Assertion.with_signature unsigned_assertion sig in
   raw ← unwrap (Assertion.to_bytes a); text raw) =
  Some (assertion_prefix +:+ String QUOTE (sig +:+ String QUOTE "}")).
Proof.
  intros Hs. set (s := assertion_prefix +:+ _).
  assert (print (VObject (assertion_fields (Assertion.with_signature unsigned_assertion sig))) = Some s) as Hp.
  { change (assertion_fields _) with
      (take 13 (assertion_fields unsigned_assertion) ++ [("signature", json_str sig)]).
    cbn [print]. fold print_member.
    destruct (print_seq "" print_member true (take 13 (assertion_fields unsigned_assertion))) as [u|] eqn:Eu;
      [|by vm_compute in Eu].
    erewrite print_seq_snoc; [|done|exact Eu|cbn; rewrite quote_id by done; reflexivity].
    f_equal. vm_compute in Eu. injection Eu as <-. unfold s.
    change (String QUOTE "}") with (String QUOTE "" +:+ "}"). 
    rewrite <- (str_app_assoc sig (String QUOTE "") "}"). reflexivity. }
  cbn [mbind option_bind]. unfold Assertion.to_bytes, to_vec. rewrite Hp. cbn [fmap option_fmap option_map ok_or unwrap].
  apply from_utf8_as_bytes, utf8_ok_ascii. unfold s.
  rewrite str_forallb_app. change (str_forallb is_ascii assertion_prefix) with true. cbn [andb].
  cbn [str_forallb]. rewrite str_forallb_app. cbn. rewrite andb_true_r.
  apply (str_forallb_impl cls_id); [apply cls_id_ascii|done].
Qed.

Lemma assertion_test key : blen key = 32 -> exists t,
  Assertion.canonical_without_signature unsigned_assertion = Ok t /\
  (passes (assertion_is_flat_jcs_not_jwt key) <-> contains "eyJ" (Keys.sign key (as_bytes t)) = false).
Proof.
  intros Hk. destruct (test_assertion_Ok key) as (t & Ht & Ha). exists t. split; [done|].
  unfold assertion_is_flat_jcs_not_jwt. rewrite Ha. cbn [unwrap mbind option_bind].
  pose proof (sign_over key (as_bytes t)) as [Hc _].
  pose proof (assertion_text (Keys.sign key (as_bytes t)) Hc) as Htext. cbn [mbind option_bind] in Htext.
  pose proof (verify_sign key (as_bytes t) [] Hk (or_introl eq_refl)) as Hv. cbn [app] in Hv.
  destruct (unwrap (Assertion.to_bytes _)) as [raw|]; [|done]. cbn [mbind option_bind] in *. rewrite Htext.
  cbn [mbind option_bind].
  rewrite (contains_app (quotes "'iss':'https://relay.pseud0.org'")) by by vm_compute.
  rewrite !contains_split by done.
  change (contains "eyJ" assertion_prefix) with false. change (contains "eyJ" "}") with false.
  rewrite orb_false_r. cbn [orb].
  change (Assertion.canonical_without_signature (Assertion.with_signature unsigned_assertion _))
    with (Assertion.canonical_without_signature unsigned_assertion).
  rewrite Ht. cbn [Assertion.with_signature a_signature unwrap mbind option_bind]. rewrite Hv.
  cbn [unwrap]. destruct (contains "eyJ" _); cbn [negb assert mbind option_bind]; split.
  - by intros [? [=]].
  - intros [=].
  - reflexivity.
  - intros _. by eexists.
Qed.
End Laws.

(** What becomes of the source's unit tests, with the codecs of RFC 4648 and RFC
    8259 and any cryptography: the tests that draw nothing pass; so do, for whatever
    key and nonce they draw, those of the encryption at rest, of the [did:key] text
    and of the refusal of DER signatures and of wrong key ids; the test of pairwise
    subjects passes unless HMAC collides on its two inputs, and the test of metadata
    signatures unless the signature it made also verifies another text; the test of
    raw P-256 signatures passes for the keys whose signature does not start with
    [0x30], and the test of the assertion for the keys whose signature does not
    happen to contain [eyJ]. *)
Lemma unit_tests_decided `{CryptoLaws} `{!EqDecision P256Key} public sign_prehash to_der key nonce :
  base58_short -> key_pair public sign_prehash to_der -> blen key = 32 -> blen nonce = NONCE_LEN ->
  Forall passes fixed_tests /\
  passes (encrypt_round_trip nonce) /\ passes (round_trip_compressed_p256 public) /\
  passes rejects_other_methods /\ passes (der_and_wrong_did_fail public sign_prehash to_der) /\
  (passes stable_per_domain_and_unlinkable_across_domains <->
   hmac_sha256 (repeat x07 32) (sub_input "login.example.org" "@alice:pseud0.org") <>
   hmac_sha256 (repeat x07 32) (sub_input "other.example.org" "@alice:pseud0.org")) /\
  (exists m, metadata_text (Base64url.encode (public_key_raw key)) = Ok m /\
   (passes (signs_and_verifies_metadata_object key) <->
    is_ok (verify (Base64url.encode (public_key_raw key)) (as_bytes "mutated")
             (Keys.sign key (as_bytes m))) = false)) /\
  (exists t, refusal_text = Ok t /\
   (passes (raw_r_s_succeeds_and_omits_null_display_name public sign_prehash) <->
    head (sign_prehash (sha256 (as_bytes t))) <> Some x30)) /\
  (exists t, Assertion.canonical_without_signature unsigned_assertion = Ok t /\
   (passes (assertion_is_flat_jcs_not_jwt key) <->
    contains "eyJ" (Keys.sign key (as_bytes t)) = false)).
Proof.
  intros Hb Hp Hk Hn. split_and!.
  - apply fixed_tests_pass.
  - by apply encrypt_test.
  - apply did_key_test.
  - by apply other_methods_test.
  - by apply der_test.
  - apply unlinkable_test.
  - by apply metadata_test.
  - by eapply raw_test.
  - by apply assertion_test.
Qed.

(** ** The tests with the concrete primitives *)

Import Toy.

Definition toy_der (s : list byte) : list byte := x30 :: s.

Lemma toy_short : base58_short.
Proof.
  unfold base58_short. cbn [bs58_decode toy].
  enough (forall n s b, (String.length s <= n)%nat -> of_hex s = Some b -> blen b <= slen s) as Hn
    by (intros s b; by apply (Hn (String.length s))).
  induction n as [|n IH]; intros s b Hl; destruct s as [|c [|d s]]; cbn in Hl; try lia; cbn [of_hex];
    try (by intros [= <-]).
  destruct (hex_value c), (hex_value d), (of_hex s) as [l|] eqn:E; try done. intros [= <-].
  apply IH in E; [|lia]. rewrite !slen_cons. unfold blen in *. cbn [length]. lia.
Qed.

Lemma toy_pair k : key_pair k (fun d => k :: zeros 31 ++ d) toy_der.
Proof.
  split; cbn [p256_sig_from_slice p256_verify_prehash toy].
  - intros d Hd. unfold blen in *. cbn [length]. rewrite length_app. unfold zeros. rewrite repeat_length. lia.
  - intros d. eexists. split; [done|]. by apply bool_decide_eq_true.
  - done.
Qed.

Definition toy_signature (k : byte) (d : list byte) : list byte := k :: zeros 31 ++ d.

Lemma unit_tests_decided_witness :
  Forall passes fixed_tests /\
  (exists t, refusal_text = Ok t /\
   (passes (raw_r_s_succeeds_and_omits_null_display_name (x30 : P256Key) (toy_signature x30)) <->
    head (toy_signature x30 (sha256 (as_bytes t))) <> Some x30)).
Proof.
  destruct (unit_tests_decided (H := toy)
    (EqDecision0 := (byte_eq_dec : EqDecision (@P256Key toy))) x30 (toy_signature x30) toy_der (repeat x05 32)
    (repeat x06 12) toy_short (toy_pair x30) eq_refl eq_refl)
    as (Hf & _ & _ & _ & _ & _ & _ & Hr & _). exact (conj Hf Hr).
Defined.

(** The two tests that fail for some keys do fail. *)
Example raw_test_fails :
  raw_r_s_succeeds_and_omits_null_display_name (x30 : P256Key) (toy_signature x30) = None /\
  raw_r_s_succeeds_and_omits_null_display_name (x31 : P256Key) (toy_signature x31) = Some tt.
Proof. split; vm_compute; reflexivity. Qed.

Example assertion_test_fails :
  assertion_is_flat_jcs_not_jwt (be_bytes 32 490 []) = None /\
  assertion_is_flat_jcs_not_jwt (be_bytes 32 491 []) = Some tt.
Proof. split; vm_compute; reflexivity. Qed.
End Decided.
