(* ===== verification/Limiter.v ===== *)
(** * The rate limiter under concurrency ([rate_limit_ok] of src/src/http/routes.rs)

    The limiter keeps its window and its counter in two atomics that requests
    access without a lock.  Here each request is a thread whose accesses interleave
    with the others'; [Ordering::Relaxed] gives the two stores no order, so a thread
    makes them in either.  [Http.rate_limit_ok] is the case of a request whose
    accesses nobody interrupts. *)

From S2P Require Import Prelude Errors Constants Base64url Json Strict Crypto Keys Metadata.
From S2P Require Import Ssrf Site Tables Statements World Http HttpSpec.
From stdpp Require Import relations.
#[local] Open Scope Z_scope.

(** ** Threads and their accesses *)

(** A request has read the clock; it has loaded the window and resets it, with the
    stores it still has to make; it counts; or it has its answer, and has reset the
    window or not. *)
Inductive Thread :=
  | Ready (now : Z)
  | Resetting (now : Z) (store_window store_count : bool)
  | Counting
  | Answered (reset passed : bool).

Record Limiter := { REG_WINDOW : Z; REG_COUNT : Z; threads : list Thread }.

Inductive Access := Load | StoreWindow | StoreCount | FetchAdd.

(** After its last store a thread returns [true]. *)
Definition stored (now : Z) (store_window store_count : bool) : Thread :=
  if store_window || store_count then Resetting now store_window store_count
  else Answered true true.

(** One access of a thread: what it writes, and where it leaves the thread. *)
Definition access (a : Access) (t : Thread) (window count : Z) : option (Thread * Z * Z) :=
  match a, t with
  | Load, Ready now =>
      Some (if window =? now then Counting else Resetting now true true, window, count)
  | StoreWindow, Resetting now true c => Some (stored now false c, now, count)
  | StoreCount, Resetting now v true => Some (stored now v false, window, 1)
  | FetchAdd, Counting => Some (Answered false (count <? 30), window, incr count)
  | _, _ => None
  end.

Definition act (i : nat) (a : Access) (s : Limiter) : option Limiter :=
  t ← threads s !! i;
  '(t', window, count) ← access a t (REG_WINDOW s) (REG_COUNT s);
  Some {| REG_WINDOW := window; REG_COUNT := count; threads := <[i := t']> (threads s) |}.

Definition lstep (s s' : Limiter) : Prop := exists i a, act i a s = Some s'.

(** A schedule, run. *)
Fixpoint schedule (l : list (nat * Access)) (s : Limiter) : option Limiter :=
  match l with
  | [] => Some s
  | (i, a) :: l => s' ← act i a s; schedule l s'
  end.

Definition start (window count : Z) (seconds : list Z) : Limiter :=
  {| REG_WINDOW := window; REG_COUNT := count; threads := List.map Ready seconds |}.

(** Sums over the threads. *)
Fixpoint total (f : Thread -> Z) (l : list Thread) : Z :=
  match l with [] => 0 | t :: l => f t + total f l end.

Definition passes (t : Thread) : Z := match t with Answered _ true => 1 | _ => 0 end.
Definition resets (t : Thread) : Z :=
  match t with Resetting _ _ _ | Answered true _ => 1 | _ => 0 end.
(** The accesses a thread has still to make, at most. *)
Definition remaining (t : Thread) : Z :=
  match t with
  | Ready _ => 3
  | Resetting _ v c => (if v then 1 else 0) + (if c then 1 else 0)
  | Counting => 1
  | Answered _ _ => 0
  end.

(** ** Lemmas *)

Lemma total_insert f l i x y :
  l !! i = Some x -> total f (<[i := y]> l) = total f l - f x + f y.
Proof.
  revert i. induction l as [|z l IH]; intros [|i] Hi; try discriminate Hi; cbn in *.
  - injection Hi as ->. lia.
  - rewrite IH by done. lia.
Qed.

Lemma total_nonneg f l : (forall t, 0 <= f t) -> 0 <= total f l.
Proof. intros Hf. induction l as [|t l IH]; cbn; [lia|]. specialize (Hf t). lia. Qed.

Lemma total_le f g l : (forall t, f t <= g t) -> total f l <= total g l.
Proof. intros Hf. induction l as [|t l IH]; cbn; [lia|]. specialize (Hf t). lia. Qed.

Lemma total_ready f l c : (forall z, f (Ready z) = c) -> total f (List.map Ready l) = c * Z.of_nat (length l).
Proof. intros Hf. induction l as [|z l IH]; cbn [total List.map length]; [|rewrite Hf]; lia. Qed.

(** The thread that acts. *)
Lemma act_inv i a s s' : act i a s = Some s' -> exists t t',
  threads s !! i = Some t /\ access a t (REG_WINDOW s) (REG_COUNT s) = Some (t', REG_WINDOW s', REG_COUNT s') /\
  threads s' = <[i := t']> (threads s).
Proof.
  unfold act. intros Ha. destruct (threads s !! i) as [t|]; [cbn in Ha|done].
  destruct (access _ _ _ _) as [[[t' w] c]|] eqn:E; [|done]. injection Ha as <-. by exists t, t'.
Qed.

(** The cases of an access. *)
Ltac access_cases H :=
  match type of H with
  | access ?a ?t _ _ = _ =>
      destruct a, t as [z|z [] []| |r p]; cbn in H; try discriminate H;
      try (destruct (Z.eqb _ _)); injection H as <- ? ?
  end.

(** What an access does to the sums. *)
Lemma access_total i a s s' :
  act i a s = Some s' -> exists t t',
    access a t (REG_WINDOW s) (REG_COUNT s) = Some (t', REG_WINDOW s', REG_COUNT s') /\
    (forall f, total f (threads s') = total f (threads s) - f t + f t') /\
    (forall f, (forall t, 0 <= f t) -> f t <= total f (threads s)).
Proof.
  intros (t & t' & Ht & Ha & E)%act_inv. exists t, t'. split; [done|]. split.
  - intros g. rewrite E. by apply total_insert.
  - intros g Hg. clear E Ha. revert i Ht. induction (threads s) as [|x l IH]; intros [|j] Hj; try discriminate Hj; cbn in *.
    + injection Hj as ->. pose proof (total_nonneg g l Hg). lia.
    + specialize (IH j Hj). specialize (Hg x). lia.
Qed.

(** A thread's passes, with those its pending store of the counter makes room for,
    against the thirty that a reset allows. *)
Definition weight (t : Thread) : Z :=
  match t with
  | Resetting _ _ c => if c then 0 else -29
  | Answered reset p => (if p then 1 else 0) - (if reset then 30 else 0)
  | _ => 0
  end.

(** The threads that may still count. *)
Definition undecided (t : Thread) : Z := match t with Ready _ | Counting => 1 | _ => 0 end.

(** A thread with nothing left to do has its answer. *)
Definition settled_thread (t : Thread) : Prop :=
  match t with Resetting _ v c => v || c = true | _ => True end.

Definition room (count : Z) : Z := Z.max 0 (30 - count).

(** The counter does not wrap. *)
Ltac unfold_incr :=
  match goal with
  | E : incr _ = _ |- _ => unfold incr in E; rewrite Z.mod_small in E by lia
  | _ => idtac
  end.

Record limited (count0 : Z) (s : Limiter) : Prop := {
  li_weight : total weight (threads s) + room (REG_COUNT s) <= room count0;
  li_count : 0 <= REG_COUNT s;
  li_range : Z.max 1 (REG_COUNT s) + total undecided (threads s) < 2 ^ 64;
  li_settled : Forall settled_thread (threads s)
}.

Lemma limited_start window count seconds :
  0 <= count -> Z.max 1 count + Z.of_nat (length seconds) < 2 ^ 64 ->
  limited count (start window count seconds).
Proof.
  intros Hc Hn. split; cbn [start threads REG_COUNT].
  - rewrite (total_ready weight seconds 0) by done. lia.
  - done.
  - rewrite (total_ready undecided seconds 1) by done. lia.
  - apply Forall_forall. intros t (z & -> & _)%list_elem_of_fmap. done.
Qed.

Lemma limited_step count0 s s' : limited count0 s -> lstep s s' -> limited count0 s'.
Proof.
  intros [Hw Hc Hr Hs] (i & a & Ha). pose proof (access_total i a s s' Ha) as (t & t' & Hacc & Hsum & Hle).
  pose proof (Hle undecided ltac:(intros []; cbn; lia)) as Hu.
  apply act_inv in Ha as (u & u' & Hin & Hacc' & E).
  assert (Hset : settled_thread u') by (by clear -Hacc'; access_cases Hacc').
  split.
  - rewrite Hsum. unfold room in *. access_cases Hacc; cbn -[Z.ltb Z.mul incr] in *; unfold_incr;
      try (destruct (Z.ltb_spec (REG_COUNT s) 30)); lia.
  - access_cases Hacc; cbn -[incr] in *; unfold_incr; lia.
  - rewrite Hsum. access_cases Hacc; cbn -[incr] in *; unfold_incr; lia.
  - rewrite E. by apply Forall_insert.
Qed.

(** Every access brings the threads closer to their answers. *)
Lemma remaining_step s s' : lstep s s' -> total remaining (threads s') < total remaining (threads s).
Proof.
  intros (i & a & (t & t' & Hacc & Hsum & _)%access_total). rewrite Hsum.
  access_cases Hacc; cbn; lia.
Qed.

Lemma remaining_steps k s s' :
  nsteps lstep k s s' -> total remaining (threads s') + Z.of_nat k <= total remaining (threads s).
Proof. induction 1 as [s|k s s1 s' H1%remaining_step _ IH]; lia. Qed.

(** Until all have them, some thread can go on. *)
Lemma can_go_on s :
  Forall settled_thread (threads s) ->
  Forall (fun t => remaining t = 0) (threads s) \/ exists s', lstep s s'.
Proof.
  intros Hs. destruct (decide (Forall (fun t => remaining t = 0) (threads s))) as [|Hno]; [by left|right].
  apply not_Forall_Exists, Exists_exists in Hno as (t & [i Hi]%list_elem_of_lookup & Ht); [|apply _].
  assert (Ha : exists a t' w c, access a t (REG_WINDOW s) (REG_COUNT s) = Some (t', w, c)).
  { pose proof (Forall_lookup_1 _ _ _ _ Hs Hi) as Hset.
    destruct t as [z|z [] []| |]; try discriminate Hset; try (by destruct Ht);
      [exists Load|exists StoreWindow|exists StoreWindow|exists StoreCount|exists FetchAdd]; by eexists _, _, _. }
  destruct Ha as (a & t' & w & c & Ha). unfold lstep, act. exists (Build_Limiter w c (<[i := t']> (threads s))), i, a.
  by rewrite Hi; cbn; rewrite Ha.
Qed.

Lemma limited_steps count0 k s s' : nsteps lstep k s s' -> limited count0 s -> limited count0 s'.
Proof. induction 1; eauto using limited_step. Qed.

Lemma schedule_cons i a l s s' t t' w c :
  threads s !! i = Some t -> access a t (REG_WINDOW s) (REG_COUNT s) = Some (t', w, c) ->
  schedule l {| REG_WINDOW := w; REG_COUNT := c; threads := <[i := t']> (threads s) |} = Some s' ->
  schedule ((i, a) :: l) s = Some s'.
Proof. intros Hi Ha Hs. cbn. unfold act. rewrite Hi. cbn. by rewrite Ha. Qed.

(** A request that nobody interrupts is [Http.rate_limit_ok]. *)
Lemma uninterrupted `{Env} s i w :
  threads s !! i = Some (Ready (env_unix_secs (w_step w))) ->
  w_reg_window w = REG_WINDOW s -> w_reg_count w = REG_COUNT s ->
  exists l reset passed s', schedule (List.map (fun a => (i, a)) l) s = Some s' /\
    threads s' !! i = Some (Answered reset passed) /\
    fst (rate_limit_ok w) = Ok passed /\
    w_reg_window (snd (rate_limit_ok w)) = REG_WINDOW s' /\
    w_reg_count (snd (rate_limit_ok w)) = REG_COUNT s'.
Proof.
  intros Hi Hw Hc. pose proof (lookup_lt_Some _ _ _ Hi) as Hl.
  destruct (rate_limit_run w) as (steps & w' & Hr & _ & _ & Hw' & Hc'). rewrite Hr. cbn [fst snd].
  rewrite Hw, Hc in *. rewrite Hw', Hc'. clear Hr.
  assert (Hat : forall (l : list Thread) x y, (i < length l)%nat -> <[i := y]> (<[i := x]> l) !! i = Some y).
  { intros l x y Hx. apply list_lookup_insert_eq. by rewrite length_insert. }
  remember (env_unix_secs (w_step w)) as now eqn:En. clear En.
  destruct (Z.eqb_spec (REG_WINDOW s) now) as [E|E]; cbn [negb orb].
  - exists [Load; FetchAdd], false, (REG_COUNT s <? 30). eexists. split.
    { eapply schedule_cons; [done|cbn; by rewrite (proj2 (Z.eqb_eq _ _) E)|].
      by eapply schedule_cons; [apply list_lookup_insert_eq, Hl|done|]. }
    by split; [apply Hat, Hl|].
  - exists [Load; StoreWindow; StoreCount], true, true. eexists. split.
    { eapply schedule_cons; [done|cbn; by rewrite (proj2 (Z.eqb_neq _ _) E)|].
      eapply schedule_cons; [apply list_lookup_insert_eq, Hl|done|].
      by eapply schedule_cons; [apply Hat, Hl|done|]. }
    split; [|done]. apply list_lookup_insert_eq. cbn. by rewrite !length_insert.
Qed.

(** ** The property *)

(** C39: However the accesses of concurrent requests interleave, and in whichever
    order a request's two stores become visible, at most thirty requests pass for
    every one that resets the window, above what the counter had left; each
    request needs at most three accesses, and until all have their answers one of
    them can go on. *)
Theorem limiter_bounded window count seconds k s :
  0 <= count -> Z.max 1 count + Z.of_nat (length seconds) < 2 ^ 64 ->
  nsteps lstep k (start window count seconds) s ->
  total passes (threads s) <= Z.max 0 (30 - count) + 30 * total resets (threads s) /\
  Z.of_nat k <= 3 * Z.of_nat (length seconds) /\
  (Forall (fun t => remaining t = 0) (threads s) \/ exists s', lstep s s').
Proof.
  intros Hc Hn Hk. pose proof (limited_steps count k _ _ Hk (limited_start window count seconds Hc Hn)) as [Hw _ _ Hs].
  split_and!; [|apply remaining_steps in Hk|by apply can_go_on].
  - pose proof (total_le (fun t => passes t - 30 * resets t) weight (threads s)) as Hle.
    assert (Hsub : forall l, total (fun t => passes t - 30 * resets t) l = total passes l - 30 * total resets l).
    { induction l as [|t l IH]; cbn [total]; [done|rewrite IH; lia]. }
    rewrite Hsub in Hle. unfold room in Hw.
    specialize (Hle ltac:(intros [|z v []| |[] []]; cbn; lia)). lia.
  - cbn [start threads] in Hk. rewrite (total_ready remaining seconds 3) in Hk by done.
    pose proof (total_nonneg remaining (threads s)
      ltac:(intros [|z [] []| |]; cbn; lia)). lia.
Qed.

(** ** The bound is reached *)

Definition SECOND : Z := 1800000000.

(** Two requests find the old second; while the second of them has its stores still
    to make, twenty-nine others are let through, and as many after it. *)
Definition run_of (i : nat) : list (nat * Access) := [(i, Load); (i, FetchAdd)].
Definition overrun : list (nat * Access) :=
  [(0, Load); (1, Load); (0, StoreWindow); (0, StoreCount)]%nat
  ++ concat (List.map run_of (seq 2 29)) ++ [(1, StoreWindow); (1, StoreCount)]%nat
  ++ concat (List.map run_of (seq 31 29)).

Example limiter_overrun :
  option_map (fun s => (total passes (threads s), total resets (threads s)))
    (schedule overrun (start (SECOND - 1) 30 (repeat SECOND 60))) = Some (60, 2).
Proof. vm_compute. reflexivity. Qed.

(** A request between the two stores of another counts against the spent counter of
    the second before. *)
Example spent_counter_refuses :
  option_map (fun s => List.map passes (threads s))
    (schedule [(0, Load); (0, StoreWindow); (1, Load); (1, FetchAdd); (0, StoreCount)]%nat
      (start (SECOND - 1) 30 [SECOND; SECOND])) = Some [1; 0].
Proof. vm_compute. reflexivity. Qed.

Lemma schedule_nsteps l s s' : schedule l s = Some s' -> nsteps lstep (length l) s s'.
Proof.
  revert s. induction l as [|[i a] l IH]; intros s; cbn; [intros [= ->]; constructor|].
  destruct (act i a s) as [s1|] eqn:E; [|done]. cbn. intros Hs. apply nsteps_l with s1; [|by apply IH].
  by exists i, a.
Qed.

Lemma limiter_bounded_witness :
  let s := start (SECOND - 1) 30 (repeat SECOND 60) in
  exists s', nsteps lstep 122 s s' /\ total passes (threads s') <= 30 * total resets (threads s').
Proof.
  cbv zeta. destruct (schedule overrun (start (SECOND - 1) 30 (repeat SECOND 60))) as [s'|] eqn:E.
  - exists s'. assert (Hn : nsteps lstep 122 (start (SECOND - 1) 30 (repeat SECOND 60)) s')
      by exact (schedule_nsteps overrun _ _ E).
    split; [exact Hn|]. apply (limiter_bounded (SECOND - 1) 30 (repeat SECOND 60) 122 s').
    + lia.
    + reflexivity.
    + exact Hn.
  - exfalso. assert (Hs : is_Some (schedule overrun (start (SECOND - 1) 30 (repeat SECOND 60))))
      by (apply (bool_decide_eq_true_1 _); vm_compute; reflexivity).
    rewrite E in Hs. destruct Hs as [x Hx]. discriminate Hx.
Defined.
