(* ===== verification/Sync.v ===== *)
(** * The Matrix sync loop (src/src/matrix/client.rs, src/src/matrix/handler.rs)

    What the SDK delivers, a room message or the end of a sync round, and what the
    relay does with it. *)

From S2P Require Import Prelude Errors Constants Utf8 Validation Base64url Json Strict.
From S2P Require Import Crypto Keys Metadata Registration Matrix RoomPolicy Ssrf Site Tables Statements.
From S2P Require Import World Spec Db Login Queue.

#[local] Set Warnings "-clear-no-such-hyp".

(** ** Messages *)

Inductive MessageType := NoticeMsg (body : string) | TextMsg (body : string) | OtherMsg.

(** An [OriginalSyncRoomMessageEvent] and the room it came in. *)
Record RoomMessage := {
  rm_event_id : string;
  rm_sender : string;
  rm_msgtype : MessageType;
  rm_room : SdkRoom
}.

(** The event the handler builds, when it gets to building one. *)
Definition inbound_of (relay_user_id : string) (m : RoomMessage) : option InboundEvent :=
  match rm_msgtype m with
  | OtherMsg => None
  | NoticeMsg clear | TextMsg clear =>
      match snapshot (rm_room m) (rm_sender m) relay_user_id with
      | Err _ => None
      | Ok room =>
          Some {| ev_event_id := rm_event_id m; ev_room_id := room_id (rm_room m);
                  ev_sender := rm_sender m;
                  ev_decrypted := bool_decide (room_encryption (rm_room m) = Encrypted);
                  ev_redacted := false; ev_body := clear; ev_room := room |}
      end
  end.

Section Code.
Context `{Base64} `{Crypto} `{JsonText} `{JsonReader} `{Env}.

(** [dispatch_text]: an error is only logged. *)
Definition dispatch_text (state : AppState) (event : InboundEvent) : M unit :=
  try (handle_inbound state event) ;! ret tt.

Definition on_room_message (state : AppState) (m : RoomMessage) : M unit :=
  match inbound_of (st_relay_user_id state) m with
  | Some event => dispatch_text state event
  | None => ret tt
  end.

(** ** The callback of a sync round *)

Definition store_sync (ready : bool) (last : option Z) : M unit :=
  match last with Some last => op (StoreLastSync last) | None => ret tt end ;!
  op (StoreReady ready).

(** A round that succeeded has its invitations processed; the flag is set, and
    the time taken, only when that succeeded too. *)
Definition on_sync (state : AppState) (succeeded : bool) (sdk : Sdk) (invited : list SdkRoom)
  : M (list RoomAction) :=
  if succeeded then
    let '(actions, joined) := auto_join_invites sdk (st_relay_user_id state) invited in
    match joined with
    | Err _ => store_sync false None ;! ret actions
    | Ok _ =>
        let! now := now_ms in
        store_sync true (Some now) ;! ret actions
    end
  else store_sync false None ;! ret [].

(** After [sync_with_result_callback] returned an error. *)
Definition on_sync_ended : M unit := store_sync false None.
End Code.

(** A message is handed on as decrypted only from a room that is encrypted, and
    with the room's members as they are. *)
Lemma inbound_of_spec relay m ev :
  inbound_of relay m = Some ev ->
  ev_event_id ev = rm_event_id m /\ ev_sender ev = rm_sender m /\ ev_room_id ev = room_id (rm_room m) /\
  rs_sender (ev_room ev) = rm_sender m /\ rs_relay_user_id (ev_room ev) = relay /\
  (ev_decrypted ev = true <-> room_encryption (rm_room m) = Encrypted) /\
  rs_encrypted (ev_room ev) = ev_decrypted ev.
Proof.
  unfold inbound_of, snapshot. destruct (rm_msgtype m); [| |done];
    (destruct (room_members (rm_room m)); [|done]); intros [= <-]; cbn; by rewrite bool_decide_eq_true.
Qed.

(** ** Sending (MatrixSink) *)

(** matrix_sdk on the way out: reading a room id, the rooms the client knows, and
    sending a plain notice, with the SDK's message when it fails. *)
Record SinkSdk := {
  sink_room_id : string -> option string;
  sink_get_room : string -> option SdkRoom;
  sink_send : SdkRoom -> string -> unit + string
}.

(** [MatrixSink::send_notice], with the notices handed to the SDK. *)
Definition matrix_send_notice (sdk : SinkSdk) (room body : string)
  : result unit * list (SdkRoom * string) :=
  match sink_room_id sdk room with
  | None => (problem InternalError, [])
  | Some id =>
      match sink_get_room sdk id with
      | None => (problem InternalError, [])
      | Some room =>
          if negb (bool_decide (room_encryption room = Encrypted)) then (problem InternalError, [])
          else (sdk_result (sink_send sdk room body), [(room, body)])
      end
  end.

(** Nothing leaves for a room that is not known to be encrypted, and success means
    that the SDK took the notice. *)
Lemma matrix_send_encrypted sdk room body :
  let '(r, sent) := matrix_send_notice sdk room body in
  Forall (fun '(x, b) => room_encryption x = Encrypted /\ b = body /\
    exists id, sink_room_id sdk room = Some id /\ sink_get_room sdk id = Some x) sent /\
  (r = Ok tt <-> exists x, sent = [(x, body)] /\ sink_send sdk x body = inl tt).
Proof.
  unfold matrix_send_notice. destruct (sink_room_id sdk room) as [id|] eqn:Ei;
    [|split; [done|split; [done|by intros (x & ? & ?)]]].
  destruct (sink_get_room sdk id) as [x|] eqn:Er; [|split; [done|split; [done|by intros (x & ? & ?)]]].
  case_bool_decide as He; cbn [negb]; [|split; [done|split; [done|by intros (y & ? & ?)]]].
  split; [constructor; [eauto|done]|]. destruct (sink_send sdk x body) as [[]|m] eqn:Es; cbn.
  - split; [eauto|done].
  - split; [done|]. intros (y & [= <-] & Hy). congruence.
Qed.
