(* ===== verification/System.v ===== *)
(** * The relay as a state machine

    The events that reach the relay, the step each causes, and where every row,
    every message and every request of a reachable world comes from. *)

From S2P Require Import Prelude Errors Constants Utf8 Validation Base64url Json Jcs Strict.
From S2P Require Import Crypto Keys Wire Metadata Registration Assertion Revocation Matrix.
From S2P Require Import RoomPolicy Documents Ssrf Site Tables Statements World Spec Db Register Login.
From S2P Require Import Queue Http Invariant Rows LoginSpec QueueSpec HttpSpec Sync.

#[local] Set Warnings "-clear-no-such-hyp".

(** ** Events and steps *)

Inductive Event :=
  | HttpRequest (route : Route) (body : list byte)
  | RoomEvent (m : RoomMessage)
  | SyncRound (succeeded : bool) (sdk : Sdk) (invited : list SdkRoom)
  | SyncEnded
  | DeliveryTick.

Section System.
Context `{Base64} `{Crypto} `{JsonText} `{JsonReader} `{Env}.
Variable state : AppState.

Definition step (e : Event) (w : World) : World :=
  match e with
  | HttpRequest route body => snd (serve state route body w)
  | RoomEvent m => snd (on_room_message state m w)
  | SyncRound ok sdk rooms => snd (on_sync state ok sdk rooms w)
  | SyncEnded => snd (on_sync_ended w)
  | DeliveryTick => snd (process_once state w)
  end.

(** The worlds the relay can be in, with the events that led there, the last one
    first.  Whatever the environment does is in the oracles. *)
Inductive reachable : list Event -> World -> Prop :=
  | reach_start ready last : reachable [] (initial_world ready last)
  | reach_step tr w e : reachable tr w -> reachable (e :: tr) (step e w).

Lemma keyed_initial ready last : keyed_world (initial_world ready last).
Proof. split; [|done]. split; split; cbn; constructor. Qed.

Lemma keyed_step e w : keyed_world w -> keyed_world (step e w).
Proof. destruct e; apply keyed_run. Qed.

(** ** Origins *)

(** A registration that came over HTTP, with the site's metadata. *)
Definition registered_by (tr : list Event) (r : RegistrationRequest) (m : SiteMetadata) : Prop :=
  exists body, HttpRequest PostSiteSessions body ∈ tr /\
    from_slice registration_from_value body = Ok r /\ authentic r m.

(** A message that came, decrypted, from a room that passed the policy, from a
    sender that is not the relay. *)
Definition said_by (tr : list Event) (ev : InboundEvent) (msg : MatrixMessage) : Prop :=
  exists m, RoomEvent m ∈ tr /\ inbound_of (st_relay_user_id state) m = Some ev /\
    ev_decrypted ev = true /\ ev_sender ev <> st_relay_user_id state /\
    check_room (ev_room ev) = allow /\ Matrix.decode (ev_body ev) = Ok msg.

#[local] Abbreviation hash := (hash state).
#[local] Abbreviation sealed := (sealed state).

(** The columns of a session that registration sets. *)
Definition core (s : SessionRow) : NewSession * Z := (
  {| ns_domain := s_domain s; ns_session_id := s_session_id s; ns_nonce_hash := s_nonce_hash s;
     ns_nonce_ciphertext := s_nonce_ciphertext s; ns_iat := s_iat s; ns_exp := s_exp s;
     ns_requested_display_name := s_requested_display_name s;
     ns_site_display_name := s_site_display_name s; ns_site_public_key := s_site_public_key s;
     ns_qr_signature := s_qr_signature s; ns_registration_signature := s_registration_signature s;
     ns_registration_hash := s_registration_hash s |}, s_expires_at s).

Definition registered_origin (tr : list Event) (s : SessionRow) : Prop :=
  exists r m, registered_by tr r m /\ session_of state r m (core s).1.

(** The request that a challenge answers. *)
Definition request_origin (tr : list Event) (s : SessionRow) (h : list byte) (ev : InboundEvent) : Prop :=
  exists nonce sent_at k n,
    said_by tr ev (Matrix.Request (s_session_id s) nonce sent_at (s_domain s)) /\
    hash nonce (s_nonce_hash s) /\ hash (Base64url.encode (env_rand n 16)) h /\
    sent_at_in_qr_window sent_at (s_iat s) (s_exp s) = true /\ env_now k <= s_exp s.

Definition challenge_origin (tr : list Event) (s : SessionRow) : Prop :=
  forall h, s_challenge_hash s = Some h -> exists ev room_ct sender_ct,
    request_origin tr s h ev /\
    s_request_room_ciphertext s = Some room_ct /\ sealed (ev_room_id ev) room_ct /\
    s_request_sender_ciphertext s = Some sender_ct /\ sealed (ev_sender ev) sender_ct.

Record session_origin (tr : list Event) (s : SessionRow) : Prop := {
  so_wf : row_wf s;
  so_registered : registered_origin tr s;
  so_challenge : challenge_origin tr s
}.

(** The login behind an assertion for a domain: the site registered the session,
    a user asked for it from a room, the relay drew a challenge, and the same
    user, in the same room, signed a consent to it with a key and a name. *)
Definition login (tr : list Event) (domain sid : string) (nh : list byte) (user display nonce : string)
    (now : Z) : Prop :=
  exists s h asked agreed sent_at challenge key_id signature signed k,
    registered_origin tr s /\ s_domain s = domain /\ s_session_id s = sid /\ s_nonce_hash s = nh /\
    hash nonce nh /\
    request_origin tr s h asked /\ ev_sender asked = user /\
    said_by tr agreed (Matrix.Consent sid nonce sent_at true (Some display) challenge key_id signature) /\
    ev_sender agreed = user /\ ev_room_id agreed = ev_room_id asked /\ hash challenge h /\
    consent_signed_bytes true challenge (Some display) nonce sid sent_at = Ok signed /\
    verify_consent_signature key_id signed signature = Ok tt /\
    now = env_now k /\ now <= s_exp s /\ sent_at_in_qr_window sent_at (s_iat s) (s_exp s) = true.

(** The bytes of an assertion and the login they stand for. *)
Definition assertion_origin (tr : list Event) (domain sid : string) (nh : list byte) (jti : string)
    (bytes : list byte) : Prop :=
  exists user display nonce now exp sub a,
    login tr domain sid nh user display nonce now /\ now <= exp <= now + 300000 /\
    derive_pairwise_sub (st_subject_secret state) domain user = Ok sub /\
    Assertion.sign (st_signing_key state) (st_signing_kid state) domain sub sid nonce jti now exp
      display (st_subject_key_version state) = Ok a /\
    Assertion.to_bytes a = Ok bytes.

(** The login behind a grant. *)
Definition grant_origin (tr : list Event) (g : GrantRow) : Prop :=
  exists user sub sid nh display nonce now,
    login tr (g_domain g) sid nh user display nonce now /\
    derive_pairwise_sub (st_subject_secret state) (g_domain g) user = Ok sub /\
    hash sub (g_subject_hash g) /\ sealed user (g_matrix_user_ciphertext g).

(** A revocation notice, asked for by the user the account belongs to. *)
Definition revocation_origin (tr : list Event) (domain sid : string) (nh : list byte) (jti : string)
    (bytes : list byte) : Prop :=
  exists ev nonce sent_at account reason sub h k r,
    said_by tr ev (Matrix.Revocation sid nonce sent_at account reason) /\ hash nonce nh /\
    derive_pairwise_sub (st_subject_secret state) domain (ev_sender ev) = Ok sub /\
    hash sub h /\ hash account h /\
    Revocation.sign (st_signing_key state) (st_signing_kid state) domain account jti (env_now k)
      (default "user_requested" reason) = Ok r /\
    Revocation.to_bytes r = Ok bytes.

Definition job_origin (tr : list Event) (j : DeliveryJob) : Prop :=
  j_idempotency_key j = j_jti j /\
  exists bytes, decrypt (st_at_rest state) (j_payload_ciphertext j) = Ok bytes /\
    (j_kind j = "assertion" /\
       assertion_origin tr (j_domain j) (j_session_id j) (j_nonce_hash j) (j_jti j) bytes \/
     j_kind j = "revocation" /\
       revocation_origin tr (j_domain j) (j_session_id j) (j_nonce_hash j) (j_jti j) bytes).

Definition post_origin (tr : list Event) (p : SitePost) : Prop :=
  exists sid nh jti,
    po_path p = ASSERTION_PATH /\ po_key p = Some jti /\
      assertion_origin tr (po_domain p) sid nh jti (po_body p) \/
    po_path p = REVOCATION_PATH /\ po_key p = None /\
      revocation_origin tr (po_domain p) sid nh jti (po_body p).

Record db_origin (tr : list Event) (d : Db) : Prop := {
  do_sessions : Forall (session_origin tr) (db_sessions d);
  do_grants : Forall (grant_origin tr) (db_grants d);
  do_jobs : Forall (job_origin tr) (db_jobs d)
}.

(** ** More events do not take an origin away *)

Lemma registered_mono e tr s : registered_origin tr s -> registered_origin (e :: tr) s.
Proof.
  intros (r & m & (body & Hb & Hr & Ha) & Hs). exists r, m. split; [|done].
  exists body. split; [by right|done].
Qed.

Lemma said_mono e tr ev msg : said_by tr ev msg -> said_by (e :: tr) ev msg.
Proof. intros (m & Hm & ?). exists m. split; [by right|done]. Qed.

Lemma request_mono e tr s h ev : request_origin tr s h ev -> request_origin (e :: tr) s h ev.
Proof.
  intros (nonce & t & k & n & Hs & ?). exists nonce, t, k, n. split; [by apply said_mono|done].
Qed.

Lemma session_mono e tr s : session_origin tr s -> session_origin (e :: tr) s.
Proof.
  intros [Hw Hr Hc]. split; [done|by apply registered_mono|]. intros h Hh.
  destruct (Hc h Hh) as (ev & rct & sct & Ho & ?). exists ev, rct, sct. split; [by apply request_mono|done].
Qed.

Lemma login_mono e tr domain sid nh user display nonce now :
  login tr domain sid nh user display nonce now -> login (e :: tr) domain sid nh user display nonce now.
Proof.
  intros (s & h & asked & agreed & t & c & key & sg & b & k & Hl). destruct_and!.
  exists s, h, asked, agreed, t, c, key, sg, b, k.
  split_and!; auto using registered_mono, request_mono, said_mono.
Qed.

Lemma assertion_mono e tr domain sid nh jti bytes :
  assertion_origin tr domain sid nh jti bytes -> assertion_origin (e :: tr) domain sid nh jti bytes.
Proof.
  intros (u & dn & n & now & exp & sub & a & Hl & ?). exists u, dn, n, now, exp, sub, a.
  split; [by apply login_mono|done].
Qed.

Lemma grant_mono e tr g : grant_origin tr g -> grant_origin (e :: tr) g.
Proof.
  intros (u & sub & sid & nh & dn & n & now & Hl & ?). exists u, sub, sid, nh, dn, n, now.
  split; [by apply login_mono|done].
Qed.

Lemma revocation_mono e tr domain sid nh jti bytes :
  revocation_origin tr domain sid nh jti bytes -> revocation_origin (e :: tr) domain sid nh jti bytes.
Proof.
  intros (ev & n & t & acc & rs & sub & h & k & r & Hs & ?). exists ev, n, t, acc, rs, sub, h, k, r.
  split; [by apply said_mono|done].
Qed.

Lemma job_mono e tr j : job_origin tr j -> job_origin (e :: tr) j.
Proof.
  intros (Hk & b & Hb & [[? ?]|[? ?]]); (split; [done|]); exists b; (split; [done|]);
    [left; split; [done|by apply assertion_mono]|right; split; [done|by apply revocation_mono]].
Qed.

Lemma post_mono e tr p : post_origin tr p -> post_origin (e :: tr) p.
Proof.
  intros (sid & nh & jti & [(? & ? & ?)|(? & ? & ?)]); exists sid, nh, jti;
    [left; split_and!; [done..|by apply assertion_mono]|right; split_and!; [done..|by apply revocation_mono]].
Qed.

Lemma db_mono e tr d : db_origin tr d -> db_origin (e :: tr) d.
Proof.
  intros []. split; eapply Forall_impl; eauto using session_mono, grant_mono, job_mono.
Qed.
End System.

(** ** Every step has an origin for what it writes *)

Section Origins.
Context `{Base64Laws} `{CryptoLaws} `{JsonTextLaws} `{JsonReader} `{!JsonReaderLaws} `{Env} `{!EnvLaws}.
Variable state : AppState.
Hypothesis Hstate : state_wf state.
Implicit Types (tr : list Event) (d : Db).

Lemma origin_db_wf tr d : unique d -> db_origin state tr d -> db_wf d.
Proof. intros U []. split; [done|]. eapply Forall_impl; [done|]. intros s []. done. Qed.

(** A patch that does not touch the challenge. *)
Lemma patch_origin tr p s :
  p_challenge_hash p = None -> patch_columns p -> move (phase s) (phase (apply_patch p s)) ->
  session_origin state tr s ->
  session_origin state tr (apply_patch p s).
Proof.
  intros Hp Hc Hm [Hw Hr Hch]. split; [by apply patch_wf|done|].
  unfold patch_columns in Hc. rewrite Hp in Hc. destruct Hc as (_ & _ & E1 & E2).
  intros h Hh. cbn in Hh. rewrite Hp in Hh. cbn in Hh.
  destruct (Hch h Hh) as (ev & rct & sct & Ho & ?). exists ev, rct, sct. cbn. rewrite E1, E2. done.
Qed.

Lemma patched_origin tr s p d :
  NoDup (List.map s_id (db_sessions d)) -> s ∈ db_sessions d -> session_origin state tr (apply_patch p s) ->
  db_origin state tr d -> db_origin state tr (patched s p d).
Proof. intros U Hs Hp []. split; [|done|done]. by apply Forall_patched. Qed.

Lemma job_added tr j d : job_origin state tr j -> db_origin state tr d -> db_origin state tr (insert_job j d).
Proof.
  intros Hj [Hs Hg Hjs]. unfold insert_job. case_if; [done|]. split; [done|done|].
  apply Forall_app. auto.
Qed.

Lemma upserted_origin tr g d :
  grant_origin state tr g -> db_origin state tr d -> db_origin state tr (snd (upsert g d)).
Proof.
  intros Hg [Hs Hgs Hj]. unfold upsert. case_match; (split; [done| |done]).
  - apply Forall_app. auto.
  - apply Forall_map. eapply Forall_impl; [done|]. intros x Hx. by case_if.
Qed.

Lemma revoked_origin tr id now d : db_origin state tr d -> db_origin state tr (revoke id now d).
Proof.
  intros [Hs Hg Hj]. split; [done| |done]. apply Forall_map. eapply Forall_impl; [done|].
  intros x Hx. by case_if.
Qed.

(** *** Registration *)

Lemma registration_origin tr r d d' body :
  HttpRequest PostSiteSessions body ∈ tr -> from_slice registration_from_value body = Ok r ->
  registered state r d d' -> db_origin state tr d -> db_origin state tr d'.
Proof.
  intros Hb Hr (m & n & id & expires & Ha & Hs & Ht & _ & ->) [Hss Hg Hj]. split; [|done|done].
  apply Forall_app. split; [done|]. constructor; [|done]. split.
  - eapply new_row_wf; eauto using registration_read_wf.
  - exists r, m. split; [by exists body|]. by destruct n.
  - done.
Qed.

(** *** Requests *)

Lemma issued_origin tr ev sid nonce sent_at domain d d' body :
  said_by state tr ev (Matrix.Request sid nonce sent_at domain) -> unique d ->
  issued state ev sid nonce sent_at domain d d' body -> db_origin state tr d -> db_origin state tr d'.
Proof.
  intros Hsaid U (s & h & rct & sct & k & n & (Hs & <- & <- & Hn & Hk & Hw & Hnone) & Hh & Hrct & Hsct & _ & _ & -> & _) Hd.
  unfold challenged. apply patched_origin; [apply U|done| |by destruct Hd].
  destruct Hd as [Hss _ _]. rewrite Forall_forall in Hss. destruct (Hss s Hs) as [Hwf Hr _].
  split; [apply patch_wf; [unfold patch_columns; cbn; eauto 6| |done]|done|].
  { unfold phase. rewrite Hnone. constructor. }
  intros h' [= <-]. exists ev, rct, sct. split_and!; try done. exists nonce, sent_at, k, n. done.
Qed.

(** *** Consents *)

(** What a column opens to is what was sealed in it. *)
Lemma open_sealed text ct text' : sealed state text ct -> open_text state (Some ct) = Some text' -> text' = text.
Proof.
  intros Hs (b & Hb & Hu)%open_text_Ok. unfold sealed in Hs. apply from_utf8_Some in Hu as [Hu _].
  apply as_bytes_inj. congruence.
Qed.

Lemma consent_login tr ev sid nonce sent_at display challenge key_id signature d s k :
  said_by state tr ev (Matrix.Consent sid nonce sent_at true (Some display) challenge key_id signature) ->
  consent_signed sid nonce sent_at (Some display) challenge key_id signature ->
  session_named state sid nonce d s -> consent_timely s sent_at (env_now k) ->
  consent_bound state ev challenge s -> session_origin state tr s ->
  login state tr (s_domain s) sid (s_nonce_hash s) (ev_sender ev) display nonce (env_now k).
Proof.
  intros Hsaid (b & Hb & Hv) (_ & Hsid & Hn) (Hk & Hw & _) ((h & Hh & Hc) & Hsender & Hroom) [_ Hr Hch].
  destruct (Hch h Hh) as (asked & rct & sct & Hreq & Er & Hrct & Es & Hsct).
  rewrite Es in Hsender. rewrite Er in Hroom.
  apply (open_sealed _ _ _ Hsct) in Hsender. apply (open_sealed _ _ _ Hrct) in Hroom.
  exists s, h, asked, ev, sent_at, challenge, key_id, signature, b, k. by split_and!.
Qed.

Lemma minted_origin tr ev s nonce display jti now sub bytes :
  login state tr (s_domain s) (s_session_id s) (s_nonce_hash s) (ev_sender ev) display nonce now ->
  now <= s_exp s -> minted state ev s nonce display jti now sub bytes ->
  assertion_origin state tr (s_domain s) (s_session_id s) (s_nonce_hash s) jti bytes.
Proof.
  intros Hl Hk (a & Hsub & Hsign & Hb).
  exists (ev_sender ev), display, nonce, now, (Z.min (s_exp s) (now + 300000)), sub, a.
  split_and!; try done; lia.
Qed.

Lemma consent_origin tr ev sid nonce sent_at display_name challenge key_id signature d d' l :
  said_by state tr ev (Matrix.Consent sid nonce sent_at (approved display_name) display_name challenge
                         key_id signature) ->
  consent_signed sid nonce sent_at display_name challenge key_id signature -> unique d ->
  consent_outcome state ev sid nonce sent_at display_name challenge d d' l ->
  db_origin state tr d -> db_origin state tr d'.
Proof.
  intros Hsaid Hsig U Ho Hd. pose proof Hd as [Hss _ _]. rewrite Forall_forall in Hss.
  destruct Ho as [s k n Hs Hlate Hn|s k n -> Hs Ht Hb Hev Hn
    |s k display sub bytes sh sct uct dct act n gid jid due jti -> Hs Ht Hb Hev Hj Hm Hsh Hsct Huct Hdct Hact];
    [done| |]; pose proof (Hss s (proj1 Hs)) as Hso.
  - unfold refused. apply patched_origin; [apply U|apply Hs| |by destruct Hd].
    apply patch_origin; [done..| |done]. eapply bound_move; [apply Hb|done|constructor].
  - pose proof (consent_login _ _ _ _ _ _ _ _ _ _ _ _ Hsaid Hsig Hs Ht Hb Hso) as Hl.
    pose proof Hs as (Hin & <- & _). unfold consented. cbv zeta. apply job_added.
    + split; [done|]. exists bytes. split; [done|]. left. split; [done|].
      eapply minted_origin; [done|apply Ht|done].
    + set (g := grant_row _ _ _ _ _ _ _ _). set (d1 := set_ledger ConsentEvents _ _).
      assert (Hg : db_origin state tr (snd (upsert g d1))).
      { apply upserted_origin; [|by destruct Hd]. unfold minted in Hm. destruct Hm as (a & Hsub & _).
        exists (ev_sender ev), sub, (s_session_id s), (s_nonce_hash s), display, nonce, (env_now k). done. }
      assert (Hsame : db_sessions (snd (upsert g d1)) = db_sessions d) by exact (upsert_sessions g d1).
      apply patched_origin; [cbn; rewrite Hsame; apply U|cbn; by rewrite Hsame| |by destruct Hg].
      apply patch_origin; [done..| |done]. eapply bound_move; [apply Hb|done|constructor].
Qed.

(** *** Revocations *)

Lemma revocation_step_origin tr ev sid nonce sent_at account reason d d' :
  said_by state tr ev (Matrix.Revocation sid nonce sent_at account reason) -> unique d ->
  revocation_outcome state ev sid nonce account reason d d' ->
  db_origin state tr d -> db_origin state tr d'.
Proof.
  intros Hsaid U [s g n k keep bytes ct jid now jti Hs Hr Hj (r & Hsign & Hb) Hct _] Hd.
  pose proof Hs as (Hin & <- & Hn). destruct Hr as (Hg & Hdom & Hacc & Huser & _).
  assert (Hrev : revocation_origin state tr (s_domain s) (s_session_id s) (s_nonce_hash s) jti bytes).
  { destruct Hd as [_ Hgs _]. rewrite Forall_forall in Hgs.
    destruct (Hgs g Hg) as (user & sub & ? & ? & ? & ? & ? & _ & Hsub & Hsh & Huct).
    apply (open_sealed _ _ _ Huct) in Huser. subst user. rewrite Hdom in Hsub.
    exists ev, nonce, sent_at, account, reason, sub, (g_subject_hash g), k, r. by split_and!. }
  assert (Hd1 : db_origin state tr (insert_job (job_row jid "revocation" (s_domain s) jti ct (s_session_id s)
    (s_nonce_hash s) (env_db_now now)) (set_ledger RevocationJtis (<[jti := keep]> (db_revocation_jtis d))
      (revoke (g_id g) (env_db_now now) d)))).
  { apply job_added; [split; [done|]; exists bytes; auto|].
    destruct (revoked_origin tr (g_id g) (env_db_now now) d Hd). by split. }
  apply patched_origin; [rewrite insert_job_sessions; apply U|by rewrite insert_job_sessions| |done].
  apply patch_origin; [done|done|constructor|]. destruct Hd as [Hss _ _]. rewrite Forall_forall in Hss. auto.
Qed.

(** *** Deliveries *)

Record obs_origin tr (o : Obs) : Prop := {
  oo_tx : o_tx o = None;
  oo_db : db_origin state tr (o_db o);
  oo_posts : Forall (post_origin state tr) (o_posts o)
}.

Lemma delivered_origin tr s d :
  unique d -> s ∈ db_sessions d -> is_Some (s_request_room_ciphertext s) ->
  db_origin state tr d -> db_origin state tr (delivered s d).
Proof.
  intros U Hs Hroom Hd. destruct Hd as [Hss Hg Hj]. rewrite Forall_forall in Hss.
  apply patched_origin; [apply U|done| |split; [by apply Forall_forall|done|done]].
  apply patch_origin; [done|done| |auto]. apply kept_move; [|done|constructor].
  apply room_challenged; [apply Hss, Hs|done].
Qed.

Lemma accepted_origin tr j payload d r d' l :
  unique d -> accepted_outcome state j payload d r d' l -> db_origin state tr d -> db_origin state tr d'.
Proof.
  intros U Ho Hd.
  destruct Ho as [s a n Ha Hs Hm Hn| | | |s a nonce k e Ha Hs Hm Ho Hr He|e d' l Hf [->|(s & Hs & Hr & ->)]];
    try done; apply delivered_origin; try done. by eapply notice_room.
Qed.

Lemma job_post_origin tr j p : job_origin state tr j -> post_of state j = Some p -> post_origin state tr p.
Proof.
  intros (_ & bytes & Hb & Hk) Hp. unfold post_of in Hp. rewrite Hb in Hp.
  exists (j_session_id j), (j_nonce_hash j), (j_jti j).
  destruct Hk as [[Ek Ho]|[Ek Ho]]; rewrite Ek in Hp; injection Hp as <-; [left|right]; done.
Qed.

Lemma deliver_origin tr j d ns ps :
  db_wf d -> job_origin state tr j -> obs_origin tr (MkObs d None ns ps) ->
  spec (MkObs d None ns ps) (deliver state j) (fun _ o => obs_origin tr o).
Proof.
  intros Hd Hj [_ Hdb Hps]. eapply spec_mono; [|by apply deliver_spec]. unfold delivery_post.
  intros r o Hr. destruct (post_of state j) as [p|] eqn:Ep; [|by destruct Hr as [_ ->]].
  assert (Hps' : Forall (post_origin state tr) (ps ++ [p])).
  { apply Forall_app. split; [done|]. constructor; [by eapply job_post_origin|done]. }
  assert (Hsame : forall ns', obs_origin tr (MkObs d None ns' (ps ++ [p]))) by done.
  destruct Hr as [k Hr]. destruct (site_post_json _ _ _ _) as [resp|e]; [|by destruct Hr as [_ ->]].
  destruct (_ || _); [|by destruct Hr as [_ ->]].
  destruct (String.eqb _ _); [|by destruct Hr as [_ ->]].
  destruct Hr as (Htx & Hp & l & Ho & Hl). split; [done| |by rewrite Hp].
  eapply accepted_origin; [apply Hd|done|done].
Qed.

Lemma jobs_changed tr d (f : DeliveryJob -> DeliveryJob) :
  (forall j, job_origin state tr j -> job_origin state tr (f j)) ->
  db_origin state tr d -> db_origin state tr (set_jobs (List.map f (db_jobs d)) d).
Proof.
  intros Hf [Hs Hg Hj]. split; [done|done|]. apply Forall_map. eapply Forall_impl; [done|]. apply Hf.
Qed.

Lemma mark_origin tr o st id :
  obs_origin tr o ->
  spec o (pool_exec (Mark st id)) (fun _ o' => obs_origin tr o').
Proof.
  destruct o as [d t ns ps]. intros [Ht Hd Hp]. cbn in *. subst t.
  assert (Hm : obs_origin tr (MkObs (mark st id d) None ns ps)).
  { split; [done| |done]. apply jobs_changed; [|done]. intros j Hj. by case_if. }
  apply spec_pool_exec; [by split|]. intros n. by split.
Qed.

(** ** The invariant of reachable worlds *)

Definition inv tr (w : World) : Prop := keyed_world w /\ obs_origin tr (obs w).

Lemma inv_spec {A} tr w (m : M A) :
  inv tr w ->
  (forall d ns ps, db_wf d -> obs_origin tr (MkObs d None ns ps) -> obs w = MkObs d None ns ps ->
     spec (MkObs d None ns ps) m (fun _ o => obs_origin tr o)) ->
  inv tr (snd (m w)).
Proof.
  intros [Hw Ho] Hm. split; [by apply keyed_run|]. pose proof Ho as [Ht Hd _]. cbn in Ht.
  assert (Hobs : obs w = MkObs (w_db w) None (w_notices w) (w_posts w)) by (unfold obs; by rewrite Ht).
  rewrite Hobs in Ho. apply (Hm (w_db w) (w_notices w) (w_posts w)); [|done|done|done].
  eapply origin_db_wf; [apply Hw|done].
Qed.

Lemma run_job_inv tr j w : job_origin state tr j -> inv tr w -> inv tr (snd (run_job state j w)).
Proof.
  intros Hj Hw. apply inv_spec; [done|]. intros d ns ps Hd Ho _.
  unfold run_job. spec_step. apply spec_try.
  eapply spec_mono; [|by apply (deliver_origin tr j d ns ps Hd Hj Ho)]. intros [[]|e] o' Hdel; cbv beta iota.
  - spec_step. eapply spec_mono; [|by apply mark_origin]. intros [[]|e] o'' Hr; [by spec_step|done].
  - case_if; [by apply mark_origin|by spec_step].
Qed.

Lemma run_jobs_inv tr jobs : forall w,
  Forall (job_origin state tr) jobs -> inv tr w -> inv tr (snd (run_jobs state jobs w)).
Proof.
  induction jobs as [|j jobs IH]; intros w Hj Hw; [done|]. inversion_clear Hj as [|?? Hj1 Hj2].
  cbn [run_jobs]. rewrite run_bind. pose proof (run_job_inv tr j w Hj1 Hw) as Hw'.
  destruct (run_job state j w) as [[[]|e] w']; [by apply IH|done].
Qed.

(** The jobs that were claimed are jobs of the table. *)
Lemma claim_origin tr now limit d jobs d' :
  db_origin state tr d -> claim now limit d = Ok (jobs, d') ->
  Forall (job_origin state tr) jobs /\ db_origin state tr d'.
Proof.
  intros Hd [-> ->]%claim_Ok. split.
  - destruct Hd as [_ _ Hj]. apply Forall_map, Forall_forall. intros j Hin.
    apply list_elem_of_In, filter_In in Hin as [Hin _]. apply list_elem_of_In in Hin.
    rewrite Forall_forall in Hj. by apply Hj in Hin.
  - apply jobs_changed; [|done]. intros j Hj. by case_if.
Qed.

Lemma tick_inv tr w : inv tr w -> inv tr (snd (process_once state w)).
Proof.
  intros Hw. unfold process_once, tick.
  assert (Hc : spec (obs w) (claim_due 10) (fun r o => obs_origin tr o /\
    match r with Ok jobs => Forall (job_origin state tr) jobs | Err _ => True end)).
  { destruct Hw as [_ Ho]. destruct (obs w) as [d t ns ps]. pose proof Ho as [Ht Hd Hp]. cbn in *. subst t.
    apply spec_claim_due; [apply env_returning_all|done|]. intros now. destruct (claim now 10 d) as [[jobs d']|e] eqn:E; [|done].
    destruct (claim_origin tr now 10 d jobs d' Hd E) as [Hj Hd']. split; [|done].
    intros l Hl. split; [done|]. by rewrite Hl. }
  specialize (Hc w eq_refl). pose proof (keyed_run (claim_due 10) w (proj1 Hw)) as Hk. rewrite run_bind.
  destruct (claim_due 10 w) as [[jobs|e] w']; cbn [fst snd] in *; destruct Hc as [Ho Hj]; [|done].
  by apply run_jobs_inv.
Qed.

(** *** Messages *)

(** What the dispatcher requires of an event before it looks at the message. *)
Definition accepted_event (ev : InboundEvent) : Prop :=
  ev_redacted ev = false /\ ev_decrypted ev = true /\ ev_sender ev <> st_relay_user_id state /\
  check_room (ev_room ev) = allow.

Lemma allowed_allow v : allowed v = true -> v = allow.
Proof. by destruct v as [[]|]. Qed.

Lemma dispatch_cases ev :
  (exists k : M HandleResult, handle_inbound state ev = k /\
     (k = ret Ignored \/ k = (inc RoomViolations ;! ret Ignored))) \/
  (accepted_event ev /\
   match Matrix.decode (ev_body ev) with
   | Err _ => False
   | Ok (Matrix.Request sid nonce sent_at domain) =>
       handle_inbound state ev = process_request state ev sid nonce sent_at domain
   | Ok (Matrix.Consent sid nonce sent_at ap dn c key sg) =>
       handle_inbound state ev = process_consent state ev sid nonce sent_at ap dn c key sg
   | Ok (Matrix.Revocation sid nonce _ account reason) =>
       handle_inbound state ev = process_revocation state ev sid nonce account reason
   | Ok _ => False
   end).
Proof.
  unfold handle_inbound, accepted_event. destruct (ev_redacted ev); cbn [orb]; [left; eauto|].
  destruct (ev_decrypted ev); cbn [negb]; [|left; eauto].
  destruct (String.eqb_spec (ev_sender ev) (st_relay_user_id state)); [left; eauto|].
  destruct (allowed _) eqn:Ea; cbn [negb]; [|left; eauto]. apply allowed_allow in Ea.
  destruct (Matrix.decode (ev_body ev)) as [[]|]; eauto; right; by split_and!.
Qed.

Lemma inbound_ok_approved sid nonce t ap dn c key sg :
  inbound_ok (Matrix.Consent sid nonce t ap dn c key sg) -> ap = approved dn.
Proof. intros (_ & _ & _ & _ & _ & _ & Hd). destruct dn; [by destruct Hd as [-> _]|done]. Qed.

(** What a message can do to the tables. *)
Inductive inbound_change (ev : InboundEvent) (d : Db) : Db -> Prop :=
  | ic_same : inbound_change ev d d
  | ic_issued sid nonce t domain d' body :
      Matrix.decode (ev_body ev) = Ok (Matrix.Request sid nonce t domain) ->
      issued state ev sid nonce t domain d d' body -> inbound_change ev d d'
  | ic_consented sid nonce t dn c key sg d' l :
      Matrix.decode (ev_body ev) = Ok (Matrix.Consent sid nonce t (approved dn) dn c key sg) ->
      consent_signed sid nonce t dn c key sg ->
      consent_outcome state ev sid nonce t dn c d d' l -> inbound_change ev d d'
  | ic_revoked sid nonce t account reason d' :
      Matrix.decode (ev_body ev) = Ok (Matrix.Revocation sid nonce t account reason) ->
      revocation_outcome state ev sid nonce account reason d d' -> inbound_change ev d d'.

Lemma inbound_spec ev d ns ps :
  db_wf d ->
  spec (MkObs d None ns ps) (handle_inbound state ev)
    (fun _ o => o_tx o = None /\ o_posts o = ps /\ inbound_change ev d (o_db o) /\
       (accepted_event ev \/ o_db o = d)).
Proof.
  intros Hd. destruct (dispatch_cases ev) as [(k & -> & [->| ->])|[Hacc Hmsg]];
    [by spec_step; split_and!; auto using ic_same|by do 3 spec_step; split_and!; auto using ic_same|].
  destruct (Matrix.decode (ev_body ev)) as [msg|] eqn:Edec; [|done].
  pose proof (decode_ints _ _ Edec) as Hints. pose proof Edec as (_ & Hok & _)%decode_message_Ok.
  destruct msg as [sid nonce t domain| |sid nonce t ap dn c key sg| |sid nonce t account reason];
    try done; rewrite Hmsg.
  - eapply spec_mono; [|by apply request_spec; try apply Hok]. intros r o (Ht & Hp & Hr).
    split_and!; [done|done| |by left].
    assert (Hiss : forall body, issued state ev sid nonce t domain d (o_db o) body -> inbound_change ev d (o_db o))
      by (intros; by eapply ic_issued).
    destruct r as [[]|e]; [destruct Hr as [-> _]; constructor|destruct Hr as (body & Hb & _); eauto|].
    destruct Hr as [(_ & -> & _)|(_ & body & Hb & _)]; eauto using ic_same.
  - pose proof (inbound_ok_approved _ _ _ _ _ _ _ _ Hok) as ->.
    eapply spec_mono; [|by apply consent_spec]. intros r o (Ht & Hp & Hr).
    split_and!; [done|done| |by left].
    destruct r as [[]|e]; [destruct Hr as (_ & -> & _); constructor
      |destruct Hr as (Hs & l & Hb & _); by eapply ic_consented|].
    destruct Hr as [(_ & -> & _)|[(_ & _ & -> & _)|(Hs & _ & l & Hb & _)]];
      [constructor..|by eapply ic_consented].
  - eapply spec_mono; [|by eapply revocation_spec]. intros r o (Ht & Hp & _ & Hr).
    split_and!; [done|done| |by left].
    destruct r as [[]|e]; [destruct Hr as [-> _]; constructor|by eapply ic_revoked|].
    destruct Hr as [(_ & ->)|(_ & Hb)]; [constructor|by eapply ic_revoked].
Qed.

Lemma inbound_origin tr m ev d ns ps :
  RoomEvent m ∈ tr -> inbound_of (st_relay_user_id state) m = Some ev ->
  db_wf d -> obs_origin tr (MkObs d None ns ps) ->
  spec (MkObs d None ns ps) (handle_inbound state ev) (fun _ o => obs_origin tr o).
Proof.
  intros Hm Hev Hd [_ Hdb Hps]. pose proof (proj1 Hd) as U.
  eapply spec_mono; [|by apply inbound_spec]. intros r o (Ht & Hp & Hc & Hacc).
  split; [done| |by rewrite Hp]. destruct Hacc as [(_ & Hdec & Hsender & Hroom)|E]; [|by rewrite E].
  assert (Hsaid : forall msg, Matrix.decode (ev_body ev) = Ok msg -> said_by state tr ev msg) by (by exists m).
  destruct Hc; [done|by eapply issued_origin; eauto|by eapply consent_origin; eauto
    |by eapply revocation_step_origin; eauto].
Qed.

(** *** Requests over HTTP *)

(** What a registration leaves has its origin. *)
Lemma posted_origin tr body d ns ps res o :
  HttpRequest PostSiteSessions body ∈ tr -> obs_origin tr (MkObs d None ns ps) ->
  (exists limited, site_sessions_post state limited body d ns ps res o) -> obs_origin tr o.
Proof.
  intros Hb Ho (limited & [->|(r & out & Hr & (Ht & Hn & Hp & Hpost))]%site_sessions_leaves); [done|].
  assert (Hreg : registered state r d (o_db o) -> obs_origin tr o).
  { intros Hreg. split; [done| |rewrite Hp; apply Ho]. eapply registration_origin; [done..|apply Ho]. }
  assert (Hsame : o_db o = d -> obs_origin tr o)
    by (intros E; split; [done|rewrite E; apply Ho|rewrite Hp; apply Ho]).
  destruct out as [[resp' []]|e]; [by apply Hreg, Hpost|by apply Hsame, Hpost|].
  destruct Hpost as [_ [E|(_ & _ & Hreg')]]; auto.
Qed.

Lemma serve_origin tr route body d ns ps :
  HttpRequest route body ∈ tr -> obs_origin tr (MkObs d None ns ps) ->
  spec (MkObs d None ns ps) (serve state route body) (fun _ o => obs_origin tr o).
Proof.
  intros Hb Ho. unfold serve. case_if; [by spec_step|]. destruct route; try by (unfold jwks, live; spec_step).
  - eapply spec_mono; [|apply site_sessions_spec, Hstate].
    intros res o. by apply posted_origin.
  - eapply spec_mono; [|apply ready_spec]. by intros r o [-> _].
Qed.

Lemma inv_mono e tr w : inv tr w -> inv (e :: tr) w.
Proof.
  intros [Hk [Ht Hd Hp]]. split; [done|]. split; [done|by apply db_mono|].
  eapply Forall_impl; [done|]. apply post_mono.
Qed.

Lemma inv_step e tr w : inv tr w -> inv (e :: tr) (step state e w).
Proof.
  intros Hw. pose proof (inv_mono e tr w Hw) as Hw'. assert (He : e ∈ e :: tr) by left.
  destruct e as [route body|m|ok sdk rooms| |]; cbn [step].
  - apply inv_spec; [done|]. intros. by apply serve_origin.
  - apply inv_spec; [done|]. intros d ns ps Hd Ho _. unfold on_room_message.
    destruct (inbound_of _ m) as [ev|] eqn:E; [|by spec_step]. unfold dispatch_text.
    spec_step. apply spec_try. eapply spec_mono; [|by eapply inbound_origin]. intros r o Hs. by spec_step.
  - split; [apply keyed_run, Hw'|]. destruct Hw' as [_ Ho].
    assert (Hobs : obs (snd (on_sync state ok sdk rooms w)) = obs w); [|by rewrite Hobs].
    unfold on_sync. destruct ok; [|done]. by destruct (auto_join_invites _ _ _) as [acts [[]|]].
  - split; [apply keyed_run, Hw'|]. apply Hw'.
  - by apply tick_inv.
Qed.

Lemma inv_reachable tr w : reachable state tr w -> inv tr w.
Proof.
  induction 1 as [ready last|tr w e _ IH]; [|by apply inv_step].
  split; [apply keyed_initial|]. split; [done| |done]. split; constructor.
Qed.
End Origins.
