(* ===== verification/Concurrent.v ===== *)
(** * Handlers that run side by side

    Requests, room messages and the delivery loop are tasks of one runtime, so the
    operations of their handlers interleave.  Here every event becomes a thread
    whose program performs one operation at a turn on the shared state.  What
    the threads share are the atomics and the committed tables; a transaction is
    its thread's own until it commits.

    Transactions are those of PostgreSQL at READ COMMITTED, the level the source
    leaves them at: a statement sees what is committed when it runs and what its
    own transaction wrote; a statement that needs a row or a key that another open
    transaction holds waits until that one is over, then works on the row as it
    is, but a SELECT does not see rows that were committed after it started. *)

From S2P Require Import Prelude Errors Constants Utf8 Base64url Json Strict Crypto Keys Metadata.
From S2P Require Import Registration Matrix RoomPolicy Ssrf Site Tables Statements World Db Register.
From S2P Require Import Login Queue Http Sync System.
From stdpp Require Import gmap.
#[local] Open Scope Z_scope.

(** ** Locks *)

Inductive Lock :=
  (** The row of a session, and the keys an INSERT of one reserves. *)
  | LRow (id : Z)
  | LSession (domain session_id : string)
  | LNonce (domain : string) (nonce_hash : list byte)
  (** A key of a replay ledger. *)
  | LText (l : Ledger) (value : string)
  | LChallenge (hash : list byte)
  (** The row of a grant, by its key, and an identifier that was drawn for one. *)
  | LGrant (domain : string) (subject_hash : list byte)
  | LGrantId (id : Z)
  (** The same of a delivery job. *)
  | LJti (jti : string)
  | LJobId (id : Z).

#[export] Instance Ledger_eq_dec : EqDecision Ledger.
Proof. solve_decision. Defined.
#[export] Instance Lock_eq_dec : EqDecision Lock.
Proof. solve_decision. Defined.

Definition grant_lock (g : GrantRow) : Lock := LGrant (g_domain g) (g_subject_hash g).

(** The rows a statement can see when it starts. *)
Record Snapshot := { sn_sessions : list Z; sn_grants : list Z }.

Definition snapshot_of (d : Db) : Snapshot :=
  {| sn_sessions := List.map s_id (db_sessions d); sn_grants := List.map g_id (db_grants d) |}.

(** A SELECT among the rows of its snapshot. *)
Definition within {A} (sn : Snapshot) (st : Stmt A) : Stmt A :=
  match st in Stmt A return Stmt A with
  | SelectSession lock p => SelectSession lock (fun s => p s && bool_decide (s_id s ∈ sn_sessions sn))
  | SelectGrant lock p => SelectGrant lock (fun g => p g && bool_decide (g_id g ∈ sn_grants sn))
  | st => st
  end.

(** What a statement waits for while another transaction holds it, on the tables
    its own transaction sees. *)
Definition waits_for {A} (st : Stmt A) (d : Db) : list Lock :=
  match st with
  | InsertSession n _ =>
      [LSession (ns_domain n) (ns_session_id n); LNonce (ns_domain n) (ns_nonce_hash n)]
  | SelectSession ForUpdate p => List.map (fun s => LRow (s_id s)) (List.filter p (db_sessions d))
  | UpdateSession id _ _ => [LRow id]
  | InsertText l value _ _ => [LText l value]
  | InsertChallenge hash _ => [LChallenge hash]
  | UpsertGrant domain sh _ _ _ _ _ => [LGrant domain sh]
  | SelectGrant ForUpdate p => List.map grant_lock (List.filter p (db_grants d))
  | SelectSession NoLock _ | SelectGrant NoLock _ => []
  | RevokeGrant id => List.map grant_lock (List.filter (fun g => g_id g =? id) (db_grants d))
  | InsertJob _ _ jti _ _ _ => [LJti jti]
  end.

(** An INSERT that finds its key taken does nothing. *)
Definition inserts {A} (st : Stmt A) (s : Seqs) (d : Db) : bool :=
  match st with
  | InsertSession n e =>
      negb (existsb (session_conflict (new_row n (seq_sessions s) e)) (db_sessions d))
  | InsertJob _ _ jti _ _ _ => negb (existsb (fun j => String.eqb (j_jti j) jti) (db_jobs d))
  | _ => true
  end.

(** What a statement holds once it is done, with the identifier it drew. *)
Definition locks_of {A} (st : Stmt A) (s : Seqs) (d : Db) : list Lock :=
  match st with
  | UpsertGrant _ _ _ _ _ _ _ => [LGrantId (seq_grants s)]
  | InsertJob _ _ _ _ _ _ => [LJobId (seq_jobs s)]
  | _ => []
  end ++
  if inserts st s d
  then match st with InsertSession _ _ => [LRow (seq_sessions s)] | _ => [] end ++ waits_for st d
  else [].

(** ** Transactions *)

(** A statement that succeeded, with the sequences it drew from, its answer, and
    whether it inserted what it was to insert. *)
Record Entry := {
  e_type : Type;
  e_stmt : Stmt e_type;
  e_seqs : Seqs;
  e_answer : e_type;
  e_inserted : bool
}.

(** What a transaction did so far, the locks it holds, and the snapshot of the
    statement it has started. *)
Record Transaction := {
  ct_started : Z;
  ct_log : list Entry;
  ct_locks : list Lock;
  ct_snapshot : option Snapshot
}.

Definition new_tx (now : Z) : Transaction :=
  {| ct_started := now; ct_log := []; ct_locks := []; ct_snapshot := None |}.

(** The tables with what a transaction wrote. *)
Definition effect (now : Z) (e : Entry) (d : Db) : Db :=
  if e_inserted e then (stmt_run (e_stmt e) now (e_seqs e) d).1.2 else d.
Definition replay (now : Z) (log : list Entry) (d : Db) : Db :=
  fold_left (fun d e => effect now e d) log d.
Definition view (t : Transaction) (d : Db) : Db := replay (ct_started t) (ct_log t) d.

(** Inside its transaction a thread sees the shared world with its own tables. *)
Definition enter (tx : option Transaction) (w : World) : World :=
  set_tx (option_map (fun t => {| tx_db := view t (w_db w); tx_now := ct_started t |}) tx) w.

(** A statement of a transaction as it runs, on the rows of its snapshot. *)
Definition running {A} (t : Transaction) (st : Stmt A) : Stmt A :=
  match ct_snapshot t with Some sn => within sn st | None => st end.

(** After a statement that succeeded; one that failed has changed nothing. *)
Definition logged {A} (st : Stmt A) (s : Seqs) (d : Db) (answer : result A) (t : Transaction) : Transaction := {|
  ct_started := ct_started t;
  ct_log := match answer with
            | Ok a =>
                ct_log t ++ [{| e_type := A; e_stmt := st; e_seqs := s; e_answer := a;
                                e_inserted := inserts st s d |}]
            | Err _ => ct_log t
            end;
  ct_locks := match answer with
              | Ok _ => ct_locks t ++ locks_of (running t st) s d
              | Err _ => ct_locks t
              end;
  ct_snapshot := None |}.

(** ** Threads *)

(** A task is a sequence of calls, each for the result of the one before. *)
Inductive Script :=
  | Done
  | Call {A} (m : M A) (k : result A -> Script).

(** The task as one program. *)
Fixpoint flatten (s : Script) : M unit :=
  match s with
  | Done => ret tt
  | Call m k => let! r := try m in flatten (k r)
  end.

Inductive Thread :=
  | Finished
  | Running {A} (prog : M A) (next : result A -> Script) (tx : option Transaction).

Definition start (s : Script) : Thread :=
  match s with Done => Finished | Call m k => Running m k None end.

Definition locks_held (t : Thread) : list Lock :=
  match t with Running _ _ (Some tx) => ct_locks tx | _ => [] end.

Record Runtime := { rt_world : World; rt_threads : list Thread }.

Section Turns.
Context `{Env}.

(** A statement whose turn it is for the first time takes its snapshot. *)
Definition begins {X} (o : Op X) (tx : option Transaction) (w : World) : option Transaction :=
  match o, tx with
  | Exec _, Some t =>
      match ct_snapshot t with
      | Some _ => None
      | None =>
          Some {| ct_started := ct_started t; ct_log := ct_log t; ct_locks := ct_locks t;
                  ct_snapshot := Some (snapshot_of (view t (w_db w))) |}
      end
  | _, _ => None
  end.

(** The operation with its statement restricted to the snapshot. *)
Definition bounded {X} (o : Op X) (tx : option Transaction) : Op X :=
  match o in Op X return Op X with
  | Exec st => Exec (match tx with Some t => running t st | None => st end)
  | o => o
  end.

(** A statement waits while others hold what it needs, unless it fails. *)
Definition blocked {X} (o : Op X) (tx : option Transaction) (w : World) (held : list Lock) : bool :=
  match o, tx with
  | Exec st, Some t =>
      env_sql (w_step w)
      && existsb (fun l => bool_decide (l ∈ held)) (waits_for (running t st) (view t (w_db w)))
  | _, _ => false
  end.

(** The thread's transaction after an operation. *)
Definition tx_after {X} (o : Op X) (tx : option Transaction) (w : World) : X -> option Transaction :=
  match o in Op X return X -> option Transaction with
  | Begin => fun up => if up then Some (new_tx (env_db_now (w_step w))) else tx
  | Exec st => fun answer => option_map (fun t => logged st (w_seqs w) (view t (w_db w)) answer t) tx
  | Drop | Commit | Rollback => fun _ => None
  | _ => fun _ => tx
  end.

(** One turn of a thread, when the others hold some locks. *)
Definition turn (held : list Lock) (t : Thread) (w : World) : option (Thread * World) :=
  match t with
  | Finished => None
  | Running (Ret r) next _ => Some (start (next r), w)
  | Running (Vis o k) next tx =>
      match begins o tx w with
      | Some t => Some (Running (Vis o k) next (Some t), w)
      | None =>
          if blocked o tx w held then None
          else
            let '(x, w') := perform (bounded o tx) (enter tx w) in
            Some (Running (k x) next (tx_after o tx w x), set_tx None w')
      end
  end.
End Turns.

Section Tasks.
Context `{Base64} `{Crypto} `{JsonText} `{JsonReader} `{Env}.
Variable state : AppState.

(** ** Tasks *)

Definition only {A} (m : M A) : Script := Call m (fun _ => Done).

(** The loop of [tick] over the claimed jobs: deliver, then close. *)
Fixpoint jobs_script (jobs : list DeliveryJob) : Script :=
  match jobs with
  | [] => Done
  | job :: rest =>
      Call (deliver state job) (fun outcome =>
        match outcome with
        | Ok _ =>
            Call (mark_delivered (j_id job)) (fun marked =>
              match marked with
              | Ok _ => Call (inc Deliveries) (fun _ => jobs_script rest)
              | Err _ => Done
              end)
        | Err _ =>
            if 8 <=? j_attempts job then
              Call (mark_failed (j_id job)) (fun marked =>
                match marked with Ok _ => jobs_script rest | Err _ => Done end)
            else jobs_script rest
        end)
  end.

Definition script_of (e : Event) : Script :=
  match e with
  | HttpRequest PostSiteSessions body =>
      if MAX_HTTP_BODY <? blen body then only (serve state PostSiteSessions body)
      else
        Call rate_limit_ok (fun r =>
          match r with
          | Ok ok => only (if negb ok then rate_limited else post_registration state body)
          | Err _ => Done
          end)
  | HttpRequest route body => only (serve state route body)
  | RoomEvent m => only (on_room_message state m)
  | SyncRound ok sdk rooms => only (on_sync state ok sdk rooms)
  | SyncEnded => only on_sync_ended
  | DeliveryTick =>
      Call (claim_due 10) (fun claimed =>
        match claimed with Ok jobs => jobs_script jobs | Err _ => Done end)
  end.

(** ** The runtime *)

(** What happens next: an event arrives, a thread has its turn, or a task is
    dropped, by a timeout or a connection that closed, and its transaction with
    it. *)
Inductive Choice := Arrive (e : Event) | Turn (i : nat) | Cancel (i : nat).

Definition held_by_others (i : nat) (threads : list Thread) : list Lock :=
  concat (List.map locks_held (delete i threads)).

Definition act (c : Choice) (s : Runtime) : option Runtime :=
  match c with
  | Arrive e =>
      Some {| rt_world := rt_world s; rt_threads := rt_threads s ++ [start (script_of e)] |}
  | Turn i =>
      t ← rt_threads s !! i;
      '(t', w) ← turn (held_by_others i (rt_threads s)) t (rt_world s);
      Some {| rt_world := w; rt_threads := <[i := t']> (rt_threads s) |}
  | Cancel i =>
      Some {| rt_world := rt_world s; rt_threads := <[i := Finished]> (rt_threads s) |}
  end.

Fixpoint run_schedule (l : list Choice) (s : Runtime) : option Runtime :=
  match l with
  | [] => Some s
  | c :: l => s' ← act c s; run_schedule l s'
  end.

Definition arrivals (c : Choice) : list Event := match c with Arrive e => [e] | _ => [] end.

Definition initial_runtime (sync_ready : bool) (last : Z) : Runtime :=
  {| rt_world := initial_world sync_ready last; rt_threads := [] |}.

(** The runtimes that any interleaving leads to, with the events that arrived. *)
Inductive interleaved : list Event -> Runtime -> Prop :=
  | inter_start ready last : interleaved [] (initial_runtime ready last)
  | inter_act tr s c s' : interleaved tr s -> act c s = Some s' -> interleaved (arrivals c ++ tr) s'.

(** ** One task at a time *)

(** A task that nobody interrupts makes the step of its event. *)
Lemma run_only {A} (m : M A) w : (flatten (only m) w).2 = (m w).2.
Proof. cbn [flatten only]. rewrite run_bind, run_try. by destruct (m w). Qed.

Lemma run_call {A} (m : M A) k w :
  (flatten (Call m k) w).2 = let '(r, w') := m w in (flatten (k r) w').2.
Proof. cbn [flatten]. rewrite run_bind, run_try. by destruct (m w). Qed.

Lemma run_jobs_script jobs w : (flatten (jobs_script jobs) w).2 = (run_jobs state jobs w).2.
Proof.
  revert w. induction jobs as [|j rest IH]; intros w; [done|]. cbn [jobs_script run_jobs]. rewrite run_call.
  unfold run_job. rewrite !run_bind, run_try. destruct (deliver state j w) as [[[]|e] w'].
  - rewrite run_call, run_bind. destruct (mark_delivered _ w') as [[[]|e] w2]; [|done].
    rewrite run_call. cbn. apply IH.
  - case_match; [|apply IH]. rewrite run_call. destruct (mark_failed _ w') as [[[]|e'] w2]; [apply IH|done].
Qed.

Lemma script_step e w : (flatten (script_of e) w).2 = step state e w.
Proof.
  destruct e as [[] body|m|ok sdk rooms| |]; try apply run_only.
  - cbn [script_of step]. case_match eqn:E; [apply run_only|]. rewrite run_call.
    unfold serve. rewrite E. unfold site_sessions. rewrite run_bind.
    destruct (rate_limit_ok w) as [[ok|e] w']; [apply run_only|done].
  - cbn [script_of step]. unfold process_once, tick. rewrite run_call, run_bind.
    destruct (claim_due 10 w) as [[jobs|e] w']; [apply run_jobs_script|done].
Qed.
End Tasks.
