(* ===== verification/Isolation.v ===== *)
(** * What locks protect

    A lock stands for a part of the tables.  The effect of a transaction stays
    within the parts whose locks it holds, and its statements depend on no others;
    so as long as nobody else holds its locks, a transaction finds at its commit
    what it found before, whoever committed in between. *)

From S2P Require Import Prelude Errors Constants Base64url Json Crypto Keys Metadata Ssrf.
From S2P Require Import Site Tables Statements World Db Invariant Concurrent.
From stdpp Require Import gmap.
#[local] Open Scope Z_scope.
#[local] Set Warnings "-clear-no-such-hyp".

(** ** Lists of rows *)

Lemma filter_map {A} (p : A -> bool) (f : A -> A) l :
  (forall x, p (f x) = p x) -> List.filter p (List.map f l) = List.map f (List.filter p l).
Proof. intros Hf. induction l as [|x l IH]; simpl; [done|]. rewrite Hf, IH. by destruct (p x). Qed.

Lemma existsb_map {A} (p : A -> bool) (f : A -> A) l :
  (forall x, p (f x) = p x) -> existsb p (List.map f l) = existsb p l.
Proof. intros Hf. induction l as [|x l IH]; simpl; [done|]. by rewrite Hf, IH. Qed.

Lemma existsb_snoc {A} (p : A -> bool) l x : existsb p (l ++ [x]) = existsb p l || p x.
Proof. rewrite existsb_app. simpl. by rewrite orb_false_r. Qed.

(** A change of rows that a filter does not select. *)
Lemma filter_map_off {A} (p : A -> bool) (f : A -> A) l :
  (forall x, p (f x) = p x) -> (forall x, x ∈ l -> p x = true -> f x = x) ->
  List.filter p (List.map f l) = List.filter p l.
Proof.
  intros Hf Hoff. rewrite filter_map by done. rewrite <- (map_id (List.filter p l)) at 2.
  apply map_ext_in. intros x [Hx Hp]%filter_In. apply Hoff; [by apply list_elem_of_In|done].
Qed.

Lemma filter_snoc_off {A} (p : A -> bool) l x :
  p x = false -> List.filter p (l ++ [x]) = List.filter p l.
Proof. intros Hx. rewrite List.filter_app. simpl. by rewrite Hx, app_nil_r. Qed.

(** ** The part of the tables a lock stands for *)

Inductive Part :=
  | Sessions (l : list SessionRow)
  | Grants (l : list GrantRow)
  | Present (b : bool)
  | Reserved (until : option Z).

Definition by_nonce (domain : string) (nonce_hash : list byte) (s : SessionRow) : bool :=
  String.eqb (s_domain s) domain && bool_decide (s_nonce_hash s = nonce_hash).

Definition part (k : Lock) (d : Db) : Part :=
  match k with
  | LRow id => Sessions (List.filter (fun s => s_id s =? id) (db_sessions d))
  | LSession domain sid => Present (existsb (by_session domain sid) (db_sessions d))
  | LNonce domain nh => Present (existsb (by_nonce domain nh) (db_sessions d))
  | LText l value => Reserved (ledger l d !! value)
  | LChallenge hash => Reserved (db_challenge_hashes d !! hash)
  | LGrant domain sh => Grants (List.filter (grant_match domain sh) (db_grants d))
  | LGrantId id => Present (existsb (fun g => g_id g =? id) (db_grants d))
  | LJti jti => Present (existsb (fun j => String.eqb (j_jti j) jti) (db_jobs d))
  | LJobId id => Present (existsb (fun j => j_id j =? id) (db_jobs d))
  end.

(** Two states of the tables that agree on the parts of some locks; the second has
    at least the jobs of the first. *)
Record agree_on (L : list Lock) (d d' : Db) : Prop := {
  ao_part : forall k, k ∈ L -> part k d' = part k d;
  ao_jtis : forall jti, part (LJti jti) d = Present true -> part (LJti jti) d' = Present true
}.

#[export] Instance agree_on_pre L : PreOrder (agree_on L).
Proof.
  split; [by split|]. intros a b c [H1 H2] [H3 H4]. split; [|by auto].
  intros k Hk. rewrite H3 by done. auto.
Qed.

Lemma agree_on_subset L L' d d' : L' ⊆ L -> agree_on L d d' -> agree_on L' d d'.
Proof. intros Hs [H1 H2]. split; [|done]. auto. Qed.

(** ** What a transaction needs to hold for a statement *)

(** The locks that make a statement's answer and effect the transaction's own,
    the SELECT of a session apart: an INSERT inserts under an identifier that is
    not in use, a reservation reserves, a REVOKE concerns a grant that is held. *)
Definition covered (T : list Lock) {A} (st : Stmt A) (s : Seqs) (inserted : bool) (d : Db) : Prop :=
  match st with
  | InsertSession n e =>
      existsb (session_conflict (new_row n (seq_sessions s) e)) (db_sessions d) = false /\
      part (LRow (seq_sessions s)) d = Sessions [] /\
      LRow (seq_sessions s) ∈ T /\ LSession (ns_domain n) (ns_session_id n) ∈ T /\
      LNonce (ns_domain n) (ns_nonce_hash n) ∈ T
  | SelectSession _ _ => False
  | UpdateSession id _ _ => LRow id ∈ T
  | InsertText l value _ _ => LText l value ∈ T
  | InsertChallenge hash _ => LChallenge hash ∈ T
  | UpsertGrant domain sh _ _ _ _ _ =>
      LGrant domain sh ∈ T /\ LGrantId (seq_grants s) ∈ T /\
      part (LGrantId (seq_grants s)) d = Present false
  | SelectGrant _ p => exists domain sh, p = grant_match domain sh /\ LGrant domain sh ∈ T
  | RevokeGrant id => exists g, g ∈ db_grants d /\ g_id g = id /\ grant_lock g ∈ T
  | InsertJob _ _ jti _ _ _ =>
      LJobId (seq_jobs s) ∈ T /\ part (LJobId (seq_jobs s)) d = Present false /\
      if inserted then LJti jti ∈ T else part (LJti jti) d = Present true
  end.

(** Only the INSERT of a job may find its key taken and go on. *)
Definition may_skip {A} (st : Stmt A) : bool := match st with InsertJob _ _ _ _ _ _ => true | _ => false end.
Definition reads_session {A} (st : Stmt A) : bool := match st with SelectSession _ _ => true | _ => false end.

(** A statement with its answer holds on some tables. *)
Record entry_ok (T : list Lock) (now : Z) (e : Entry) (d : Db) : Prop := {
  ok_answer : (stmt_run (e_stmt e) now (e_seqs e) d).1.1 = Ok (e_answer e);
  ok_covered : covered T (e_stmt e) (e_seqs e) (e_inserted e) d;
  ok_inserted : e_inserted e || may_skip (e_stmt e) = true
}.

(** So does a transaction, but for what it learned of the sessions. *)
Definition entry_fine (T : list Lock) (now : Z) (e : Entry) (d : Db) : Prop :=
  reads_session (e_stmt e) = true \/ entry_ok T now e d.

Fixpoint valid (T : list Lock) (now : Z) (log : list Entry) (d : Db) : Prop :=
  match log with
  | [] => True
  | e :: log => entry_fine T now e d /\ valid T now log (effect now e d)
  end.

(** ** Effects *)

Lemma absent_id {A} (key : A -> Z) l id :
  existsb (fun x => key x =? id) l = false -> id ∉ List.map key l.
Proof.
  rewrite existsb_none. intros Hl (x & -> & Hx)%list_elem_of_fmap. specialize (Hl x Hx).
  by rewrite Z.eqb_refl in Hl.
Qed.

Lemma covered_new T {A} (st : Stmt A) s i d : covered T st s i d -> drawn_new st s d.
Proof.
  destruct st; cbn; try done.
  - intros (_ & [= Hid] & _). apply absent_id, existsb_none. intros x Hx. apply Invariant.filter_nil in Hid.
    rewrite Forall_forall in Hid. auto.
  - intros (_ & _ & [= Hid]). by apply absent_id.
  - intros (_ & [= Hid] & _). by apply absent_id.
Qed.

Lemma effect_run T now e d :
  entry_ok T now e d -> effect now e d = (stmt_run (e_stmt e) now (e_seqs e) d).1.2.
Proof.
  intros [_ Hc Hi]. unfold effect. destruct (e_inserted e); [done|].
  destruct (e_stmt e); try discriminate Hi. destruct Hc as (_ & _ & [= Hc]). cbn. unfold insert_job. cbn.
  by rewrite Hc.
Qed.

Lemma effect_read now e d : reads_session (e_stmt e) = true -> effect now e d = d.
Proof. unfold effect. destruct (e_stmt e); try discriminate. by destruct (e_inserted e). Qed.

Lemma unique_effect T now e d : unique d -> entry_fine T now e d -> unique (effect now e d).
Proof.
  intros U [Hr|He]; [by rewrite effect_read|]. rewrite (effect_run T) by done.
  apply unique_stmt_run; [done|]. by eapply covered_new, He.
Qed.

Lemma grant_match_lock domain sh g : grant_match domain sh g = true <-> grant_lock g = LGrant domain sh.
Proof.
  unfold grant_match, grant_lock. rewrite andb_true_iff, String.eqb_eq, bool_decide_eq_true. naive_solver.
Qed.

Lemma grant_match_key domain sh g g' :
  grant_lock g' = grant_lock g -> grant_match domain sh g' = grant_match domain sh g.
Proof. unfold grant_lock, grant_match. by intros [= -> ->]. Qed.

(** An effect leaves alone every part whose lock its transaction does not hold. *)
Lemma effect_part T now e d k : unique d -> entry_fine T now e d -> k ∉ T -> part k (effect now e d) = part k d.
Proof.
  intros U [Hr|He] Hk; [by rewrite effect_read|]. rewrite (effect_run T) by done.
  destruct He as [_ Hc _]. destruct e as [A st s a i]. cbn [e_stmt e_seqs e_inserted] in *.
  destruct st; unfold stmt_run; cbn [covered] in Hc; try done.
  - destruct Hc as (Hno & _ & Hr & Hs & Hn). unfold insert_session. rewrite Hno.
    destruct k; try done; cbn -[List.filter]; f_equal.
    + apply filter_snoc_off. apply Z.eqb_neq. cbn. congruence.
    + rewrite existsb_snoc, <- orb_false_r. f_equal. unfold by_session. cbn.
      destruct (String.eqb_spec (ns_domain n) domain); [|done].
      destruct (String.eqb_spec (ns_session_id n) session_id); [|done]. congruence.
    + rewrite existsb_snoc, <- orb_false_r. f_equal. unfold by_nonce. cbn.
      destruct (String.eqb_spec (ns_domain n) domain); [|done]. apply bool_decide_eq_false. congruence.
  - unfold update_session. case_if; [done|]. destruct k; try done; cbn -[List.filter]; f_equal.
    + apply filter_map_off; [by intros x; case_if|]. intros x _ Hx. case_if; [|done].
      unfold cas_match in *. bool_hyp. congruence.
    + apply existsb_map. intros x. by case_if.
    + apply existsb_map. intros x. by case_if.
  - unfold insert_key. case_match; [done|]. destruct k as [| | |l0 v| | | | |]; try done. cbn. f_equal.
    destruct (decide (l = l0)) as [->|Hl].
    + destruct (decide (value = v)) as [->|Hv]; [done|]. destruct l0; cbn; by rewrite lookup_insert_ne.
    + by destruct l, l0.
  - unfold insert_challenge. case_match; [done|]. destruct k as [| | |l0 v|h| | | |]; try done.
    cbn. f_equal. apply lookup_insert_ne. congruence.
  - destruct Hc as (Hg & Hid & _). unfold upsert. destruct (List.filter _ _) as [|g l]; cbn [fst snd];
      destruct k as [| | | | |dm h| | |]; try done; cbn -[List.filter]; f_equal.
    + apply filter_snoc_off. apply not_true_iff_false. rewrite grant_match_lock. unfold grant_lock. cbn. congruence.
    + rewrite existsb_snoc, <- orb_false_r. f_equal. apply Z.eqb_neq. cbn. congruence.
    + apply filter_map_off; [intros x; case_if; [by apply grant_match_key|done]|].
      intros x _ Hx%grant_match_lock. match goal with |- context [if ?c then _ else _] => destruct c eqn:Hm; [|done] end. apply grant_match_lock in Hm. cbn in Hm. congruence.
    + apply existsb_map. intros x. by case_if.
  - destruct Hc as (g & Hg & Hid & Hl). unfold revoke.
    destruct k as [| | | | |dm h| | |]; try done; cbn -[List.filter]; f_equal.
    + apply filter_map_off; [intros x; case_if; [by apply grant_match_key|done]|].
      intros x Hx Hm%grant_match_lock. destruct (_ && _) eqn:Hd; [|done]. bool_hyp.
      assert (x = g) as -> by (eapply key_inj; [apply U|done..|congruence]). congruence.
    + apply existsb_map. intros x. by case_if.
  - destruct Hc as (Hid & _ & Hj). unfold insert_job. destruct (existsb _ _) eqn:E; [done|].
    cbn in E. destruct i; [|injection Hj; congruence].
    destruct k as [| | | | | | |jt|]; try done; cbn -[List.filter]; f_equal; rewrite existsb_snoc, <- orb_false_r; f_equal; cbn.
    + apply String.eqb_neq. congruence.
    + apply Z.eqb_neq. congruence.
Qed.

Lemma effect_jtis now e d jti :
  part (LJti jti) d = Present true -> part (LJti jti) (effect now e d) = Present true.
Proof.
  intros [= Hj]. destruct e as [A st s a i]. unfold effect. cbn [e_stmt e_seqs e_inserted].
  destruct i; [|by cbn; rewrite Hj].
  assert (Hsame : forall d', db_jobs d' = db_jobs d -> part (LJti jti) d' = Present true)
    by (intros d' E; cbn; by rewrite E, Hj).
  destruct st; unfold stmt_run; try by apply Hsame.
  - unfold insert_session. case_if; by apply Hsame.
  - unfold update_session. case_if; by apply Hsame.
  - unfold insert_key. case_match; by apply Hsame.
  - unfold insert_challenge. case_match; by apply Hsame.
  - unfold upsert. destruct (List.filter _ _); by apply Hsame.
  - unfold insert_job. case_if; [by apply Hsame|]. cbn. by rewrite existsb_app, Hj.
Qed.

(** Whoever holds other locks sees nothing of it. *)
Lemma effect_frame T L now e d :
  unique d -> entry_fine T now e d -> (forall k, k ∈ T -> k ∉ L) -> agree_on L d (effect now e d).
Proof.
  intros U He HT. split; [|intros jti; apply effect_jtis]. intros k Hk.
  eapply effect_part; [done..|]. intros Hin. by apply (HT k).
Qed.

Lemma replay_frame T L now log d :
  unique d -> valid T now log d -> (forall k, k ∈ T -> k ∉ L) ->
  agree_on L d (replay now log d) /\ unique (replay now log d).
Proof.
  revert d. induction log as [|e log IH]; intros d U Hv HT; [done|]. destruct Hv as [He Hv]. cbn [replay fold_left].
  pose proof (unique_effect T now e d U He) as U'. destruct (IH _ U' Hv HT) as [H1 H2]. split; [|done].
  etrans; [by eapply effect_frame|done].
Qed.

(** ** Answers *)

Lemma part_row id d d' : part (LRow id) d' = part (LRow id) d ->
  forall (f : SessionRow -> bool), (forall s, f s = true -> s_id s = id) ->
  List.filter f (db_sessions d') = List.filter f (db_sessions d).
Proof.
  intros [= E] f Hf.
  assert (Hff : forall l, List.filter f l = List.filter f (List.filter (fun s => s_id s =? id) l)).
  { induction l as [|x l IH]; cbn; [done|]. destruct (Z.eqb_spec (s_id x) id) as [Hx|Hx]; cbn; rewrite IH; [done|].
    destruct (f x) eqn:Ef; [|done]. by apply Hf in Ef. }
  by rewrite Hff, (Hff (db_sessions d)), E.
Qed.

Lemma conflict_split n e id l :
  existsb (session_conflict (new_row n id e)) l =
  existsb (by_session (ns_domain n) (ns_session_id n)) l || existsb (by_nonce (ns_domain n) (ns_nonce_hash n)) l.
Proof.
  induction l as [|x l IH]; cbn [existsb]; [done|]. rewrite IH. unfold session_conflict, by_session, by_nonce. cbn.
  rewrite (String.eqb_sym (ns_domain n)), (String.eqb_sym (ns_session_id n)).
  rewrite (bool_decide_ext (ns_nonce_hash n = s_nonce_hash x) (s_nonce_hash x = ns_nonce_hash n)) by done.
  destruct (String.eqb _ _), (String.eqb _ _), (bool_decide _), (existsb _ _), (existsb _ _); done.
Qed.

(** What covers a statement covers it on every tables that agree on it. *)
Lemma covered_agree T {A} (st : Stmt A) s i d d' : covered T st s i d -> agree_on T d d' -> covered T st s i d'.
Proof.
  intros Hc [Hp Hj]. destruct st; cbn [covered] in *; try done.
  - destruct Hc as (Hno & Hid & Hr & Hs & Hn). split_and!; try done; [|by rewrite Hp].
    rewrite conflict_split in Hno |- *. pose proof (Hp _ Hs) as [= ->]. by pose proof (Hp _ Hn) as [= ->].
  - destruct Hc as (Hg & Hi & Hno). by rewrite Hp.
  - destruct Hc as (g & Hg & Hid & Hl). exists g. split_and!; try done. pose proof (Hp _ Hl) as [= Hl'].
    assert (Hf : g ∈ List.filter (grant_match (g_domain g) (g_subject_hash g)) (db_grants d')).
    { rewrite Hl'. apply list_elem_of_In, filter_In. split; [by apply list_elem_of_In|]. by apply grant_match_lock. }
    apply list_elem_of_In, filter_In in Hf as [? _]. by apply list_elem_of_In.
  - destruct Hc as (Hi & Hno & Ht). rewrite Hp by done. split_and!; try done. destruct i; [done|by apply Hj].
Qed.

(** Rows that are added, and rows that are changed with their keys, on both sides. *)
Lemma part_add_session k x d d' :
  part k d' = part k d ->
  part k (set_sessions (db_sessions d' ++ [x]) d') = part k (set_sessions (db_sessions d ++ [x]) d).
Proof.
  destruct k; try done; cbn -[List.filter]; intros [= E]; f_equal;
    rewrite ?List.filter_app, ?existsb_snoc; by rewrite E.
Qed.
Lemma part_add_grant k x d d' :
  part k d' = part k d ->
  part k (set_grants (db_grants d' ++ [x]) d') = part k (set_grants (db_grants d ++ [x]) d).
Proof.
  destruct k; try done; cbn -[List.filter]; intros [= E]; f_equal;
    rewrite ?List.filter_app, ?existsb_snoc; by rewrite E.
Qed.
Lemma part_add_job k x d d' :
  part k d' = part k d ->
  part k (set_jobs (db_jobs d' ++ [x]) d') = part k (set_jobs (db_jobs d ++ [x]) d).
Proof. destruct k; try done; cbn; intros [= E]; f_equal; rewrite !existsb_snoc; by rewrite E. Qed.

Lemma part_map_sessions k (f : SessionRow -> SessionRow) d d' :
  (forall x, s_id (f x) = s_id x /\ s_domain (f x) = s_domain x /\ s_session_id (f x) = s_session_id x /\
     s_nonce_hash (f x) = s_nonce_hash x) ->
  part k d' = part k d ->
  part k (set_sessions (List.map f (db_sessions d')) d') = part k (set_sessions (List.map f (db_sessions d)) d).
Proof.
  intros Hf. destruct k; try done; cbn -[List.filter]; intros [= E]; f_equal.
  - rewrite !filter_map by (intros x; by rewrite (proj1 (Hf x))). by rewrite E.
  - rewrite !existsb_map by (intros x; unfold by_session; destruct (Hf x) as (_ & -> & -> & _); done). done.
  - rewrite !existsb_map by (intros x; unfold by_nonce; destruct (Hf x) as (_ & -> & _ & ->); done). done.
Qed.
Lemma part_map_grants k (f : GrantRow -> GrantRow) d d' :
  (forall x, g_id (f x) = g_id x /\ grant_lock (f x) = grant_lock x) ->
  part k d' = part k d ->
  part k (set_grants (List.map f (db_grants d')) d') = part k (set_grants (List.map f (db_grants d)) d).
Proof.
  intros Hf. destruct k; try done; cbn -[List.filter]; intros [= E]; f_equal.
  - rewrite !filter_map by (intros x; by apply grant_match_key, Hf). by rewrite E.
  - rewrite !existsb_map by (intros x; by rewrite (proj1 (Hf x))). done.
Qed.

(** A covered statement answers the same, and has the same effect, on tables that
    agree on what its transaction holds. *)
Lemma stmt_agree T {A} (st : Stmt A) now s i d d' :
  covered T st s i d -> agree_on T d d' ->
  (stmt_run st now s d').1.1 = (stmt_run st now s d).1.1 /\
  agree_on T (stmt_run st now s d).1.2 (stmt_run st now s d').1.2.
Proof.
  intros Hc Ha. pose proof (covered_agree T st s i d d' Hc Ha) as Hc'. pose proof Ha as [Hp Hj].
  destruct st; cbn [covered] in *; unfold stmt_run; try done.
  - destruct Hc as (Hno & _), Hc' as (Hno' & _). unfold insert_session. rewrite Hno, Hno'. split; [done|].
    split; [|done]. intros k Hk. by apply part_add_session, Hp.
  - pose proof (part_row id d d' (Hp _ Hc) (cas_match id version)) as Hhit. unfold update_session.
    rewrite Hhit by (intros x Hx; unfold cas_match in Hx; bool_hyp; done). case_if; [done|]. split; [done|].
    split; [|done]. intros k Hk. apply part_map_sessions; [|by apply Hp]. intros x. by case_if.
  - unfold insert_key. pose proof (Hp _ Hc) as [= E]. rewrite E. case_match; [done|]. split; [done|].
    split; [|by destruct l]. intros k Hk. specialize (Hp k Hk). destruct k as [| | |l0 v| | | | |]; try done; cbn in *.
    f_equal. injection Hp as Hp. destruct l, l0; cbn in *; try done;
      (destruct (decide (value = v)) as [->|Hv]; [by rewrite !lookup_insert_eq|by rewrite !lookup_insert_ne]).
  - unfold insert_challenge. pose proof (Hp _ Hc) as [= E]. rewrite E. case_match; [done|]. split; [done|].
    split; [|done]. intros k Hk. specialize (Hp k Hk). destruct k as [| | |l0 v|h| | | |]; try done; cbn in *; try (by destruct l0).
    f_equal. injection Hp as Hp. destruct (decide (hash = h)) as [->|Hv]; [by rewrite !lookup_insert_eq|by rewrite !lookup_insert_ne].
  - destruct Hc as (Hg & _). pose proof (Hp _ Hg) as [= E]. unfold upsert. cbn [g_domain g_subject_hash grant_row]. rewrite E.
    destruct (List.filter (grant_match domain subject_hash) (db_grants d)) as [|g l]; (split; [done|]);
      (split; [|done]); intros k Hk.
    + by apply part_add_grant, Hp.
    + apply part_map_grants; [|by apply Hp]. intros x. by case_if.
  - destruct Hc as (domain & sh & -> & Hl). pose proof (Hp _ Hl) as [= E]. by rewrite E.
  - split; [done|]. split; [|done]. intros k Hk. apply part_map_grants; [|by apply Hp]. intros x. by case_if.
  - destruct Hc as (_ & _ & Ht). unfold insert_job. cbn [j_jti job_row].
    assert (E : part (LJti jti) d' = part (LJti jti) d) by (destruct i; [by apply Hp|rewrite Ht; by apply Hj]).
    injection E as E. rewrite E. split; [done|]. case_if; [done|]. split.
    + intros k Hk. by apply part_add_job, Hp.
    + intros jt [= Hjt]. cbn. rewrite existsb_snoc in Hjt |- *. f_equal. apply orb_true_iff in Hjt as [Hjt|Hjt]; [|by rewrite Hjt, orb_true_r].
      pose proof (Hj jt) as Hj'. cbn in Hj'. rewrite Hjt in Hj'. specialize (Hj' eq_refl). injection Hj' as ->. done.
Qed.

Lemma entry_agree T now e d d' :
  entry_fine T now e d -> agree_on T d d' ->
  entry_fine T now e d' /\ agree_on T (effect now e d) (effect now e d').
Proof.
  intros [Hr|He] Hd; [rewrite !effect_read by done; split; [by left|done]|].
  pose proof He as [Ha Hc Hi].
  destruct (stmt_agree T (e_stmt e) now (e_seqs e) (e_inserted e) d d' Hc Hd) as [E Heff].
  assert (He' : entry_ok T now e d') by (split; [by rewrite E|by eapply covered_agree|done]).
  split; [by right|]. by rewrite !(effect_run T) by done.
Qed.

Lemma valid_agree T now log d d' : valid T now log d -> agree_on T d d' -> valid T now log d'.
Proof.
  revert d d'. induction log as [|e log IH]; intros d d'; [done|]. intros [He Hv] Hd.
  destruct (entry_agree T now e d d' He Hd) as [He' Hd']. split; [done|]. by eapply IH.
Qed.

(** A statement on a pooled connection touches no part. *)
Lemma auto_frame L {A} (st : Auto A) now d a d' : auto_run st now d = Ok (a, d') -> agree_on L d d'.
Proof.
  intros E. assert (Hj : exists f, (forall x, j_id (f x) = j_id x /\ j_jti (f x) = j_jti x) /\
    d' = set_jobs (List.map f (db_jobs d)) d).
  { destruct st; [apply claim_Ok in E as [_ ->]|injection E as _ <-]; eexists; (split; [|done]); intros x; cbv beta; by case_if. }
  destruct Hj as (f & Hf & ->).
  assert (Hp : forall k, part k (set_jobs (List.map f (db_jobs d)) d) = part k d).
  { intros k. destruct k as [| | |[]| | | | |]; try done; cbn; f_equal; apply existsb_map; intros x; destruct (Hf x) as [H1 H2];
      by rewrite ?H1, ?H2. }
  split; [done|]. intros jti. by rewrite Hp.
Qed.

(** ** Longer logs, more locks *)

Lemma replay_snoc now log e d : replay now (log ++ [e]) d = effect now e (replay now log d).
Proof. unfold replay. by rewrite fold_left_app. Qed.

Lemma valid_snoc T now log e d :
  valid T now (log ++ [e]) d <-> valid T now log d /\ entry_fine T now e (replay now log d).
Proof.
  revert d. induction log as [|x log IH]; intros d; cbn; [tauto|]. rewrite IH. unfold replay. tauto.
Qed.

Lemma covered_mono T T' {A} (st : Stmt A) s i d : T ⊆ T' -> covered T st s i d -> covered T' st s i d.
Proof.
  intros HT. unfold subseteq, list_subseteq in HT. destruct st; cbn; try (by auto).
  - intros (? & ? & ? & ? & ?). auto 6.
  - intros (? & ? & ?). auto.
  - intros (domain & sh & ? & ?). eauto.
  - intros (g & ? & ? & ?). eauto 6.
  - intros (? & ? & Hi). destruct i; auto.
Qed.

Lemma valid_mono T T' now log d : T ⊆ T' -> valid T now log d -> valid T' now log d.
Proof.
  intros HT. revert d. induction log as [|e log IH]; intros d; [done|]. intros [He Hv]. split; [|by apply IH].
  destruct He as [Hr|[]]; [by left|right]. split; try done. by eapply covered_mono.
Qed.

Lemma replay_agree T now log d d' :
  valid T now log d -> agree_on T d d' -> agree_on T (replay now log d) (replay now log d').
Proof.
  revert d d'. induction log as [|e log IH]; intros d d'; [done|]. intros [He Hv] Hd. cbn.
  destruct (entry_agree T now e d d' He Hd) as [He' Hd']. by apply IH.
Qed.

Lemma replay_unique T now log d : unique d -> valid T now log d -> unique (replay now log d).
Proof.
  intros U Hv. apply (replay_frame T [] now log d U Hv). intros k _. apply not_elem_of_nil.
Qed.

Lemma below_effect T s now e d :
  below s d -> entry_fine T now e d ->
  (forall id, LRow id ∈ T -> id < seq_sessions s) -> (forall id, LGrantId id ∈ T -> id < seq_grants s) ->
  (forall id, LJobId id ∈ T -> id < seq_jobs s) -> below s (effect now e d).
Proof.
  intros B [Hr|He] H1 H2 H3; [by rewrite effect_read|]. rewrite (effect_run T) by done. apply below_stmt_run; [done|].
  destruct He as [_ Hc _]. destruct (e_stmt e); cbn in *; try done; naive_solver.
Qed.
