(* ===== verification/Discipline.v ===== *)
(** * How handlers use transactions

    What makes the handlers safe side by side is how they are written: a
    transaction starts with the SELECT or the INSERT of one session, it writes
    only to the session it selected and to keys it reserves, it takes its locks in
    one order and draws from a sequence at most once, it gives up at the first
    error, and a handler has one transaction.  [disciplined] is that, as a property
    of programs; every call of every task has it. *)

From S2P Require Import Prelude Errors Constants Utf8 Base64url Json Strict Crypto Keys Metadata.
From S2P Require Import Registration Matrix RoomPolicy Ssrf Site Tables Statements World Db Register.
From S2P Require Import Login Queue Http Sync System Concurrent.
From stdpp Require Import gmap.
#[local] Open Scope Z_scope.
#[local] Set Warnings "-clear-no-such-hyp".

(** ** The order of locks *)

Definition ledger_rank (l : Ledger) : nat :=
  match l with RequestEvents | ConsentEvents => 1 | AssertionJtis | RevocationJtis => 4 end.

Definition lock_rank (k : Lock) : nat :=
  match k with
  | LText l _ => ledger_rank l
  | LChallenge _ => 2
  | LGrant _ _ => 3
  | LJti _ => 5
  | _ => 0
  end.

(** The rank of what a statement waits for. *)
Definition stmt_rank {A} (st : Stmt A) : nat :=
  match st with
  | InsertSession _ _ | SelectSession _ _ | UpdateSession _ _ _ => 0
  | InsertText l _ _ _ => ledger_rank l
  | InsertChallenge _ _ => 2
  | UpsertGrant _ _ _ _ _ _ _ | SelectGrant _ _ | RevokeGrant _ => 3
  | InsertJob _ _ _ _ _ _ => 5
  end.

Lemma waits_rank {A} (st : Stmt A) d k : k ∈ waits_for st d -> lock_rank k = stmt_rank st.
Proof.
  destruct st as [| [] p| | | | | [] p| |]; cbn; rewrite ?elem_of_cons, ?list_elem_of_fmap; try (intros (? & -> & _); done); set_solver.
Qed.

Lemma locks_rank {A} (st : Stmt A) s d k : k ∈ locks_of st s d -> (lock_rank k <= stmt_rank st)%nat.
Proof.
  unfold locks_of. intros [Hk|Hk]%elem_of_app.
  - destruct st; try (by apply not_elem_of_nil in Hk); apply list_elem_of_singleton in Hk as ->; cbn; lia.
  - destruct (inserts _ _ _); [|by apply not_elem_of_nil in Hk]. apply elem_of_app in Hk as [Hk|Hk].
    + destruct st; try (by apply not_elem_of_nil in Hk); apply list_elem_of_singleton in Hk as ->; cbn; lia.
    + by rewrite (waits_rank st d k Hk).
Qed.

Lemma lock_rank_bound k : (lock_rank k <= 5)%nat.
Proof. destruct k as [| | |[]| | | | |]; cbn; lia. Qed.

(** ** Where a call stands *)

Inductive Phase :=
  (** No transaction so far. *)
  | Outside
  (** In a transaction: nothing done, nothing to be done, a session looked at
      after that, a session inserted, or one selected, with the grant the last
      statement selected and the rank that the locks have got to. *)
  | Opened
  | Idle
  | Looked
  | Inserted
  | Selected (p : SessionRow -> bool) (s : SessionRow) (last : option GrantRow) (rank : nat)
  (** A statement failed: nothing but to give up. *)
  | Failed
  (** Its change is made, or there will be none. *)
  | Settled
  | Over.

(** A condition on columns that updates leave alone, for one login. *)
Definition fixed (p : SessionRow -> bool) : Prop := forall q s, p (apply_patch q s) = p s.
Definition one_login (p : SessionRow -> bool) : Prop := forall s s', p s = true -> p s' = true ->
  s_session_id s = s_session_id s' /\ s_nonce_hash s = s_nonce_hash s'.

Lemma one_login_matching domain sid nh : one_login (matching domain sid nh).
Proof. intros s s'. unfold matching, by_session. rewrite !andb_true_iff, !bool_decide_eq_true, !String.eqb_eq. naive_solver congruence. Qed.

Lemma one_login_by_nonce sid nh : one_login (by_session_and_nonce sid nh).
Proof. intros s s'. unfold by_session_and_nonce. rewrite !andb_true_iff, !bool_decide_eq_true, !String.eqb_eq. naive_solver congruence. Qed.

Definition allowed {A} (ph : Phase) (st : Stmt A) : Prop :=
  match st with
  | InsertSession _ _ => match ph with Opened => True | _ => False end
  | SelectSession lock p =>
      match ph with Opened => lock = ForUpdate /\ fixed p /\ one_login p | Idle => True | _ => False end
  | UpdateSession id _ _ => match ph with Selected _ s _ _ => id = s_id s | _ => False end
  | SelectGrant lock q =>
      match ph with
      | Selected _ _ _ n => (n < stmt_rank st)%nat /\ lock = ForUpdate /\ exists domain sh, q = grant_match domain sh
      | _ => False
      end
  | RevokeGrant id => match ph with Selected _ _ (Some g) _ => id = g_id g | _ => False end
  | InsertText _ _ _ _ | InsertChallenge _ _ | UpsertGrant _ _ _ _ _ _ _ | InsertJob _ _ _ _ _ _ =>
      match ph with Selected _ _ _ n => (n < stmt_rank st)%nat | _ => False end
  end.

Definition after_stmt {A} (ph : Phase) (st : Stmt A) (r : result A) : Phase :=
  let reached n := Nat.max n (stmt_rank st) in
  match st in Stmt A return result A -> Phase with
  | InsertSession _ _ => fun r =>
      match ph, r with Opened, Ok n => if n =? 1 then Inserted else Idle | _, _ => Failed end
  | SelectSession _ p => fun r =>
      match ph, r with
      | Opened, Ok (Some s) => Selected p s None 0
      | Opened, Ok None => Idle
      | Idle, _ => Looked
      | _, _ => Failed
      end
  | SelectGrant _ _ => fun r =>
      match ph, r with Selected p s _ n, Ok (Some x) => Selected p s (Some x) (reached n) | _, _ => Failed end
  | _ => fun r => match ph, r with Selected p s _ n, Ok _ => Selected p s None (reached n) | _, _ => Failed end
  end r.

Definition op_allowed {X} (ph : Phase) (o : Op X) : Prop :=
  match o with
  | Exec st => allowed ph st
  | Begin | ExecAuto _ | Post _ _ _ _ => ph = Outside
  | Commit => match ph with Idle | Looked | Inserted | Selected _ _ _ _ => True | _ => False end
  | Drop | Rollback => ph <> Outside
  | LoadWindow | StoreWindow _ | StoreCount _ | FetchAddCount | LoadReady | LoadLastSync
  | StoreReady _ | StoreLastSync _ => ph = Over
  | _ => True
  end.

Definition dropped (ph : Phase) : Phase := match ph with Settled => Settled | _ => Over end.

Definition after_op {X} (ph : Phase) (o : Op X) : X -> Phase :=
  match o in Op X return X -> Phase with
  | Begin => fun up => if up then Opened else Outside
  | Exec st => after_stmt ph st
  | ExecAuto _ => fun _ => Settled
  | Commit => fun _ => match ph with Idle | Looked => Over | _ => Settled end
  | Drop | Rollback => fun _ => dropped ph
  | _ => fun _ => ph
  end.

(** Every operation of the program is allowed where it stands, and at its end the
    phase and the result satisfy [Q]. *)
Fixpoint walks {A} (Q : Phase -> result A -> Prop) (ph : Phase) (m : M A) : Prop :=
  match m with
  | Ret r => Q ph r
  | Vis o k => op_allowed ph o /\ forall x, walks Q (after_op ph o x) (k x)
  end.

(** At the end no transaction is open; what [D] stands for is asked when nothing is
    known of the result. *)
Definition closed (D : Prop) {A} (ph : Phase) (r : result A) : Prop :=
  match ph with Outside | Settled => True | Over => D | _ => False end.

Definition disciplined (D : Prop) {A} (m : M A) : Prop := walks (closed D) Outside m.

(** ** Rules *)

Lemma walks_mono {A} (Q Q' : Phase -> result A -> Prop) ph (m : M A) :
  (forall ph r, Q ph r -> Q' ph r) -> walks Q ph m -> walks Q' ph m.
Proof.
  intros HQ. revert ph. induction m as [r|X o k IH]; intros ph; [apply HQ|]. intros [H1 H2]. split; [done|].
  intros x. by apply IH.
Qed.

Lemma walks_bind {A B} (Q : Phase -> result A -> Prop) ph (m : M B) (k : B -> M A) :
  walks (fun ph r => match r with Ok b => walks Q ph (k b) | Err e => Q ph (Err e) end) ph m ->
  walks Q ph (bind m k).
Proof.
  revert ph. induction m as [[b|e]|X o c IH]; intros ph; [done|done|]. intros [H1 H2]. split; [done|].
  intros x. by apply IH.
Qed.

Lemma walks_on_err {A} (Q : Phase -> result A -> Prop) ph (m : M A) f :
  walks (fun ph r => match r with Ok a => Q ph (Ok a) | Err e => walks Q ph (f e) end) ph m ->
  walks Q ph (on_err m f).
Proof.
  revert ph. induction m as [[b|e]|X o c IH]; intros ph; [done|done|]. intros [H1 H2]. split; [done|].
  intros x. by apply IH.
Qed.

Lemma walks_dropping {A} (Q : Phase -> result A -> Prop) ph (m : M A) :
  walks (fun ph r => ph <> Outside /\ Q (dropped ph) r) ph m -> walks Q ph (dropping m).
Proof.
  revert ph. induction m as [r|X o c IH]; intros ph; [by intros [H1 H2]; split|]. intros [H1 H2]. split; [done|].
  intros x. by apply IH.
Qed.

Lemma walks_op {X} (Q : Phase -> result X -> Prop) ph (o : Op X) :
  op_allowed ph o -> (forall x, Q (after_op ph o x) (Ok x)) -> walks Q ph (op o).
Proof. intros H1 H2. split; [done|]. intros x. apply H2. Qed.

Lemma walks_op_result {X} (Q : Phase -> result X -> Prop) ph (o : Op (result X)) :
  op_allowed ph o -> (forall r, Q (after_op ph o r) r) -> walks Q ph (op_result o).
Proof. intros H1 H2. split; [done|]. intros x. apply H2. Qed.

(** A transaction: from its first statement to its drop. *)
Lemma walks_with_tx {A} (Q : Phase -> result A -> Prop) (body : M A) :
  Q Outside (problem InternalError) ->
  walks (fun ph r => ph <> Outside /\ Q (dropped ph) r) Opened body -> walks Q Outside (with_tx body).
Proof.
  intros HQ Hb. unfold with_tx, pool_get, begin. apply walks_bind, walks_bind, walks_op; [done|]. intros []; [|done].
  apply walks_bind, walks_bind, walks_op; [done|]. intros []; [|done]. by apply walks_dropping.
Qed.

Lemma walks_try {A} (Q : Phase -> result (result A) -> Prop) ph (m : M A) :
  walks (fun ph r => Q ph (Ok r)) ph m -> walks Q ph (try m).
Proof.
  revert ph. induction m as [r|X o c IH]; intros ph; [done|]. intros [H1 H2]. split; [done|].
  intros x. by apply IH.
Qed.

(** After an end without a transaction nothing can go wrong. *)
Lemma walks_over {A} (Q : Phase -> result A -> Prop) ph r : Q ph r -> walks Q ph (Ret r).
Proof. done. Qed.

(** One step through a handler: an operation that is allowed, with its answers, or
    a branch; phases are evaluated on the way. *)
Ltac walk_answer r :=
  lazymatch type of r with
  | result (option _) => destruct r as [[?|]|?]
  | result _ => destruct r as [?|?]
  | _ => idtac
  end.

Ltac walk_step :=
  cbv beta iota zeta delta [problem ok_or after_op after_stmt dropped op_allowed allowed stmt_rank ledger_rank Nat.max];
  lazymatch goal with
  | |- forall _, _ => intros ?
  | |- walks _ _ (bind _ _) => apply walks_bind
  | |- walks _ _ (on_err _ _) => apply walks_on_err
  | |- walks _ _ (count_replay _) => apply walks_on_err
  | |- walks _ _ (World.try _) => apply walks_try
  | |- walks _ _ (ret _) => apply walks_over
  | |- walks _ _ (raise _) => apply walks_over
  | |- walks _ _ (fail _) => apply walks_over
  | |- walks _ _ (lift _) => apply walks_over
  | |- walks _ _ (with_tx _) => apply walks_with_tx
  | |- walks _ _ (op _) => apply walks_op; [|intros ?]
  | |- walks _ _ (op_result _) => apply walks_op_result; [|let r := fresh "r" in intros r; walk_answer r]
  | |- walks _ _ (if ?c then _ else _) => destruct c eqn:?
  | |- walks _ _ (match ?x with _ => _ end) => destruct x eqn:?
  | |- _ <> Outside /\ _ => split; [done|]
  | |- context [if ?c then Inserted else Idle] => destruct c eqn:?
  | |- match ?x with _ => _ end => destruct x eqn:?
  | |- (_ < _)%nat => lia
  | |- _ = ForUpdate /\ _ => split; [done|]
  | |- fixed _ /\ one_login _ => split; [done|auto using one_login_matching, one_login_by_nonce]
  | |- (_ < _)%nat /\ _ => split; [lia|]
  | |- exists _ _, _ => by eexists _, _
  | |- _ => done
  end.

Section Handlers.
Context `{Base64} `{Crypto} `{JsonText} `{JsonReader} `{Env}.
Variables (state : AppState) (D : Prop).
Hypothesis HD : D.

Lemma closed_over {A} (r : result A) : closed D Over r.
Proof. exact HD. Qed.

Ltac walk := repeat (walk_step || exact HD).

(** The parts that handlers share. *)
#[local] Ltac open_up :=
  unfold disciplined, get_by_session, get_by_session_and_nonce, get_matching, select_session, find_active_grant,
    reserve_request_event, reserve_consent_event, reserve_assertion_jti, reserve_revocation_jti,
    reserve_challenge_hash, insert_text, upsert_grant, mark_revoked, enqueue, cas_update, at_rest_encrypt, tx_stmt,
    send_failure, send_success_result, send_notice, site_metadata, site_post, now_ms, fill_bytes, commit, rollback, inc.

Lemma register_disciplined r : disciplined D (register_session state r).
Proof. unfold register_session, insert_registered. open_up. walk. Qed.

Lemma request_disciplined ev sid nonce t domain : disciplined D (process_request state ev sid nonce t domain).
Proof. unfold process_request, issue_challenge. open_up. walk. Qed.

Lemma consent_disciplined ev sid nonce t approved dn challenge key_id signature :
  disciplined D (process_consent state ev sid nonce t approved dn challenge key_id signature).
Proof. unfold process_consent, mint_assertion. open_up. walk.
Qed.

Lemma revocation_disciplined ev sid nonce account reason :
  disciplined D (process_revocation state ev sid nonce account reason).
Proof. unfold process_revocation, revoke_grant. open_up. walk. Qed.

Lemma room_message_disciplined m : disciplined D (on_room_message state m).
Proof.
  unfold on_room_message, dispatch_text. destruct (inbound_of _ m) as [ev|]; [|done].
  apply walks_bind, walks_try. assert (Hev : disciplined D (handle_inbound state ev)).
  { unfold handle_inbound. repeat (case_match; try (by open_up; walk));
      auto using request_disciplined, consent_disciplined, revocation_disciplined. }
  eapply walks_mono; [|exact Hev]. intros ph r Hr. exact Hr.
Qed.

Lemma deliver_disciplined j : disciplined D (deliver state j).
Proof. unfold deliver, after_assertion_accepted. open_up. walk. Qed.

Lemma post_registration_disciplined body : disciplined D (post_registration state body).
Proof.
  unfold post_registration, error_response, problem_response. case_if; [open_up; walk|].
  destruct (from_slice _ _) as [r|e]; [|open_up; walk]. apply walks_bind, walks_try.
  eapply walks_mono; [|apply register_disciplined]. intros ph res Hph.
  destruct res as [[resp created]|e]; [exact Hph|]. destruct ph; try done; open_up; walk.
Qed.
End Handlers.

(** A statement on a pooled connection: nothing is open when it ends, and its answer
    is known. *)
Lemma auto_disciplined D {A} (st : Auto A) : disciplined D (pool_exec st).
Proof. unfold disciplined, pool_exec, pool_get. repeat walk_step. Qed.

(** Calls that have to do neither with the tables nor with the sites. *)
Definition harmless {A} (m : M A) : Prop := walks (fun ph _ => ph = Over) Over m.

Section Harmless.
Context `{Base64} `{Crypto} `{JsonText} `{JsonReader} `{Env}.

Lemma rate_limit_harmless : harmless rate_limit_ok.
Proof. unfold harmless, rate_limit_ok. repeat walk_step. Qed.

Lemma problem_harmless c : harmless (problem_response c).
Proof. unfold harmless, problem_response, fill_bytes. repeat walk_step. Qed.

Lemma serve_harmless state route body :
  route <> PostSiteSessions \/ MAX_HTTP_BODY < blen body -> harmless (serve state route body).
Proof.
  intros Hr. unfold harmless, serve. case_if; [by apply walks_over|]. bool_hyp.
  destruct route; [destruct Hr as [Hr|?]; [by destruct Hr|lia]| | |]; try by apply walks_over.
  unfold ready, succeeds, ping, pool_get, problem_response, fill_bytes, now_ms. repeat walk_step.
Qed.

Lemma sync_harmless state ok sdk rooms : harmless (on_sync state ok sdk rooms).
Proof.
  unfold harmless, on_sync, store_sync, now_ms. destruct ok; [|repeat walk_step].
  destruct (auto_join_invites _ _ _) as [acts [[]|]]; repeat walk_step.
Qed.
End Harmless.
