(* ===== verification/Serial.v ===== *)
(** * Side by side or one after the other

    Whatever a call of a task changes in the tables while others run, it also
    changes when it runs alone on the tables as they are when it commits, with the
    answers it got: rows that were committed while one of its statements waited,
    and that it therefore does not see, stay as they are. *)

From S2P Require Import Prelude Errors Constants Base64url Json Strict Crypto Keys Metadata.
From S2P Require Import Registration Ssrf Site Tables Statements World Db Invariant Concurrent.
From S2P Require Import Isolation Discipline.
From stdpp Require Import gmap.
#[local] Open Scope Z_scope.
#[local] Set Warnings "-clear-no-such-hyp".

(** ** The same answers at other steps *)

Definition reindex (f : nat -> nat) (E : Env) : Env := {|
  env_now n := env_now (f n); env_unix_secs n := env_unix_secs (f n); env_rand n := env_rand (f n);
  env_pool n := env_pool (f n); env_begin n := env_begin (f n); env_sql n := env_sql (f n);
  env_db_now n := env_db_now (f n); env_exec n := env_exec (f n); env_commit n := env_commit (f n);
  env_rollback n := env_rollback (f n); env_returning n := env_returning (f n);
  env_notice n := env_notice (f n); env_notice_error n := env_notice_error (f n);
  env_site n := env_site (f n); env_timestamp_millis := env_timestamp_millis |}.

(** The steps a call took, first the ones in a list, then all others. *)
Definition extends (hist : list nat) (f : nat -> nat) : Prop := forall k n, hist !! k = Some n -> f k = n.

Definition onto (f : nat -> nat) : Prop := forall n, exists k, f k = n.

Lemma extends_onto hist : exists f, extends hist f /\ onto f.
Proof.
  exists (fun k => default (k - length hist)%nat (hist !! k)). split.
  - intros k n Hk. by rewrite Hk.
  - intros n. exists (length hist + n)%nat. rewrite lookup_ge_None_2 by lia. cbn. lia.
Qed.

Lemma perform_reindex f (E : Env) {X} (o : Op X) k w :
  @perform_at (reindex f E) X o k w = @perform_at E X o (f k) w.
Proof. by destruct o. Qed.

Lemma perform_step `{Env} {X} (o : Op X) n w : w_step (perform_at o n w).2 = w_step w.
Proof.
  destruct o; cbn [perform_at]; try done.
  - by case_if.
  - case_if; [|done]. unfold perform_stmt. destruct (w_tx w); [|done]. by destruct (stmt_run _ _ _ _) as [[]].
  - unfold committed. by destruct (env_commit n), (w_tx w).
  - destruct (auto_run _ _ _) as [[]|]; [by destruct (env_exec n)|done].
  - by destruct (env_notice n).
Qed.

(** ** A call alone *)

(** A world with some tables and sequences in which nothing has happened yet. *)
Definition alone (d : Db) (s : Seqs) : World := set_seqs s (set_db d (initial_world false 0)).

(** After the steps of a history a call that started in a world has got to a
    program in another. *)
Definition reaches (E : Env) {A} (m : M A) (hist : list nat) (w : World) (prog : M A) (w' : World) : Prop :=
  w_step w' = length hist /\
  forall f, extends hist f -> @run (reindex f E) A m w = @run (reindex f E) A prog w'.

Lemma extends_snoc hist n f : extends (hist ++ [n]) f -> extends hist f /\ f (length hist) = n.
Proof.
  intros Hf. split.
  - intros k x Hk. apply Hf. by apply lookup_app_l_Some.
  - apply Hf. by apply list_lookup_middle.
Qed.

Lemma reaches_start E {A} (m : M A) d s : reaches E m [] (alone d s) m (alone d s).
Proof. done. Qed.

Lemma reaches_op E {A X} (m : M A) hist w (o : Op X) k w1 n x w2 :
  reaches E m hist w (Vis o k) w1 -> @perform_at E X o n (bump w1) = (x, w2) ->
  reaches E m (hist ++ [n]) w (k x) w2.
Proof.
  intros [Hs Hr] Hp. split.
  - pose proof (@perform_step E X o n (bump w1)) as Hst. rewrite Hp in Hst. cbn in Hst. rewrite length_app. cbn. lia.
  - intros f [Hf Hn]%extends_snoc. rewrite (Hr f Hf). cbn. unfold perform.
    by rewrite perform_reindex, Hs, Hn, Hp.
Qed.

(** ** Rows that a call does not see *)

Definition keep_sessions (p : SessionRow -> bool) (d : Db) : Db :=
  set_sessions (List.filter p (db_sessions d)) d.

(** Those that a condition selects, but for the one that was found. *)
Definition seen (p : SessionRow -> bool) (s x : SessionRow) : bool := negb (p x) || (s_id x =? s_id s).

Definition hide (p : SessionRow -> bool) (s : SessionRow) (d : Db) : Db := keep_sessions (seen p s) d.

Lemma filter_filter_sub {A} (p q : A -> bool) l :
  (forall x, p x = true -> q x = true) -> List.filter p (List.filter q l) = List.filter p l.
Proof.
  intros Hpq. induction l as [|x l IH]; simpl; [done|]. destruct (q x) eqn:Eq; simpl; rewrite IH; [done|].
  destruct (p x) eqn:Ep; [|done]. by rewrite (Hpq x Ep) in Eq.
Qed.

(** A condition that a key decides selects one row. *)
Lemma filter_unique {A B} (key : A -> B) (p : A -> bool) l x :
  NoDup (List.map key l) -> x ∈ l -> p x = true -> (forall y, p y = true -> key y = key x) ->
  List.filter p l = [x].
Proof.
  intros Hl Hx Hpx Hp. induction l as [|y l IH]; [by apply not_elem_of_nil in Hx|].
  apply NoDup_cons in Hl as [Hy Hl]. simpl. apply elem_of_cons in Hx as [<-|Hx].
  - rewrite Hpx. f_equal. apply filter_none, Forall_forall. intros z Hz. apply not_true_iff_false. intros E%Hp.
    apply Hy. rewrite <- E. apply list_elem_of_fmap. eauto.
  - destruct (p y) eqn:E; [|by apply IH]. apply Hp in E. destruct Hy. rewrite E. apply list_elem_of_fmap. eauto.
Qed.

Lemma filter_one {A} (key : A -> Z) l x :
  NoDup (List.map key l) -> x ∈ l -> List.filter (fun y => key y =? key x) l = [x].
Proof. intros Hl Hx. apply (filter_unique key); [done..|apply Z.eqb_refl|]. intros y. apply Z.eqb_eq. Qed.

(** An entry that writes to no session but one. *)
Definition tidy (s : SessionRow) (e : Entry) : Prop :=
  match e_stmt e with
  | InsertSession _ _ => False
  | UpdateSession id _ _ => id = s_id s
  | _ => True
  end.

(** A lock on no session but one. *)
Definition apart (s : SessionRow) (k : Lock) : Prop :=
  match k with LRow id => id = s_id s | LSession _ _ | LNonce _ _ => False | _ => True end.

Section Hide.
Variables (p : SessionRow -> bool) (s : SessionRow).
Hypothesis Hp : fixed p.

Lemma part_hide k d : apart s k -> part k (hide p s d) = part k d.
Proof.
  destruct k; try done; try (by destruct l). cbn -[List.filter]. intros ->. f_equal.
  apply filter_filter_sub. intros x Hx. unfold seen. by rewrite Hx, orb_true_r.
Qed.

Lemma agree_hide L d : (forall k, k ∈ L -> apart s k) -> agree_on L d (hide p s d).
Proof. intros HL. split; [|by intros jti]. intros k Hk. by apply part_hide, HL. Qed.

Lemma hide_found d : unique d -> s ∈ db_sessions d -> p s = true -> List.filter p (db_sessions (hide p s d)) = [s].
Proof.
  intros U Hs Hps. cbn.
  assert (E : forall l, List.filter p (List.filter (seen p s) l) = List.filter p (List.filter (fun x => s_id x =? s_id s) l)).
  { induction l as [|x l IH]; cbn; [done|]. unfold seen at 1. destruct (p x) eqn:Ex, (s_id x =? s_id s); cbn; rewrite ?Ex, ?IH; done. }
  rewrite E, filter_one by (apply U || done). cbn. by rewrite Hps.
Qed.

Lemma seen_update x id v q : id = s_id s -> seen p s (if cas_match id v x then apply_patch q x else x) = seen p s x.
Proof. intros _. unfold seen. case_if; [|done]. by rewrite Hp. Qed.

Lemma effect_hide now e d : tidy s e -> effect now e (hide p s d) = hide p s (effect now e d).
Proof.
  destruct e as [A st q a i]. unfold effect, tidy. cbn [e_stmt e_seqs e_inserted]. destruct i; [|done].
  destruct st; intros Ht; try done; unfold stmt_run.
  - subst id. unfold update_session. cbn [hide keep_sessions db_sessions set_sessions].
    rewrite filter_filter_sub by (intros x Hx; unfold cas_match in Hx; bool_hyp; unfold seen; rewrite orb_true_iff, Z.eqb_eq; auto).
    case_if; [done|]. cbn. unfold hide, keep_sessions, set_sessions. cbn. f_equal.
    rewrite Isolation.filter_map; [done|]. intros x. by apply seen_update.
  - unfold insert_key. cbn. destruct l; cbn; by case_match.
  - unfold insert_challenge. cbn. by case_match.
  - unfold upsert. cbn. by destruct (List.filter _ _).
  - unfold insert_job. cbn. by case_match.
Qed.

Lemma replay_hide now log d : Forall (tidy s) log -> replay now log (hide p s d) = hide p s (replay now log d).
Proof.
  intros Hlog. revert d. induction Hlog as [|e log He _ IH]; intros d; [done|].
  unfold replay in *. cbn. rewrite effect_hide by done. apply IH.
Qed.

(** The hidden rows stay. *)
Lemma effect_unseen now e d x :
  tidy s e -> seen p s x = false -> x ∈ db_sessions (effect now e d) <-> x ∈ db_sessions d.
Proof.
  destruct e as [A st q a i]. unfold effect, tidy. cbn [e_stmt e_seqs e_inserted]. destruct i; [|done].
  destruct st; intros Ht Hx; try done; unfold stmt_run.
  - subst id. unfold update_session. case_if; [done|]. cbn [fst snd db_sessions set_sessions].
    assert (Hoff : forall y, cas_match (s_id s) version y = true -> seen p s y = true).
    { intros y Hy. unfold cas_match in Hy. bool_hyp. unfold seen. rewrite orb_true_iff, Z.eqb_eq. auto. }
    rewrite list_elem_of_fmap. split.
    + intros (y & E & Hy). destruct (cas_match _ _ y) eqn:Em; [|by subst].
      apply Hoff in Em. subst x. unfold seen in Hx, Em. cbn in Hx. rewrite Hp in Hx. congruence.
    + intros Hin. exists x. split; [|done]. destruct (cas_match _ _ x) eqn:Em; [|done]. apply Hoff in Em. congruence.
  - unfold insert_key. destruct l; by case_match.
  - unfold insert_challenge. by case_match.
  - unfold upsert. by destruct (List.filter _ _).
  - unfold insert_job. by case_match.
Qed.

Lemma replay_unseen now log d x :
  Forall (tidy s) log -> seen p s x = false -> x ∈ db_sessions (replay now log d) <-> x ∈ db_sessions d.
Proof.
  intros Hlog Hx. revert d. induction Hlog as [|e log He _ IH]; intros d; [done|].
  unfold replay in *. cbn. rewrite IH. by apply effect_unseen.
Qed.
End Hide.
