(* ===== verification/Track.v ===== *)
(** * What is known of a call while it runs

    [track]: where a disciplined call stands among others, what the tables have to
    show for it to have gone the same way alone, and that they still do. *)

From S2P Require Import Prelude Errors Constants Base64url Json Strict Crypto Keys Metadata.
From S2P Require Import Registration Ssrf Site Tables Statements World Db Invariant Concurrent.
From S2P Require Import Isolation Discipline Serial.
From stdpp Require Import gmap.
#[local] Open Scope Z_scope.
#[local] Set Warnings "-clear-no-such-hyp".

(** A transaction as the handler alone has it open. *)
Definition opened (t : Transaction) (d : Db) : option Tx :=
  Some {| tx_db := view t d; tx_now := ct_started t |}.

Definition valid_tx (t : Transaction) (d : Db) : Prop := valid (ct_locks t) (ct_started t) (ct_log t) d.

(** The statements of a log, the SELECTs of sessions apart, answer on some tables
    as they did, and do what they did. *)
Fixpoint agrees (now : Z) (log : list Entry) (d : Db) : Prop :=
  match log with
  | [] => True
  | e :: log =>
      (reads_session (e_stmt e) = true \/
       (stmt_run (e_stmt e) now (e_seqs e) d).1 = (Ok (e_answer e), effect now e d)) /\
      agrees now log (effect now e d)
  end.

Definition agrees_tx (t : Transaction) (d : Db) : Prop := agrees (ct_started t) (ct_log t) d.

Lemma valid_agrees T now log d : valid T now log d -> agrees now log d.
Proof.
  revert d. induction log as [|e log IH]; intros d; [done|]. intros [He Hv]. split; [|by apply IH].
  destruct He as [Hr|He]; [by left|right]. rewrite (effect_run T) by done. destruct He as [Ha _ _].
  rewrite <- Ha. apply surjective_pairing.
Qed.

Lemma agrees_snoc now log e d :
  agrees now (log ++ [e]) d <-> agrees now log d /\
    (reads_session (e_stmt e) = true \/
     (stmt_run (e_stmt e) now (e_seqs e) (replay now log d)).1 = (Ok (e_answer e), effect now e (replay now log d))).
Proof.
  revert d. induction log as [|x log IH]; intros d; cbn; [tauto|]. rewrite IH. unfold replay. tauto.
Qed.

(** The identifiers that are locked, or drawn, are below the sequences. *)
Definition id_below (s : Seqs) (k : Lock) : Prop :=
  match k with
  | LRow id => id < seq_sessions s
  | LGrantId id => id < seq_grants s
  | LJobId id => id < seq_jobs s
  | _ => True
  end.
Definition drawn_entry (s : Seqs) (e : Entry) : Prop := drawn_below (e_stmt e) (e_seqs e) s.
Definition tx_below (s : Seqs) (tx : option Transaction) : Prop :=
  match tx with
  | Some t => Forall (id_below s) (ct_locks t) /\ Forall (drawn_entry s) (ct_log t)
  | None => True
  end.

Definition tx_locks (tx : option Transaction) : list Lock :=
  match tx with Some t => ct_locks t | None => [] end.

Section Track.
Context (E : Env) {A : Type} (m : M A) (R : result A -> Prop).

(** The session a transaction works on, and its grant. *)
Record works_on (p : SessionRow -> bool) (s : SessionRow) (last : option GrantRow) (rank : nat) (t : Transaction)
    (d : Db) : Prop := {
  wo_fixed : fixed p;
  wo_login : one_login p;
  wo_row : s ∈ db_sessions d;
  wo_found : p s = true;
  wo_locked : LRow (s_id s) ∈ ct_locks t;
  wo_apart : forall k, k ∈ ct_locks t -> apart s k;
  wo_rank : forall k, k ∈ ct_locks t -> (lock_rank k <= rank)%nat;
  wo_tidy : Forall (tidy s) (ct_log t);
  wo_valid : valid_tx t d;
  wo_last : forall x, last = Some x -> grant_lock x ∈ ct_locks t /\
    forall d', valid_tx t d' -> exists x', x' ∈ db_grants (view t d') /\ g_id x' = g_id x /\ grant_lock x' = grant_lock x
}.

(** Alone, the call gets to the same program, on tables that show it the same. *)
Definition gets_to (hist : list nat) (prog : M A) (d : Db) (s : Seqs) (Q : World -> Prop) : Prop :=
  exists w, reaches E m hist (alone d s) prog w /\ w_db w = d /\ Q w.

(** Nothing was drawn for a grant, or for a job, before their locks. *)
Definition selected_alone (hist : list nat) (prog : M A) p s (rank : nat) (t : Transaction) : Prop :=
  exists gid jid, ((rank < 3)%nat -> gid = None) /\ ((rank < 5)%nat -> jid = None) /\
  forall d q, (forall i, gid = Some i -> seq_grants q = i) -> (forall i, jid = Some i -> seq_jobs q = i) ->
    List.filter p (db_sessions d) = [s] -> agrees_tx t d ->
    gets_to hist prog d q (fun w => w_tx w = opened t d /\
      (gid = None -> seq_grants (w_seqs w) = seq_grants q) /\ (jid = None -> seq_jobs (w_seqs w) = seq_jobs q)).

Definition track (ph : Phase) (hist : list nat) (prog : M A) (tx : option Transaction) (d : Db) : Prop :=
  match ph with
  | Outside => tx = None /\
      forall d q, gets_to hist prog d q (fun w => w_tx w = None /\ w_seqs w = q)
  | Opened => exists t, tx = Some t /\ ct_log t = [] /\ ct_locks t = [] /\
      forall d q, gets_to hist prog d q (fun w => w_tx w = opened t d /\ w_seqs w = q)
  | Idle => exists t, tx = Some t /\ ct_locks t = [] /\ forall d, view t d = d
  | Looked => exists t, tx = Some t /\ forall d, view t d = d
  | Inserted => exists t id, tx = Some t /\ valid_tx t d /\
      forall d q, seq_sessions q = id -> agrees_tx t d ->
        gets_to hist prog d q (fun w => w_tx w = opened t d)
  | Selected p s last r => exists t, tx = Some t /\ works_on p s last r t d /\ selected_alone hist prog p s r t
  | Settled => tx = None /\ exists w, w_step w = length hist /\
      forall f, extends hist f -> onto f -> R (@run (reindex f E) A prog w).1
  | Failed => True
  | Over => tx = None
  end.

(** Others that commit change nothing of it. *)
Lemma track_agree ph hist prog tx d d' :
  track ph hist prog tx d -> agree_on (tx_locks tx) d d' -> track ph hist prog tx d'.
Proof.
  intros Ht Ha. destruct ph as [| | | | |p s last rk| | |]; try exact Ht.
  - destruct Ht as (t & id & -> & Hv & Hj). exists t, id. split_and!; [done|by eapply valid_agree|done].
  - destruct Ht as (t & -> & [] & Hj). exists t. split; [done|]. split; [|done]. split; try done.
    + pose proof (ao_part _ _ _ Ha _ wo_locked0) as [= Hrow].
      assert (Hin : s ∈ List.filter (fun x => s_id x =? s_id s) (db_sessions d')).
      { rewrite Hrow. apply list_elem_of_In, filter_In. split; [by apply list_elem_of_In|apply Z.eqb_refl]. }
      apply list_elem_of_In, filter_In in Hin as [Hin _]. by apply list_elem_of_In.
    + by eapply valid_agree.
Qed.

(** ** Operations that only ask *)

Definition asks {X} (o : Op X) : bool :=
  match o with
  | Now | UnixSecs | Rand _ | PoolGet | SelectOne | Notice _ _ | Metadata _ | Inc _ => true
  | _ => false
  end.

Lemma asks_same {X} (o : Op X) n w w' : asks o = true -> (perform_at o n w).1 = (perform_at o n w').1.
Proof. destruct o; intros Ho; try discriminate Ho; try done. cbn. by destruct (env_notice n). Qed.

Lemma asks_only {X} (o : Op X) n w : asks o = true ->
  let w' := (perform_at o n w).2 in
  w_db w' = w_db w /\ w_tx w' = w_tx w /\ w_seqs w' = w_seqs w /\ w_posts w' = w_posts w.
Proof. destruct o; intros Ho; try discriminate Ho; try done. cbn. by destruct (env_notice n). Qed.

(** The call alone makes the same operation. *)
Lemma gets_to_op {X} (o : Op X) k hist n x d q (Q Q' : World -> Prop) :
  gets_to hist (Vis o k) d q Q ->
  (forall w, w_db w = d -> Q w -> (perform_at o n w).1 = x /\ w_db (perform_at o n w).2 = d /\
     Q' (perform_at o n w).2) ->
  (forall w, Q w -> Q (bump w)) ->
  gets_to (hist ++ [n]) (k x) d q Q'.
Proof.
  intros (w & Hr & Hd & HQ) Hop Hb. destruct (Hop (bump w)) as (Hx & Hd' & HQ'); [done|by apply Hb|].
  exists (perform_at o n (bump w)).2. split; [|done]. eapply reaches_op; [done|]. by rewrite <- Hx, <- surjective_pairing.
Qed.

Lemma settled_op {X} (o : Op X) (k : X -> M A) hist n x w :
  w_step w = length hist -> (perform_at o n (bump w)).1 = x ->
  (forall f, extends hist f -> onto f -> R (@run (reindex f E) A (Vis o k) w).1) ->
  exists w', w_step w' = length (hist ++ [n]) /\
    forall f, extends (hist ++ [n]) f -> onto f -> R (@run (reindex f E) A (k x) w').1.
Proof.
  intros Hs Hx HR. exists (perform_at o n (bump w)).2. split.
  - rewrite perform_step, length_app. cbn. lia.
  - intros f Hf Ho. apply extends_snoc in Hf as [Hf Hn]. specialize (HR f Hf Ho). cbn in HR. unfold perform in HR.
    rewrite perform_reindex, Hs, Hn in HR. by rewrite (surjective_pairing (perform_at o n (bump w))), Hx in HR.
Qed.

Lemma track_asks {X} (o : Op X) k ph hist n tx d w :
  asks o = true -> track ph hist (Vis o k) tx d -> track ph (hist ++ [n]) (k (perform_at o n w).1) tx d.
Proof.
  intros Ho Ht.
  assert (Hg : forall d q Q, (forall w w', w_tx w' = w_tx w -> w_seqs w' = w_seqs w -> Q w -> Q w') ->
    gets_to hist (Vis o k) d q Q -> gets_to (hist ++ [n]) (k (perform_at o n w).1) d q Q).
  { intros d0 q Q HQ Hg. eapply gets_to_op; [exact Hg| |by intros w0; apply HQ].
    intros w0 Hd Hw. destruct (asks_only o n w0 Ho) as (E1 & E2 & E3 & _). rewrite E1.
    split_and!; [by apply asks_same|done|by apply (HQ w0)]. }
  destruct ph as [| | | | |p s last rk| | |]; cbn [track] in *.
  - destruct Ht as [-> Hj]. split; [done|]. intros d0 q. apply Hg; [|apply Hj]. intros ? ? -> ->. done.
  - destruct Ht as (t & -> & Hl & Hk & Hj). exists t. split_and!; try done. intros d0 q. apply Hg; [|apply Hj].
    intros ? ? -> ->. done.
  - done.
  - done.
  - destruct Ht as (t & id & -> & Hv & Hj). exists t, id. split_and!; try done. intros d0 q Hq Hv0. apply Hg; [|by apply Hj].
    intros ? ? -> _. done.
  - destruct Ht as (t & -> & Hw & gid & jid & Hgn & Hjn & Hj). exists t. split_and!; try done. exists gid, jid.
    split_and!; try done. intros d0 q H1 H2 H3 H4. apply Hg; [|by apply Hj]. intros ? ? -> ->. done.
  - done.
  - destruct Ht as [-> (w1 & Hs & HR)]. split; [done|]. eapply settled_op; [done| |exact HR]. by apply asks_same.
  - done.
Qed.

(** ** Statements *)

Lemma opened_inv t d w : w_tx w = opened t d -> exists T, w_tx w = Some T /\ tx_db T = view t d /\ tx_now T = ct_started t.
Proof. intros ->. by eexists. Qed.

(** A statement of an open transaction, when it does not fail. *)
Lemma exec_at {X} (st : Stmt X) n w t d :
  env_sql n = true -> w_tx w = opened t d ->
  let '(r, d', s) := stmt_run st (ct_started t) (w_seqs w) (view t d) in
  perform_at (Exec st) n w = (r, set_seqs s (set_tx (Some {| tx_db := d'; tx_now := ct_started t |}) w)).
Proof.
  intros Hn Hw. cbn [perform_at]. rewrite Hn. unfold perform_stmt. rewrite Hw. cbn.
  by destruct (stmt_run _ _ _ _) as [[]].
Qed.

(** Only the sequence it draws from matters to a statement. *)
Definition draws_same {X} (st : Stmt X) (q q' : Seqs) : Prop :=
  match st with
  | InsertSession _ _ => seq_sessions q = seq_sessions q'
  | UpsertGrant _ _ _ _ _ _ _ => seq_grants q = seq_grants q'
  | InsertJob _ _ _ _ _ _ => seq_jobs q = seq_jobs q'
  | _ => True
  end.

Definition draws_grant {X} (st : Stmt X) : bool := match st with UpsertGrant _ _ _ _ _ _ _ => true | _ => false end.
Definition draws_job {X} (st : Stmt X) : bool := match st with InsertJob _ _ _ _ _ _ => true | _ => false end.

Lemma stmt_seqs {X} (st : Stmt X) now q q' d :
  draws_same st q q' -> (stmt_run st now q d).1 = (stmt_run st now q' d).1.
Proof.
  destruct st; cbn [draws_same]; unfold stmt_run; try done.
  - intros ->. by destruct (insert_session _ d).
  - by destruct (update_session _ _ _ d) as [[]|].
  - intros ->. by destruct (upsert _ d).
  - by intros ->.
Qed.

Lemma stmt_keeps_grants {X} (st : Stmt X) now q d :
  draws_grant st = false -> seq_grants (stmt_run st now q d).2 = seq_grants q.
Proof.
  destruct st; intros Hd; try discriminate Hd; unfold stmt_run; try done.
  - by destruct (insert_session _ d).
  - by destruct (update_session _ _ _ d) as [[]|].
Qed.

Lemma stmt_keeps_jobs {X} (st : Stmt X) now q d :
  draws_job st = false -> seq_jobs (stmt_run st now q d).2 = seq_jobs q.
Proof.
  destruct st; intros Hd; try discriminate Hd; unfold stmt_run; try done.
  - by destruct (insert_session _ d).
  - by destruct (update_session _ _ _ d) as [[]|].
  - by destruct (upsert _ d).
Qed.

Definition entry_of {X} (st : Stmt X) (q : Seqs) (d : Db) (a : X) : Entry :=
  {| e_type := X; e_stmt := st; e_seqs := q; e_answer := a; e_inserted := inserts st q d |}.

Lemma view_logged {X} (st : Stmt X) q v a t d :
  view (logged st q v (Ok a) t) d = effect (ct_started t) (entry_of st q v a) (view t d).
Proof. unfold view. cbn. apply replay_snoc. Qed.

Definition writes {X} (st : Stmt X) : Prop :=
  match st with SelectSession _ _ | SelectGrant _ _ => False | _ => True end.
#[local] Instance writes_dec {X} (st : Stmt X) : Decision (writes st).
Proof. destruct st; apply _. Defined.

Lemma running_write {X} (st : Stmt X) t :
  writes st -> running t st = st.
Proof. unfold running. by destruct (ct_snapshot t), st. Qed.

Lemma running_rank {X} (st : Stmt X) t : stmt_rank (running t st) = stmt_rank st.
Proof. unfold running. by destruct (ct_snapshot t), st. Qed.

(** A statement on the selected session or on keys the transaction reserves: alone
    it answers the same wherever the log is valid. *)
Lemma selected_entry {X} (st : Stmt X) k p s last last' rk t d hist n q a :
  let v := view t d in let t' := logged st q v (Ok a) t in
  unique d -> env_sql n = true ->
  works_on p s last rk t d -> selected_alone hist (Vis (Exec st) k) p s rk t ->
  reads_session st = false -> tidy s (entry_of st q v a) ->
  (forall x, x ∈ locks_of (running t st) q v -> apart s x) ->
  entry_ok (ct_locks t') (ct_started t) (entry_of st q v a) v ->
  match st with
  | InsertSession _ _ => False
  | UpsertGrant _ _ _ _ _ _ _ | InsertJob _ _ _ _ _ _ => (rk < stmt_rank st)%nat
  | _ => True
  end ->
  (forall x, last' = Some x -> grant_lock x ∈ ct_locks t' /\
    forall d', valid_tx t' d' -> exists x', x' ∈ db_grants (view t' d') /\ g_id x' = g_id x /\ grant_lock x' = grant_lock x) ->
  works_on p s last' (Nat.max rk (stmt_rank st)) t' d /\
  selected_alone (hist ++ [n]) (k (Ok a)) p s (Nat.max rk (stmt_rank st)) t'.
Proof.
  intros v t' U Hn [] Hj Hreads Htidy Hapart Hok Hdraw Hlast.
  assert (Hsub : ct_locks t ⊆ ct_locks t') by (intros x Hx; cbn; apply elem_of_app; by left).
  assert (Hvalid : forall d', valid_tx t' d' -> valid (ct_locks t') (ct_started t) (ct_log t) d' /\
    entry_ok (ct_locks t') (ct_started t) (entry_of st q v a) (view t d')).
  { intros d' Hv'. apply valid_snoc in Hv' as [H1 [Hr|H2]]; [|done]. cbn in Hr. congruence. }
  split.
  - split; try done.
    + by apply Hsub.
    + intros x Hx. cbn in Hx. apply elem_of_app in Hx as [Hx|Hx]; auto.
    + intros x Hx. cbn in Hx. apply elem_of_app in Hx as [Hx|Hx]; [specialize (wo_rank0 x Hx); lia|].
      apply locks_rank in Hx. rewrite running_rank in Hx. lia.
    + cbn. apply Forall_app. auto.
    + apply valid_snoc. split; [by eapply valid_mono|]. by right.
  - destruct Hj as (gid & jid & Hg & Hjj & Hj).
    exists (if draws_grant st then Some (seq_grants q) else gid), (if draws_job st then Some (seq_jobs q) else jid).
    split; [destruct st; cbn; intros; try (apply Hg); lia|]. split; [destruct st; cbn; intros; try (apply Hjj); lia|].
    intros d0 q0 Hg0 Hj0 Hf Hv0. apply agrees_snoc in Hv0 as [Hv0 [Hr|Hrun]]; [cbn in Hr; congruence|].
    assert (Hg1 : forall i, gid = Some i -> seq_grants q0 = i).
    { destruct (draws_grant st) eqn:Ed; [|done]. destruct st; try discriminate Ed. by rewrite Hg. }
    assert (Hj1 : forall i, jid = Some i -> seq_jobs q0 = i).
    { destruct (draws_job st) eqn:Ed; [|done]. destruct st; try discriminate Ed. by rewrite Hjj. }
    eapply gets_to_op; [exact (Hj d0 q0 Hg1 Hj1 Hf Hv0)| |done].
    intros w Hd (Hw & Hsg & Hsj). pose proof (exec_at st n w t d0 Hn Hw) as Hex.
    assert (Hsame : draws_same st (w_seqs w) q).
    { destruct st; try done; cbn.
      - rewrite Hsg by auto. by apply Hg0.
      - rewrite Hsj by auto. by apply Hj0. }
    pose proof (stmt_seqs st (ct_started t) (w_seqs w) q (view t d0) Hsame) as Hst.
    pose proof (stmt_keeps_grants st (ct_started t) (w_seqs w) (view t d0)) as Hkg.
    pose proof (stmt_keeps_jobs st (ct_started t) (w_seqs w) (view t d0)) as Hkj.
    destruct (stmt_run st _ (w_seqs w) _) as [[r d1] s1]. rewrite Hex. cbn [fst snd] in *.
    change (ct_started t') with (ct_started t) in Hrun. cbn [e_type e_stmt e_seqs e_answer entry_of] in Hrun.
    unfold view in Hst. rewrite Hrun in Hst. injection Hst as -> ->.
    split; [done|]. split; [done|]. split_and!.
    + cbn. unfold opened. f_equal. unfold t'. by rewrite view_logged.
    + destruct (draws_grant st); [done|]. intros Hn1. cbn. rewrite Hkg by done. auto.
    + destruct (draws_job st); [done|]. intros Hn1. cbn. rewrite Hkj by done. auto.
Qed.

(** The first statement of a transaction. *)
Lemma opened_entry {X} (st : Stmt X) k hist n q d t d0 q0 a :
  env_sql n = true -> ct_log t = [] -> draws_same st q0 q ->
  (forall d q, gets_to hist (Vis (Exec st) k) d q (fun w => w_tx w = opened t d /\ w_seqs w = q)) ->
  (stmt_run st (ct_started t) q d0).1 = (Ok a, effect (ct_started t) (entry_of st q d a) d0) ->
  gets_to (hist ++ [n]) (k (Ok a)) d0 q0 (fun w =>
    w_tx w = opened (logged st q d (Ok a) t) d0 /\
    (draws_grant st = false -> seq_grants (w_seqs w) = seq_grants q0) /\
    (draws_job st = false -> seq_jobs (w_seqs w) = seq_jobs q0)).
Proof.
  intros Hn Hl Hdr Hj Hrun. eapply gets_to_op; [exact (Hj d0 q0)| |done].
  intros w Hd [Hw Hq]. pose proof (exec_at st n w t d0 Hn Hw) as Hex.
  assert (Hv : forall d, view t d = d) by (intros d1; unfold view; by rewrite Hl).
  pose proof (stmt_seqs st (ct_started t) (w_seqs w) q d0) as Hst. rewrite Hq in Hst.
  pose proof (stmt_keeps_grants st (ct_started t) (w_seqs w) d0) as Hkg.
  pose proof (stmt_keeps_jobs st (ct_started t) (w_seqs w) d0) as Hkj.
  rewrite Hv, Hq in *. destruct (stmt_run st _ q0 _) as [[r d1] s1]. rewrite Hex. cbn [fst snd] in *.
  rewrite Hrun in Hst. specialize (Hst Hdr). injection Hst as -> ->. split; [done|]. split; [done|].
  split_and!; [|done..]. cbn. unfold opened. f_equal. by rewrite view_logged, Hv.
Qed.

Lemma track_insert_session n0 e k hist n q d t :
  env_sql n = true -> keyed q d ->
  track Opened hist (Vis (Exec (InsertSession n0 e)) k) (Some t) d ->
  let r := (stmt_run (InsertSession n0 e) (ct_started t) q (view t d)).1.1 in
  track (after_stmt Opened (InsertSession n0 e) r) (hist ++ [n]) (k r)
    (Some (logged (InsertSession n0 e) q (view t d) r t)) d.
Proof.
  intros Hn [U B] (t0 & [= <-] & Hl & Hk & Hj).
  assert (Hv : forall d, view t d = d) by (intros d1; unfold view; by rewrite Hl). rewrite Hv.
  unfold stmt_run, insert_session. destruct (existsb _ _) eqn:Hc; cbn [fst snd after_stmt Z.eqb Pos.eqb].
  - eexists. split; [done|]. split.
    + cbn [logged ct_locks]. rewrite Hk, running_write by done. unfold locks_of. cbn [inserts]. by rewrite Hc.
    + intros d'. rewrite view_logged, Hv. unfold effect, entry_of. cbn [e_inserted inserts]. by rewrite Hc.
  - set (st := InsertSession n0 e) in *. set (t' := logged st q d (Ok 1) t).
    assert (Hlocks : ct_locks t' = [LRow (seq_sessions q); LSession (ns_domain n0) (ns_session_id n0);
      LNonce (ns_domain n0) (ns_nonce_hash n0)]).
    { cbn [t' logged ct_locks]. rewrite Hk. unfold running. cbn [app].
      replace (match ct_snapshot t with Some sn => within sn st | None => st end) with st by (by destruct (ct_snapshot t)).
      unfold locks_of, st. cbn [inserts]. by rewrite Hc. }
    exists t', (seq_sessions q). split; [done|]. split.
    + unfold valid_tx. cbn [t' logged ct_log ct_started]. rewrite Hl. fold t'. split; [|done]. right.
      split; cbn [e_stmt e_seqs e_answer e_inserted].
      * unfold stmt_run, st, insert_session. by rewrite Hc.
      * cbn [covered st]. rewrite Hlocks. split_and!; try (by repeat (left || right)).
        cbn. f_equal. apply filter_none. destruct B. eapply Forall_impl; [done|]. intros x Hx. apply Z.eqb_neq. cbn in Hx. lia.
      * cbn [inserts st]. by rewrite Hc.
    + intros d0 q0 Hq0 Hag. unfold agrees_tx in Hag. cbn [t' logged ct_log ct_started] in Hag. rewrite Hl in Hag.
      destruct Hag as [[Hr|Hrun] _]; [done|].
      destruct (opened_entry st k hist n q d t d0 q0 1 Hn Hl Hq0 Hj) as (w & Hr & Hd & Hw & _); [|by exists w].
      cbn [e_type e_stmt e_seqs e_answer] in Hrun. by rewrite Hrun.
Qed.

Lemma track_select_session p k hist n q d t :
  env_sql n = true -> fixed p -> one_login p ->
  track Opened hist (Vis (Exec (SelectSession ForUpdate p)) k) (Some t) d ->
  let r := (stmt_run (running t (SelectSession ForUpdate p)) (ct_started t) q (view t d)).1.1 in
  track (after_stmt Opened (SelectSession ForUpdate p) r) (hist ++ [n]) (k r)
    (Some (logged (SelectSession ForUpdate p) q (view t d) r t)) d.
Proof.
  intros Hn Hp Hone (t0 & [= <-] & Hl & Hk & Hj).
  assert (Hv : forall d, view t d = d) by (intros d1; unfold view; by rewrite Hl). rewrite Hv.
  assert (Hrun : exists p', running t (SelectSession ForUpdate p) = SelectSession ForUpdate p' /\ forall x, p' x = true -> p x = true).
  { unfold running. destruct (ct_snapshot t) as [sn|]; [|by exists p]. eexists. split; [done|]. intros x [Hx _]%andb_true_iff. exact Hx. }
  destruct Hrun as (p' & Hrun & Hp'). rewrite Hrun. cbn [stmt_run fst].
  destruct (query_opt (List.filter p' (db_sessions d))) as [[s|]|e] eqn:Eq; cbn [after_stmt]; [| |done].
  - pose proof (query_opt_Ok _ _ Eq) as Hf. cbn in Hf. apply query_found in Eq as [Hs Hps].
    set (t' := logged (SelectSession ForUpdate p) q d (Ok (Some s)) t).
    assert (Hlocks : ct_locks t' = [LRow (s_id s)]).
    { cbn [t' logged ct_locks]. rewrite Hk, Hrun. unfold locks_of. cbn [app inserts waits_for]. by rewrite Hf. }
    exists t'. split; [done|]. split.
    + split; try done; [by apply Hp'|rewrite Hlocks; by left| | | |].
      * intros x. rewrite Hlocks. by intros ->%list_elem_of_singleton.
      * intros x. rewrite Hlocks. by intros ->%list_elem_of_singleton.
      * cbn [t' logged ct_log]. rewrite Hl. by repeat constructor.
      * unfold valid_tx. cbn [t' logged ct_log ct_started]. rewrite Hl. split; [by left|done].
    + exists None, None. split_and!; [done..|]. intros d0 q0 _ _ Hf0 _.
      destruct (opened_entry (SelectSession ForUpdate p) k hist n q d t d0 q0 (Some s) Hn Hl I Hj) as (w & Hr & Hd & Hw & Hg & Hjj).
      { cbn. by rewrite Hf0. }
      exists w. split_and!; auto.
  - pose proof (query_opt_Ok _ _ Eq) as Hf. cbn in Hf. eexists. split; [done|]. split.
    + cbn [logged ct_locks]. rewrite Hk, Hrun. unfold locks_of. cbn [app inserts waits_for]. by rewrite Hf.
    + intros d'. by rewrite view_logged, Hv.
Qed.

Lemma below_replay now log q d : Forall (drawn_entry q) log -> below q d -> below q (replay now log d).
Proof.
  intros Hlog. revert d. induction Hlog as [|e log He _ IH]; intros d B; [done|]. cbn. apply IH.
  unfold effect. destruct (e_inserted e); [|done]. by apply below_stmt_run.
Qed.

Lemma absent_below {Y} (key : Y -> Z) l i : Forall (fun x => key x < i) l -> existsb (fun x => key x =? i) l = false.
Proof.
  intros Hl. apply existsb_none. intros x Hx. rewrite Forall_forall in Hl. apply Z.eqb_neq. specialize (Hl x Hx). lia.
Qed.

(** The statements of a transaction that works on a session: what a write locks is
    apart from other sessions, and covers it. *)
Lemma write_apart {X} (st : Stmt X) p s last rk q v x :
  allowed (Selected p s last rk) st -> writes st -> x ∈ locks_of st q v -> apart s x.
Proof.
  intros Hal Hwr. destruct st; cbn [allowed writes] in Hal, Hwr; try done; cbn.
  - subst id. by intros ->%list_elem_of_singleton.
  - by intros ->%list_elem_of_singleton.
  - by intros ->%list_elem_of_singleton.
  - rewrite !elem_of_cons. intros [->|[->|?%not_elem_of_nil]]; done.
  - rewrite list_elem_of_fmap. by intros (z & -> & _).
  - rewrite elem_of_cons. intros [->|Hx]; [done|]. destruct (negb _); [|by apply not_elem_of_nil in Hx].
    by apply list_elem_of_singleton in Hx as ->.
Qed.

Lemma write_covered {X} (st : Stmt X) p s last rk t q d :
  allowed (Selected p s last rk) st -> writes st -> works_on p s last rk t d -> below q (view t d) ->
  covered (ct_locks t ++ locks_of st q (view t d)) st q (inserts st q (view t d)) (view t d).
Proof.
  intros Hal Hwr Hw B. destruct st; cbn [allowed writes] in Hal, Hwr; try done; cbn [covered locks_of inserts waits_for app].
  - apply elem_of_app. right. by left.
  - apply elem_of_app. right. by left.
  - apply elem_of_app. right. by left.
  - split_and!; [apply elem_of_app; right; right; by left|apply elem_of_app; right; by left|].
    cbn. f_equal. apply absent_below, B.
  - destruct last as [x0|]; [|done]. subst id. destruct (wo_last _ _ _ _ _ _ Hw x0 eq_refl) as [Hlk Hlast].
    destruct (Hlast d (wo_valid _ _ _ _ _ _ Hw)) as (x1 & Hx1 & Hid1 & Hk1).
    exists x1. split_and!; [done..|]. rewrite Hk1. apply elem_of_app. by left.
  - split_and!; [apply elem_of_app; right; by left|cbn; f_equal; apply absent_below, B|].
    destruct (existsb _ _) eqn:Ex; cbn; [by rewrite Ex|]. apply elem_of_app. right. right. by left.
Qed.

Lemma track_write {X} (st : Stmt X) k p s last rk hist n q d t :
  env_sql n = true -> unique d -> below q (view t d) -> allowed (Selected p s last rk) st -> writes st ->
  works_on p s last rk t d -> selected_alone hist (Vis (Exec st) k) p s rk t ->
  let r := (stmt_run st (ct_started t) q (view t d)).1.1 in
  track (after_stmt (Selected p s last rk) st r) (hist ++ [n]) (k r) (Some (logged st q (view t d) r t)) d.
Proof.
  intros Hn U Bv Hal Hwr Hw Hj r. pose proof (write_covered st p s last rk t q d Hal Hwr Hw Bv) as Hcov.
  assert (Er : (stmt_run st (ct_started t) q (view t d)).1.1 = r) by done. clearbody r. destruct r as [a|e].
  - replace (after_stmt (Selected p s last rk) st (Ok a)) with (Selected p s None (Nat.max rk (stmt_rank st)))
      by (by destruct st).
    eexists. split; [done|]. apply (selected_entry st k p s last None rk t d hist n q a); try done.
    + by destruct st.
    + by destruct st.
    + intros x. rewrite running_write by done. by apply (write_apart st p s last rk).
    + split; [done| |].
      * cbn [logged ct_locks e_stmt e_seqs e_inserted entry_of]. by rewrite running_write.
      * cbn [e_stmt e_inserted entry_of]. destruct st; try done. cbn [may_skip]. by rewrite orb_true_r.
    + by destruct st.
  - by destruct st.
Qed.

(** The SELECT of a grant finds the one row of its key, and locks it. *)
Lemma track_select_grant dm sh k p s last rk hist n q d t :
  env_sql n = true -> unique d -> unique (view t d) -> (rk < 3)%nat ->
  works_on p s last rk t d ->
  selected_alone hist (Vis (Exec (SelectGrant ForUpdate (grant_match dm sh))) k) p s rk t ->
  let st := SelectGrant ForUpdate (grant_match dm sh) in
  let r := (stmt_run (running t st) (ct_started t) q (view t d)).1.1 in
  track (after_stmt (Selected p s last rk) st r) (hist ++ [n]) (k r) (Some (logged st q (view t d) r t)) d.
Proof.
  intros Hn U Uv Hrk Hw Hj st r.
  assert (Hrun : exists q', running t st = SelectGrant ForUpdate q' /\ forall x, q' x = true -> grant_match dm sh x = true).
  { unfold running. destruct (ct_snapshot t) as [sn|]; [|by eexists]. eexists. split; [done|].
    intros x [Hx _]%andb_true_iff. exact Hx. }
  destruct Hrun as (q' & Hrun & Hq'). unfold r. rewrite Hrun. cbn [stmt_run fst].
  destruct (query_opt (List.filter q' _)) as [[x|]|e] eqn:Eq; [|done..].
  pose proof (query_opt_Ok _ _ Eq) as Hf. cbn in Hf. apply query_found in Eq as [Hx Hqx]. apply Hq' in Hqx.
  assert (Hlock : grant_lock x = LGrant dm sh) by by apply grant_match_lock.
  assert (Hx1 : List.filter (grant_match dm sh) (db_grants (view t d)) = [x]).
  { apply (filter_unique grant_key); [apply Uv|done..|]. intros y Hy. apply grant_match_lock in Hy.
    unfold grant_key, grant_lock in *. congruence. }
  assert (Hlocks : locks_of (running t st) q (view t d) = [LGrant dm sh]).
  { rewrite Hrun. cbn [locks_of inserts waits_for app]. rewrite Hf. cbn. by rewrite Hlock. }
  assert (Hin : LGrant dm sh ∈ ct_locks (logged st q (view t d) (Ok (Some x)) t)).
  { cbn [logged ct_locks]. rewrite Hlocks. apply elem_of_app. right. by left. }
  eexists. split; [done|]. apply (selected_entry st k p s last (Some x) rk t d hist n q (Some x)); try done.
  - intros y. rewrite Hlocks. by intros ->%list_elem_of_singleton.
  - split; [|by exists dm, sh|done]. cbn [e_type e_stmt e_seqs e_answer entry_of stmt_run st fst]. by rewrite Hx1.
  - intros y [= <-]. rewrite Hlock. split; [done|]. intros d' Hv'.
    apply valid_agrees, agrees_snoc in Hv' as [_ [?|Hag]]; [done|].
    cbn [e_type e_stmt e_seqs e_answer entry_of stmt_run st fst] in Hag. injection Hag as Hag.
    exists x. split; [|done]. rewrite view_logged. by apply query_found in Hag as [Hag _].
Qed.

Lemma track_selected {X} (st : Stmt X) k p s last rk hist n q d t :
  env_sql n = true -> keyed q d -> tx_below q (Some t) ->
  allowed (Selected p s last rk) st ->
  track (Selected p s last rk) hist (Vis (Exec st) k) (Some t) d ->
  let r := (stmt_run (running t st) (ct_started t) q (view t d)).1.1 in
  track (after_stmt (Selected p s last rk) st r) (hist ++ [n]) (k r)
    (Some (logged st q (view t d) r t)) d.
Proof.
  intros Hn [U B] [_ Hbelow] Hal (t0 & [= <-] & Hw & Hj) r.
  pose proof (below_replay (ct_started t) (ct_log t) q d Hbelow B) as Bv. fold (view t d) in Bv.
  pose proof (replay_unique _ _ _ d U (wo_valid _ _ _ _ _ _ Hw)) as Uv. fold (view t d) in Uv.
  destruct (decide (writes st)) as [Hwr|Hwr].
  - unfold r. rewrite running_write by done. by apply track_write.
  - destruct st; try done. destruct Hal as (Hrk & -> & dm & sh & ->). by apply track_select_grant.
Qed.

(** Any statement that is allowed where the call stands. *)
Lemma track_exec {X} (st : Stmt X) k ph hist n q d t :
  keyed q d -> tx_below q (Some t) -> allowed ph st ->
  track ph hist (Vis (Exec st) k) (Some t) d ->
  let r := if env_sql n then (stmt_run (running t st) (ct_started t) q (view t d)).1.1 else problem InternalError in
  track (after_stmt ph st r) (hist ++ [n]) (k r) (Some (logged st q (view t d) r t)) d.
Proof.
  intros Hk Hb Hal Ht. destruct (env_sql n) eqn:Hn; cbv zeta.
  - assert (Hsel : forall p s last rk, ph = Selected p s last rk ->
      track (after_stmt ph st (stmt_run (running t st) (ct_started t) q (view t d)).1.1) (hist ++ [n])
        (k (stmt_run (running t st) (ct_started t) q (view t d)).1.1)
        (Some (logged st q (view t d) (stmt_run (running t st) (ct_started t) q (view t d)).1.1 t)) d).
    { intros p s last rk ->. by apply track_selected. }
    destruct ph as [| | | | |p s last rk| | |]; try (by destruct st); [|clear Hsel|by eapply Hsel].
    + destruct st; try done; [|by destruct Hal as (-> & ? & ?); apply track_select_session].
      rewrite running_write by done. by apply (track_insert_session n0 expires_at).
    + destruct st; try done. destruct Ht as (t0 & [= <-] & _ & Hv). eexists. split; [done|]. intros d'.
      destruct (stmt_run _ _ _ _).1.1; [by rewrite view_logged, !Hv|exact (Hv d')].
  - destruct ph as [| | | | |p s last rk| | |]; try (by destruct st).
    destruct st; try done. destruct Ht as (t0 & [= <-] & _ & Hv). eexists. split; [done|]. exact Hv.
Qed.

(** ** Ends *)

(** A settled call changes and sends nothing more. *)
Lemma settled_run {B} (Q : Phase -> result B -> Prop) (prog : M B) : walks Q Settled prog -> forall (E' : Env) w,
  w_db (@run E' B prog w).2 = w_db w /\ w_posts (@run E' B prog w).2 = w_posts w.
Proof.
  induction prog as [r|X o k IH]; [done|]. intros [Hal Hk] E' w. cbn. unfold perform.
  assert (Hop : w_db (@perform_at E' X o (w_step w) (bump w)).2 = w_db w /\
    w_posts (@perform_at E' X o (w_step w) (bump w)).2 = w_posts w /\ forall x, after_op Settled o x = Settled).
  { destruct o; cbn in Hal; try done; cbn [perform_at]; try (by destruct st); by destruct (@env_notice E' _). }
  destruct Hop as (H1 & H2 & H3). destruct (@perform_at E' X o _ _) as [x w'] eqn:Ep. cbn in H1, H2.
  specialize (Hk x). rewrite H3 in Hk. destruct (IH x Hk E' w') as [-> ->]. done.
Qed.

Variable good : Db -> Prop.
Hypothesis good_hide : forall p s d, good d -> good (hide p s d).
Hypothesis sound : forall f d q, onto f -> good d -> R (@run (reindex f E) A m (alone d q)).1.

(** The rows a call does not see are of the login of one that it sees. *)
Definition shadowed (visible : SessionRow -> bool) (d : Db) : Prop :=
  forall x, x ∈ db_sessions d -> visible x = false ->
    exists s, s ∈ db_sessions d /\ visible s = true /\
      s_session_id s = s_session_id x /\ s_nonce_hash s = s_nonce_hash x.

(** What the call changes when it runs alone, with the answers of a history, on the
    rows it sees; the others stay. *)
Definition serial (d d' : Db) : Prop := exists hist visible q,
  shadowed visible d /\
  (forall f, extends hist f ->
     w_db (@run (reindex f E) A m (alone (keep_sessions visible d) q)).2 = keep_sessions visible d') /\
  forall x, visible x = false -> x ∈ db_sessions d <-> x ∈ db_sessions d'.

Lemma keep_all d : keep_sessions (fun _ => true) d = d.
Proof.
  destruct d. unfold keep_sessions, set_sessions. cbn. f_equal.
  induction db_sessions as [|x l IH]; cbn; [done|by rewrite IH].
Qed.

Lemma settle Q hist prog d q w d1 :
  reaches E m hist (alone d q) prog w -> good d -> walks Q Settled prog ->
  track Settled hist prog None d1 /\
  forall f, extends hist f -> w_db (@run (reindex f E) A m (alone d q)).2 = w_db w.
Proof.
  intros [Hs Hr] Hd Hw. split.
  - split; [done|]. exists w. split; [done|]. intros f Hf Ho. rewrite <- (Hr f Hf). by apply sound.
  - intros f Hf. rewrite (Hr f Hf). by apply (settled_run Q).
Qed.

Lemma track_begin k hist n tx d :
  track Outside hist (Vis Begin k) tx d ->
  track (after_op Outside Begin (env_begin n)) (hist ++ [n]) (k (env_begin n))
    (if env_begin n then Some (new_tx (env_db_now n)) else tx) d.
Proof.
  intros [-> Hj]. destruct (env_begin n) eqn:Hb; cbn [after_op].
  - eexists. split; [done|]. split; [done|]. split; [done|]. intros d0 q.
    eapply gets_to_op; [exact (Hj d0 q)| |done]. intros w Hd [Hw Hq]. cbn. rewrite Hb. cbn. by rewrite Hd.
  - split; [done|]. intros d0 q. eapply gets_to_op; [exact (Hj d0 q)| |done]. intros w Hd Hw. cbn. by rewrite Hb.
Qed.

Lemma track_auto Q {X} (st : Auto X) k hist n tx w :
  let '(r, w') := perform_at (ExecAuto st) n w in
  track Outside hist (Vis (ExecAuto st) k) tx (w_db w) -> good (w_db w) -> walks Q Settled (k r) ->
  track Settled (hist ++ [n]) (k r) tx (w_db w') /\ serial (w_db w) (w_db w').
Proof.
  destruct (perform_at (ExecAuto st) n w) as [r w'] eqn:Ep. intros [-> Hj] Hd Hw.
  set (q0 := Build_Seqs 0 0 0).
  destruct (Hj (w_db w) q0) as (w1 & Hr & Hd1 & _).
  assert (Ep1 : exists w2, perform_at (ExecAuto st) n (bump w1) = (r, w2) /\ w_db w2 = w_db w').
  { cbn [perform_at] in Ep |- *. change (w_db (bump w1)) with (w_db w1). rewrite Hd1.
    destruct (auto_run st (env_db_now n) (w_db w)) as [[a d']|e]; [|injection Ep as <- <-; by eexists].
    unfold after_io in *. destruct (env_exec n); injection Ep as <- <-; by eexists. }
  destruct Ep1 as (w2 & Ep1 & E2). pose proof (reaches_op E m hist _ _ _ w1 n r w2 Hr Ep1) as Hr2.
  destruct (settle Q _ _ _ _ _ (w_db w') Hr2 Hd Hw) as [Ht Hs]. split; [done|].
  exists (hist ++ [n]), (fun _ => true), q0. split; [done|]. split; [|done]. intros f Hf. rewrite !keep_all, Hs, E2; done.
Qed.

(** A commit leaves what the handler alone leaves. *)
Lemma commit_at n w t d : w_tx w = opened t d -> w_db w = d ->
  exists w', perform_at Commit n w =
    (match env_commit n with IoOk => Ok tt | _ => problem InternalError end, w') /\
    w_db w' = match env_commit n with IoLost => d | _ => view t d end /\ w_tx w' = None.
Proof.
  intros Hw Hd. cbn [perform_at]. unfold committed. rewrite Hw. cbn. unfold after_io.
  destruct (env_commit n); eexists; (split; [done|]); by rewrite <- ?Hd.
Qed.

Lemma track_commit Q ph k hist n t w :
  let d := w_db w in
  let r := match env_commit n with IoOk => Ok tt | _ => problem InternalError end in
  let d' := match env_commit n with IoLost => d | _ => view t d end in
  unique d -> op_allowed ph Commit -> track ph hist (Vis Commit k) (Some t) d -> good d ->
  walks Q (after_op ph Commit r) (k r) ->
  track (after_op ph Commit r) (hist ++ [n]) (k r) None d' /\ (d' = d \/ serial d d').
Proof.
  intros d r d' U Hal Ht Hgood Hk.
  assert (Hd' : d' = d \/ d' = view t d) by (unfold d'; destruct (env_commit n); auto).
  destruct ph as [| | | | |p s last rk| | |]; try done; cbn [after_op] in *.
  - destruct Ht as (t0 & [= <-] & _ & Hv). split; [done|]. left. destruct Hd' as [->| ->]; [done|apply Hv].
  - destruct Ht as (t0 & [= <-] & Hv). split; [done|]. left. destruct Hd' as [->| ->]; [done|apply Hv].
  - destruct Ht as (t0 & id & [= <-] & Hv & Hj).
    destruct (Hj d (Build_Seqs id 0 0) eq_refl) as (w1 & Hr & Hd & Hw); [by eapply valid_agrees|].
    destruct (commit_at n (bump w1) t d Hw Hd) as (w2 & Ep & Hd2 & _).
    pose proof (reaches_op E m hist _ _ _ w1 n _ w2 Hr Ep) as Hr2.
    destruct (settle Q _ _ _ _ _ d' Hr2 Hgood Hk) as [Hset Hs]. split; [done|]. right.
    exists (hist ++ [n]), (fun _ => true), (Build_Seqs id 0 0). split; [done|]. split; [|done].
    intros f Hf. rewrite !keep_all. rewrite Hs by done. exact Hd2.
  - destruct Ht as (t0 & [= <-] & Hw & gid & jid & _ & _ & Hj). pose proof Hw as [].
    set (q := Build_Seqs 0 (default 0 gid) (default 0 jid)).
    assert (Hv : agrees_tx t (hide p s d)).
    { eapply valid_agrees, valid_agree; [exact wo_valid0|]. by apply agree_hide. }
    destruct (Hj (hide p s d) q) as (w1 & Hr & Hd & Hw1 & _); try done.
    { by intros i ->. }
    { by intros i ->. }
    { by apply hide_found. }
    destruct (commit_at n (bump w1) t (hide p s d) Hw1 Hd) as (w2 & Ep & Hd2 & _).
    pose proof (reaches_op E m hist _ _ _ w1 n _ w2 Hr Ep) as Hr2.
    destruct (settle Q _ _ _ _ _ d' Hr2 (good_hide p s d Hgood) Hk) as [Hset Hs]. split; [done|].
    destruct Hd' as [|Hd']; [by left|right]. exists (hist ++ [n]), (seen p s), q. split; [|split].
    + intros x _ Hx. unfold seen in Hx. bool_hyp. exists s. unfold seen. rewrite Z.eqb_refl, orb_true_r.
      by destruct (wo_login0 s x) as [-> ->].
    + intros f Hf. unfold hide in Hs at 1. rewrite Hs by done. rewrite Hd2.
      unfold d'. unfold view. rewrite replay_hide by done. by destruct (env_commit n).
    + intros x Hx. rewrite Hd'. unfold view. symmetry. by apply (replay_unseen p s).
Qed.

Lemma track_drop ph k hist n tx d (o : Op unit) :
  (o = Drop) -> op_allowed ph o -> track ph hist (Vis o k) tx d ->
  track (dropped ph) (hist ++ [n]) (k tt) None d.
Proof.
  intros -> Hal Ht. destruct ph; try done. destruct Ht as [-> (w & Hs & HR)]. split; [done|].
  by eapply (settled_op Drop).
Qed.

Lemma track_rollback ph k hist n tx d :
  op_allowed ph Rollback -> track ph hist (Vis Rollback k) tx d ->
  let r := if env_rollback n then Ok tt else problem InternalError in
  track (dropped ph) (hist ++ [n]) (k r) None d.
Proof.
  intros Hal Ht r. destruct ph; try done. destruct Ht as [-> (w & Hs & HR)]. split; [done|].
  by eapply (settled_op Rollback).
Qed.

(** A request to a site is one that the call makes alone. *)
Lemma track_post Q domain path body key k hist n tx w :
  let '(r, w') := perform_at (Post domain path body key) n w in
  track Outside hist (Vis (Post domain path body key) k) tx (w_db w) -> walks Q Outside (k r) ->
  track Outside (hist ++ [n]) (k r) tx (w_db w') /\
  exists w1, reaches E m (hist ++ [n]) (alone (w_db w) (w_seqs w)) (k r) w1 /\
    {| po_domain := domain; po_path := path; po_body := body; po_key := key |} ∈ w_posts w1.
Proof.
  cbn [perform_at]. intros [-> Hj] Hk. split.
  - split; [done|]. intros d0 q. by eapply gets_to_op; [exact (Hj d0 q)| |].
  - destruct (Hj (w_db w) (w_seqs w)) as (w1 & Hr & _). eexists. split; [by eapply reaches_op|].
    cbn. apply elem_of_app. right. by left.
Qed.
End Track.
