(* ===== verification/History.v ===== *)
(** * What is never undone

    A step adds to the tables and moves rows forward: no session, ledger entry,
    grant or job disappears, what registration set stays, and a challenge once
    issued is the session's challenge for good. *)

From S2P Require Import Prelude Errors Constants Utf8 Validation Base64url Json Jcs Strict.
From S2P Require Import Crypto Keys Wire Metadata Registration Assertion Revocation Matrix.
From S2P Require Import RoomPolicy Documents Ssrf Site Tables Statements World Spec Db Register Login.
From S2P Require Import Queue Http Invariant Rows LoginSpec QueueSpec HttpSpec Sync System.
From stdpp Require Import gmap.
#[local] Open Scope Z_scope.
#[local] Set Warnings "-clear-no-such-hyp".

(** The columns a challenge sets. *)
Definition challenge_of_row (s : SessionRow) :=
  (s_challenge_hash s, s_challenge_expires_at s, s_request_event_id s,
   s_request_room_ciphertext s, s_request_sender_ciphertext s).

Record session_later (s s' : SessionRow) : Prop := {
  sl_id : s_id s' = s_id s;
  sl_core : core s' = core s;
  sl_version : s_version s <= s_version s';
  sl_phase : rtc move (phase s) (phase s');
  sl_challenge : is_Some (s_challenge_hash s) -> challenge_of_row s' = challenge_of_row s
}.

Record grant_later (g g' : GrantRow) : Prop := {
  gl_key : g_id g' = g_id g /\ g_domain g' = g_domain g /\ g_subject_hash g' = g_subject_hash g;
  gl_user : g_matrix_user_ciphertext g' = g_matrix_user_ciphertext g /\
            g_subject_ciphertext g' = g_subject_ciphertext g
}.

Record job_later (j j' : DeliveryJob) : Prop := {
  jl_key : j_id j' = j_id j /\ j_jti j' = j_jti j /\ j_idempotency_key j' = j_idempotency_key j;
  jl_what : j_kind j' = j_kind j /\ j_domain j' = j_domain j /\
            j_payload_ciphertext j' = j_payload_ciphertext j;
  jl_attempts : j_attempts j <= j_attempts j'
}.

(** Every row of a table has a later row in another. *)
Definition rows_later {A} (later : A -> A -> Prop) (l l' : list A) : Prop :=
  forall x, x ∈ l -> exists x', x' ∈ l' /\ later x x'.

Record evolves (d d' : Db) : Prop := {
  ev_sessions : rows_later session_later (db_sessions d) (db_sessions d');
  ev_grants : rows_later grant_later (db_grants d) (db_grants d');
  ev_jobs : rows_later job_later (db_jobs d) (db_jobs d');
  ev_ledgers : forall l, ledger l d ⊆ ledger l d';
  ev_challenges : db_challenge_hashes d ⊆ db_challenge_hashes d'
}.

#[export] Instance session_later_pre : PreOrder session_later.
Proof.
  split; [by split|]. intros a b c [] []. split; try (congruence || lia); [by etrans|].
  intros Ha. pose proof (sl_challenge0 Ha) as E. rewrite <- E. apply sl_challenge1.
  injection E as -> _ _ _ _. done.
Qed.
#[export] Instance grant_later_pre : PreOrder grant_later.
Proof. split; [by split|]. intros a b c [] []. split; intuition congruence. Qed.
#[export] Instance job_later_pre : PreOrder job_later.
Proof. split; [by split|]. intros a b c [] []. split; try lia; intuition congruence. Qed.

Lemma rows_later_refl {A} (R : A -> A -> Prop) `{!Reflexive R} l : rows_later R l l.
Proof. intros x Hx. by exists x. Qed.
Lemma rows_later_trans {A} (R : A -> A -> Prop) `{!Transitive R} a b c :
  rows_later R a b -> rows_later R b c -> rows_later R a c.
Proof.
  intros Hab Hbc x Hx. destruct (Hab x Hx) as (y & Hy & Hxy), (Hbc y Hy) as (z & Hz & Hyz).
  exists z. split; [done|by transitivity y].
Qed.
Lemma rows_later_map {A} (R : A -> A -> Prop) (f : A -> A) l :
  (forall x, R x (f x)) -> rows_later R l (List.map f l).
Proof. intros Hf x Hx. exists (f x). split; [|done]. apply list_elem_of_In, in_map. by apply list_elem_of_In. Qed.
Lemma rows_later_app {A} (R : A -> A -> Prop) `{!Reflexive R} l l' : rows_later R l (l ++ l').
Proof. intros x Hx. exists x. split; [apply elem_of_app; by left|done]. Qed.
#[export] Hint Resolve rows_later_refl rows_later_app : core.

#[export] Instance evolves_pre : PreOrder evolves.
Proof.
  split.
  - intros d. split; try apply rows_later_refl; apply _ || done.
  - intros a b c [] []. split; try (eapply rows_later_trans; [apply _|done..]).
    + intros l. by transitivity (ledger l b).
    + by transitivity (db_challenge_hashes b).
Qed.

(** ** Statements *)

Lemma evolves_patched s p d :
  NoDup (List.map s_id (db_sessions d)) -> s ∈ db_sessions d ->
  p_challenge_hash p = None /\ patch_columns p \/ s_challenge_hash s = None ->
  move (phase s) (phase (apply_patch p s)) ->
  evolves d (patched s p d).
Proof.
  intros U Hs Hp Hm. split; cbn; try done; try apply rows_later_refl; try apply _.
  intros x Hx. destruct (decide (x = s)) as [->|Hne].
  - exists (apply_patch p s). split; [apply elem_of_patched; auto|]. split; [done|done|cbn; lia|by apply rtc_once|].
    intros [h Hh]. destruct Hp as [[Hp Hc]|Hn]; [|congruence]. unfold patch_columns in Hc.
    rewrite Hp in Hc. destruct Hc as (E1 & E2 & E3 & E4). unfold challenge_of_row. cbn.
    by rewrite Hp, E1, E2, E3, E4.
  - exists x. split; [apply elem_of_patched; auto|done].
Qed.

Lemma evolves_ledger l v e d :
  ledger l d !! v = None -> evolves d (set_ledger l (<[v := e]> (ledger l d)) d).
Proof.
  intros Hv. split; try apply rows_later_refl; try apply _; [|done].
  intros l'. destruct l, l'; cbn; try done; by apply insert_subseteq.
Qed.

Lemma evolves_challenges h e d :
  db_challenge_hashes d !! h = None ->
  evolves d (set_challenge_hashes (<[h := e]> (db_challenge_hashes d)) d).
Proof.
  intros Hv. split; try apply rows_later_refl; try apply _; [by intros []|]. by apply insert_subseteq.
Qed.

Lemma evolves_upsert g d : evolves d (snd (upsert g d)).
Proof.
  unfold upsert. case_match; split; try apply rows_later_refl; try apply _; try done; try by intros [].
  - cbn. apply rows_later_app. apply _.
  - cbn. apply rows_later_map. intros x. by case_if.
Qed.

Lemma evolves_revoke id now d : evolves d (revoke id now d).
Proof.
  split; try apply rows_later_refl; try apply _; try done; try by intros [].
  cbn. apply rows_later_map. intros x. by case_if.
Qed.

Lemma evolves_job j d : evolves d (insert_job j d).
Proof.
  unfold insert_job. case_if; [done|]. split; try apply rows_later_refl; try apply _; try done; try by intros [].
  cbn. apply rows_later_app. apply _.
Qed.

Lemma evolves_jobs d f :
  (forall j, job_later j (f j)) -> evolves d (set_jobs (List.map f (db_jobs d)) d).
Proof.
  intros Hf. split; try apply rows_later_refl; try apply _; try done; try by intros [].
  by apply rows_later_map.
Qed.

(** ** Handlers *)

Section Handlers.
Context `{Base64Laws} `{CryptoLaws} `{JsonTextLaws} `{JsonReader} `{!JsonReaderLaws} `{Env} `{!EnvLaws}.
Variable state : AppState.
Hypothesis Hstate : state_wf state.
Implicit Types (d : Db).

Lemma evolves_issued ev sid nonce t domain d d' body :
  unique d -> issued state ev sid nonce t domain d d' body -> evolves d d'.
Proof.
  intros U (s & h & rct & sct & k & n & (Hs & _ & _ & _ & _ & _ & Hnone) & _ & _ & _ & Hev & Hch & -> & _).
  unfold challenged. etrans; [exact (evolves_ledger RequestEvents _ (s_expires_at s) d Hev)|].
  etrans; [|apply evolves_patched; [apply U|done|by right|unfold phase; rewrite Hnone; constructor]].
  exact (evolves_challenges h (s_expires_at s) (set_ledger RequestEvents _ d) Hch).
Qed.

Lemma evolves_consent ev sid nonce t dn c d d' l :
  unique d -> consent_outcome state ev sid nonce t dn c d d' l -> evolves d d'.
Proof.
  intros U Ho. destruct Ho as [s k n Hs Hlate Hn|s k n -> Hs Ht Hb Hev Hn
    |s k display sub bytes sh sct uct dct act n gid jid due jti -> Hs Ht Hb Hev Hj _ _ _ _ _ _]; [done| |].
  - unfold refused. etrans; [exact (evolves_ledger ConsentEvents _ (s_expires_at s) d Hev)|].
    apply evolves_patched; [apply U|apply Hs|by left|].
    eapply bound_move; [apply Hb|done|intros st; apply mv_refuse].
  - unfold consented. cbv zeta. etrans; [exact (evolves_ledger ConsentEvents _ (s_expires_at s) d Hev)|].
    etrans; [apply evolves_upsert|]. set (g := grant_row _ _ _ _ _ _ _ _). set (d1 := set_ledger _ _ _).
    assert (Hj1 : ledger AssertionJtis (snd (upsert g d1)) !! jti = None).
    { cbn [ledger]. by rewrite upsert_jtis. }
    assert (Hsame : db_sessions (snd (upsert g d1)) = db_sessions d) by exact (upsert_sessions g d1).
    etrans; [exact (evolves_ledger AssertionJtis _ (s_expires_at s) _ Hj1)|].
    etrans; [|apply evolves_job].
    apply evolves_patched; [cbn; rewrite Hsame; apply U|cbn; rewrite Hsame; apply Hs|by left|].
    eapply bound_move; [apply Hb|done|intros st; apply mv_approve].
Qed.

Lemma evolves_revocation ev sid nonce account reason d d' :
  unique d -> revocation_outcome state ev sid nonce account reason d d' -> evolves d d'.
Proof.
  intros U [s g n k keep bytes ct jid now jti Hs _ Hj _ _ _]. unfold revoked. cbv zeta.
  etrans; [apply (evolves_revoke (g_id g) (env_db_now now))|].
  etrans; [exact (evolves_ledger RevocationJtis jti keep (revoke (g_id g) (env_db_now now) d) Hj)|]. etrans; [apply evolves_job|].
  apply evolves_patched; [rewrite insert_job_sessions; apply U|rewrite insert_job_sessions; apply Hs|by left|constructor].
Qed.

Lemma evolves_accepted j payload d r d' l :
  db_wf d -> accepted_outcome state j payload d r d' l -> evolves d d'.
Proof.
  intros [U Hrows] Ho. rewrite Forall_forall in Hrows.
  assert (Hdel : forall s, s ∈ db_sessions d -> is_Some (s_request_room_ciphertext s) ->
    evolves d (delivered s d)).
  { intros s Hs Hroom. apply evolves_patched; [apply U|done|by left|].
    apply kept_move; [|done|constructor].
    apply room_challenged; [apply Hrows, Hs|done]. }
  destruct Ho as [s a n Ha Hs Hm Hn| | | |s a nonce k e Ha Hs Hm Ho Hr He|e d' l Hf [->|(s & Hs & Hr & ->)]];
    auto; try done.
  apply Hdel; [done|by eapply notice_room].
Qed.

Lemma evolves_registered r d d' : registered state r d d' -> evolves d d'.
Proof.
  intros (m & n & id & expires & _ & _ & _ & _ & ->).
  split; try apply rows_later_refl; try apply _; try done; try by intros [].
  cbn. apply rows_later_app. apply _.
Qed.

Lemma evolves_inbound ev d ns ps :
  db_wf d -> spec (MkObs d None ns ps) (handle_inbound state ev) (fun _ o => evolves d (o_db o)).
Proof.
  intros Hd. pose proof (proj1 Hd) as U. eapply spec_mono; [|by apply inbound_spec].
  intros r o (_ & _ & Hc & _).
  destruct Hc; [done|by eapply evolves_issued|by eapply evolves_consent|by eapply evolves_revocation].
Qed.

Lemma evolves_deliver j d ns ps :
  db_wf d -> spec (MkObs d None ns ps) (deliver state j) (fun _ o => evolves d (o_db o) /\ o_tx o = None).
Proof.
  intros Hd. pose proof (proj1 Hd) as U. eapply spec_mono; [|by apply deliver_spec].
  unfold delivery_post. intros r o Hr. destruct (post_of state j); [|by destruct Hr as [_ ->]].
  destruct Hr as [k Hr]. destruct (site_post_json _ _ _ _); [|by destruct Hr as [_ ->]].
  destruct (_ || _); [|by destruct Hr as [_ ->]]. destruct (String.eqb _ _); [|by destruct Hr as [_ ->]].
  destruct Hr as (Ht & _ & l & Ho & _). split; [by eapply evolves_accepted|done].
Qed.

Lemma evolves_mark d o st id :
  evolves d (o_db o) ->
  spec o (pool_exec (Mark st id)) (fun _ o' => evolves d (o_db o')).
Proof.
  destruct o as [x t ns ps]. intros Hd. cbn in Hd.
  assert (Hm : evolves d (mark st id x)).
  { etrans; [done|]. apply evolves_jobs. intros j. by case_if. }
  apply spec_pool_exec; [done|]. intros n. done.
Qed.

Lemma evolves_run_job tr j w :
  inv state tr w -> evolves (w_db w) (w_db (snd (run_job state j w))).
Proof.
  intros [Hk [Ht Hdb _]]. assert (Hwf : db_wf (w_db w)) by (eapply origin_db_wf; [apply Hk|done]).
  assert (Hs : spec (obs w) (run_job state j) (fun _ o => evolves (w_db w) (o_db o))); [|by apply (Hs w)].
  unfold obs. cbn in Ht. rewrite Ht. unfold run_job. spec_step. apply spec_try. eapply spec_mono; [|by apply evolves_deliver].
  intros [[]|e] o' [Hdel _]; cbv beta iota.
  - spec_step. eapply spec_mono; [|by apply evolves_mark]. intros [[]|e] o Hr; [by spec_step|done].
  - case_if; [by apply evolves_mark|by spec_step].
Qed.

Lemma evolves_run_jobs tr jobs : forall w,
  Forall (job_origin state tr) jobs -> inv state tr w ->
  evolves (w_db w) (w_db (snd (run_jobs state jobs w))).
Proof.
  induction jobs as [|j jobs IH]; intros w Hj Hw; [done|]. inversion_clear Hj as [|?? Hj1 Hj2].
  cbn [run_jobs]. rewrite run_bind. pose proof (run_job_inv state tr j w Hj1 Hw) as Hw'.
  pose proof (evolves_run_job tr j w Hw) as He.
  destruct (run_job state j w) as [[[]|e] w']; [|done]. etrans; [exact He|]. by apply IH.
Qed.

Lemma evolves_tick tr w : inv state tr w -> evolves (w_db w) (w_db (snd (process_once state w))).
Proof.
  intros Hw. unfold process_once, tick.
  assert (Hc : spec (obs w) (claim_due 10) (fun r o => obs_origin state tr o /\ evolves (w_db w) (o_db o) /\
    match r with Ok jobs => Forall (job_origin state tr) jobs | Err _ => True end)).
  { destruct Hw as [_ Ho]. destruct Ho as [Ht Hd Hp]. unfold obs in *. cbn in *. rewrite Ht.
    apply spec_claim_due; [apply env_returning_all|done|]. intros now.
    destruct (claim now 10 (w_db w)) as [[jobs d']|e] eqn:E; [|done].
    destruct (claim_origin state tr now 10 _ jobs d' Hd E) as [Hj Hd'].
    assert (He : evolves (w_db w) d').
    { apply claim_Ok in E as [_ ->]. apply evolves_jobs. intros j. case_if; [|done].
      split; cbn; try done. lia. }
    split; [|done]. intros l Hl. split; [done|]. split; [done|]. by rewrite Hl. }
  specialize (Hc w eq_refl). pose proof (keyed_run (claim_due 10) w (proj1 Hw)) as Hk. rewrite run_bind.
  destruct (claim_due 10 w) as [[jobs|e] w']; cbn [fst snd] in *; destruct Hc as (Ho & He & Hj); [|done].
  etrans; [exact He|]. by eapply evolves_run_jobs.
Qed.

Lemma evolves_posted body d ns ps res o :
  (exists limited, site_sessions_post state limited body d ns ps res o) -> evolves d (o_db o).
Proof.
  intros (limited & [->|(r & out & _ & (_ & _ & _ & Hpost))]%site_sessions_leaves); [done|].
  destruct out as [[resp' []]|e]; [by eapply evolves_registered, Hpost|by destruct Hpost as (_ & -> & _)|].
  destruct Hpost as [_ [->|(_ & _ & Hr)]]; [done|by eapply evolves_registered].
Qed.

Lemma evolves_serve route body d ns ps :
  spec (MkObs d None ns ps) (serve state route body) (fun _ o => evolves d (o_db o)).
Proof.
  unfold serve. case_if; [by spec_step|]. destruct route; try by (unfold jwks, live; spec_step).
  - eapply spec_mono; [|apply site_sessions_spec, Hstate].
    intros res o. apply evolves_posted.
  - eapply spec_mono; [|apply ready_spec]. by intros r o [-> _].
Qed.

Lemma evolves_step tr w e : inv state tr w -> evolves (w_db w) (w_db (step state e w)).
Proof.
  intros Hw. pose proof Hw as [Hk [Ht Hdb _]].
  assert (Hwf : db_wf (w_db w)) by (eapply origin_db_wf; [apply Hk|done]).
  assert (Hobs : obs w = MkObs (w_db w) None (w_notices w) (w_posts w)) by (unfold obs; cbn in Ht; by rewrite Ht).
  destruct e as [route body|m|ok sdk rooms| |]; cbn [step].
  - exact (evolves_serve route body _ _ _ w Hobs).
  - unfold on_room_message. destruct (inbound_of _ m) as [ev|]; [|done].
    pose proof (evolves_inbound ev _ _ _ Hwf w Hobs) as He. unfold dispatch_text. rewrite run_bind, run_try.
    by destruct (handle_inbound state ev w).
  - unfold on_sync. destruct ok; [|done]. by destruct (auto_join_invites _ _ _) as [acts [[]|]].
  - done.
  - by eapply evolves_tick.
Qed.

(** Any number of steps. *)
Inductive steps : World -> World -> Prop :=
  | steps_none w : steps w w
  | steps_more w e w' : steps (step state e w) w' -> steps w w'.

Lemma reachable_steps tr w w' : reachable state tr w -> steps w w' -> exists tr', reachable state tr' w'.
Proof.
  intros Hw Hs. revert tr Hw. induction Hs as [w|w e w' _ IH]; intros tr Hw; [by exists tr|].
  by eapply IH, reach_step.
Qed.

Lemma evolves_steps tr w w' : reachable state tr w -> steps w w' -> evolves (w_db w) (w_db w').
Proof.
  intros Hw Hs. revert tr Hw. induction Hs as [w|w e w' _ IH]; intros tr Hw; [done|].
  etrans; [by eapply evolves_step, inv_reachable|]. by eapply IH, reach_step.
Qed.
End Handlers.
