(* ===== verification/Interleaving.v ===== *)
(** * Every interleaving

    The invariant of the runtime, by induction over what its threads do: every row
    has its origin, every thread is tracked, no two hold the same lock. *)

From S2P Require Import Prelude Errors Constants Utf8 Base64url Json Strict Crypto Keys Metadata.
From S2P Require Import Registration Matrix RoomPolicy Documents Ssrf Site Tables Statements World.
From S2P Require Import Spec Db Register Login Queue Http Invariant Rows LoginSpec QueueSpec HttpSpec.
From S2P Require Import Sync System Concurrent Isolation Discipline Serial Track History.
From stdpp Require Import gmap.
#[local] Open Scope Z_scope.
#[local] Set Warnings "-clear-no-such-hyp".

(** ** Origins do not depend on the numbers of the steps *)

(** What the clock said, what was drawn and what a site answered in one environment,
    it did in the other. *)
Record includes (E E' : Env) : Prop := {
  in_now : forall n, exists k, @env_now E n = @env_now E' k;
  in_rand : forall n, exists k, forall len, @env_rand E n len = @env_rand E' k len;
  in_site : forall n, exists k, @env_site E n = @env_site E' k;
  in_millis : forall ms, @env_timestamp_millis E ms = @env_timestamp_millis E' ms
}.

Lemma reindex_included f E : includes (reindex f E) E.
Proof. split; [intros n; by exists (f n)..|done]. Qed.

Lemma included_reindex f E : onto f -> includes E (reindex f E).
Proof. intros Hf. split; [intros n; destruct (Hf n) as (k & <-); by exists k..|done]. Qed.

Lemma reindex_laws `{Base64} `{Crypto} `{JsonText} f (E : Env) : EnvLaws (H2 := E) -> EnvLaws (H2 := reindex f E).
Proof.
  intros L. split.
  - intros n. apply L.
  - intros n k. apply L.
  - intros n l. apply L.
  - apply L.
  - intros n. apply L.
Qed.

Section Origins.
Context `{Base64} `{Crypto} `{JsonText} `{JsonReader}.
Variables (E E' : Env) (state : AppState).
Hypothesis Hin : includes E E'.

Lemma authentic_env r m : authentic (H2 := E) r m -> authentic (H2 := E') r m.
Proof.
  intros (Hv & Hm & (n & Hn) & (i & Hi) & Hq). split; [done|]. split; [done|].
  destruct (in_now _ _ Hin n) as (k & Hk), (in_site _ _ Hin i) as (j & Hj).
  split; [exists k; by rewrite <- Hk|]. split; [exists j; by rewrite <- Hj|done].
Qed.

Lemma registered_env tr s : registered_origin (H3 := E) state tr s -> registered_origin (H3 := E') state tr s.
Proof.
  intros (r & m & (body & Hb & Hr & Ha) & Hs). exists r, m. split; [|done]. exists body.
  split_and!; [done..|by apply authentic_env].
Qed.

Lemma request_env tr s h ev : request_origin (H3 := E) state tr s h ev -> request_origin (H3 := E') state tr s h ev.
Proof.
  intros (nonce & t & k & n & Hs & Hn & Hh & Ht & Hk). destruct (in_rand _ _ Hin n) as (n' & Hn').
  destruct (in_now _ _ Hin k) as (k' & Hk'). exists nonce, t, k', n'. rewrite <- Hn', <- Hk'. done.
Qed.

Lemma row_env s : row_wf (H := E) s -> row_wf (H := E') s.
Proof. intros []. split; try done. by rewrite <- (in_millis _ _ Hin). Qed.

Lemma db_wf_env d : db_wf (H := E) d -> db_wf (H := E') d.
Proof. intros [U Hr]. split; [done|]. eapply Forall_impl; [done|]. apply row_env. Qed.

Lemma session_env tr s : session_origin (H3 := E) state tr s -> session_origin (H3 := E') state tr s.
Proof.
  intros [Hw Hr Hc]. split; [by apply row_env|by apply registered_env|]. intros h Hh.
  destruct (Hc h Hh) as (ev & rct & sct & Ho & ?). exists ev, rct, sct. split; [by apply request_env|done].
Qed.

Lemma login_env tr domain sid nh user display nonce now :
  login (H3 := E) state tr domain sid nh user display nonce now ->
  login (H3 := E') state tr domain sid nh user display nonce now.
Proof.
  intros (s & h & asked & agreed & t & c & key & sg & b & k & Hl). destruct_and!.
  destruct (in_now _ _ Hin k) as (k' & Hk'). exists s, h, asked, agreed, t, c, key, sg, b, k'. rewrite <- Hk'.
  split_and!; auto using registered_env, request_env.
Qed.

Lemma assertion_env tr domain sid nh jti bytes :
  assertion_origin (H3 := E) state tr domain sid nh jti bytes ->
  assertion_origin (H3 := E') state tr domain sid nh jti bytes.
Proof.
  intros (u & dn & n & now & exp & sub & a & Hl & ?). exists u, dn, n, now, exp, sub, a.
  split; [by apply login_env|done].
Qed.

Lemma grant_env tr g : grant_origin (H3 := E) state tr g -> grant_origin (H3 := E') state tr g.
Proof.
  intros (u & sub & sid & nh & dn & n & now & Hl & ?). exists u, sub, sid, nh, dn, n, now.
  split; [by apply login_env|done].
Qed.

Lemma revocation_env tr domain sid nh jti bytes :
  revocation_origin (H3 := E) state tr domain sid nh jti bytes ->
  revocation_origin (H3 := E') state tr domain sid nh jti bytes.
Proof.
  intros (ev & n & t & acc & rs & sub & h & k & r & Hs & ? & ? & ? & ? & Hr & ?).
  destruct (in_now _ _ Hin k) as (k' & Hk'). exists ev, n, t, acc, rs, sub, h, k', r. by rewrite <- Hk'.
Qed.

Lemma job_env tr j : job_origin (H3 := E) state tr j -> job_origin (H3 := E') state tr j.
Proof.
  intros (Hk & b & Hb & [[? ?]|[? ?]]); (split; [done|]); exists b; (split; [done|]);
    [left; split; [done|by apply assertion_env]|right; split; [done|by apply revocation_env]].
Qed.

Lemma post_env tr p : post_origin (H3 := E) state tr p -> post_origin (H3 := E') state tr p.
Proof.
  intros (sid & nh & jti & [(? & ? & ?)|(? & ? & ?)]); exists sid, nh, jti;
    [left; split_and!; [done..|by apply assertion_env]|right; split_and!; [done..|by apply revocation_env]].
Qed.

Lemma db_env tr d : db_origin (H3 := E) state tr d -> db_origin (H3 := E') state tr d.
Proof.
  intros []. split; eapply Forall_impl; eauto using session_env, grant_env, job_env.
Qed.
End Origins.

(** More events. *)
Section More.
Context `{Base64} `{Crypto} `{JsonText} `{JsonReader} `{Env}.
Variable state : AppState.

Lemma db_more l tr d : db_origin state tr d -> db_origin state (l ++ tr) d.
Proof. induction l as [|e l IH]; [done|]. intros Hd. by apply db_mono, IH. Qed.

Lemma post_more l tr p : post_origin state tr p -> post_origin state (l ++ tr) p.
Proof. induction l as [|e l IH]; [done|]. intros Hp. by apply post_mono, IH. Qed.

Lemma job_more l tr j : job_origin state tr j -> job_origin state (l ++ tr) j.
Proof. induction l as [|e l IH]; [done|]. intros Hj. by apply job_mono, IH. Qed.

(** Some of the sessions. *)
Lemma nodup_filter {A B} (key : A -> B) (p : A -> bool) l :
  NoDup (List.map key l) -> NoDup (List.map key (List.filter p l)).
Proof.
  induction l as [|x l IH]; cbn; [done|]. intros [Hx Hl]%NoDup_cons.
  destruct (p x); [|by apply IH]. cbn. apply NoDup_cons. split; [|by apply IH]. intros (y & E & Hy)%list_elem_of_fmap.
  apply Hx. rewrite E. apply list_elem_of_fmap. exists y. split; [done|].
  apply list_elem_of_In, filter_In in Hy as [Hy _]. by apply list_elem_of_In.
Qed.

Lemma keep_wf p d : db_wf d -> db_wf (keep_sessions p d).
Proof.
  intros [[] Hr].
  split; [split; cbn; auto using nodup_filter|]. cbn. apply Forall_forall. intros x Hx. rewrite Forall_forall in Hr. apply Hr.
  apply list_elem_of_In, filter_In in Hx as [Hx _]. by apply list_elem_of_In.
Qed.

Lemma keep_origin p tr d : db_origin state tr d -> db_origin state tr (keep_sessions p d).
Proof.
  intros [Hs Hg Hj]. split; [|done|done]. cbn. apply Forall_forall. intros x Hx. rewrite Forall_forall in Hs. apply Hs.
  apply list_elem_of_In, filter_In in Hx as [Hx _]. by apply list_elem_of_In.
Qed.

Lemma in_keep p d x : x ∈ db_sessions (keep_sessions p d) <-> x ∈ db_sessions d /\ p x = true.
Proof. cbn. rewrite !list_elem_of_In. apply filter_In. Qed.

(** What a call alone does to the rows it sees, together with the rows it does not. *)
Lemma visible_origin p tr d d' :
  (forall x, p x = false -> x ∈ db_sessions d <-> x ∈ db_sessions d') ->
  db_origin state tr d -> db_origin state tr (keep_sessions p d') -> db_origin state tr d'.
Proof.
  intros Hp [Hs _ _] [Hs' Hg Hj]. split; [|done|done]. apply Forall_forall. intros x Hx.
  rewrite Forall_forall in Hs, Hs'. destruct (p x) eqn:E.
  - apply Hs'. by apply in_keep.
  - apply Hs. by apply Hp.
Qed.

Lemma visible_evolves p d d' :
  (forall x, p x = false -> x ∈ db_sessions d <-> x ∈ db_sessions d') ->
  evolves (keep_sessions p d) (keep_sessions p d') -> evolves d d'.
Proof.
  intros Hp [Hs Hg Hj Hl Hc]. split; try done.
  intros x Hx. destruct (p x) eqn:E.
  - destruct (Hs x) as (x' & Hx' & Hlater); [by apply in_keep|]. apply in_keep in Hx' as [Hx' _]. by exists x'.
  - exists x. split; [by apply Hp|done].
Qed.
End More.

(** ** What is required of a task *)

(** The calls of a task, and what is left of it after one. *)
Inductive part_of : Script -> Script -> Prop :=
  | part_self s : part_of s s
  | part_after {A} (m : M A) k r s : part_of (Call m k) s -> part_of (k r) s.

Section Scripts.
Context `{Base64} `{Crypto} `{JsonText} `{JsonReader}.
Variables (E : Env) (state : AppState).

Definition good (tr : list Event) (d : Db) : Prop := db_wf d /\ db_origin (H3 := E) state tr d.

(** Alone, on tables with an origin, and with the answers of any steps, a call
    leaves tables with an origin that are later ones, makes only requests that
    have one, and returns a result that the rest of the task can go on with. *)
Definition call_spec (tr : list Event) {A} (m : M A) (R : result A -> Prop) : Prop :=
  forall f d q, onto f -> good tr d ->
    let '(r, w) := @run (reindex f E) A m (alone d q) in
    R r /\ db_origin (H3 := E) state tr (w_db w) /\ evolves d (w_db w) /\
    Forall (post_origin (H3 := E) state tr) (w_posts w).

(** A task whose calls are harmless, or disciplined and right when alone, now and
    after more events. *)
Fixpoint script_ok (tr : list Event) (s : Script) : Prop :=
  match s with
  | Done => True
  | Call m k =>
      (harmless m /\ forall l r, script_ok (l ++ tr) (k r)) \/
      exists D : Prop, disciplined D m /\ forall l,
        (D -> forall r, script_ok (l ++ tr) (k r)) /\
        call_spec (l ++ tr) m (fun r => script_ok (l ++ tr) (k r))
  end.

Lemma script_more l tr s : script_ok tr s -> script_ok (l ++ tr) s.
Proof.
  destruct s as [|A m k]; [done|]. intros [[Hm Hk]|(D & Hm & Hk)].
  - left. split; [done|]. intros l'. rewrite app_assoc. apply Hk.
  - right. exists D. split; [done|]. intros l'. rewrite app_assoc. apply Hk.
Qed.

(** A call from what is known of it on every branch. *)
Lemma call_spec_of tr {A} (m : M A) (R : result A -> Prop) :
  (forall f d, onto f -> good tr d ->
     @spec (reindex f E) A (MkObs d None [] []) m (fun r o =>
       R r /\ obs_origin (H7 := reindex f E) state tr o /\ evolves d (o_db o))) ->
  call_spec tr m R.
Proof.
  intros Hm f d q Hf Hd. specialize (Hm f d Hf Hd (alone d q) eq_refl).
  destruct (@run _ A m (alone d q)) as [r w]. destruct Hm as (HR & [_ Hdb Hps] & Hev). split_and!; try done.
  - eapply (db_env (reindex f E)); [apply reindex_included|done].
  - eapply Forall_impl; [exact Hps|]. intros p. apply post_env, reindex_included.
Qed.
End Scripts.

(** ** The tasks of the relay *)

Section Tasks.
Context `{Base64Laws} `{CryptoLaws} `{JsonTextLaws} `{JsonReader} `{!JsonReaderLaws}.
Variables (E : Env) (state : AppState).
Hypothesis Hlaws : EnvLaws (H2 := E).
Hypothesis Hstate : state_wf state.

Lemma good_at f tr d : onto f -> good E state tr d ->
  db_wf (H := reindex f E) d /\ obs_origin (H7 := reindex f E) state tr (MkObs d None [] []).
Proof.
  intros Hf [Hd Ho]. pose proof (included_reindex f E Hf) as Hin. split; [by eapply db_wf_env|].
  split; [done|by eapply db_env|constructor].
Qed.

Lemma spec_and (E' : Env) {A} o (m : M A) Q Q' : spec o m Q -> spec o m Q' -> spec o m (fun r o => Q r o /\ Q' r o).
Proof. intros Ha Hb w Hw. split; [by apply Ha|by apply Hb]. Qed.

(** Programs ask the environment only through their operations. *)
Lemma room_message_reindex f m :
  on_room_message (H3 := reindex f E) state m = on_room_message (H3 := E) state m.
Proof. reflexivity. Qed.

Lemma post_registration_reindex f body :
  post_registration (H3 := reindex f E) state body = post_registration (H3 := E) state body.
Proof. reflexivity. Qed.

Lemma room_message_spec tr m R :
  RoomEvent m ∈ tr -> (forall r, R r) -> call_spec E state tr (on_room_message (H3 := E) state m) R.
Proof.
  intros Hm HR. apply call_spec_of. intros f d Hf Hd. rewrite <- (room_message_reindex f).
  pose proof (reindex_laws f E Hlaws) as Hlaws'. destruct (good_at f tr d Hf Hd) as [Hwf Ho].
  unfold on_room_message. destruct (inbound_of _ m) as [ev|] eqn:Eev; [|by apply spec_ret; split; [auto|]].
  pose proof (spec_and (reindex f E) _ _ _ _ (inbound_origin state Hstate tr m ev d [] [] Hm Eev Hwf Ho)
    (evolves_inbound state Hstate ev d [] [] Hwf)) as Hs.
  unfold dispatch_text. apply spec_bind, spec_try. eapply spec_mono; [|exact Hs].
  intros r o [H1' H2']. apply spec_ret. auto.
Qed.

Lemma registration_call_spec tr body R :
  HttpRequest PostSiteSessions body ∈ tr -> (forall r, R r) ->
  call_spec E state tr (post_registration (H3 := E) state body) R.
Proof.
  intros Hb HR. apply call_spec_of. intros f d Hf Hd. rewrite <- (post_registration_reindex f).
  pose proof (reindex_laws f E Hlaws) as Hlaws'. destruct (good_at f tr d Hf Hd) as [Hwf Ho].
  eapply spec_mono; [|apply post_registration_spec, Hstate].
  intros r o Hpost. pose proof (ex_intro (fun l => site_sessions_post state l _ _ _ _ _ _) false Hpost) as Hp.
  split; [done|]. split; [exact (posted_origin state tr body d [] [] r o Hb Ho Hp)|exact (evolves_posted state body d [] [] r o Hp)].
Qed.

Lemma deliver_call_spec tr j R :
  job_origin (H3 := E) state tr j -> (forall r, R r) -> call_spec E state tr (deliver state j) R.
Proof.
  intros Hj HR. apply call_spec_of. intros f d Hf Hd. destruct (good_at f tr d Hf Hd) as [Hwf Ho].
  assert (Hj' : job_origin (H3 := reindex f E) state tr j) by (eapply job_env; [by apply included_reindex|done]).
  eapply spec_mono; [|exact (spec_and (reindex f E) _ _ _ _ (deliver_origin state tr j d [] [] Hwf Hj' Ho)
    (evolves_deliver state j d [] [] Hwf))].
  intros r o [H1' [H2' _]]. auto.
Qed.

Lemma mark_call_spec tr st id R : (forall r, R r) -> call_spec E state tr (pool_exec (Mark st id)) R.
Proof.
  intros HR. apply call_spec_of. intros f d Hf Hd. destruct (good_at f tr d Hf Hd) as [Hwf Ho].
  eapply spec_mono; [|exact (spec_and (reindex f E) _ _ _ _ (mark_origin state tr _ st id Ho)
    (evolves_mark d (MkObs d None [] []) st id (reflexivity d)))].
  intros r o [H1' H2']. auto.
Qed.

Lemma claim_call_spec tr limit R :
  (forall e, R (Err e)) -> (forall jobs, Forall (job_origin (H3 := E) state tr) jobs -> R (Ok jobs)) ->
  call_spec E state tr (claim_due limit) R.
Proof.
  intros HE HR. apply call_spec_of. intros f d Hf Hd. pose proof (reindex_laws f E Hlaws) as Hlaws'.
  destruct (good_at f tr d Hf Hd) as [Hwf Ho].
  assert (Hsame : forall e, R (Err e) /\ obs_origin (H7 := reindex f E) state tr (MkObs d None [] []) /\ evolves d d)
    by done.
  apply spec_claim_due; [apply env_returning_all|by intros _; apply Hsame|]. intros now.
  destruct (claim now limit d) as [[jobs d']|e] eqn:Ec; [|by apply Hsame].
  destruct (claim_origin state tr now limit d jobs d' (oo_db _ _ _ Ho) Ec) as [Hj Hd'].
  assert (Hev : evolves d d').
  { apply claim_Ok in Ec as [_ ->]. apply evolves_jobs. intros j. case_if; [|done]. split; cbn; try done. lia. }
  assert (Ho' : obs_origin (H7 := reindex f E) state tr (MkObs d' None [] [])) by by split.
  split; [|intros _; split; [apply HE|done]]. intros l Hl. split_and!; [|done..]. apply HR. rewrite Hl.
  eapply Forall_impl; [exact Hj|]. intros j. apply job_env, reindex_included.
Qed.

#[local] Abbreviation script_ok := (script_ok E state).

Lemma only_disciplined tr {A} (m : M A) :
  disciplined True m -> (forall l, call_spec E state (l ++ tr) m (fun _ => True)) -> script_ok tr (only m).
Proof. intros Hm Hs. right. exists True. split; [done|]. intros l. split; [done|apply Hs]. Qed.

Lemma only_harmless tr {A} (m : M A) : harmless m -> script_ok tr (only m).
Proof. intros Hm. by left. Qed.

Lemma mark_ok tr st id (k : result unit -> Script) :
  (forall r, script_ok tr (k r)) -> script_ok tr (Call (pool_exec (Mark st id)) k).
Proof.
  intros Hk. assert (Hk' : forall l r, script_ok (l ++ tr) (k r)) by (intros l r; by apply script_more).
  right. exists True. split; [apply auto_disciplined|]. intros l. split; [done|by apply mark_call_spec].
Qed.

Lemma jobs_ok tr jobs : Forall (job_origin (H3 := E) state tr) jobs -> script_ok tr (jobs_script state jobs).
Proof.
  induction 1 as [|j rest Hj _ IH]; [done|]. cbn [jobs_script].
  assert (Hk : forall r : result unit, script_ok tr
    match r with
    | Ok _ => Call (mark_delivered (j_id j)) (fun marked =>
        match marked with Ok _ => Call (inc Deliveries) (fun _ => jobs_script state rest) | Err _ => Done end)
    | Err _ =>
        if 8 <=? j_attempts j then
          Call (mark_failed (j_id j)) (fun marked =>
            match marked with Ok _ => jobs_script state rest | Err _ => Done end)
        else jobs_script state rest
    end).
  { intros [[]|e].
    - apply mark_ok. intros [[]|e]; [|done]. left. split; [by split|]. intros l _. by apply script_more.
    - case_if; [|done]. apply mark_ok. by intros [[]|e']. }
  right. exists True. split; [by apply deliver_disciplined|]. intros l.
  assert (Hk' : forall r, script_ok (l ++ tr) _) by (intros r; exact (script_more _ _ l _ _ (Hk r))).
  split; [by intros _|]. apply deliver_call_spec; [by apply job_more|done].
Qed.

(** Every task the relay starts. *)
Lemma event_script_ok tr e : e ∈ tr -> script_ok tr (script_of (H3 := E) state e).
Proof.
  intros He. assert (Hl : forall l, e ∈ l ++ tr) by (intros l; apply elem_of_app; by right).
  destruct e as [route body|m|ok sdk rooms| |]; cbn [script_of].
  - destruct route; try by (apply only_harmless, serve_harmless; by left).
    destruct (Z.ltb_spec MAX_HTTP_BODY (blen body)); [apply only_harmless, serve_harmless; by right|].
    left. split; [apply rate_limit_harmless|]. intros l [[]|e]; [| |done]; cbn [negb].
    + apply only_disciplined; [by apply post_registration_disciplined|]. intros l'. apply registration_call_spec; [|done].
      apply elem_of_app. by right.
    + apply only_harmless. unfold rate_limited. apply walks_bind. eapply walks_mono; [|apply problem_harmless].
      by intros ph [r|e] ->.
  - apply only_disciplined; [by apply room_message_disciplined|]. intros l. by apply room_message_spec.
  - apply only_harmless, sync_harmless.
  - apply only_harmless. unfold harmless, on_sync_ended, store_sync. repeat walk_step.
  - right. exists False. split; [apply auto_disciplined|]. intros l. split; [done|].
    apply claim_call_spec; [done|]. intros jobs Hj. by apply jobs_ok.
Qed.
End Tasks.
