(* ===== verification/Serializable.v ===== *)
(** * The invariant of the runtime

    One turn of one thread, whatever the others hold, keeps what is known of all of
    them; so every interleaving of any events keeps the origin of every row, and
    changes the tables only as calls do that run one after the other. *)

From S2P Require Import Prelude Errors Constants Utf8 Base64url Json Strict Crypto Keys Metadata.
From S2P Require Import Registration Matrix Ssrf Site Tables Statements World Db Invariant Rows.
From S2P Require Import System Concurrent Isolation Discipline Serial Track History Interleaving.
From stdpp Require Import gmap.
#[local] Open Scope Z_scope.
#[local] Set Warnings "-clear-no-such-hyp".

Definition thread_below (s : Seqs) (t : Thread) : Prop :=
  match t with Running _ _ tx => tx_below s tx | Finished => True end.

(** ** Locks and sequences *)

Lemma id_below_le s s' k : seqs_le s s' -> id_below s k -> id_below s' k.
Proof. intros (H1 & H2 & H3). destruct k; cbn; lia. Qed.

Lemma drawn_entry_le s s' e : seqs_le s s' -> drawn_entry s e -> drawn_entry s' e.
Proof. intros (H1 & H2 & H3). unfold drawn_entry. destruct (e_stmt e); cbn; try done; lia. Qed.

Lemma tx_below_le s s' tx : seqs_le s s' -> tx_below s tx -> tx_below s' tx.
Proof.
  intros Hle. destruct tx as [t|]; [|done]. intros [H1 H2].
  split; eapply Forall_impl; eauto using id_below_le, drawn_entry_le.
Qed.

Lemma thread_below_le s s' t : seqs_le s s' -> thread_below s t -> thread_below s' t.
Proof. destruct t; [done|]. apply tx_below_le. Qed.

Lemma running_draws {A} (st : Stmt A) t q q' : drawn_below (running t st) q q' <-> drawn_below st q q'.
Proof. unfold running. by destruct (ct_snapshot t), st. Qed.

Lemma locks_below {A} (st : Stmt A) q q' d :
  below q d -> seqs_le q q' -> drawn_below st q q' ->
  match st with UpdateSession id _ _ => id < seq_sessions q | _ => True end ->
  Forall (id_below q') (locks_of st q d).
Proof.
  intros B Hle Hd Hu. apply Forall_app. split.
  - destruct st; cbn in *; repeat constructor; done.
  - destruct (inserts st q d); [|done]. pose proof Hle as (H1 & _).
    destruct st as [| [] p| | | | | [] p| |]; cbn in *; repeat constructor; try done; try (cbn; lia);
      apply Forall_map, Forall_forall; intros x Hx; cbn; try done.
    apply list_elem_of_In, filter_In in Hx as [Hx _]. apply list_elem_of_In in Hx.
    pose proof (b_sessions _ _ B) as Bs. rewrite Forall_forall in Bs. specialize (Bs x Hx). lia.
Qed.

(** What a statement locks is free: nobody waits for it in vain, and an identifier
    that was just drawn is nobody's. *)
Lemma locks_free {A} (st : Stmt A) q d (held : list Lock) k :
  (forall k, k ∈ held -> id_below q k) -> existsb (fun l => bool_decide (l ∈ held)) (waits_for st d) = false ->
  k ∈ locks_of st q d -> k ∉ held.
Proof.
  intros Hb Hw Hk Hin. unfold locks_of in Hk. apply elem_of_app in Hk as [Hk|Hk].
  - specialize (Hb k Hin). destruct st; cbn in Hk; try (by apply not_elem_of_nil in Hk);
      apply list_elem_of_singleton in Hk as ->; cbn in Hb; lia.
  - destruct (inserts _ _ _); [|by apply not_elem_of_nil in Hk].
    apply elem_of_app in Hk as [Hk|Hk].
    + specialize (Hb k Hin). destruct st; cbn in Hk; try (by apply not_elem_of_nil in Hk).
      apply list_elem_of_singleton in Hk as ->. cbn in Hb. lia.
    + rewrite existsb_none in Hw. specialize (Hw k Hk). by apply bool_decide_eq_false in Hw.
Qed.

Section Runs.
Context `{Base64} `{Crypto} `{JsonText} `{JsonReader}.
Variables (E : Env) (state : AppState).

#[local] Abbreviation script_ok := (script_ok E state).
#[local] Abbreviation good := (good E state).
#[local] Abbreviation call_spec := (call_spec E state).
#[local] Abbreviation db_origin := (db_origin (H3 := E) state).
#[local] Abbreviation post_origin := (post_origin (H3 := E) state).
#[local] Abbreviation script_of := (script_of (H3 := E) state).

(** ** Threads *)

Definition thread_ok (tr : list Event) (d : Db) (t : Thread) : Prop :=
  match t with
  | Finished => True
  | @Running A prog next tx => exists (m : M A) (D : Prop) ph hist,
      walks (closed D) ph prog /\ (D -> forall l r, script_ok (l ++ tr) (next r)) /\
      track E m (fun r => script_ok tr (next r)) ph hist prog tx d /\
      (ph = Over \/ forall l, call_spec (l ++ tr) m (fun r => script_ok (l ++ tr) (next r))) /\
      exists e, e ∈ tr /\ part_of (Call m next) (script_of e)
  end.

Lemma track_result {A} (m : M A) (R R' : result A -> Prop) ph hist prog tx d :
  (forall r, R r -> R' r) -> track E m R ph hist prog tx d -> track E m R' ph hist prog tx d.
Proof.
  intros HR. destruct ph; try done. intros [-> (w & Hs & Hw)]. split; [done|]. exists w. split; [done|]. auto.
Qed.

Lemma thread_more l tr d t : thread_ok tr d t -> thread_ok (l ++ tr) d t.
Proof.
  destruct t as [|A prog next tx]; [done|]. intros (m & D & ph & hist & Hw & HD & Ht & Hs & e & He & Hp).
  exists m, D, ph, hist. split; [done|]. split; [|split; [|split]].
  - intros HD'. intros l' r. rewrite app_assoc. by apply HD.
  - eapply track_result; [|exact Ht]. intros r. apply script_more.
  - destruct Hs as [Hs|Hs]; [by left|right]. intros l'. rewrite app_assoc. apply Hs.
  - exists e. split; [apply elem_of_app; by right|done].
Qed.

Lemma thread_agree tr d d' t :
  agree_on (locks_held t) d d' -> thread_ok tr d t -> thread_ok tr d' t.
Proof.
  destruct t as [|A prog next tx]; [done|]. intros Ha (m & D & ph & hist & Hw & HD & Ht & Hs).
  exists m, D, ph, hist. split; [done|]. split; [done|]. split; [by eapply track_agree|done].
Qed.

Lemma start_ok tr d s e : script_ok tr s -> e ∈ tr -> part_of s (script_of e) -> thread_ok tr d (start s).
Proof.
  destruct s as [|A m k]; [done|]. intros [[Hm Hk]|(D & Hm & Hk)] He Hp; cbn [start thread_ok].
  - exists m, True, Over, []. split; [|split; [by intros _|split; [done|split; [by left|by exists e]]]].
    eapply walks_mono; [|exact Hm]. by intros ph r ->.
  - exists m, D, Outside, []. split; [done|]. split; [by intros HD l; apply Hk|].
    split; [|split; [right; intros l; apply Hk|by exists e]].
    split; [done|]. intros d0 q. exists (alone d0 q). split; [apply reaches_start|done].
Qed.

(** ** The change a call makes *)

Lemma serial_ok tr {A} (m : M A) R d d' :
  call_spec tr m R -> good tr d -> serial E m d d' -> db_origin tr d' /\ evolves d d'.
Proof.
  intros Hs [Hwf Ho] (hist & visible & q & _ & Hrun & Hvis). destruct (extends_onto hist) as (f & Hf & Honto).
  pose proof (Hs f (keep_sessions visible d) q Honto (conj (keep_wf visible d Hwf) (keep_origin _ visible tr d Ho))) as Hc.
  specialize (Hrun f Hf). destruct (@run _ A m _) as [r w]. cbn [snd] in Hrun. destruct Hc as (_ & Ho' & He & _).
  rewrite Hrun in Ho', He. split; [by eapply visible_origin|by eapply visible_evolves].
Qed.

Lemma run_posts (E' : Env) {A} (m : M A) w p : p ∈ w_posts w -> p ∈ w_posts (@run E' A m w).2.
Proof.
  revert w. induction m as [r|X o k IH]; intros w Hp; [done|]. cbn. unfold perform.
  assert (Hp' : p ∈ w_posts (perform_at o (w_step w) (bump w)).2).
  { destruct o; cbn [perform_at]; try done.
    - by case_if.
    - case_if; [|done]. unfold perform_stmt. destruct (w_tx _); [|done]. by destruct (stmt_run _ _ _ _) as [[]].
    - unfold committed. by destruct (env_commit _), (w_tx _).
    - destruct (auto_run _ _ _) as [[]|]; [by destruct (env_exec _)|done].
    - by destruct (env_notice _).
    - cbn. apply elem_of_app. by left. }
  destruct (perform_at o _ _) as [x w']. by apply IH.
Qed.

(** The result of a call that is over is one to go on with. *)
Lemma result_ok tr {A} (m : M A) (next : result A -> Script) (D : Prop) ph hist r tx d :
  good tr d -> closed D ph r -> (D -> forall l r, script_ok (l ++ tr) (next r)) ->
  track E m (fun r => script_ok tr (next r)) ph hist (Ret r) tx d ->
  (ph = Over \/ forall l, call_spec (l ++ tr) m (fun r => script_ok (l ++ tr) (next r))) ->
  script_ok tr (next r).
Proof.
  intros Hd Hc HD Ht Hs. destruct (extends_onto hist) as (f & Hf & Honto).
  destruct ph; try done.
  - destruct Hs as [|Hs]; [done|]. destruct Ht as [-> Hj]. destruct (Hj d (Build_Seqs 0 0 0)) as (w & [_ Hr] & _).
    pose proof (Hs [] f d (Build_Seqs 0 0 0) Honto Hd) as Hspec. rewrite (Hr f Hf) in Hspec. apply Hspec.
  - destruct Ht as [_ (w & _ & HR)]. exact (HR f Hf Honto).
  - exact (HD Hc [] r).
Qed.

(** ** One turn *)

(** What a turn of a thread leaves, when the others hold some locks. *)
Record advanced (tr : list Event) (held : list Lock) (w w' : World) (t' : Thread) : Prop := {
  ad_tx : w_tx w' = None;
  ad_keyed : keyed (w_seqs w') (w_db w');
  ad_seqs : seqs_le (w_seqs w) (w_seqs w');
  ad_origin : db_origin tr (w_db w');
  ad_posts : Forall (post_origin tr) (w_posts w');
  ad_thread : thread_ok tr (w_db w') t';
  ad_below : thread_below (w_seqs w') t';
  ad_free : forall k, k ∈ locks_held t' -> k ∉ held;
  ad_agree : agree_on held (w_db w) (w_db w');
  ad_evolves : evolves (w_db w) (w_db w');
  ad_serial : w_db w' = w_db w \/
    exists e A (m : M A) next, e ∈ tr /\ part_of (Call m next) (script_of e) /\ serial E m (w_db w) (w_db w')
}.

(** The shared world between turns. *)
Record world_ok (tr : list Event) (w : World) : Prop := {
  wk_tx : w_tx w = None;
  wk_keyed : keyed (w_seqs w) (w_db w);
  wk_origin : db_origin tr (w_db w);
  wk_posts : Forall (post_origin tr) (w_posts w)
}.

Lemma world_good tr w : world_ok tr w -> good tr (w_db w).
Proof. intros [_ [U _] Ho _]. split; [by eapply origin_db_wf|done]. Qed.

Lemma advanced_same tr held w w' t' :
  world_ok tr w -> w_db w' = w_db w -> w_seqs w' = w_seqs w -> w_posts w' = w_posts w -> w_tx w' = None ->
  thread_ok tr (w_db w) t' -> thread_below (w_seqs w) t' -> (forall k, k ∈ locks_held t' -> k ∉ held) ->
  advanced tr held w w' t'.
Proof. intros [] E1 E2 E3 E4 Ht Hb Hf. split; rewrite ?E1, ?E2, ?E3; auto; done. Qed.

(** A call in the middle of a task. *)
Definition at_call {A} (tr : list Event) (m : M A) (D : Prop) ph hist (prog : M A)
    (next : result A -> Script) (tx : option Transaction) (d : Db) : Prop :=
  walks (closed D) ph prog /\ (D -> forall l r, script_ok (l ++ tr) (next r)) /\
  track E m (fun r => script_ok tr (next r)) ph hist prog tx d /\
  (ph = Over \/ forall l, call_spec (l ++ tr) m (fun r => script_ok (l ++ tr) (next r))) /\
  exists e, e ∈ tr /\ part_of (Call m next) (script_of e).

Lemma snapshot_track {A} (m : M A) R ph hist prog t sn d :
  track E m R ph hist prog (Some t) d ->
  track E m R ph hist prog (Some {| ct_started := ct_started t; ct_log := ct_log t; ct_locks := ct_locks t;
                                    ct_snapshot := sn |}) d.
Proof.
  destruct ph as [| | | | |p s last rk| | |]; cbn [track]; try done.
  - by intros [].
  - intros (t0 & [= <-] & Hl & Hk & Hj). eexists. split; [done|]. split; [done|]. split; [done|]. exact Hj.
  - intros (t0 & [= <-] & Hl & Hv). eexists. split; [done|]. split; [exact Hl|exact Hv].
  - intros (t0 & [= <-] & Hv). eexists. split; [done|]. exact Hv.
  - intros (t0 & id & [= <-] & Hv & Hj). eexists _, id. split; [done|]. split; [exact Hv|exact Hj].
  - intros (t0 & [= <-] & [] & Hj). eexists. split; [done|]. split; [by split|exact Hj].
  - by intros [].
Qed.

Section Turn.
Variables (tr : list Event) (held : list Lock) (w : World).
Hypothesis Hw : world_ok tr w.
Hypothesis Hheld : forall k, k ∈ held -> id_below (w_seqs w) k.

(** The step of the operation, and the world it is performed in. *)
#[local] Abbreviation n := (w_step w).
#[local] Abbreviation inside tx := (bump (enter tx w)).

Variables (A : Type) (m : M A) (D : Prop) (ph : Phase) (hist : list nat) (next : result A -> Script).
Variable tx : option Transaction.
Hypothesis Hbelow : tx_below (w_seqs w) tx.
Hypothesis Hfree : forall k, k ∈ tx_locks tx -> k ∉ held.

Lemma at_call_next {X} (o : Op X) k x ph' tx' d :
  at_call tr m D ph hist (Vis o k) next tx (w_db w) -> ph' = after_op ph o x -> (ph = Over -> ph' = Over) ->
  track E m (fun r => script_ok tr (next r)) ph' (hist ++ [n]) (k x) tx' d ->
  thread_ok tr d (Running (k x) next tx').
Proof.
  intros ([Hal Hk] & HD & _ & Hs & He) -> Hph Ht. exists m, D, (after_op ph o x), (hist ++ [n]).
  split; [apply Hk|]. split; [done|]. split; [done|]. split; [|done]. destruct Hs as [Hs|Hs]; [left; auto|by right].
Qed.

Lemma turn_same {X} (o : Op X) k x w' ph' tx' :
  at_call tr m D ph hist (Vis o k) next tx (w_db w) -> ph' = after_op ph o x -> (ph = Over -> ph' = Over) ->
  track E m (fun r => script_ok tr (next r)) ph' (hist ++ [n]) (k x) tx' (w_db w) ->
  w_db w' = w_db w -> w_seqs w' = w_seqs w -> w_posts w' = w_posts w -> w_tx w' = None ->
  tx_below (w_seqs w) tx' -> (forall l, l ∈ tx_locks tx' -> l ∉ held) ->
  advanced tr held w w' (Running (k x) next tx').
Proof.
  intros Hc Hph' Hph Ht E1 E2 E3 E4 Hb Hf. apply advanced_same; try done. by eapply at_call_next.
Qed.

Lemma turn_asks {X} (o : Op X) k :
  asks o = true -> at_call tr m D ph hist (Vis o k) next tx (w_db w) ->
  let '(x, w') := perform_at o n (inside tx) in
  advanced tr held w (set_tx None w') (Running (k x) next tx).
Proof.
  intros Ho Hc. destruct (asks_only E o n (inside tx) Ho) as (E1 & E2 & E3 & E4).
  destruct (perform_at o n (inside tx)) as [x w'] eqn:Ep. cbn in E1, E2, E3, E4.
  assert (Hx : x = (perform_at o n (inside tx)).1) by by rewrite Ep.
  eapply (turn_same o k x _ ph); try done; [by destruct o|]. rewrite Hx. apply track_asks; [done|apply Hc].
Qed.

(** The atomics are for calls that use nothing else. *)
Definition atomic {X} (o : Op X) : bool :=
  match o with
  | LoadWindow | StoreWindow _ | StoreCount _ | FetchAddCount | LoadReady | LoadLastSync
  | StoreReady _ | StoreLastSync _ => true
  | _ => false
  end.

Lemma turn_atomic {X} (o : Op X) k :
  atomic o = true -> at_call tr m D ph hist (Vis o k) next tx (w_db w) ->
  let '(x, w') := perform_at o n (inside tx) in
  advanced tr held w (set_tx None w') (Running (k x) next tx).
Proof.
  intros Ho Hc. assert (Hph : ph = Over) by (destruct Hc as [[Hal _] _]; by destruct o).
  destruct (perform_at o n (inside tx)) as [x w'] eqn:Ep.
  eapply (turn_same o k x _ Over); try done; try (by destruct o; try discriminate Ho; injection Ep as _ <-).
  destruct Hc as (_ & _ & Ht & _). rewrite Hph in Ht. exact Ht.
Qed.

Lemma turn_begin k :
  at_call tr m D ph hist (Vis Begin k) next tx (w_db w) ->
  advanced tr held w (set_tx None (perform_at Begin n (inside tx)).2)
    (Running (k (env_begin n)) next (if env_begin n then Some (new_tx (env_db_now n)) else tx)).
Proof.
  intros Hc. pose proof Hc as [[Hal _] (_ & Ht & _)]. cbn in Hal. rewrite Hal in Ht.
  eapply (turn_same Begin k); [exact Hc|done|by rewrite Hal|rewrite Hal; by apply track_begin|..]; cbn; try (by destruct (env_begin n)).
  destruct (env_begin n); [|done]. intros l Hl. by apply not_elem_of_nil in Hl.
Qed.

Lemma turn_drop k :
  at_call tr m D ph hist (Vis Drop k) next tx (w_db w) ->
  advanced tr held w (set_tx None (perform_at Drop n (inside tx)).2) (Running (k tt) next None).
Proof.
  intros Hc. pose proof Hc as [[Hal _] (_ & Ht & _)].
  eapply (turn_same Drop k); [exact Hc|done|by intros ->|by eapply track_drop|done..|].
  intros l Hl. by apply not_elem_of_nil in Hl.
Qed.

Lemma turn_rollback k :
  at_call tr m D ph hist (Vis Rollback k) next tx (w_db w) ->
  advanced tr held w (set_tx None (perform_at Rollback n (inside tx)).2)
    (Running (k (if env_rollback n then Ok tt else problem InternalError)) next None).
Proof.
  intros Hc. pose proof Hc as [[Hal _] (_ & Ht & _)].
  eapply (turn_same Rollback k); [exact Hc|done|by intros ->|by eapply track_rollback|done..|].
  intros l Hl. by apply not_elem_of_nil in Hl.
Qed.
(** A statement, with what others hold out of its way. *)
Lemma exec_in_tx {X} (st : Stmt X) R k :
  allowed ph st -> track E m R ph hist (Vis (Exec st) k) tx (w_db w) -> exists t, tx = Some t.
Proof.
  intros Hal Ht. destruct ph as [| | | | |p s last rk| | |]; cbn [track] in Ht; try (by destruct st); naive_solver.
Qed.

Lemma updates_locked {X} (st : Stmt X) R k t :
  allowed ph st -> tx = Some t -> track E m R ph hist (Vis (Exec st) k) tx (w_db w) ->
  match st with UpdateSession id _ _ => id < seq_sessions (w_seqs w) | _ => True end.
Proof.
  intros Hal Htx Ht. destruct st; try done. destruct ph as [| | | | |p0 s0 last rk| | |]; try done.
  cbn in Hal. subst id. destruct Ht as (t0 & Et & Hwk & _). rewrite Htx in Et. injection Et as <-.
  rewrite Htx in Hbelow. destruct Hbelow as [Hl _]. rewrite Forall_forall in Hl. exact (Hl _ (wo_locked _ _ _ _ _ _ Hwk)).
Qed.

Lemma logged_below {X} (st : Stmt X) t q' r :
  tx = Some t -> seqs_le (w_seqs w) q' -> drawn_below (running t st) (w_seqs w) q' ->
  match st with UpdateSession id _ _ => id < seq_sessions (w_seqs w) | _ => True end ->
  tx_below q' (Some (logged st (w_seqs w) (view t (w_db w)) r t)).
Proof.
  intros Htx Hle Hd Hu. pose proof Hbelow as Hb. rewrite Htx in Hb. pose proof (tx_below_le _ q' _ Hle Hb) as [H1' H2'].
  destruct r as [a|e]; cbn [tx_below logged ct_locks ct_log]; [|done]. split; apply Forall_app; (split; [done|]).
  - apply (locks_below _ _ q'); try done.
    + apply below_replay; [apply Hb|apply Hw].
    + unfold running. by destruct (ct_snapshot t), st.
  - constructor; [|done]. unfold drawn_entry. cbn. by apply running_draws in Hd.
Qed.

Lemma turn_exec {X} (st : Stmt X) k :
  at_call tr m D ph hist (Vis (Exec st) k) next tx (w_db w) -> blocked (Exec st) tx w held = false ->
  let '(x, w') := perform_at (bounded (Exec st) tx) n (inside tx) in
  advanced tr held w (set_tx None w') (Running (k x) next (tx_after (Exec st) tx w x)).
Proof.
  intros Hc Hbl. pose proof Hc as [[Hal _] (_ & Ht & _)]. cbn [op_allowed] in Hal.
  destruct (exec_in_tx st _ k Hal Ht) as [t Htx]. pose proof (updates_locked st _ k t Hal Htx Ht) as Hu.
  set (r := if env_sql n then (stmt_run (running t st) (ct_started t) (w_seqs w) (view t (w_db w))).1.1
            else problem InternalError).
  set (q' := if env_sql n then (stmt_run (running t st) (ct_started t) (w_seqs w) (view t (w_db w))).2 else w_seqs w).
  assert (Hp : exists w', perform_at (bounded (Exec st) tx) n (inside tx) = (r, w') /\
    w_db w' = w_db w /\ w_seqs w' = q' /\ w_posts w' = w_posts w).
  { unfold r, q'. rewrite Htx. cbn [bounded perform_at]. destruct (env_sql n); [|by eexists].
    unfold perform_stmt, enter. cbn [option_map w_tx bump set_tx tx_db tx_now w_seqs].
    destruct (stmt_run _ _ _ _) as [[r0 d0] s0]. by eexists. }
  destruct Hp as (w' & -> & E1 & E2 & E3).
  assert (Hq : seqs_le (w_seqs w) q' /\ (env_sql n = true -> drawn_below (running t st) (w_seqs w) q')).
  { unfold q'. destruct (env_sql n); [|done]. by destruct (seqs_le_run (running t st) (ct_started t) (w_seqs w) (view t (w_db w))). }
  destruct Hq as [Hle Hdr]. destruct Hw as [Htx0 [U B] Ho Hps].
  split; cbn [set_tx w_tx w_db w_seqs w_posts thread_below locks_held tx_after]; rewrite ?E1, ?E2, ?E3; try done.
  - split; [done|by eapply below_le].
  - eapply (at_call_next (Exec st) k r); [exact Hc|done|intros Hph; rewrite Hph in Hal; by destruct st|].
    pose proof Hbelow as Hb. rewrite Htx in Ht, Hb |- *. by apply track_exec.
  - rewrite Htx. cbn [option_map]. unfold r, q' in *. destruct (env_sql n); [by apply logged_below; auto|].
    rewrite Htx in Hbelow. exact Hbelow.
  - rewrite Htx. cbn [option_map logged ct_locks]. intros l Hl. pose proof Hfree as Hf. rewrite Htx in Hf.
    destruct r as [a|e] eqn:Er; [|by apply Hf]. apply elem_of_app in Hl as [Hl|Hl]; [by apply Hf|].
    unfold r in Er. cbn [blocked] in Hbl. rewrite Htx in Hbl. destruct (env_sql n) eqn:Hn; [|discriminate Er].
    by eapply locks_free.
  - by left.
Qed.
(** Whoever can still commit has a valid log, or nothing to commit. *)
Lemma committable R (k : result unit -> M A) :
  op_allowed ph Commit -> track E m R ph hist (Vis Commit k) tx (w_db w) ->
  exists t, tx = Some t /\ ((forall d, view t d = d) \/ valid_tx t (w_db w)).
Proof.
  intros Hal Ht. destruct ph as [| | | | |p s last rk| | |]; try done.
  - destruct Ht as (t & -> & _ & Hv). eauto.
  - destruct Ht as (t & -> & Hv). eauto.
  - destruct Ht as (t & id & -> & Hv & _). eauto.
  - destruct Ht as (t & -> & [] & _). eauto.
Qed.

Lemma view_kept t d :
  keyed (w_seqs w) d -> tx_below (w_seqs w) (Some t) -> (forall d, view t d = d) \/ valid_tx t d ->
  (forall l, l ∈ ct_locks t -> l ∉ held) -> keyed (w_seqs w) (view t d) /\ agree_on held d (view t d).
Proof.
  intros [U B] [_ Hl] [Hv|Hv] Hf; [by rewrite Hv|].
  destruct (replay_frame (ct_locks t) held (ct_started t) (ct_log t) d U Hv Hf) as [Ha Hu].
  split; [|done]. split; [done|]. by apply below_replay.
Qed.

(** What a call that is not over returns alone. *)
Lemma call_sound : ph <> Over ->
  (ph = Over \/ forall l, call_spec (l ++ tr) m (fun r => script_ok (l ++ tr) (next r))) ->
  call_spec tr m (fun r => script_ok tr (next r)) /\
  forall f d q, onto f -> good tr d -> script_ok tr (next (@run (reindex f E) A m (alone d q)).1).
Proof.
  intros Hph [Hs|Hs]; [done|]. specialize (Hs []). split; [exact Hs|]. intros f d q Hf Hd.
  pose proof (Hs f d q Hf Hd) as Hsp. destruct (@run _ A m _) as [r w']. apply Hsp.
Qed.

Lemma good_hidden p s d : good tr d -> good tr (hide p s d).
Proof. intros [Hd Ho]. split; [by apply keep_wf|by apply keep_origin]. Qed.

Lemma turn_commit k :
  at_call tr m D ph hist (Vis Commit k) next tx (w_db w) ->
  let '(x, w') := perform_at Commit n (inside tx) in
  advanced tr held w (set_tx None w') (Running (k x) next None).
Proof.
  intros Hc. pose proof Hc as [[Hal Hk] (HD & Ht & Hs & e & He & Hp)].
  assert (Hph : ph <> Over) by (intros Hph; rewrite Hph in Hal; done).
  destruct (committable _ k Hal Ht) as (t & Htx & Hv).
  destruct (call_sound Hph Hs) as [Hspec Hsound].
  pose proof (world_good tr w Hw) as Hgood. pose proof Hw as [Htx0 Hkey Ho Hps].
  pose proof Hbelow as Hb. pose proof Hfree as Hf. rewrite Htx in Ht, Hb, Hf.
  destruct (view_kept t (w_db w) Hkey Hb Hv Hf) as [Hkey' Hagree].
  set (r := match env_commit n with IoOk => Ok tt | _ => problem InternalError end).
  set (d' := match env_commit n with IoLost => w_db w | _ => view t (w_db w) end).
  destruct (track_commit E m (fun r => script_ok tr (next r)) (good tr) good_hidden Hsound (closed D) ph k hist n t w
    (proj1 Hkey) Hal Ht Hgood (Hk r)) as [Htr Hser]. fold r d' in Htr, Hser.
  assert (Hpf : exists w', perform_at Commit n (inside tx) = (r, w') /\
    w_db w' = d' /\ w_seqs w' = w_seqs w /\ w_posts w' = w_posts w).
  { unfold r, d'. rewrite Htx. cbn [perform_at]. unfold committed, after_io. cbn.
    destruct (env_commit n); by eexists. }
  destruct Hpf as (w' & -> & E1 & E2 & E3).
  assert (Hd' : d' = w_db w \/ d' = view t (w_db w)) by (unfold d'; destruct (env_commit n); auto).
  assert (Hkeep : keyed (w_seqs w) d' /\ agree_on held (w_db w) d').
  { by destruct Hd' as [->| ->]. }
  assert (Hchange : db_origin tr d' /\ evolves (w_db w) d').
  { destruct Hser as [->|Hser]; [done|]. by eapply serial_ok. }
  destruct Hkeep, Hchange.
  split; cbn [set_tx w_tx w_db w_seqs w_posts thread_below locks_held]; rewrite ?E1, ?E2, ?E3; try done.
  - eapply (at_call_next Commit k r); [exact Hc|done|by intros|]. exact Htr.
  - intros l Hl. by apply not_elem_of_nil in Hl.
  - destruct Hser as [->|Hser]; [by left|right]. by exists e, A, m, next.
Qed.
Lemma auto_change {X} (st : Auto X) (w0 : World) r w' :
  perform_at (ExecAuto st) n w0 = (r, w') ->
  w_seqs w' = w_seqs w0 /\ w_posts w' = w_posts w0 /\
  (w_db w' = w_db w0 \/ exists a, auto_run st (env_db_now n) (w_db w0) = Ok (a, w_db w')).
Proof.
  cbn [perform_at]. destruct (auto_run _ _ _) as [[a d]|e] eqn:Ea; [|intros [= _ <-]; auto].
  unfold after_io. destruct (env_exec n); intros [= _ <-]; cbn; eauto.
Qed.

Lemma turn_auto {X} (st : Auto X) k :
  at_call tr m D ph hist (Vis (ExecAuto st) k) next tx (w_db w) ->
  let '(x, w') := perform_at (ExecAuto st) n (inside tx) in
  advanced tr held w (set_tx None w') (Running (k x) next tx).
Proof.
  intros Hc. pose proof Hc as [[Hal Hk] (HD & Ht & Hs & e & He & Hp)]. cbn [op_allowed] in Hal.
  assert (Hph : ph <> Over) by congruence. destruct (call_sound Hph Hs) as [Hspec Hsound].
  rewrite Hal in Ht, Hk.
  pose proof (track_auto E m (fun r => script_ok tr (next r)) (good tr) Hsound (closed D) st k hist n tx (inside tx)) as Hta.
  pose proof (world_good tr w Hw) as Hgood. pose proof Hw as [_ Hkey Ho Hps].
  destruct (perform_at (ExecAuto st) n (inside tx)) as [r w'] eqn:Ep.
  destruct (auto_change st _ _ _ Ep) as (E2 & E3 & Hdb).
  destruct (Hta Ht Hgood (Hk r)) as [Htr Hser]. change (w_db (inside tx)) with (w_db w) in *.
  change (w_seqs (inside tx)) with (w_seqs w) in *. change (w_posts (inside tx)) with (w_posts w) in *.
  destruct (serial_ok tr m _ _ _ Hspec Hgood Hser) as [Ho' Hev].
  assert (Hkeep : keyed (w_seqs w) (w_db w') /\ agree_on held (w_db w) (w_db w')).
  { destruct Hdb as [->|(a & Ha)]; [done|]. split; [by eapply keyed_auto_run|by eapply auto_frame]. }
  destruct Hkeep. split; cbn [set_tx w_tx w_db w_seqs w_posts thread_below]; rewrite ?E2, ?E3; try done.
  - eapply (at_call_next (ExecAuto st) k r); [exact Hc|done|by intros|]. exact Htr.
  - right. by exists e, A, m, next.
Qed.

Lemma turn_post domain path body key k :
  at_call tr m D ph hist (Vis (Post domain path body key) k) next tx (w_db w) ->
  let '(x, w') := perform_at (Post domain path body key) n (inside tx) in
  advanced tr held w (set_tx None w') (Running (k x) next tx).
Proof.
  intros Hc. pose proof Hc as [[Hal Hk] (HD & Ht & Hs & _)]. cbn [op_allowed] in Hal.
  assert (Hph : ph <> Over) by congruence. destruct (call_sound Hph Hs) as [Hspec _].
  rewrite Hal in Ht, Hk.
  pose proof (track_post E m (fun r => script_ok tr (next r)) (closed D) domain path body key k hist n tx (inside tx)) as Htp.
  pose proof (world_good tr w Hw) as Hgood. pose proof Hw as [_ Hkey Ho Hps].
  destruct (perform_at (Post domain path body key) n (inside tx)) as [r w'] eqn:Ep.
  destruct (Htp Ht (Hk r)) as [Htr (w1 & [_ Hrun] & Hin)]. injection Ep as _ <-.
  destruct (extends_onto (hist ++ [n])) as (f & Hf & Honto).
  pose proof (Hspec f (w_db w) (w_seqs w) Honto Hgood) as Hsp.
  change (w_db (inside tx)) with (w_db w) in *. change (w_seqs (inside tx)) with (w_seqs w) in *.
  rewrite (Hrun f Hf) in Hsp. pose proof (run_posts (reindex f E) (k r) w1 _ Hin) as Hpost.
  destruct (@run _ A (k r) w1) as [r1 w2]. destruct Hsp as (_ & _ & _ & Hall).
  rewrite Forall_forall in Hall. specialize (Hall _ Hpost).
  split; cbn [set_tx w_tx w_db w_seqs w_posts thread_below set_posts bump enter]; try done.
  - apply Forall_app. split; [done|]. by constructor.
  - eapply (at_call_next (Post domain path body key) k r); [exact Hc|done|by intros|]. exact Htr.
  - by left.
Qed.
End Turn.

Lemma turn_ok tr held w t t' w' :
  world_ok tr w -> (forall k, k ∈ held -> id_below (w_seqs w) k) ->
  thread_ok tr (w_db w) t -> thread_below (w_seqs w) t -> (forall k, k ∈ locks_held t -> k ∉ held) ->
  @turn E held t w = Some (t', w') -> advanced tr held w w' t'.
Proof.
  intros Hw Hheld Ht Hb Hf. destruct t as [|A prog next tx]; [done|].
  destruct Ht as (m & D & ph & hist & Hc). fold (at_call tr m D ph hist prog next tx (w_db w)) in Hc.
  assert (Hfree : forall k, k ∈ tx_locks tx -> k ∉ held) by (by destruct tx).
  destruct prog as [r|X o k]; cbn [turn].
  - intros [= <- <-]. destruct Hc as (Hw' & HD & Htr & Hs & e & He & Hp).
    apply advanced_same; try done; try apply Hw.
    + apply (start_ok tr _ _ e); [|done|by eapply part_after].
      by apply (result_ok tr m next D ph hist r tx (w_db w)); [apply world_good|..].
    + by destruct (next r).
    + destruct (next r); cbn; intros l Hl; by apply not_elem_of_nil in Hl.
  - destruct (begins o tx w) as [t|] eqn:Eb.
    + intros [= <- <-]. unfold begins in Eb. destruct o; try done. destruct tx as [t0|]; [|done].
      destruct (ct_snapshot t0); [done|]. injection Eb as <-.
      apply advanced_same; try done; try apply Hw.
      exists m, D, ph, hist. destruct Hc as (H1' & H2' & H3' & H4'). split; [done|]. split; [done|].
      split; [by apply snapshot_track|done].
    + destruct (blocked o tx w held) eqn:Ebl; [done|].
      assert (Hgo : let '(x, w2) := perform_at (bounded o tx) (w_step w) (bump (enter tx w)) in
        advanced tr held w (set_tx None w2) (Running (k x) next (tx_after o tx w x))).
      { destruct o; cbn [bounded tx_after]; try (by eapply turn_asks); try (by eapply turn_atomic).
        - by eapply turn_begin.
        - by eapply turn_drop.
        - by eapply turn_exec.
        - by eapply turn_commit.
        - by eapply turn_rollback.
        - by eapply turn_auto.
        - by eapply turn_post. }
      unfold perform. change (w_step (enter tx w)) with (w_step w).
      destruct (perform_at _ _ _) as [x w2]. by intros [= <- <-].
Qed.
End Runs.
