(* ===== verification/Runtime.v ===== *)
(** * The runtime in any interleaving

    The invariant of Serializable.v for all threads at once, through arrivals,
    turns and cancelled tasks. *)

From S2P Require Import Prelude Errors Constants Utf8 Base64url Json Strict Crypto Keys Metadata.
From S2P Require Import Registration Matrix RoomPolicy Documents Ssrf Site Tables Statements World Db.
From S2P Require Import Invariant Rows System Concurrent Isolation Discipline Serial Track History.
From S2P Require Import Interleaving Serializable.
From stdpp Require Import gmap.
#[local] Open Scope Z_scope.
#[local] Set Warnings "-clear-no-such-hyp".

(** ** What the other threads hold *)

Lemma in_delete {A} (l : list A) i j x : j <> i -> l !! j = Some x -> x ∈ delete i l.
Proof.
  intros Hij Hx. apply list_elem_of_lookup. destruct (decide (j < i)%nat) as [Hlt|Hge].
  - exists j. by rewrite list_lookup_delete_lt.
  - exists (pred j). rewrite list_lookup_delete_ge by lia. by replace (S (pred j)) with j by lia.
Qed.

Lemma delete_in {A} (l : list A) i x : x ∈ delete i l -> exists j, j <> i /\ l !! j = Some x.
Proof.
  intros (j & Hj)%list_elem_of_lookup. destruct (decide (j < i)%nat) as [Hlt|Hge].
  - exists j. rewrite list_lookup_delete_lt in Hj by lia. split; [lia|done].
  - exists (S j). rewrite list_lookup_delete_ge in Hj by lia. split; [lia|done].
Qed.

Lemma in_held_by_others i threads k :
  k ∈ held_by_others i threads <-> exists j t, j <> i /\ threads !! j = Some t /\ k ∈ locks_held t.
Proof.
  unfold held_by_others. rewrite list_elem_of_In, in_concat. split.
  - intros (L & (t & <- & Ht)%in_map_iff & Hk). apply list_elem_of_In, delete_in in Ht as (j & Hj & Ht).
    exists j, t. by rewrite list_elem_of_In.
  - intros (j & t & Hj & Ht & Hk). exists (locks_held t). split; [|by apply list_elem_of_In].
    apply in_map, list_elem_of_In. by eapply in_delete.
Qed.

Lemma insert_threads {A} (l : list A) i j (x y : A) :
  <[i := x]> l !! j = Some y -> j = i /\ y = x \/ j <> i /\ l !! j = Some y.
Proof. intros [(-> & -> & _)|[Hij Hj]]%list_lookup_insert_Some; [by left|right; by split]. Qed.

Section Runs.
Context `{Base64Laws} `{CryptoLaws} `{JsonTextLaws} `{JsonReader} `{!JsonReaderLaws}.
Variables (E : Env) (state : AppState).
Hypothesis Hlaws : EnvLaws (H2 := E).
Hypothesis Hstate : state_wf state.

#[local] Abbreviation thread_ok := (thread_ok E state).
#[local] Abbreviation world_ok := (world_ok E state).
#[local] Abbreviation db_origin := (db_origin (H3 := E) state).
#[local] Abbreviation post_origin := (post_origin (H3 := E) state).
#[local] Abbreviation script_of := (script_of (H3 := E) state).
#[local] Abbreviation act := (@act _ _ _ _ E state).
#[local] Abbreviation interleaved := (@interleaved _ _ _ _ E state).

(** No lock is held twice, and none is on an identifier still to be drawn. *)
Record runtime_ok (tr : list Event) (s : Runtime) : Prop := {
  ro_world : world_ok tr (rt_world s);
  ro_thread : forall i t, rt_threads s !! i = Some t ->
    thread_ok tr (w_db (rt_world s)) t /\ thread_below (w_seqs (rt_world s)) t;
  ro_disjoint : forall i j t t' k, i <> j -> rt_threads s !! i = Some t -> rt_threads s !! j = Some t' ->
    k ∈ locks_held t -> k ∉ locks_held t'
}.

(** The change of a turn: none, or that of one call of an event that arrived. *)
Definition call_change (tr : list Event) (d d' : Db) : Prop :=
  d' = d \/ exists e A (m : M A) next, e ∈ tr /\ part_of (Call m next) (script_of e) /\ serial E m d d'.

Lemma world_more l tr w : world_ok tr w -> world_ok (l ++ tr) w.
Proof.
  intros []. split; try done; [by apply db_more|]. eapply Forall_impl; [done|]. intros p. apply post_more.
Qed.

Lemma runtime_start ready last : runtime_ok [] (initial_runtime ready last).
Proof.
  split; [|by intros i t Hi|by intros i j t t' k _ Hi]. split; try done.
  split; split; by constructor.
Qed.

Lemma held_below tr s i k :
  runtime_ok tr s -> k ∈ held_by_others i (rt_threads s) -> id_below (w_seqs (rt_world s)) k.
Proof.
  intros Hs (j & t & _ & Ht & Hk)%in_held_by_others. destruct (ro_thread _ _ Hs j t Ht) as [_ Hb].
  destruct t as [|A prog next [tx|]]; cbn in Hk; try (by apply not_elem_of_nil in Hk).
  destruct Hb as [Hb _]. rewrite Forall_forall in Hb. by apply Hb.
Qed.

Lemma held_apart tr s i t k :
  runtime_ok tr s -> rt_threads s !! i = Some t -> k ∈ locks_held t -> k ∉ held_by_others i (rt_threads s).
Proof.
  intros Hs Ht Hk (j & t' & Hj & Ht' & Hk')%in_held_by_others. by apply (ro_disjoint _ _ Hs i j t t' k).
Qed.

Lemma runtime_arrive tr s e :
  runtime_ok tr s ->
  runtime_ok (e :: tr) {| rt_world := rt_world s; rt_threads := rt_threads s ++ [start (script_of e)] |}.
Proof.
  intros Hs. pose proof Hs as [Hw Ht Hd]. assert (Hnone : forall k, k ∉ locks_held (start (script_of e))).
  { intros k Hk. destruct (script_of e); by apply not_elem_of_nil in Hk. }
  split; cbn.
  - by apply (world_more [e]).
  - intros i t [Hi|(_ & [_ <-]%list_lookup_singleton_Some)]%lookup_app_Some.
    + destruct (Ht i t Hi) as [H1' H2']. split; [by apply (thread_more E state [e])|done].
    + split; [|by destruct (script_of e)]. apply (start_ok E state _ _ _ e); [|by left|constructor].
      apply event_script_ok; [done..|by left].
  - intros i j t t' k Hij [Hi|(Hl & [Hi <-]%list_lookup_singleton_Some)]%lookup_app_Some Hj Hk; [|by destruct (Hnone k)].
    apply lookup_app_Some in Hj as [Hj|(_ & [_ <-]%list_lookup_singleton_Some)]; [by eapply Hd|done].
Qed.

(** A turn, for all threads. *)
Lemma runtime_turn tr s i t t' w' :
  runtime_ok tr s -> rt_threads s !! i = Some t ->
  @turn E (held_by_others i (rt_threads s)) t (rt_world s) = Some (t', w') ->
  runtime_ok tr {| rt_world := w'; rt_threads := <[i := t']> (rt_threads s) |} /\
  evolves (w_db (rt_world s)) (w_db w') /\ call_change tr (w_db (rt_world s)) (w_db w').
Proof.
  intros Hs Hi Ht. pose proof Hs as [Hw Hth Hd]. destruct (Hth i t Hi) as [Hok Hbelow].
  destruct (turn_ok E state tr _ _ t t' w' Hw (fun k => held_below tr s i k Hs) Hok Hbelow
    (fun k => held_apart tr s i t k Hs Hi) Ht) as [].
  split; [|done]. split; cbn; [by split| |].
  - intros j x [[-> ->]|[Hj Hx]]%insert_threads; [done|]. destruct (Hth j x Hx) as [H1' H2'].
    split; [|by eapply thread_below_le]. eapply thread_agree; [|exact H1'].
    eapply agree_on_subset; [|exact ad_agree]. intros k Hk. apply in_held_by_others. by exists j, x.
  - intros a b x y k Hab [[-> ->]|[Ha Hx]]%insert_threads [[-> ->]|[Hb Hy]]%insert_threads Hk; try done.
    + intros Hk'. apply (ad_free k Hk), in_held_by_others. by exists b, y.
    + intros Hk'. apply (ad_free k Hk'), in_held_by_others. by exists a, x.
    + by apply (Hd a b x y k).
Qed.

Lemma runtime_cancel tr s i :
  runtime_ok tr s -> runtime_ok tr {| rt_world := rt_world s; rt_threads := <[i := Finished]> (rt_threads s) |}.
Proof.
  intros [Hw Hth Hd]. split; cbn; [done| |].
  - intros j x [[-> ->]|[Hj Hx]]%insert_threads; [done|by eapply Hth].
  - intros a b x y k Hab [[-> ->]|[Ha Hx]]%insert_threads [[-> ->]|[Hb Hy]]%insert_threads Hk; try done;
      try (by apply not_elem_of_nil in Hk); [apply not_elem_of_nil|by apply (Hd a b x y k)].
Qed.

Lemma act_ok tr s c s' :
  runtime_ok tr s -> act c s = Some s' ->
  runtime_ok (arrivals c ++ tr) s' /\ evolves (w_db (rt_world s)) (w_db (rt_world s')) /\
  call_change tr (w_db (rt_world s)) (w_db (rt_world s')).
Proof.
  intros Hs. destruct c as [e|i|i]; cbn [Concurrent.act arrivals app].
  - intros [= <-]. split; [by apply runtime_arrive|]. split; [done|by left].
  - intros (t & Hi & Ht)%bind_Some. apply bind_Some in Ht as ([t' w'] & Ht & [= <-]). by eapply runtime_turn.
  - intros [= <-]. split; [by apply runtime_cancel|]. split; [done|by left].
Qed.

Lemma interleaved_ok tr s : interleaved tr s -> runtime_ok tr s.
Proof. induction 1 as [ready last|tr s c s' _ IH Ha]; [apply runtime_start|by apply (act_ok tr s c s')]. Qed.
End Runs.
