(* ===== verification/Progress.v ===== *)
(** * Every task finishes

    Handlers take their locks in one order, so they never wait for one another in
    a circle; and every handler, alone or not, makes finitely many operations.  So
    however turns are given, they come to an end, and then all tasks are finished. *)

From S2P Require Import Prelude Errors Constants Utf8 Base64url Json Strict Crypto Keys Metadata.
From S2P Require Import Registration Matrix RoomPolicy Documents Ssrf Site Tables Statements World Db.
From S2P Require Import Invariant Rows System Concurrent Isolation Discipline Serial Track History.
From S2P Require Import Interleaving Serializable Runtime.
From stdpp Require Import gmap.
#[local] Open Scope Z_scope.
#[local] Set Warnings "-clear-no-such-hyp".

(** ** Turns come to an end *)

(** What a turn makes of a thread, whatever the answer. *)
Definition thread_next (t t' : Thread) : Prop :=
  match t with
  | Finished => False
  | Running (Ret r) next _ => t' = start (next r)
  | Running (Vis o k) next tx =>
      (exists x tx', t' = Running (k x) next tx') \/
      exists t0 t1, tx = Some t0 /\ ct_snapshot t0 = None /\ is_Some (ct_snapshot t1) /\
        t' = Running (Vis o k) next (Some t1)
  end.

Lemma turn_next `{Env} held t w t' w' : turn held t w = Some (t', w') -> thread_next t t'.
Proof.
  destruct t as [|A [r|X o k] next tx]; cbn [turn thread_next]; [done|by intros [= <- _]|].
  destruct (begins o tx w) as [t|] eqn:Eb.
  - intros [= <- _]. right. unfold begins in Eb. destruct o; try done. destruct tx as [t0|]; [|done].
    destruct (ct_snapshot t0) eqn:Es; [done|]. injection Eb as <-. exists t0. eexists.
    split; [done|]. split; [done|]. split; [|done]. by eexists.
  - destruct (blocked o tx w held); [done|]. destruct (perform _ _) as [x w2]. intros [= <- _]. left. by eexists _, _.
Qed.

Definition thread_ends : Thread -> Prop := Acc (fun t' t => thread_next t t').

Lemma running_ends {A} (next : result A -> Script) :
  (forall r, thread_ends (start (next r))) -> forall (prog : M A) tx, thread_ends (Running prog next tx).
Proof.
  intros Hn prog. induction prog as [r|X o k IH]; intros tx; [constructor; intros t' ->; apply Hn|].
  assert (Hsnap : forall t, is_Some (ct_snapshot t) -> thread_ends (Running (Vis o k) next (Some t))).
  { intros t [sn Hsn]. constructor. intros t' [(x & tx' & ->)|(t0 & t1 & Et & Hno & _)]; [apply IH|].
    injection Et as ->. rewrite Hsn in Hno. discriminate Hno. }
  constructor. intros t' [(x & tx' & ->)|(t0 & t1 & _ & _ & Hsn & ->)]; [apply IH|by apply Hsnap].
Qed.

Lemma start_ends s : thread_ends (start s).
Proof. induction s as [|A m k IH]; [by constructor|]. by apply running_ends. Qed.

Lemma ends t : thread_ends t.
Proof. destruct t; [by constructor|]. apply running_ends. intros r. apply start_ends. Qed.

(** One of the threads makes a turn. *)
Definition threads_next (l l' : list Thread) : Prop :=
  exists i t t', l !! i = Some t /\ thread_next t t' /\ l' = <[i := t']> l.

Lemma threads_end l : Acc (fun l' l => threads_next l l') l.
Proof.
  induction l as [|t l IH]; [constructor; by intros l' (i & t & t' & Hi & _)|].
  revert l IH. induction (ends t) as [t _ IHt]. intros l Hl. pose proof Hl as Hl0.
  induction Hl0 as [l _ IHl]. constructor. intros l' ([|i] & x & x' & Hi & Hx & ->).
  - injection Hi as ->. by apply IHt.
  - cbn in Hi |- *. apply IHl; [by exists i, x, x'|]. apply Hl. by exists i, x, x'.
Qed.

Section Runs.
Context `{Base64Laws} `{CryptoLaws} `{JsonTextLaws} `{JsonReader} `{!JsonReaderLaws}.
Variables (E : Env) (state : AppState).
Hypothesis Hlaws : EnvLaws (H2 := E).
Hypothesis Hstate : state_wf state.

#[local] Abbreviation act := (@act _ _ _ _ E state).
#[local] Abbreviation interleaved := (@interleaved _ _ _ _ E state).

(** Some thread has its turn. *)
Definition turns (s s' : Runtime) : Prop := exists i, act (Turn i) s = Some s'.

Lemma act_turn i s s' :
  act (Turn i) s = Some s' <-> exists t t' w', rt_threads s !! i = Some t /\
    @turn E (held_by_others i (rt_threads s)) t (rt_world s) = Some (t', w') /\
    s' = {| rt_world := w'; rt_threads := <[i := t']> (rt_threads s) |}.
Proof.
  cbn [Concurrent.act]. split.
  - intros (t & Hi & Ht)%bind_Some. apply bind_Some in Ht as ([t' w'] & Ht & [= <-]). by exists t, t', w'.
  - intros (t & t' & w' & Hi & Ht & ->). rewrite Hi. cbn. by rewrite Ht.
Qed.

Lemma turns_end s : Acc (fun s' s => turns s s') s.
Proof.
  destruct s as [w l]. revert w. induction (threads_end l) as [l _ IH]. intros w. constructor.
  intros s' (i & (t & t' & w' & Hi & Ht & ->)%act_turn). cbn in *. apply IH. exists i, t, t'.
  split_and!; [done|by eapply turn_next|done].
Qed.

(** ** Nobody waits in a circle *)

(** Whoever waits, waits for a lock above all its own. *)
Lemma waits_above tr w held {A X} (o : Op X) (k : X -> M A) next tx :
  world_ok E state tr w -> thread_ok E state tr (w_db w) (Running (Vis o k) next tx) ->
  (forall l, l ∈ tx_locks tx -> l ∉ held) -> @blocked E X o tx w held = true ->
  exists l, l ∈ held /\ forall l', l' ∈ tx_locks tx -> (lock_rank l' < lock_rank l)%nat.
Proof.
  intros Hw (m & D & ph & hist & [Hal _] & _ & Ht & _) Hf Hb. unfold blocked in Hb.
  destruct o; try done. destruct tx as [t|]; [|done]. apply andb_true_iff in Hb as [_ Hb].
  apply existsb_exists in Hb as (l & Hl%list_elem_of_In & Hin%bool_decide_eq_true). exists l. split; [done|].
  cbn [op_allowed] in Hal. cbn [tx_locks] in *.
  assert (Hnone : ct_locks t = [] -> forall l', l' ∈ ct_locks t -> (lock_rank l' < lock_rank l)%nat).
  { intros -> l' Hl'. by apply not_elem_of_nil in Hl'. }
  destruct ph as [| | | | |p s last rk| | |]; try (by destruct st).
  - destruct Ht as (t0 & [= <-] & _ & Hk & _). by apply Hnone.
  - destruct Ht as (t0 & [= <-] & Hk & _). by apply Hnone.
  - destruct Ht as (t0 & [= <-] & Hwk & _). intros l' Hl'. pose proof (wo_rank _ _ _ _ _ _ Hwk l' Hl') as Hr.
    pose proof (waits_rank _ _ _ Hl) as Hrank. rewrite running_rank in Hrank. rewrite Hrank.
    destruct st; cbn [allowed] in Hal; try done; try (cbn [stmt_rank] in *; lia).
    + subst id. rewrite running_write in Hl by done. apply list_elem_of_singleton in Hl as ->.
      exfalso. by apply (Hf _ (wo_locked _ _ _ _ _ _ Hwk)).
    + destruct last as [x|]; [|done]. subst id. destruct (wo_last _ _ _ _ _ _ Hwk x eq_refl) as [Hlk Hlast].
      destruct (Hlast _ (wo_valid _ _ _ _ _ _ Hwk)) as (x1 & Hx1 & Hid & Hk1).
      pose proof (wk_keyed _ _ _ _ Hw) as [U _].
      pose proof (replay_unique _ _ _ _ U (wo_valid _ _ _ _ _ _ Hwk)) as Uv.
      rewrite running_write in Hl by done. cbn in Hl. apply list_elem_of_fmap in Hl as (z & -> & Hz).
      apply list_elem_of_In, filter_In in Hz as [Hz%list_elem_of_In Hzid%Z.eqb_eq].
      assert (z = x1) as -> by (eapply key_inj; [apply Uv|done..|congruence]).
      rewrite Hk1 in Hin. exfalso. by apply (Hf _ Hlk).
Qed.

Definition stuck (s : Runtime) (i : nat) : Prop :=
  act (Turn i) s = None /\ exists t, rt_threads s !! i = Some t /\ t <> Finished.

(** What a stuck thread waits for, another holds. *)
Lemma stuck_waits tr s i :
  runtime_ok E state tr s -> stuck s i ->
  exists t l, rt_threads s !! i = Some t /\ l ∈ held_by_others i (rt_threads s) /\
    forall l', l' ∈ locks_held t -> (lock_rank l' < lock_rank l)%nat.
Proof.
  intros Hs (Hno & t & Hi & Hne). exists t. cbn [Concurrent.act] in Hno. rewrite Hi in Hno. cbn in Hno.
  destruct t as [|A prog next tx]; [done|]. destruct (ro_thread _ _ _ _ Hs i _ Hi) as [Hok _].
  destruct prog as [r|X o k]; [done|]. cbn [turn] in Hno. destruct (begins o tx _) as [t|]; [done|].
  destruct (blocked o tx (rt_world s) (held_by_others i (rt_threads s))) eqn:Eb.
  - destruct (waits_above tr (rt_world s) (held_by_others i (rt_threads s)) o k next tx) as (l & Hl & Hr); try done.
    + apply Hs.
    + intros l Hl. by apply (held_apart E state tr s i (Running (Vis o k) next tx)); [| |destruct tx].
    + exists l. split_and!; [done..|]. by destruct tx.
  - by destruct (perform _ _).
Qed.

Lemma stuck_chain tr s : runtime_ok E state tr s ->
  (forall i t, rt_threads s !! i = Some t -> t <> Finished -> stuck s i) ->
  forall i, stuck s i -> forall n, exists j t l, rt_threads s !! j = Some t /\ l ∈ held_by_others j (rt_threads s) /\
    (n <= lock_rank l)%nat.
Proof.
  intros Hs Hall i Hi n. induction n as [|n (j & t & l & Hj & Hl & Hn)].
  - destruct (stuck_waits tr s i Hs Hi) as (t & l & Ht & Hl & _). exists i, t, l. split_and!; [done..|lia].
  - apply in_held_by_others in Hl as (j' & t' & _ & Hj' & Hl').
    destruct (stuck_waits tr s j' Hs) as (t2 & l2 & Ht2 & Hl2 & Hr).
    { eapply Hall; [done|]. intros ->. by apply not_elem_of_nil in Hl'. }
    assert (t2 = t') as -> by congruence. exists j', t', l2. split_and!; [done..|]. specialize (Hr l Hl'). lia.
Qed.

(** While a task is unfinished, some task can go on. *)
Lemma no_deadlock tr s : runtime_ok E state tr s ->
  (forall i, act (Turn i) s = None) -> Forall (fun t => t = Finished) (rt_threads s).
Proof.
  intros Hs Hno. apply Forall_lookup. intros i t Hi. destruct t as [|A prog next tx]; [done|exfalso].
  destruct (stuck_chain tr s Hs) with (i := i) (n := 6%nat) as (j & t & l & _ & _ & Hl).
  - intros j t Hj Hne. split; [apply Hno|by exists t].
  - split; [apply Hno|by eexists].
  - pose proof (lock_rank_bound l). lia.
Qed.
End Runs.
