(* ===== verification/SideBySide.v ===== *)
(** * What holds side by side

    A task that runs to its end before the next one arrives makes the step of
    System.v, so the sequential relay is a special case of the interleaved one.
    Then the properties that hold in every interleaving. *)

From S2P Require Import Prelude Errors Constants Utf8 Base64url Json Strict Crypto Keys Metadata.
From S2P Require Import Registration Matrix RoomPolicy Documents Ssrf Site Tables Statements World Db.
From S2P Require Import Invariant Rows System Concurrent Isolation Discipline Serial Track History.
From S2P Require Import Interleaving Serializable Runtime Progress.
From stdpp Require Import gmap.
#[local] Open Scope Z_scope.
#[local] Set Warnings "-clear-no-such-hyp".

(** ** One turn and one operation *)

Lemma query_within {A} (p : A -> bool) (key : A -> Z) l (ids : list Z) :
  (forall x, x ∈ l -> key x ∈ ids) ->
  List.filter (fun x => p x && bool_decide (key x ∈ ids)) l = List.filter p l.
Proof.
  intros Hl. apply filter_ext_in. intros x Hx%list_elem_of_In. rewrite bool_decide_eq_true_2 by auto.
  apply andb_true_r.
Qed.

(** A statement that starts at once sees everything. *)
Lemma within_now {A} (st : Stmt A) now s d : stmt_run (within (snapshot_of d) st) now s d = stmt_run st now s d.
Proof.
  destruct st; try done; unfold within, stmt_run; cbn [sn_sessions sn_grants snapshot_of];
    rewrite (query_within _ _ _ _ (fun x Hx => list_elem_of_fmap_2 _ _ x Hx)); done.
Qed.

(** A statement that fails, or that finds its key taken, writes nothing. *)
Lemma stmt_writes {A} (st : Stmt A) now s d :
  let '(r, d', _) := stmt_run st now s d in
  match r with Ok _ => if inserts st s d then True else d' = d | Err _ => d' = d end.
Proof.
  destruct st; unfold stmt_run; cbn [inserts]; try done.
  - unfold insert_session. by destruct (existsb _ _).
  - by destruct (query_opt _).
  - by destruct (update_session _ _ _ _) as [[]|].
  - unfold insert_key. by destruct (_ !! _).
  - unfold insert_challenge. by destruct (_ !! _).
  - by destruct (upsert _ _).
  - by destruct (query_opt _).
  - unfold insert_job. cbn. by destruct (existsb _ _).
Qed.

Lemma view_after {A} (st : Stmt A) q t d :
  let '(r, d', _) := stmt_run st (ct_started t) q (view t d) in view (logged st q (view t d) r t) d = d'.
Proof.
  pose proof (stmt_writes st (ct_started t) q (view t d)) as Hw.
  destruct (stmt_run st _ q _) as [[[a|e] d'] q'] eqn:Er; [|exact (eq_sym Hw)].
  rewrite view_logged. unfold effect, entry_of. cbn [e_type e_stmt e_seqs e_answer e_inserted]. rewrite Er.
  by destruct (inserts _ _ _).
Qed.

Lemma enter_same tx w : w_tx w = option_map (fun t => {| tx_db := view t (w_db w); tx_now := ct_started t |}) tx ->
  enter tx (set_tx None w) = w.
Proof. destruct w. cbn. by intros ->. Qed.

Lemma enter_none w : w_tx w = None -> enter None w = w.
Proof. destruct w. cbn. by intros ->. Qed.

Section Turns.
Context `{Env}.

(** A statement is about to run on a snapshot that it has just taken. *)
Definition current {X} (o : Op X) (tx : option Transaction) (d : Db) : Prop :=
  match o, tx with
  | Exec _, Some t => ct_snapshot t = Some (snapshot_of (view t d))
  | ExecAuto _, _ => tx = None
  | _, Some t => ct_snapshot t = None
  | _, None => True
  end.

Lemma perform_alone {X} (o : Op X) tx w :
  w_tx w = None -> current o tx (w_db w) ->
  let '(x, w') := perform o (enter tx w) in
  perform (bounded o tx) (enter tx w) = (x, w') /\ enter (tx_after o tx w x) (set_tx None w') = w' /\
  forall t, tx_after o tx w x = Some t -> ct_snapshot t = None.
Proof.
  intros Hw Hc. unfold perform. change (w_step (enter tx w)) with (w_step w).
  set (n := w_step w). set (v := option_map (fun t => {| tx_db := view t (w_db w); tx_now := ct_started t |}) tx).
  assert (Hv : w_tx (bump (enter tx w)) = v) by done.
  assert (Hd : w_db (bump (enter tx w)) = w_db w) by done.
  assert (Hs : w_seqs (bump (enter tx w)) = w_seqs w) by done.
  destruct (decide (atomic o = true \/ asks o = true)) as [Ho|Ho].
  - assert (Hx : let w' := (perform_at o n (bump (enter tx w))).2 in w_tx w' = v /\ w_db w' = w_db w).
    { destruct o; destruct Ho as [Ho|Ho]; try discriminate Ho; try done. cbn [perform_at]. by destruct (env_notice n). }
    destruct (perform_at o n _) as [x w'] eqn:Ep. cbn in Hx. destruct Hx as [Ht Hd'].
    assert (Hb : bounded o tx = o /\ tx_after o tx w x = tx).
    { by destruct o; destruct Ho as [Ho|Ho]; try discriminate Ho. }
    destruct Hb as [-> ->]. split; [done|]. split; [by apply enter_same; rewrite Ht, Hd'|].
    intros t ->. destruct o; destruct Ho as [Ho|Ho]; try discriminate Ho; done.
  - destruct o; try (destruct Ho; cbn; auto; fail); cbn [bounded tx_after perform_at].
    + (* Begin *)
      destruct (env_begin n); (split; [done|]); (split; [apply enter_same|]); cbn; try done.
      * by intros t [= <-].
      * intros t ->. exact Hc.
    + (* Drop *) split; [done|]. split; [by apply enter_same|done].
    + (* Exec *)
      destruct tx as [t|]; cbn [current] in Hc; cbn [option_map].
      * unfold running. rewrite Hc. destruct (env_sql n).
        -- unfold perform_stmt. rewrite Hv. cbn [v option_map tx_db tx_now]. rewrite Hs, within_now.
           pose proof (view_after st (w_seqs w) t (w_db w)) as Hva.
           destruct (stmt_run _ _ _ _) as [[r d'] q']. split; [done|]. split; [|by intros t' [= <-]].
           apply enter_same. rewrite <- Hva. done.
        -- split; [done|]. split; [by apply enter_same|by intros t' [= <-]].
      * destruct (env_sql n); [unfold perform_stmt; rewrite Hv; cbn [v option_map]|]; (split; [done|]);
          (split; [by apply enter_same|done]).
    + (* Commit *)
      unfold committed, after_io. rewrite Hv. destruct (env_commit n), tx; (split; [done|]); (split; [by apply enter_same|done]).
    + (* Rollback *) split; [done|]. split; [by apply enter_same|done].
    + (* ExecAuto *)
      cbn in Hc. subst tx. destruct (auto_run _ _ _) as [[a d]|e]; [unfold after_io; destruct (env_exec n)|];
        (split; [done|]); (split; [by apply enter_same|done]).
    + (* Post *)
      split; [done|]. split; [by apply enter_same|]. intros t ->. exact Hc.
Qed.
End Turns.

(** ** One task after the other *)

Section Alone.
Context `{Base64Laws} `{CryptoLaws} `{JsonTextLaws} `{JsonReader} `{!JsonReaderLaws}.
Variables (E : Env) (state : AppState).
Hypothesis Hlaws : EnvLaws (H2 := E).
Hypothesis Hstate : state_wf state.
Variable tr : list Event.

#[local] Abbreviation interleaved := (@interleaved _ _ _ _ E state).
#[local] Abbreviation act := (@act _ _ _ _ E state).

(** The other threads hold nothing. *)
Definition others_free (i : nat) (l : list Thread) : Prop :=
  forall j t, j <> i -> l !! j = Some t -> locks_held t = [].

Lemma others_held i l : others_free i l -> held_by_others i l = [].
Proof.
  intros Hl. apply elem_of_nil_inv. intros k (j & t & Hj & Ht & Hk)%in_held_by_others.
  rewrite (Hl j t Hj Ht) in Hk. by apply not_elem_of_nil in Hk.
Qed.

Lemma others_insert i l t : others_free i l -> others_free i (<[i := t]> l).
Proof. intros Hl j t' Hj [[-> _]|[_ Ht]]%insert_threads; [done|by eapply Hl]. Qed.

(** A turn of thread [i] in a runtime where the others hold nothing. *)
Lemma turn_alone s i t t' w' :
  interleaved tr s -> rt_threads s !! i = Some t -> others_free i (rt_threads s) ->
  @turn E [] t (rt_world s) = Some (t', w') ->
  interleaved tr {| rt_world := w'; rt_threads := <[i := t']> (rt_threads s) |}.
Proof.
  intros Hs Hi Ho Ht. apply (inter_act state tr s (Turn i)); [done|].
  apply act_turn. exists t, t', w'. by rewrite (others_held i).
Qed.

(** A thread that nobody interrupts runs its call as the handler alone. *)
Lemma call_alone i {A} (prog : M A) next : forall tx s,
  interleaved tr s -> rt_threads s !! i = Some (Running prog next tx) -> others_free i (rt_threads s) ->
  (forall t, tx = Some t -> ct_snapshot t = None) ->
  let '(r, w) := @run E A prog (enter tx (rt_world s)) in
  interleaved tr {| rt_world := w; rt_threads := <[i := start (next r)]> (rt_threads s) |}.
Proof.
  induction prog as [r|X o k IH]; intros tx s Hs Hi Ho Hsn.
  - destruct (ro_thread _ _ _ _ (interleaved_ok E state Hlaws Hstate tr s Hs) i _ Hi)
      as [(m & D & ph & hist & Hc & _ & Ht & _) _].
    pose proof (wk_tx _ _ _ _ (ro_world _ _ _ _ (interleaved_ok E state Hlaws Hstate tr s Hs))) as Hw.
    assert (Htx : tx = None) by (destruct ph; cbn in Hc, Ht; try done; by destruct Ht).
    subst tx. cbn [run]. rewrite enter_none by done. by apply (turn_alone s i (Running (Ret r) next None)).
  - assert (Hw : w_tx (rt_world s) = None) by apply (interleaved_ok E state Hlaws Hstate tr s Hs).
    assert (Hauto : match o with ExecAuto _ => tx = None | _ => True end).
    { destruct (ro_thread _ _ _ _ (interleaved_ok E state Hlaws Hstate tr s Hs) i _ Hi)
        as [(m & D & ph & hist & [Hal _] & _ & Ht & _) _]. destruct o; try done. cbn in Hal. subst ph. by destruct Ht. }
    (* Once the statement has its snapshot. *)
    assert (Hgo : forall tx0 s0, interleaved tr s0 -> rt_world s0 = rt_world s ->
      rt_threads s0 !! i = Some (Running (Vis o k) next tx0) -> others_free i (rt_threads s0) ->
      enter tx0 (rt_world s) = enter tx (rt_world s) -> current o tx0 (w_db (rt_world s)) ->
      begins o tx0 (rt_world s) = None ->
      let '(r, w) := @run E A (Vis o k) (enter tx (rt_world s)) in
      interleaved tr {| rt_world := w; rt_threads := <[i := start (next r)]> (rt_threads s0) |}).
    { intros tx0 s0 Hs0 Ew Hi0 Ho0 Een Hcur Hbeg. cbn [run]. rewrite <- Een.
      pose proof (perform_alone o tx0 (rt_world s) Hw Hcur) as Hp.
      destruct (perform o (enter tx0 (rt_world s))) as [x w'] eqn:Ep. destruct Hp as (Hp & Hent & Hnone).
      assert (Ht : @turn E [] (Running (Vis o k) next tx0) (rt_world s0) =
        Some (Running (k x) next (tx_after o tx0 (rt_world s) x), set_tx None w')).
      { cbn [turn]. rewrite Ew, Hbeg. rewrite Hp.
        replace (blocked o tx0 (rt_world s) []) with false; [done|].
        unfold blocked. destruct o; try done. destruct tx0; [|done]. rewrite (proj2 (existsb_none _ _)) by done.
        by rewrite andb_false_r. }
      pose proof (turn_alone s0 i _ _ _ Hs0 Hi0 Ho0 Ht) as Hs1.
      pose proof (IH x (tx_after o tx0 (rt_world s) x) _ Hs1) as Hr. cbn [rt_threads rt_world] in Hr.
      rewrite Hent in Hr. destruct (run (k x) w') as [r w2]. rewrite list_insert_insert_eq in Hr. apply Hr.
      - apply list_lookup_insert_eq. by eapply lookup_lt_Some.
      - by apply others_insert.
      - done. }
    destruct (begins o tx (rt_world s)) as [t|] eqn:Hbeg.
    + pose proof Hbeg as Hbeg'. unfold begins in Hbeg'. destruct o; try done. destruct tx as [t0|]; [|done].
      destruct (ct_snapshot t0) eqn:Es; [done|]. injection Hbeg' as Et.
      assert (Ht : @turn E [] (Running (Vis (Exec st) k) next (Some t0)) (rt_world s) =
        Some (Running (Vis (Exec st) k) next (Some t), rt_world s)) by (cbn [turn]; by rewrite Hbeg).
      pose proof (turn_alone s i _ _ _ Hs Hi Ho Ht) as Hs1.
      pose proof (Hgo (Some t) _ Hs1 eq_refl) as Hr. cbn [rt_threads] in Hr.
      destruct (run _ _) as [r w]. rewrite list_insert_insert_eq in Hr. apply Hr; subst t; try done.
      * apply list_lookup_insert_eq. by eapply lookup_lt_Some.
      * by apply others_insert.
    + apply (Hgo tx s); try done. destruct o, tx as [t|]; try done; cbn [current]; try (by apply Hsn).
      unfold begins in Hbeg. by rewrite (Hsn t eq_refl) in Hbeg.
Qed.

(** So does a task. *)
Lemma task_alone i sc : forall s,
  interleaved tr s -> rt_threads s !! i = Some (start sc) -> others_free i (rt_threads s) ->
  interleaved tr {| rt_world := (@run E _ (flatten sc) (rt_world s)).2;
                    rt_threads := <[i := Finished]> (rt_threads s) |}.
Proof.
  induction sc as [|A m k IH]; intros s Hs Hi Ho.
  - cbn [flatten]. replace (<[i := Finished]> (rt_threads s)) with (rt_threads s); [by destruct s|].
    symmetry. by apply list_insert_id.
  - assert (Hw : w_tx (rt_world s) = None) by apply (interleaved_ok E state Hlaws Hstate tr s Hs).
    pose proof (call_alone i m k None s Hs Hi Ho) as Hc. rewrite enter_none in Hc by done. rewrite run_call.
    destruct (run m (rt_world s)) as [r w]. specialize (Hc ltac:(done)).
    pose proof (IH r _ Hc) as Hr. cbn [rt_threads rt_world] in Hr. rewrite list_insert_insert_eq in Hr. apply Hr.
    + apply list_lookup_insert_eq. by eapply lookup_lt_Some.
    + by apply others_insert.
Qed.
End Alone.

(** ** The properties *)

Section Helpers.
Context `{Base64Laws} `{CryptoLaws} `{JsonTextLaws} `{JsonReader} `{!JsonReaderLaws}.
Variables (E : Env) (state : AppState).
Hypothesis Hlaws : EnvLaws (H2 := E).
Hypothesis Hstate : state_wf state.

#[local] Abbreviation act := (@act _ _ _ _ E state).
#[local] Abbreviation turns := (turns E state).
#[local] Abbreviation run_schedule := (@run_schedule _ _ _ _ E state).
#[local] Abbreviation interleaved := (@interleaved _ _ _ _ E state).

Lemma interleaved_turns tr s s' : rtc turns s s' -> interleaved tr s -> interleaved tr s'.
Proof.
  induction 1 as [s|s s1 s2 [i Hi] _ IH]; [done|]. intros Hs. apply IH. by apply (inter_act state tr s (Turn i)).
Qed.

(** The events that arrive during a schedule. *)
Definition happened (l : list Choice) (tr : list Event) : list Event :=
  fold_left (fun tr c => arrivals c ++ tr) l tr.

Lemma interleaved_schedule l : forall tr s s',
  interleaved tr s -> run_schedule l s = Some s' -> interleaved (happened l tr) s'.
Proof.
  induction l as [|c l IH]; intros tr s s' Hs; cbn [Concurrent.run_schedule]; [by intros [= <-]|].
  intros (s1 & Hc & Hl)%bind_Some. apply (IH _ s1); [|done]. by apply (inter_act state tr s c).
Qed.

(** Either some thread can move or none can. *)
Lemma some_turn s : (exists i s', act (Turn i) s = Some s') \/ forall i, act (Turn i) s = None.
Proof.
  destruct (decide (Exists (fun i => is_Some (act (Turn i) s)) (seq 0 (length (rt_threads s))))) as [Hy|Hn].
  - left. apply Exists_exists in Hy as (i & _ & s' & Hs'). by exists i, s'.
  - right. intros i. destruct (act (Turn i) s) as [s'|] eqn:Ei; [|done]. destruct Hn. apply Exists_exists.
    exists i. split; [|by rewrite Ei]. apply elem_of_seq. apply act_turn in Ei as (t & _ & _ & Hi & _).
    apply lookup_lt_Some in Hi. lia.
Qed.

Lemma finishing tr s : interleaved tr s ->
  exists l s', run_schedule (List.map Turn l) s = Some s' /\ Forall (fun t => t = Finished) (rt_threads s').
Proof.
  induction (turns_end E state s) as [s _ IH]. intros Hs.
  destruct (some_turn s) as [(i & s1 & Hi)|Hno].
  - destruct (IH s1) as (l & s' & Hl & Hf); [by exists i|by apply (inter_act state tr s (Turn i))|].
    exists (i :: l), s'. split; [|done]. cbn [List.map Concurrent.run_schedule]. by rewrite Hi.
  - exists [], s. split; [done|]. by eapply no_deadlock, Hno; [..|apply interleaved_ok].
Qed.

Lemma schedule_evolves tr l s s' : interleaved tr s -> run_schedule l s = Some s' ->
  evolves (w_db (rt_world s)) (w_db (rt_world s')).
Proof.
  revert tr s. induction l as [|c l IH]; intros tr s Hs; cbn [Concurrent.run_schedule]; [by intros [= <-]|].
  intros (s1 & Hc & Hl)%bind_Some. destruct (act_ok E state Hlaws Hstate tr s c s1) as (_ & He & _); [|done|].
  { by apply interleaved_ok. }
  transitivity (w_db (rt_world s1)); [done|]. apply (IH (arrivals c ++ tr)); [|done]. by apply (inter_act state tr s c).
Qed.
End Helpers.

(** C16: Tasks that come one after the other are a schedule of the runtime: every
    world of the sequential relay is one of an interleaving of the same events
    whose tasks are all finished. *)
Theorem sequential_interleaved `{Base64Laws} `{CryptoLaws} `{JsonTextLaws} `{JsonReader}
    `{!JsonReaderLaws} `{Env} `{!EnvLaws} state tr w :
  state_wf state -> reachable state tr w ->
  exists s, interleaved state tr s /\ rt_world s = w /\ Forall (fun t => t = Finished) (rt_threads s).
Proof.
  intros Hstate Hw. induction Hw as [ready last|tr w e _ (s & Hs & <- & Hf)].
  - exists (initial_runtime ready last). split; [constructor|done].
  - set (s1 := {| rt_world := rt_world s; rt_threads := rt_threads s ++ [start (script_of state e)] |}).
    assert (Hs1 : interleaved state (e :: tr) s1) by (by apply (inter_act state tr s (Arrive e))).
    set (i := length (rt_threads s)).
    assert (Hi : rt_threads s1 !! i = Some (start (script_of state e))) by (apply list_lookup_middle; done).
    assert (Ho : others_free i (rt_threads s1)).
    { intros j t Hj [Ht|(Hl & [Hz _]%list_lookup_singleton_Some)]%lookup_app_Some.
      - rewrite Forall_lookup in Hf. by rewrite (Hf j t Ht).
      - lia. }
    pose proof (task_alone _ state _ Hstate (e :: tr) i _ s1 Hs1 Hi Ho) as Hr. eexists. split; [exact Hr|].
    cbn [rt_world rt_threads]. split; [apply script_step|]. apply Forall_lookup. intros j t [[_ ->]|[Hj Ht]]%insert_threads; [done|].
    apply lookup_app_Some in Ht as [Ht|(Hl & [Hz _]%list_lookup_singleton_Some)]; [|lia].
    rewrite Forall_lookup in Hf. by apply (Hf j t).
Qed.

(** C4: Whatever tasks run side by side, and whoever is cancelled, every change of
    the tables is that of one call of one task run alone: on the tables as they
    are at that moment, with the answers it got, the call leaves what the change
    leaves.  Only sessions of other sites with the session id and nonce of the row
    the call works on may be hidden from it; they stay. *)
Theorem calls_serializable `{Base64Laws} `{CryptoLaws} `{JsonTextLaws} `{JsonReader}
    `{!JsonReaderLaws} `{E : Env} `{!EnvLaws} state tr s c s' :
  state_wf state -> interleaved state tr s -> act state c s = Some s' ->
  w_db (rt_world s') = w_db (rt_world s) \/
  exists e A (m : M A) next, e ∈ tr /\ part_of (Call m next) (script_of state e) /\
    serial E m (w_db (rt_world s)) (w_db (rt_world s')).
Proof.
  intros Hstate Hs Ha. destruct (act_ok E state _ Hstate tr s c s') as (_ & _ & Hc); [by apply interleaved_ok|done|].
  exact Hc.
Qed.

(** C5: In every interleaving every row and every request to a site has its cause
    among the events that arrived, as for the sequential relay; the keys of the
    tables are unique and below the sequences; no transaction is left in the
    shared world. *)
Theorem interleaved_authorized `{Base64Laws} `{CryptoLaws} `{JsonTextLaws} `{JsonReader}
    `{!JsonReaderLaws} `{Env} `{!EnvLaws} state tr s :
  state_wf state -> interleaved state tr s ->
  db_origin state tr (w_db (rt_world s)) /\ Forall (post_origin state tr) (w_posts (rt_world s)) /\
  unique (w_db (rt_world s)) /\ below (w_seqs (rt_world s)) (w_db (rt_world s)) /\ w_tx (rt_world s) = None.
Proof.
  intros Hstate Hs. by destruct (ro_world _ _ _ _ (interleaved_ok _ state _ Hstate tr s Hs)) as [Ht [U B] Ho Hp].
Qed.

(** C12: No schedule undoes anything: between any two moments rows and ledger entries
    stay, registration columns and an issued challenge are final, sessions move
    along their life cycle, versions and attempts only grow. *)
Theorem interleaved_history `{Base64Laws} `{CryptoLaws} `{JsonTextLaws} `{JsonReader}
    `{!JsonReaderLaws} `{Env} `{!EnvLaws} state tr s l s' :
  state_wf state -> interleaved state tr s -> run_schedule state l s = Some s' ->
  evolves (w_db (rt_world s)) (w_db (rt_world s')).
Proof. intros Hstate Hs. by apply (schedule_evolves _ state _ Hstate tr). Qed.

(** C11: Handlers do not block one another for good.  From any moment turns come to
    an end however they are given; when nobody can make a turn, every task is
    finished; and some turns do finish every task. *)
Theorem tasks_finish `{Base64Laws} `{CryptoLaws} `{JsonTextLaws} `{JsonReader}
    `{!JsonReaderLaws} `{E : Env} `{!EnvLaws} state tr s :
  state_wf state -> interleaved state tr s ->
  Acc (fun s' s => turns E state s s') s /\
  (forall s', rtc (turns E state) s s' -> (forall i, act state (Turn i) s' = None) ->
    Forall (fun t => t = Finished) (rt_threads s')) /\
  exists l s', run_schedule state (List.map Turn l) s = Some s' /\
    Forall (fun t => t = Finished) (rt_threads s').
Proof.
  intros Hstate Hs. split; [apply turns_end|]. split; [|by eapply finishing].
  intros s' Hss Hno. eapply no_deadlock, Hno; [done..|]. apply interleaved_ok; [done..|]. by eapply interleaved_turns.
Qed.
