(* ===== verification/Jobs.v ===== *)
(** * The delivery of jobs over time

    Which jobs a tick takes, how often a job is tried, and how the loop ends. *)

From S2P Require Import Prelude Errors Constants Utf8 Validation Base64url Json Jcs Strict.
From S2P Require Import Crypto Keys Wire Metadata Registration Assertion Revocation Matrix.
From S2P Require Import RoomPolicy Documents Ssrf Site Tables Statements World Spec Db Register Login.
From S2P Require Import Queue Http Invariant Rows LoginSpec QueueSpec HttpSpec Sync System.
From stdpp Require Import gmap sorting.
#[local] Open Scope Z_scope.
#[local] Set Warnings "-clear-no-such-hyp".

(** ** Claiming *)

#[export] Instance job_le_total : Total job_le.
Proof. intros a b. unfold job_le. lia. Qed.
#[export] Instance job_le_trans : Transitive job_le.
Proof. intros a b c. unfold job_le. lia. Qed.

(** The jobs a claim chooses: the first of the due ones by id. *)
Definition chosen (now limit : Z) (d : Db) : list DeliveryJob :=
  take (Z.to_nat limit) (merge_sort job_le (List.filter (job_due now) (db_jobs d))).

Lemma take_in {A} n (l : list A) x : x ∈ take n l -> x ∈ l.
Proof. intros (i & Hi & _)%elem_of_take. by eapply list_elem_of_lookup_2. Qed.

Section Claim.
Variables (now limit : Z) (d : Db).
Hypothesis U : unique d.

Lemma due_iff j : j ∈ List.filter (job_due now) (db_jobs d) <-> j ∈ db_jobs d /\ job_due now j = true.
Proof. by rewrite !list_elem_of_In, filter_In. Qed.

Lemma sorted_due : Permutation (merge_sort job_le (List.filter (job_due now) (db_jobs d)))
  (List.filter (job_due now) (db_jobs d)).
Proof. apply merge_sort_Permutation. Qed.

Lemma chosen_due j : j ∈ chosen now limit d -> j ∈ db_jobs d /\ job_due now j = true.
Proof. intros Hj%take_in. rewrite sorted_due in Hj. by apply due_iff. Qed.

Lemma jobs_nodup : NoDup (db_jobs d).
Proof. eapply NoDup_fmap_1, (u_job_id d U). Qed.

Lemma chosen_nodup : NoDup (chosen now limit d).
Proof.
  eapply sublist_NoDup; [|apply sublist_take]. rewrite sorted_due. apply NoDup_ListNoDup, List.NoDup_filter, NoDup_ListNoDup, jobs_nodup.
Qed.

(** A row is hit by the UPDATE exactly when it was chosen. *)
Lemma hit_chosen j : j ∈ db_jobs d -> (j_id j ∈ claimed now limit d <-> j ∈ chosen now limit d).
Proof.
  intros Hj. unfold claimed. fold (chosen now limit d). split.
  - intros (x & Ex & Hx)%list_elem_of_fmap. pose proof (chosen_due x Hx) as [Hx' _].
    by rewrite (key_inj j_id (db_jobs d) j x (u_job_id d U) Hj Hx' Ex).
  - intros Hc. by apply list_elem_of_fmap_2.
Qed.

(** The due jobs that were not chosen come after all that were. *)
Lemma chosen_first j :
  j ∈ db_jobs d -> job_due now j = true -> j ∉ chosen now limit d ->
  length (chosen now limit d) = Z.to_nat limit /\ Forall (fun x => j_id x < j_id j) (chosen now limit d).
Proof.
  intros Hj Hd Hn. pose proof (StronglySorted_merge_sort job_le (List.filter (job_due now) (db_jobs d))) as Hs.
  assert (Hin : j ∈ merge_sort job_le (List.filter (job_due now) (db_jobs d)))
    by (rewrite sorted_due; by apply due_iff).
  unfold chosen in *. set (l := merge_sort _ _) in *. set (n := Z.to_nat limit) in *.
  rewrite <- (take_drop n l) in Hs, Hin. apply elem_of_app in Hin as [Hin|Hin]; [done|]. split.
  - rewrite length_take. assert (length (drop n l) <> 0)%nat by (destruct (drop n l); [by apply not_elem_of_nil in Hin|done]).
    rewrite length_drop in *. lia.
  - apply Forall_forall. intros x Hx. pose proof (StronglySorted_app_1_elem_of _ _ _ _ _ Hs Hx Hin) as Hle.
    unfold job_le in Hle. assert (j_id x <> j_id j); [|lia]. intros E. apply Hn.
    destruct (chosen_due x Hx) as [Hx' _].
    by rewrite <- (key_inj j_id (db_jobs d) x j (u_job_id d U) Hx' Hj E).
Qed.

Lemma hits_chosen :
  Permutation (List.filter (fun j => bool_decide (j_id j ∈ claimed now limit d)) (db_jobs d))
    (chosen now limit d).
Proof.
  apply NoDup_Permutation; [|apply chosen_nodup|].
  - apply NoDup_ListNoDup, List.NoDup_filter, NoDup_ListNoDup, jobs_nodup.
  - intros j. rewrite list_elem_of_In, filter_In, <- list_elem_of_In, bool_decide_eq_true. split.
    + intros [Hj Hc]. by apply hit_chosen.
    + intros Hc. pose proof (chosen_due j Hc) as [Hj _]. split; [done|]. by apply hit_chosen.
Qed.
End Claim.

(** ** Trying *)

(** A job is given up at its eighth attempt. *)
Definition job_tried (j : DeliveryJob) : Prop :=
  0 <= j_attempts j <= 8 /\ (j_status j = "pending" -> j_attempts j <= 7).
Definition jobs_tried (d : Db) : Prop := Forall job_tried (db_jobs d).

(** While claimed jobs are being run, a pending row can be ahead of its limit only
    if its job is one of them. *)
Definition row_tried (running : list DeliveryJob) (x : DeliveryJob) : Prop :=
  0 <= j_attempts x <= 8 /\
  (j_status x = "pending" -> j_attempts x <= 7 \/
     exists j, j ∈ running /\ j_id j = j_id x /\ j_attempts x <= j_attempts j).

Lemma tried_new id kind domain jti payload sid nh due d :
  jobs_tried d -> jobs_tried (insert_job (job_row id kind domain jti payload sid nh due) d).
Proof.
  intros Hd. unfold insert_job. case_if; [done|]. unfold jobs_tried. cbn. apply Forall_app.
  split; [done|]. constructor; [|done]. split; cbn; lia.
Qed.

Lemma upsert_jobs g d : db_jobs (snd (upsert g d)) = db_jobs d.
Proof. unfold upsert. by case_match. Qed.

Section Tried.
Context `{Base64Laws} `{CryptoLaws} `{JsonTextLaws} `{JsonReader} `{!JsonReaderLaws} `{Env} `{!EnvLaws}.
Variable state : AppState.
Hypothesis Hstate : state_wf state.

Lemma tried_inbound ev d d' : inbound_change state ev d d' -> jobs_tried d -> jobs_tried d'.
Proof.
  intros Hc Hd. destruct Hc as [|sid nonce t domain d' body _ Ho|sid nonce t dn c key sg d' l _ _ Ho
    |sid nonce t account reason d' _ Ho]; [done| | |].
  - by destruct Ho as (s & h & rct & sct & k & n & _ & _ & _ & _ & _ & _ & -> & _).
  - destruct Ho; [done|done|]. unfold consented. cbv zeta. apply tried_new.
    unfold jobs_tried. cbn. by rewrite upsert_jobs.
  - destruct Ho. unfold revoked. cbv zeta. unfold jobs_tried, patched. cbn. by apply tried_new.
Qed.

Lemma deliver_jobs j d ns ps r o :
  delivery_post state j d ns ps r o -> o_tx o = None /\ db_jobs (o_db o) = db_jobs d.
Proof.
  unfold delivery_post. destruct (post_of state j); [|by intros [_ ->]]. intros (k & Hk).
  destruct (site_post_json _ _ _ _); [|by destruct Hk as [_ ->]].
  destruct (_ || _); [|by destruct Hk as [_ ->]]. destruct (String.eqb _ _); [|by destruct Hk as [_ ->]].
  destruct Hk as (Ht & _ & l & Ho & _). split; [done|]. destruct Ho as [| | | | |e d' l Hf [->|(s' & Hs & Hr & ->)]]; done.
Qed.

(** What a job's run makes of the job's row. *)
Definition job_closed (j : DeliveryJob) (l l' : list DeliveryJob) : Prop :=
  l' = l /\ j_attempts j < 8 \/
  exists st, st <> "pending" /\ l' = List.map (fun x => if j_id x =? j_id j then set_status st x else x) l.

Lemma spec_close st j d ns ps (k : M unit) :
  ~ fault -> st <> "pending" ->
  (forall o, spec o k (fun r o' => r = Ok tt /\ o' = o)) ->
  spec (MkObs d None ns ps) (pool_exec (Mark st (j_id j)) ;! k)
    (fun r o => r = Ok tt /\ job_closed j (db_jobs d) (db_jobs (o_db o))).
Proof.
  intros HF Hst Hk. apply spec_bind, spec_pool_exec; [by intros ?%HF|]. intros now. split; [|by intros ?%HF].
  eapply spec_mono; [|apply Hk]. intros r o [-> ->]. split; [done|]. right. by exists st.
Qed.

Lemma spec_close_end o (m : M unit) Q : spec o (m ;! ret tt) Q -> spec o m Q.
Proof. intros Hm w Hw. specialize (Hm w Hw). rewrite run_bind in Hm. by destruct (m w) as [[[]|] w']. Qed.

Lemma run_job_closed tr j w :
  ~ fault -> inv state tr w ->
  fst (run_job state j w) = Ok tt /\
  job_closed j (db_jobs (w_db w)) (db_jobs (w_db (snd (run_job state j w)))).
Proof.
  intros HF [Hk [Ht Hdb _]]. assert (Hwf : db_wf (w_db w)) by (eapply origin_db_wf; [apply Hk|done]).
  assert (Hs : spec (obs w) (run_job state j)
    (fun r o => r = Ok tt /\ job_closed j (db_jobs (w_db w)) (db_jobs (o_db o)))); [|by apply (Hs w)].
  unfold obs. cbn in Ht. rewrite Ht. unfold run_job. spec_step. apply spec_try.
  eapply spec_mono; [|by apply deliver_spec]. intros r [d t ns ps] Hdel.
  apply deliver_jobs in Hdel as [Htx <-]. cbn [o_tx o_db] in *. subst t.
  destruct r as [[]|e]; cbv beta iota.
  - apply (spec_close "delivered"); [done..|]. intros o. by apply spec_inc.
  - destruct (Z.leb_spec 8 (j_attempts j)); [|spec_step; split; [done|by left]].
    eapply spec_close_end, (spec_close "failed"); [done..|]. intros o. by apply spec_ret.
Qed.
(** A closed job is no longer ahead of its limit. *)
Lemma closed_row j rest l l' :
  Forall (row_tried (j :: rest)) l -> job_closed j l l' -> Forall (row_tried rest) l'.
Proof.
  intros Hl [[-> Hj]|(st & Hst & ->)].
  - eapply Forall_impl; [done|]. intros x [Ha Hp]. split; [done|].
    intros [Hle7|(j' & [->|Hin]%elem_of_cons & Hid & Hle)]%Hp; [by left|left; lia|right; eauto].
  - apply Forall_map. eapply Forall_impl; [done|]. intros x [Ha Hp].
    destruct (Z.eqb_spec (j_id x) (j_id j)) as [Eid|Hne]; [by split|]. split; [done|].
    intros [Hle7|(j' & [->|Hin]%elem_of_cons & Hid & Hle)]%Hp; [by left|congruence|right; eauto].
Qed.

Lemma run_jobs_tried tr jobs : forall w,
  ~ fault -> inv state tr w -> Forall (job_origin state tr) jobs ->
  Forall (row_tried jobs) (db_jobs (w_db w)) ->
  Forall (row_tried []) (db_jobs (w_db (snd (run_jobs state jobs w)))).
Proof.
  induction jobs as [|j rest IH]; intros w HF Hw Hj Hrows; [done|]. inversion_clear Hj as [|?? Hj1 Hj2].
  cbn [run_jobs]. rewrite run_bind. pose proof (run_job_inv state tr j w Hj1 Hw) as Hw'.
  destruct (run_job_closed tr j w HF Hw) as [Hr Hc].
  destruct (run_job state j w) as [r w']. cbn [fst snd] in *. subst r.
  apply IH; try done. by eapply closed_row.
Qed.

Lemma tried_rows l : Forall (row_tried []) l <-> Forall job_tried l.
Proof.
  split; intros Hl; eapply Forall_impl; try done; intros x [Ha Hp]; (split; [done|]).
  - by intros [?|(j & Hj%not_elem_of_nil & _)]%Hp.
  - intros ?%Hp. by left.
Qed.

(** The rows a claim leaves are ahead of their limit by at most the attempt it
    counted. *)
Lemma claimed_rows now limit d jobs d' l :
  unique d -> jobs_tried d -> claim now limit d = Ok (jobs, d') -> Permutation l jobs ->
  Forall (row_tried l) (db_jobs d').
Proof.
  intros U Hd [-> ->]%claim_Ok Hl. cbn. apply Forall_map, Forall_forall. intros x Hx.
  unfold jobs_tried in Hd. rewrite Forall_forall in Hd. destruct (Hd x Hx) as [Ha Hp].
  destruct (bool_decide (j_id x ∈ claimed now limit d)) eqn:Hit; [|split; [done|intros ?%Hp; by left]].
  destruct (decide (j_status x = "pending")) as [Hs|Hs]; [specialize (Hp Hs)|].
  - split; [cbn; lia|]. intros _. right. exists (attempt now x). split; [|done]. rewrite Hl.
    apply list_elem_of_In, in_map, filter_In. split; [by apply list_elem_of_In|done].
  - exfalso. apply bool_decide_eq_true, (hit_chosen now limit d U x Hx), chosen_due in Hit as [_ Hdue].
    unfold job_due in Hdue. by apply andb_true_iff in Hdue as [?%String.eqb_eq _].
Qed.

Lemma tick_tried tr w :
  ~ fault -> inv state tr w -> jobs_tried (w_db w) -> jobs_tried (w_db (snd (process_once state w))).
Proof.
  intros HF Hw Hd. unfold process_once, tick. pose proof Hw as [Hk [Ht Hdb Hps]].
  assert (Hc : spec (obs w) (claim_due 10) (fun r o => obs_origin state tr o /\
    match r with
    | Ok jobs => Forall (job_origin state tr) jobs /\ Forall (row_tried jobs) (db_jobs (o_db o))
    | Err _ => jobs_tried (o_db o)
    end)).
  { unfold obs in *. cbn in *. rewrite Ht. apply spec_claim_due; [apply env_returning_all|done|].
    intros now. destruct (claim now 10 (w_db w)) as [[jobs d']|e] eqn:E; [|done].
    destruct (claim_origin state tr now 10 _ jobs d' Hdb E) as [Hj Hd'].
    split; [|by intros ?%HF]. intros l Hl. split; [done|]. split; [by rewrite Hl|].
    exact (claimed_rows now 10 (w_db w) jobs d' l (proj1 (proj1 Hk)) Hd E Hl). }
  specialize (Hc w eq_refl). pose proof (keyed_run (claim_due 10) w Hk) as Hk'. rewrite run_bind.
  destruct (claim_due 10 w) as [[jobs|e] w']; cbn [fst snd] in *; destruct Hc as [Ho Hj]; [|done].
  apply tried_rows. apply (run_jobs_tried tr jobs w' HF (conj Hk' Ho)); apply Hj.
Qed.

Lemma tried_serve route body d ns ps :
  jobs_tried d -> spec (MkObs d None ns ps) (serve state route body) (fun _ o => jobs_tried (o_db o)).
Proof.
  intros Hd. unfold serve. case_if; [by spec_step|]. destruct route; try by (unfold jwks, live; spec_step).
  - assert (Hreg : forall r d', registered state r d d' -> jobs_tried d')
      by (intros r d' (m & n & id & expires & _ & _ & _ & _ & ->); done).
    eapply spec_mono; [|apply site_sessions_spec, Hstate].
    intros res o (limited & [->|(r & out & _ & (_ & _ & _ & Hpost))]%site_sessions_leaves); [done|].
    destruct out as [[resp' []]|e]; [by eapply Hreg, Hpost|by destruct Hpost as (_ & -> & _)|].
    destruct Hpost as [_ [->|(_ & _ & Hr)]]; [done|by eapply Hreg].
  - eapply spec_mono; [|apply ready_spec]. by intros r o [-> _].
Qed.

Lemma tried_step tr w e :
  ~ fault -> inv state tr w -> jobs_tried (w_db w) -> jobs_tried (w_db (step state e w)).
Proof.
  intros HF Hw Hd. pose proof Hw as [Hk [Ht Hdb _]].
  assert (Hwf : db_wf (w_db w)) by (eapply origin_db_wf; [apply Hk|done]).
  assert (Hobs : obs w = MkObs (w_db w) None (w_notices w) (w_posts w)) by (unfold obs; cbn in Ht; by rewrite Ht).
  destruct e as [route body|m|ok sdk rooms| |]; cbn [step].
  - exact (tried_serve route body _ _ _ Hd w Hobs).
  - unfold on_room_message. destruct (inbound_of _ m) as [ev|]; [|done].
    pose proof (inbound_spec state Hstate ev _ _ _ Hwf w Hobs) as (_ & _ & Hc & _). apply tried_inbound in Hc; [|done].
    unfold dispatch_text. rewrite run_bind, run_try. by destruct (handle_inbound state ev w).
  - unfold on_sync. destruct ok; [|done]. by destruct (auto_join_invites _ _ _) as [acts [[]|]].
  - done.
  - by eapply tick_tried.
Qed.
End Tried.

(** The number of ticks in a run of the loop. *)
Fixpoint ticks (turns : list (bool * Wake)) : nat :=
  match turns with
  | [] => 0
  | (true, _) :: _ => 0
  | (false, Changed true) :: _ => 1
  | (false, _) :: rest => S (ticks rest)
  end.

(** ** Properties *)

(** C32: A claim takes due pending jobs only, as many as there are up to the limit,
    oldest first; it counts the attempt of each, which is then not due again for
    five seconds, and leaves every other row and table as it was.  It fails only
    when the attempts of a due job no longer fit their column. *)
Theorem claim_exact now limit d :
  unique d ->
  match claim now limit d with
  | Ok (jobs, d') =>
      (forall j, j ∈ jobs <-> exists x, x ∈ chosen now limit d /\ j = attempt now x) /\
      length jobs = Nat.min (Z.to_nat limit) (length (List.filter (job_due now) (db_jobs d))) /\
      (forall x, x ∈ chosen now limit d -> x ∈ db_jobs d /\ job_due now x = true) /\
      (forall x, x ∈ db_jobs d -> job_due now x = true -> x ∉ chosen now limit d ->
         Forall (fun y => j_id y < j_id x) (chosen now limit d)) /\
      (forall j t, j ∈ jobs -> t < now + 5000 -> job_due t j = false) /\
      d' = set_jobs (List.map (fun x => if decide (x ∈ chosen now limit d) then attempt now x else x)
                       (db_jobs d)) d
  | Err e => e = Problem InternalError /\
      exists x, x ∈ chosen now limit d /\ i32_max <= j_attempts x
  end.
Proof.
  intros U. pose proof (hits_chosen now limit d U) as Hhits.
  destruct (claim now limit d) as [[jobs d']|e] eqn:E.
  - apply claim_Ok in E as [-> ->].
    assert (Hin : forall j, j ∈ List.map (attempt now) (List.filter (fun j =>
      bool_decide (j_id j ∈ claimed now limit d)) (db_jobs d)) <->
      exists x, x ∈ chosen now limit d /\ j = attempt now x).
    { intros j. rewrite Hhits, list_elem_of_fmap. naive_solver. }
    split_and!.
    + exact Hin.
    + rewrite length_map, Hhits. unfold chosen. by rewrite length_take, sorted_due.
    + intros x. apply chosen_due.
    + intros x Hx Hd Hn. by apply (chosen_first now limit d U x).
    + intros j t (x & _ & ->)%Hin Ht. unfold job_due. cbn. apply andb_false_iff. right. by apply Z.leb_gt.
    + f_equal. apply map_ext_in. intros x Hx%list_elem_of_In. pose proof (hit_chosen now limit d U x Hx).
      destruct (decide (x ∈ chosen now limit d)); case_bool_decide; tauto.
  - unfold claim in E. revert E. case_if; [|done]. intros [= <-]. split; [done|].
    apply existsb_exists in Heqb as (x & Hx & Hlt). exists x. bool_hyp. split; [|lia].
    rewrite <- Hhits. by apply list_elem_of_In.
Qed.

(** C31: When nothing fails, no job is tried more than eight times: in every
    reachable world each job has been claimed at most eight times, and one that
    is still pending at most seven. *)
Theorem attempts_bounded `{Base64Laws} `{CryptoLaws} `{JsonTextLaws} `{JsonReader}
    `{!JsonReaderLaws} `{Env} `{!EnvLaws} state tr w j :
  state_wf state -> ~ fault -> reachable state tr w -> j ∈ db_jobs (w_db w) ->
  0 <= j_attempts j <= 8 /\ (j_status j = "pending" -> j_attempts j <= 7).
Proof.
  intros Hs HF Hw. revert j. apply Forall_forall. induction Hw as [ready last|tr w e Hw IH]; [constructor|].
  apply (tried_step state Hs tr w e HF); [by apply inv_reachable|done].
Qed.

(** The delivery loop runs one tick per turn, goes on after a tick that failed,
    and ends at the first turn that finds the shutdown flag up, at its start or
    when it wakes. *)
Lemma run_loop_stops `{Base64} `{Crypto} `{JsonText} `{JsonReader} `{Env} state turns w :
  run_loop state turns w = (Ok tt, Nat.iter (ticks turns) (fun w => snd (tick state w)) w).
Proof.
  revert w. induction turns as [|[[] wake] rest IH]; intros w; [done|done|]. cbn [run_loop].
  rewrite run_bind, run_try. destruct (tick state w) as [r w'] eqn:E.
  destruct wake as [|[]]; cbn [ticks]; rewrite ?IH, Nat.iter_succ_r, E; done.
Qed.
