(* ===== verification/Scenario.v ===== *)
(** * A run of the protocol

    A concrete environment in which everything works, and the flow of the
    source's integration tests evaluated in it. *)

From S2P Require Import Prelude Errors Constants Utf8 Validation Base64url Json JsonRfc Jcs.
From S2P Require Import Strict StrictRfc Crypto CryptoToy Keys Wire Metadata Registration.
From S2P Require Import Assertion Revocation Matrix RoomPolicy Ssrf Site Tables Statements World Spec.
From S2P Require Import Db Register Login Queue Http Invariant Rows LoginSpec QueueSpec.
From S2P Require Import HttpSpec TestSupport Sync System History.

Import Rfc4648 Rfc8259 RfcReader Toy.

Module Run.

Definition IAT : Z := Eval cbv in TEST_IAT.
Definition EXP : Z := Eval cbv in TEST_EXP.
Definition DOMAIN : string := Eval cbv in TEST_DOMAIN.
Definition SESSION : string := Eval cbv in TEST_SESSION.
Definition NONCE : string := Eval cbv in TEST_NONCE.
Definition NOW : Z := IAT + 2000.

(** A recording site that answers every post with a status. *)
Definition site_answering (metadata : SiteMetadata) (status : Z) : SiteFetcher :=
  recording_site {| rec_metadata := Some metadata; rec_posts := []; rec_post_status := status |}.

(** A frozen clock, random bytes that count the steps, and no failures; the server
    clock moves so that retries become due. *)
Definition world_of (now : nat -> Z) (post_status : Z) : Env := {|
  env_now := now;
  env_unix_secs n := Z.of_nat n;
  env_rand n k := repeat (zb (Z.of_nat n)) k;
  env_pool _ := true; env_begin _ := true; env_sql _ := true;
  env_db_now n := 1000 * Z.of_nat n;
  env_exec _ := IoOk; env_commit _ := IoOk; env_rollback _ := true;
  env_returning _ l := l;
  env_notice _ := IoOk; env_notice_error _ := Problem InternalError;
  env_site _ := site_answering sample_metadata post_status;
  env_timestamp_millis ms :=
    if (-8334601228800000 <=? ms) && (ms <=? 8210266876799999) then Some ms else None
|}.

#[export] Instance quiet : Env := world_of (fun _ => NOW) 202.

Definition state : AppState := {|
  st_at_rest := repeat x0b 32; st_lookup_pepper := repeat x11 32;
  st_subject_secret := repeat x0d 32; st_subject_key_version := 1;
  st_signing_key := toy_seed; st_signing_kid := DEFAULT_KID; st_relay_user_id := MATRIX_USER_ID
|}.

(** The value of a test's [unwrap]. *)
Definition unwrap_or {A} (default : A) (r : result A) : A :=
  match r with Ok a => a | Err _ => default end.

Definition registration_body (key : list byte) (domain session nonce : string) (iat exp : Z) : list byte :=
  unwrap_or [] (let? r := signed_registration key domain session nonce iat exp in to_vec (request_fields r)).

Definition request : RegistrationRequest := Eval vm_compute in
  unwrap_or {| reg_version := 0; reg_domain := ""; reg_session_id := ""; reg_nonce := ""; reg_iat := 0;
               reg_exp := 0; reg_requested_display_name := ""; reg_qr_signature := "";
               reg_registration_signature := "" |}
    (signed_registration sample_site_key DOMAIN SESSION NONCE IAT EXP).

Definition request_body : list byte := Eval vm_compute in
  registration_body sample_site_key DOMAIN SESSION NONCE IAT EXP.
Definition e_register : Event := HttpRequest PostSiteSessions request_body.

(** The direct room of the relay and a user. *)
Definition room (user : string) : SdkRoom := {|
  room_id := "!dm:pseud0.org"; room_state := Joined;
  room_members := Some [(user, Join); (MATRIX_USER_ID, Join)]; room_direct := Some true;
  room_encryption := Encrypted; room_request_encryption := Some tt;
  room_encryption_after := Encrypted; room_joined_count := 2; room_invited_count := 0;
  room_sync_members := Some tt;
  room_members_no_sync := Some [(user, Join); (MATRIX_USER_ID, Join)]
|}.

(** A message of a user to the relay; the clients' messages are written with the
    relay's own codec. *)
Definition said (event_id user : string) (message : MatrixMessage) : RoomMessage := {|
  rm_event_id := event_id; rm_sender := user;
  rm_msgtype := NoticeMsg (match Matrix.encode message with Ok b => b | Err _ => "" end);
  rm_room := room user
|}.

Definition inbound (m : RoomMessage) : InboundEvent :=
  match inbound_of MATRIX_USER_ID m with
  | Some ev => ev
  | None => {| ev_event_id := ""; ev_room_id := ""; ev_sender := ""; ev_decrypted := false;
               ev_redacted := true; ev_body := "";
               ev_room := {| rs_encrypted := false; rs_is_direct := false; rs_members := [];
                             rs_sender := ""; rs_relay_user_id := "" |} |}
  end.

Definition request_message : RoomMessage := Eval vm_compute in
  said "$req1" alice (Matrix.Request SESSION NONCE (IAT + 1000) DOMAIN).

(** The request again, under another event id. *)
Definition request_again : RoomMessage :=
  said "$req2" alice (Matrix.Request SESSION NONCE (IAT + 1000) DOMAIN).

Definition consent_message (event_id : string) (key : byte) (display : option string)
    (challenge : string) : RoomMessage :=
  let signed :=
    match consent_signed_bytes (approved display) challenge display NONCE SESSION (IAT + 3000) with
    | Ok b => b | Err _ => [] end in
  said event_id alice (Matrix.Consent SESSION NONCE (IAT + 3000) (approved display) display challenge
    (encode_p256_did_key key) (Base64url.encode (p256_sign key signed))).

(** The worlds after each stage, evaluated once. *)
Definition w0 : World := initial_world true NOW.
Definition w_registered : World := Eval vm_compute in step state e_register w0.
Lemma step_registered : step state e_register w0 = w_registered.
Proof. vm_compute. reflexivity. Qed.
Definition w_requested : World := Eval vm_compute in step state (RoomEvent request_message) w_registered.
Lemma step_requested : step state (RoomEvent request_message) w_registered = w_requested.
Proof. vm_compute. reflexivity. Qed.

(** The challenge the relay put into its message. *)
Definition challenge_of_body (body : string) : option string :=
  match strip_prefix MATRIX_PREFIX body with
  | Some e =>
      match Base64url.decode e with
      | Ok b => match from_slice message_from_value b with
                | Ok (Matrix.Challenge _ _ _ _ _ _ c _) => Some c
                | _ => None
                end
      | Err _ => None
      end
  | None => None
  end.

Definition challenge_sent (notices : list OutboundNotice) : string :=
  match notices with
  | n :: _ => match challenge_of_body (n_body n) with Some c => c | None => "" end
  | [] => ""
  end.
Definition challenge : string := Eval vm_compute in challenge_sent (w_notices w_requested).

Lemma challenge_is_sent : challenge = challenge_sent (w_notices w_requested).
Proof. vm_compute. reflexivity. Qed.

Definition agreement : RoomMessage := Eval vm_compute in consent_message "$consent1" x07 (Some "Alice") challenge.
Definition w_consented : World := Eval vm_compute in step state (RoomEvent agreement) w_requested.
Lemma step_consented : step state (RoomEvent agreement) w_requested = w_consented.
Proof. vm_compute. reflexivity. Qed.
Definition w_delivered : World := Eval vm_compute in step state DeliveryTick w_consented.
Lemma step_delivered : step state DeliveryTick w_consented = w_delivered.
Proof. vm_compute. reflexivity. Qed.

(** The account the site knows the user by, and its revocation. *)
Definition account : string := Eval vm_compute in
  match derive_pairwise_sub (st_subject_secret state) DOMAIN alice with Ok s => s | Err _ => "" end.
Definition revocation_message : RoomMessage := Eval vm_compute in
  said "$rev1" alice (Matrix.Revocation SESSION NONCE (IAT + 4000) account None).
Definition w_revoked : World := Eval vm_compute in step state (RoomEvent revocation_message) w_delivered.
Lemma step_revoked : step state (RoomEvent revocation_message) w_delivered = w_revoked.
Proof. vm_compute. reflexivity. Qed.
Definition w_told : World := Eval vm_compute in step state DeliveryTick w_revoked.
Lemma step_told : step state DeliveryTick w_revoked = w_told.
Proof. vm_compute. reflexivity. Qed.

(** *** The environment keeps the laws *)

#[export] Instance quiet_laws : EnvLaws.
Proof.
  split.
  - intros n. split; by vm_compute.
  - intros n k. apply repeat_length.
  - done.
  - intros ms t. cbn. destruct (Z.leb_spec (-8334601228800000) ms), (Z.leb_spec ms 8210266876799999);
      cbn; split; intros Ht; try (injection Ht as <-; split; [done|lia]); try done; try lia.
    by destruct Ht as [-> _].
  - intros n. split. intros domain m. apply recording_metadata_valid.
Qed.

Lemma quiet_state : state_wf state.
Proof. split; by vm_compute. Qed.

Lemma reach_initial : reachable state [] w0.
Proof. apply reach_start. Qed.
Lemma reach_registered : reachable state [e_register] w_registered.
Proof. rewrite <- step_registered. apply reach_step, reach_start. Qed.
Lemma reach_requested : reachable state [RoomEvent request_message; e_register] w_requested.
Proof. rewrite <- step_requested. apply reach_step, reach_registered. Qed.
Lemma reach_consented :
  reachable state [RoomEvent agreement; RoomEvent request_message; e_register] w_consented.
Proof. rewrite <- step_consented. apply reach_step, reach_requested. Qed.
Lemma reach_delivered :
  reachable state [DeliveryTick; RoomEvent agreement; RoomEvent request_message; e_register] w_delivered.
Proof. rewrite <- step_delivered. apply reach_step, reach_consented. Qed.
Lemma reach_revoked :
  reachable state [RoomEvent revocation_message; DeliveryTick; RoomEvent agreement;
                   RoomEvent request_message; e_register] w_revoked.
Proof. rewrite <- step_revoked. apply reach_step, reach_delivered. Qed.
Lemma reach_told :
  reachable state [DeliveryTick; RoomEvent revocation_message; DeliveryTick; RoomEvent agreement;
                   RoomEvent request_message; e_register] w_told.
Proof. rewrite <- step_told. apply reach_step, reach_revoked. Qed.
End Run.

Import Run.

(** The states of the session, the messages and the requests along the run. *)
Example run_states :
  List.map (fun w => List.map (fun s => (s_state s, s_version s)) (db_sessions (w_db w)))
    [w0; w_registered; w_requested; w_consented; w_delivered; w_told] =
  [[]; [("SITE_REGISTERED", 0)]; [("CHALLENGE_SENT", 1)]; [("CONSENT_RECEIVED", 2)];
   [("ASSERTION_DELIVERED", 3)]; [("REVOKED", 4)]].
Proof. vm_compute. reflexivity. Qed.

Example run_traffic :
  (length (w_notices w_told), List.map (fun p => (po_domain p, po_path p)) (w_posts w_told),
   List.map (fun j => (j_kind j, j_status j)) (db_jobs (w_db w_told))) =
  (2%nat, [(DOMAIN, ASSERTION_PATH); (DOMAIN, REVOCATION_PATH)],
   [("assertion", "delivered"); ("revocation", "delivered")]).
Proof. vm_compute. reflexivity. Qed.
