(* ===== verification/Races.v ===== *)
(** * Two requests at once

    Two messages ask for the challenge of the session of Scenario.v, and their
    handlers interleave: the second waits for the row the first has selected, and
    finds the challenge when the first has committed.  The properties of
    SideBySide.v at this schedule. *)

From S2P Require Import Prelude Errors Constants Utf8 Base64url Json JsonRfc Strict StrictRfc.
From S2P Require Import Crypto CryptoToy Keys Wire Metadata Registration Matrix RoomPolicy Ssrf Site Sync.
From S2P Require Import Tables Statements World Db Login Queue Http Invariant Rows System Concurrent.
From S2P Require Import Isolation Track History Interleaving Progress SideBySide Scenario.
From stdpp Require Import gmap.
#[local] Open Scope Z_scope.

Import Rfc4648 Rfc8259 RfcReader Toy Run.

Definition dawn : Runtime := initial_runtime true NOW.

(** The site registers; both requests arrive; the first selects the row. *)
Definition until_selected : list Choice :=
  Arrive e_register :: repeat (Turn 0) 15 ++
  [Arrive (RoomEvent request_message); Arrive (RoomEvent request_again)] ++ repeat (Turn 1) 6.
(** The second gets as far as its SELECT. *)
Definition until_waiting : list Choice := until_selected ++ repeat (Turn 2) 4.
(** The first is about to commit. *)
Definition until_commit : list Choice := until_waiting ++ repeat (Turn 1) 8.
Definition to_the_end : list Choice := until_commit ++ repeat (Turn 1) 5 ++ repeat (Turn 2) 4.

Definition moment (l : list Choice) : Runtime := default dawn (run_schedule state l dawn).
Definition possible (l : list Choice) : bool :=
  match run_schedule state l dawn with Some _ => true | None => false end.

Lemma moment_reached l : possible l = true ->
  run_schedule state l dawn = Some (moment l) /\ interleaved state (happened l []) (moment l).
Proof.
  unfold possible, moment. destruct (run_schedule state l dawn) as [s|] eqn:E; [|intros Hf; discriminate Hf].
  intros _. cbn [default]. split; [reflexivity|]. exact (interleaved_schedule quiet state l [] dawn s (inter_start state true NOW) E).
Qed.

Definition events : list Event := [RoomEvent request_again; RoomEvent request_message; e_register].

Lemma at_waiting : interleaved state events (moment until_waiting).
Proof. apply (moment_reached until_waiting). vm_compute. reflexivity. Qed.
Lemma at_commit : interleaved state events (moment until_commit).
Proof. apply (moment_reached until_commit). vm_compute. reflexivity. Qed.
Lemma at_end : interleaved state events (moment to_the_end).
Proof. apply (moment_reached to_the_end). vm_compute. reflexivity. Qed.

(** What the sessions of a moment look like. *)
Definition stages (s : Runtime) : list (Z * string) :=
  List.map (fun r => (s_version r, s_state r)) (db_sessions (w_db (rt_world s))).
Definition can_turn (i : nat) (s : Runtime) : bool :=
  match act state (Turn i) s with Some _ => true | None => false end.
Definition finished (t : Thread) : bool := match t with Finished => true | _ => false end.

(** ** The properties at this schedule *)

Definition tr_revoked : list Event :=
  [RoomEvent revocation_message; DeliveryTick; RoomEvent agreement; RoomEvent request_message; e_register].

Lemma sequential_interleaved_witness :
  exists s, interleaved state tr_revoked s /\ rt_world s = w_revoked /\ Forall (fun t => t = Finished) (rt_threads s).
Proof. exact (sequential_interleaved state tr_revoked w_revoked quiet_state reach_revoked). Defined.

(** The commit of the first request, while the second waits. *)
Lemma calls_serializable_witness :
  stages (moment until_commit) = [(0, "SITE_REGISTERED")] /\ can_turn 2 (moment until_commit) = false /\
  exists s', act state (Turn 1) (moment until_commit) = Some s' /\ stages s' = [(1, "CHALLENGE_SENT")] /\
    exists e A (m : M A) next, e ∈ events /\ part_of (Call m next) (script_of state e) /\
      serial quiet m (w_db (rt_world (moment until_commit))) (w_db (rt_world s')).
Proof.
  split; [vm_compute; reflexivity|]. split; [vm_compute; reflexivity|].
  assert (Hs : match act state (Turn 1) (moment until_commit) with
    | Some s' => bool_decide (stages s' = [(1, "CHALLENGE_SENT")] /\ stages (moment until_commit) <> stages s')
    | None => false end = true) by (vm_compute; reflexivity).
  destruct (act state (Turn 1) (moment until_commit)) as [s'|] eqn:Ha; [|discriminate Hs].
  apply bool_decide_eq_true_1 in Hs as [Hs Hne]. exists s'. split; [reflexivity|]. split; [exact Hs|].
  destruct (calls_serializable state events (moment until_commit) (Turn 1) s' quiet_state at_commit Ha) as [Hd|Hc].
  - exfalso. apply Hne. unfold stages. rewrite Hd. reflexivity.
  - exact Hc.
Defined.

Lemma interleaved_authorized_witness :
  stages (moment to_the_end) = [(1, "CHALLENGE_SENT")] /\
  db_origin state events (w_db (rt_world (moment to_the_end))) /\
  unique (w_db (rt_world (moment to_the_end))).
Proof.
  split; [vm_compute; reflexivity|].
  destruct (interleaved_authorized state events (moment to_the_end) quiet_state at_end) as (Ho & _ & U & _).
  exact (conj Ho U).
Defined.

Lemma interleaved_history_witness :
  evolves (w_db (rt_world (moment until_waiting)))
    (w_db (rt_world (default (moment until_waiting) (run_schedule state (repeat (Turn 1) 13) (moment until_waiting))))) /\
  stages (default (moment until_waiting) (run_schedule state (repeat (Turn 1) 13) (moment until_waiting))) =
    [(1, "CHALLENGE_SENT")].
Proof.
  assert (Hs : match run_schedule state (repeat (Turn 1) 13) (moment until_waiting) with
    | Some s' => bool_decide (stages s' = [(1, "CHALLENGE_SENT")]) | None => false end = true)
    by (vm_compute; reflexivity).
  destruct (run_schedule state (repeat (Turn 1) 13) (moment until_waiting)) as [s'|] eqn:Hl; [|discriminate Hs].
  apply bool_decide_eq_true_1 in Hs. cbn [default]. split; [|exact Hs].
  exact (interleaved_history state events (moment until_waiting) _ s' quiet_state at_waiting Hl).
Defined.

(** From the moment the second request waits for the first. *)
Lemma tasks_finish_witness :
  can_turn 2 (moment until_waiting) = false /\
  List.map finished (rt_threads (moment until_waiting)) = [true; false; false] /\
  exists l s', run_schedule state (List.map Turn l) (moment until_waiting) = Some s' /\
    Forall (fun t => t = Finished) (rt_threads s').
Proof.
  split; [vm_compute; reflexivity|]. split; [vm_compute; reflexivity|].
  destruct (tasks_finish state events (moment until_waiting) quiet_state at_waiting) as (_ & _ & Hf). exact Hf.
Defined.
