(* ===== verification/Findings.v ===== *)
(** * Where the code and the protocol document part

    Runs of the environment of Scenario.v that the documents under src/docs exclude
    or do not foresee, each evaluated.  The relay specification asks for "one
    consent per challenge"; the handler never looks at the state of the session. *)

From S2P Require Import Prelude Errors Constants Ip Utf8 Validation Base64url Json JsonRfc Jcs.
From S2P Require Import Strict StrictRfc Crypto CryptoToy Keys Wire Metadata Registration.
From S2P Require Import Assertion Revocation Matrix RoomPolicy Ssrf Site Tables Statements World Spec.
From S2P Require Import Db Register Login Queue Http Sync System Scenario.

Import Rfc4648 Rfc8259 RfcReader Toy Run.

(** What a world shows of the session, the accounts, the jobs and the traffic. *)
Definition session_states (w : World) : list (string * Z) :=
  List.map (fun s => (s_state s, s_version s)) (db_sessions (w_db w)).
Definition accounts_revoked (w : World) : list bool :=
  List.map (fun g => bool_decide (is_Some (g_revoked_at g))) (db_grants (w_db w)).
Definition jobs (w : World) : list (string * string) :=
  List.map (fun j => (j_kind j, j_status j)) (db_jobs (w_db w)).
Definition paths (w : World) : list string := List.map po_path (w_posts w).

(** The reasons of the failures the user was told about. *)
Definition reason_of_body (body : string) : option string :=
  match strip_prefix MATRIX_PREFIX body with
  | Some e =>
      match Base64url.decode e with
      | Ok b => match from_slice message_from_value b with
                | Ok (Matrix.Result _ _ _ _ _ r) => r
                | _ => None
                end
      | Err _ => None
      end
  | None => None
  end.

(** The user's answers to the one challenge of the run. *)
Definition again : RoomMessage := Eval vm_compute in
  consent_message "$consent2" x07 (Some "Mallory") challenge.
Definition refusal : RoomMessage := Eval vm_compute in
  consent_message "$refusal" x07 None challenge.

Definition w_twice : World := step state (RoomEvent again) w_consented.
Definition w_refused : World := step state (RoomEvent refusal) w_requested.
Definition w_reversed : World := step state (RoomEvent again) w_refused.
Definition w_relinked : World := step state (RoomEvent again) w_told.
Definition w_raced : World := step state DeliveryTick (step state (RoomEvent revocation_message) w_consented).
Strategy expand [w_twice w_refused w_reversed w_relinked w_raced].

(** A second consent with the same challenge and another event id makes a second
    assertion, with another display name. *)
Example consent_answered_twice :
  (session_states w_twice, jobs w_twice) =
  ([("CONSENT_RECEIVED", 3)], [("assertion", "pending"); ("assertion", "pending")]).
Proof. vm_compute. reflexivity. Qed.

(** A refusal does not consume the challenge. *)
Example refusal_reversed :
  (session_states w_refused, jobs w_refused,
   List.map (fun n => reason_of_body (n_body n)) (drop 1 (w_notices w_refused)),
   session_states w_reversed, jobs w_reversed) =
  ([("REFUSED", 2)], [], [Some "request_cancelled"],
   [("CONSENT_RECEIVED", 3)], [("assertion", "pending")]).
Proof. vm_compute. reflexivity. Qed.

(** Nor does a revocation: the old challenge links the account again. *)
Example revocation_undone :
  (session_states w_told, accounts_revoked w_told, session_states w_relinked,
   accounts_revoked w_relinked) =
  ([("REVOKED", 4)], [true], [("CONSENT_RECEIVED", 5)], [false]).
Proof. vm_compute. reflexivity. Qed.

(** A revocation before the assertion is delivered: the assertion is posted all the
    same, and the session ends as delivered. *)
Example revocation_overtaken :
  (accounts_revoked w_raced, paths w_raced, session_states w_raced) =
  ([true], [ASSERTION_PATH; REVOCATION_PATH], [("ASSERTION_DELIVERED", 4)]).
Proof. vm_compute. reflexivity. Qed.

(** The relay's own reader refuses the two kinds of message it sends, so the source's
    integration tests, which read the sent messages with it, cannot pass. *)
Example own_messages_refused :
  List.map (fun n => is_ok (Matrix.decode (n_body n))) (w_notices w_delivered) = [false; false].
Proof. vm_compute. reflexivity. Qed.

(** *** A second site that copies the session and the nonce of a QR code *)

Module Copied.
Definition OTHER : string := "evil.example.org".
Definition other_key : list byte := repeat x06 32.

Definition two_sites (metadata : SiteMetadata) : SiteFetcher := {|
  site_fetch_metadata domain :=
    recording_fetch_metadata
      (Some (if String.eqb domain DOMAIN then sample_metadata else metadata)) domain;
  site_post_json _ _ _ _ := Ok {| sr_status := 202; sr_body := [] |}
|}.

#[local] Instance shared : Env := {|
  env_now := @env_now quiet; env_unix_secs := @env_unix_secs quiet; env_rand := @env_rand quiet;
  env_pool := @env_pool quiet; env_begin := @env_begin quiet; env_sql := @env_sql quiet;
  env_db_now := @env_db_now quiet; env_exec := @env_exec quiet; env_commit := @env_commit quiet;
  env_rollback := @env_rollback quiet; env_returning := @env_returning quiet;
  env_notice := @env_notice quiet; env_notice_error := @env_notice_error quiet;
  env_site _ := two_sites (published_metadata OTHER other_key);
  env_timestamp_millis := @env_timestamp_millis quiet
|}.

Definition copied_body : list byte := Eval vm_compute in
  registration_body other_key OTHER SESSION NONCE IAT EXP.

Definition w_shared : World :=
  step state (RoomEvent request_message)
    (step state (HttpRequest PostSiteSessions copied_body)
      (step state e_register (initial_world true NOW))).

(** The answer to the genuine challenge, in these worlds. *)
Definition shared_answer : RoomMessage := Eval vm_compute in
  consent_message "$consent1" x07 (Some "Alice") (challenge_sent (w_notices w_shared)).
Strategy expand [w_shared].

(** Both registrations are taken, the challenge of the genuine one is sent, and every
    consent to it is an internal error. *)
Example copied_nonce_blocks_consent :
  (List.map s_domain (db_sessions (w_db w_shared)), session_states w_shared,
   fst (handle_inbound state (inbound shared_answer) w_shared)) =
  ([DOMAIN; OTHER], [("CHALLENGE_SENT", 1); ("SITE_REGISTERED", 0)], problem InternalError).
Proof. vm_compute. reflexivity. Qed.
End Copied.

(** *** A site that is down *)

Module Down.
#[local] Instance down : Env := {|
  env_now := @env_now quiet; env_unix_secs := @env_unix_secs quiet; env_rand := @env_rand quiet;
  env_pool := @env_pool quiet; env_begin := @env_begin quiet; env_sql := @env_sql quiet;
  env_db_now n := 1000000000 * Z.of_nat n; env_exec := @env_exec quiet;
  env_commit := @env_commit quiet; env_rollback := @env_rollback quiet;
  env_returning := @env_returning quiet; env_notice := @env_notice quiet;
  env_notice_error := @env_notice_error quiet;
  env_site _ := site_answering sample_metadata 500;
  env_timestamp_millis := @env_timestamp_millis quiet
|}.

Definition w_exhausted : World :=
  Nat.iter 9 (step state DeliveryTick)
    (step state (RoomEvent agreement)
      (step state (RoomEvent request_message) (step state e_register (initial_world true NOW)))).
Strategy expand [w_exhausted].

(** Eight posts, and then nobody hears of the login again: the one message is the
    challenge. *)
Example exhausted_silently :
  (jobs w_exhausted, length (w_posts w_exhausted), length (w_notices w_exhausted),
   session_states w_exhausted) =
  ([("assertion", "failed")], 8%nat, 1%nat, [("CONSENT_RECEIVED", 2)]).
Proof. vm_compute. reflexivity. Qed.
End Down.

(** *** Lengths *)

(** Fifty-one letters of two bytes each. *)
Definition accented : string :=
  String.concat "" (repeat (String (zc 195) (String (zc 169) EmptyString)) 51).

Example name_measured_in_bytes :
  (option_map String.length (from_utf8 (as_bytes accented)), validate_display_name accented false) =
  (Some 102%nat, problem InvalidRequest).
Proof. vm_compute. reflexivity. Qed.

(** *** Answers of a site *)

Definition answering (headers : list string) (chunks : list (list byte)) : Net := {|
  net_resolve _ := Ok [V4 93 184 216 34];
  net_exchange _ _ _ :=
    Some (RdOk (as_bytes (String.concat CRLF ("HTTP/1.1 200 OK" :: headers) +:+ CRLF +:+ CRLF))
          :: List.map RdOk chunks ++ [RdOk []])
|}.

(** The media type of the metadata is not looked at. *)
Example media_type_ignored :
  fetch_metadata (answering ["Content-Type: text/html"] [sample_metadata_body]) DOMAIN =
  Ok sample_metadata.
Proof. vm_compute. reflexivity. Qed.

(** The client says HTTP/1.1 and does not read the chunked coding that HTTP/1.1
    servers answer with: the sizes of the chunks stay in the body. *)
Example chunked_metadata_refused :
  Z.of_nat (length sample_metadata_body) = 0xe1 /\
  fetch_metadata (answering ["Content-Type: application/json"; "Transfer-Encoding: chunked"]
    [as_bytes ("e1" +:+ CRLF); sample_metadata_body; as_bytes (CRLF +:+ "0" +:+ CRLF +:+ CRLF)])
    DOMAIN = problem DomainVerificationFailed.
Proof. split; vm_compute; reflexivity. Qed.
