(* ===== verification/FlowTests.v ===== *)
(** * The integration tests of the source (src/tests)

    Each test as a computation on the world that panics or not.  What a test cannot
    know is its argument: the database it is given, the keys it draws, and the
    environment around the doubles (random bytes, faults of the database).  Tests
    that read the relay's own messages with [matrix::decode] panic in every
    environment; the others are evaluated in the environment of [Scenario]. *)

From S2P Require Import Config Startup.
From S2P Require Import Prelude Errors Constants Utf8 Validation Base64url Json JsonRfc Jcs.
From S2P Require Import Strict StrictRfc Crypto CryptoToy Keys Wire Metadata Registration.
From S2P Require Import Assertion Revocation Matrix RoomPolicy Documents Ip Ssrf Site.
From S2P Require Import Tables Statements World Spec Db Register Login Queue Http Rows.
From S2P Require Import TestSupport UnitTests Scenario.

#[local] Set Warnings "-clear-no-such-hyp".

(** ** Tests that run *)

(** [None] is a panic; the test ends there. *)
Definition Test (A : Type) : Type := World -> option A * World.

#[export] Instance Test_ret : MRet Test := fun A a w => (Some a, w).
#[export] Instance Test_bind : MBind Test := fun A B k t w =>
  match t w with
  | (Some a, w) => k a w
  | (None, w) => (None, w)
  end.

(** A value that may panic, [assert!], and the records of the doubles. *)
Definition expect {A} (o : option A) : Test A := fun w => (o, w).
Definition check (b : bool) : Test unit := expect (assert b).
Definition recorded : Test (list OutboundNotice) := fun w => (Some (sink_recorded (sink_of w)), w).
Definition posts : Test (list (string * string * list byte)) := fun w => (Some (posts_of w), w).

(** [m.await], and with [unwrap]. *)
Definition awaits `{Env} {A} (m : M A) : Test (result A) := fun w =>
  let '(r, w) := run m w in (Some r, w).
Definition awaits_ok `{Env} {A} (m : M A) : Test A := r ← awaits m; expect (unwrap r).

(** [let Some(pool) = test_pool().await else { return; }]. *)
Definition database_test (pool : option unit) (test : Test unit) : Test unit :=
  match pool with None => mret tt | Some _ => test end.

Definition ALICE : string := "@alice:pseud0.org".

(** ** rooms.rs, privacy.rs, ssrf.rs *)

Definition unencrypted_rooms_cannot_produce_assertions : option unit :=
  assert (bool_decide (check_room (unencrypted_room ok_room) = refuse Unencrypted)).

Definition third_member_cannot_produce_assertions : option unit :=
  assert (bool_decide (check_room (third_member_room ok_room) = refuse UnexpectedMember)).

Section Codecs.
Context `{Base64} `{Crypto} `{JsonText} `{JsonReader}.

Definition pairwise_subject_never_embeds_matrix_id : option unit :=
  sub ← unwrap (derive_pairwise_sub (repeat x09 32) "login.example.org" ALICE);
  assert (negb (contains_char "@" sub)) ;;
  assert (negb (contains ALICE sub)) ;;
  assert (negb (contains "alice" sub)) ;;
  assert (negb (contains "pseud0.org" sub)).

(** [FixedDns], with whatever lies behind the addresses. *)
Definition fixed_dns (ips : list IpAddr)
    (exchange : Ssrf.SocketAddr -> string -> list byte -> option (list ReadEvent)) : Net :=
  {| net_resolve _ := Ok ips; net_exchange := exchange |}.

Definition private_and_metadata_ips_are_rejected exchange : option unit :=
  foldr (fun ip rest =>
      parsed ← parse_ip ip;
      assert (is_blocked_ip parsed) ;;
      match fetch_metadata (fixed_dns [parsed] exchange) "login.example.org" with
      | Ok _ => None
      | Err error => assert (bool_decide (code error = DomainVerificationFailed))
      end ;; rest)
    (Some tt) ["127.0.0.1"; "10.1.2.3"; "192.168.0.8"; "169.254.169.254"; "100.64.1.1"].
End Codecs.

Definition alternate_port_and_userinfo_never_enter_url_builder : option unit :=
  assert (is_err (site_url "login.example.org:8443" METADATA_PATH)) ;;
  assert (is_err (site_url "user:pass@login.example.org" METADATA_PATH)) ;;
  target ← unwrap (site_url "login.example.org" METADATA_PATH);
  assert (bool_decide (target = ("login.example.org", METADATA_PATH))).

Definition dns_rebinding_to_only_private_addresses_fails : option unit :=
  a ← parse_ip "10.0.0.1";
  b ← parse_ip "169.254.169.254";
  assert (is_err (pick_public_address [a; b])).

(** ** integration.rs, replay.rs *)

Section Flows.
Context `{Base64} `{Crypto} `{JsonText} `{JsonReader}.
(** The surroundings of the doubles, the site's key, and the user's key pair. *)
Context {E : Env}.
Variables (site_key : list byte) (public : P256Key) (sign_prehash : list byte -> list byte).

Definition dm (sender : string) : RoomSnapshot := {|
  rs_encrypted := true; rs_is_direct := true; rs_members := [sender; MATRIX_USER_ID];
  rs_sender := sender; rs_relay_user_id := MATRIX_USER_ID |}.

Definition inbound (event_id sender : string) (message : MatrixMessage) : option InboundEvent :=
  body ← unwrap (Matrix.encode message);
  Some {| ev_event_id := event_id; ev_room_id := "!dm:pseud0.org"; ev_sender := sender;
          ev_decrypted := true; ev_redacted := false; ev_body := body; ev_room := dm sender |}.

Definition sign_consent (approved : bool) (display : option string) (sent_at : Z) (challenge : string)
  : option (string * string) :=
  canonical ← unwrap (consent_signed_bytes approved challenge display TEST_NONCE TEST_SESSION sent_at);
  Some (encode_p256_did_key public, Base64url.encode (sign_prehash (sha256 canonical))).

(** The site and the state all these tests begin with. *)
Definition fresh_state (env : Env) (clock_ms : Z) : Test AppState := fun w =>
  let '(r, w) := state_with_pool (H2 := env) clock_ms w in (fst <$> unwrap r, w).

Definition with_state (clock_ms : Z) (body : Env -> AppState -> Test unit) : Test unit :=
  metadata ← expect (unwrap (signed_metadata TEST_DOMAIN "Example" site_key));
  let env := test_env (with_metadata metadata) (frozen_new clock_ms) E in
  state ← fresh_state env clock_ms;
  body env state.

Definition registered `{Env} (state : AppState) (session nonce : string) : Test (RegistrationResponse * bool) :=
  request ← expect (unwrap (signed_registration site_key TEST_DOMAIN session nonce TEST_IAT TEST_EXP));
  awaits_ok (register_session state request).

Definition said `{Env} (state : AppState) (event_id : string) (message : MatrixMessage)
  : Test (result HandleResult) :=
  event ← expect (inbound event_id ALICE message);
  awaits (handle_inbound state event).

Definition said_ok `{Env} (state : AppState) (event_id : string) (message : MatrixMessage)
  : Test HandleResult :=
  r ← said state event_id message; expect (unwrap r).

Definition the_request : MatrixMessage :=
  Matrix.Request TEST_SESSION TEST_NONCE (TEST_IAT + 1000) TEST_DOMAIN.

Definition registration_created_identical_and_conflict (pool : option unit) : Test unit :=
  database_test pool (with_state (TEST_IAT + 1000) (fun env state =>
    request ← expect (unwrap
      (signed_registration site_key TEST_DOMAIN TEST_SESSION TEST_NONCE TEST_IAT TEST_EXP));
    first ← awaits_ok (register_session state request);
    check (snd first) ;;
    second ← awaits_ok (register_session state request);
    check (negb (snd second)) ;;
    conflict ← expect (unwrap
      (signed_registration site_key TEST_DOMAIN TEST_SESSION "nonce_other_value_01" TEST_IAT TEST_EXP));
    r ← awaits (register_session state conflict);
    check (is_err r))).

(** [match matrix::decode(&recorded[0].body).unwrap() { Challenge { .. } => .. }]: the
    name of the site and the challenge. *)
Definition first_challenge (messages : list OutboundNotice) : option (string * string) :=
  first ← head messages;
  message ← unwrap (Matrix.decode (n_body first));
  match message with
  | Matrix.Challenge _ _ _ site_name _ _ challenge _ => Some (site_name, challenge)
  | _ => None
  end.

(** The user agrees to the challenge. *)
Definition consents `{Env} (state : AppState) (event_id challenge : string) : Test HandleResult :=
  signed ← expect (sign_consent true (Some "Alice") (TEST_IAT + 3000) challenge);
  let '(key_id, signature) := signed in
  said_ok state event_id
    (Matrix.Consent TEST_SESSION TEST_NONCE (TEST_IAT + 3000) true (Some "Alice") challenge key_id signature).

Definition is_success (m : OutboundNotice) : bool :=
  match Matrix.decode (n_body m) with
  | Ok (Matrix.Result _ _ _ true (Some _) None) => true
  | _ => false
  end.

Definition request_challenge_consent_assertion_and_result (pool : option unit) : Test unit :=
  database_test pool (with_state (TEST_IAT + 2000) (fun env state =>
    registered state TEST_SESSION TEST_NONCE ;;
    said_ok state "$req1" the_request ;;
    messages ← recorded;
    check (length messages =? 1)%nat ;;
    read ← expect (first_challenge messages);
    check (bool_decide (fst read = "Example")) ;;
    consents state "$consent1" (snd read) ;;
    awaits_ok (process_once state) ;;
    messages ← recorded;
    check (existsb is_success messages) ;;
    sent ← posts;
    check (length sent =? 1)%nat ;;
    post ← expect (head sent);
    assertion ← expect (text (snd post));
    check (negb (contains ALICE assertion)) ;;
    check (negb (contains_char "@" assertion)) ;;
    check (negb (contains "!dm" assertion)))).

Definition delivery_retry_posts_identical_bytes_once (pool : option unit) : Test unit :=
  database_test pool (with_state (TEST_IAT + 2000) (fun env state =>
    registered state TEST_SESSION TEST_NONCE ;;
    said_ok state "$req-retry" the_request ;;
    messages ← recorded;
    read ← expect (first_challenge messages);
    consents state "$consent-retry" (snd read) ;;
    awaits_ok (process_once state) ;;
    awaits_ok (process_once state) ;;
    sent ← posts;
    check (length sent =? 1)%nat)).

(** A response of the router to a registration. *)
Definition posted `{Env} (state : AppState) (session nonce : string) : Test Response :=
  request ← expect (unwrap (signed_registration site_key TEST_DOMAIN session nonce TEST_IAT TEST_EXP));
  body ← expect (unwrap (to_vec (request_fields request)));
  awaits_ok (serve state PostSiteSessions body).

(** [String::from_utf8_lossy] of a body keeps its ASCII characters. *)
Definition body_text (r : Response) : string :=
  match re_body r with Text s => s | JsonBody b => of_bytes b end.

Definition http_registration_created_identical_and_conflict (pool : option unit) : Test unit :=
  database_test pool (with_state (TEST_IAT + 1000) (fun env state =>
    created ← posted state TEST_SESSION TEST_NONCE;
    check (re_status created =? 201) ;;
    again ← posted state TEST_SESSION TEST_NONCE;
    check (re_status again =? 200) ;;
    response ← posted state TEST_SESSION "nonce_other_value_01";
    check (re_status response =? 409) ;;
    check (negb (contains_char "@" (body_text response))) ;;
    check (negb (contains "alice" (body_text response))))).

Definition duplicate_request_does_not_mint_second_challenge (pool : option unit) : Test unit :=
  database_test pool (with_state (TEST_IAT + 2000) (fun env state =>
    registered state TEST_SESSION TEST_NONCE ;;
    said_ok state "$req1" the_request ;;
    said_ok state "$req2" the_request ;;
    messages ← recorded;
    check (length messages =? 1)%nat)).

Definition same_request_event_id_is_atomic_replay (pool : option unit) : Test unit :=
  database_test pool (with_state (TEST_IAT + 2000) (fun env state =>
    registered state "session_replay_00001" "nonce_replay_0000001" ;;
    let request := Matrix.Request "session_replay_00001" "nonce_replay_0000001" (TEST_IAT + 1000)
                     TEST_DOMAIN in
    first ← said state "$same" request;
    second ← said state "$same" request;
    check (is_ok first) ;;
    messages ← recorded;
    check (is_err second || (length messages =? 1)%nat))).

(** [exp] is a minute from the time of the test. *)
Definition assertion_jti_conflict_is_atomic (exp : Z) (pool : option unit) : Test unit :=
  database_test pool (with_state (TEST_IAT + 2000) (fun env state =>
    awaits_ok pool_get ;;
    awaits_ok begin ;;
    awaits_ok (reserve_assertion_jti "jti_conflict_vector_01" exp) ;;
    awaits_ok commit ;;
    awaits_ok begin ;;
    replayed ← awaits (reserve_assertion_jti "jti_conflict_vector_01" exp);
    check (is_err replayed) ;;
    awaits_ok (op Drop))).

Definition account_told (m : OutboundNotice) : option string :=
  match Matrix.decode (n_body m) with
  | Ok (Matrix.Result _ _ _ _ (Some id) _) => Some id
  | _ => None
  end.

(** [iter().find_map]. *)
Fixpoint find_map {A B} (f : A -> option B) (l : list A) : option B :=
  match l with
  | [] => None
  | x :: l' => match f x with Some y => Some y | None => find_map f l' end
  end.

Definition revocation_enqueues_one_site_callback (pool : option unit) : Test unit :=
  database_test pool (with_state (TEST_IAT + 2000) (fun env state =>
    registered state TEST_SESSION TEST_NONCE ;;
    said_ok state "$req-rev" the_request ;;
    messages ← recorded;
    read ← expect (first_challenge messages);
    consents state "$consent-rev" (snd read) ;;
    awaits_ok (process_once state) ;;
    messages ← recorded;
    site_account_id ← expect (find_map account_told messages);
    said_ok state "$rev1"
      (Matrix.Revocation TEST_SESSION TEST_NONCE (TEST_IAT + 4000) site_account_id (Some "user_requested")) ;;
    awaits_ok (process_once state) ;;
    sent ← posts;
    check (length sent =? 2)%nat ;;
    check (existsb (fun p => ends_with "/revocations" (snd (fst p))) sent) ;;
    check (forallb (fun p => negb (contains ALICE (of_bytes (snd p)))) sent))).
End Flows.

(** ** Tests that cannot pass *)

Definition panics {A} (t : Test A) : Prop := forall w, fst (t w) = None.

Lemma panics_first {A B} (t : Test A) (k : A -> Test B) : panics t -> panics (t ≫= k).
Proof.
  intros Ht w. specialize (Ht w). unfold mbind, Test_bind. destruct (t w) as [o w']. cbn in Ht.
  by rewrite Ht.
Qed.

Lemma panics_then {A B} (t : Test A) (k : A -> Test B) : (forall a, panics (k a)) -> panics (t ≫= k).
Proof.
  intros Hk w. unfold mbind, Test_bind. destruct (t w) as [[a|] w']; [apply Hk|done].
Qed.

Lemma panics_none {A} : panics (expect (None : option A)).
Proof. by intros w. Qed.

(** The relay's reader does not let a challenge through. *)
Lemma no_challenge_decoded `{Base64} `{JsonReader} messages : first_challenge messages = None.
Proof.
  unfold first_challenge. destruct messages as [|m messages]; [done|]. cbn [head mbind option_bind].
  destruct (Matrix.decode (n_body m)) as [message|] eqn:E; [|done]. cbn [unwrap mbind option_bind].
  unfold Matrix.decode in E. case_if_in E; [done|]. inv_ok E. case_if_in E; [done|]. inv_ok E.
  injection E as ->. by destruct message.
Qed.

Ltac panics_at_challenge :=
  cbv beta zeta;
  lazymatch goal with
  | |- panics (expect (first_challenge _) ≫= _) =>
      rewrite no_challenge_decoded; apply panics_first, panics_none
  | |- _ => apply panics_then; intros ?; panics_at_challenge
  end.

(** C40: Three of the source's integration tests panic whenever they have a database, in
    every environment, for all keys and in every world: they read the challenge the
    relay sent with [matrix::decode], and that accepts only what clients send. *)
Theorem login_tests_panic `{Base64} `{Crypto} `{JsonText} `{JsonReader} {E : Env} site_key public sign_prehash w :
  fst (request_challenge_consent_assertion_and_result site_key public sign_prehash (Some tt) w) = None /\
  fst (delivery_retry_posts_identical_bytes_once site_key public sign_prehash (Some tt) w) = None /\
  fst (revocation_enqueues_one_site_callback site_key public sign_prehash (Some tt) w) = None.
Proof.
  split_and!; revert w; cbn [database_test]; unfold with_state; panics_at_challenge.
Qed.

(** ** Tests that pass *)

Import Rfc4648 Rfc8259 RfcReader Toy Run.

(** The pure ones; nothing behind the addresses is reached. *)
Example pure_tests_pass : forall exchange,
  unencrypted_rooms_cannot_produce_assertions = Some tt /\
  third_member_cannot_produce_assertions = Some tt /\
  pairwise_subject_never_embeds_matrix_id = Some tt /\
  private_and_metadata_ips_are_rejected exchange = Some tt /\
  alternate_port_and_userinfo_never_enter_url_builder = Some tt /\
  dns_rebinding_to_only_private_addresses_fails = Some tt.
Proof. intros exchange. split_and!; vm_compute; reflexivity. Qed.

(** The other tests of the database, when nothing fails. *)
Example database_tests_pass :
  List.map (fun t : option unit -> Test unit => fst (t (Some tt) w0))
    [registration_created_identical_and_conflict sample_site_key;
     http_registration_created_identical_and_conflict sample_site_key;
     duplicate_request_does_not_mint_second_challenge sample_site_key;
     same_request_event_id_is_atomic_replay sample_site_key;
     assertion_jti_conflict_is_atomic sample_site_key 60000] =
  repeat (Some tt) 5.
Proof. vm_compute. reflexivity. Qed.
