(* ===== verification/Answered.v ===== *)
(** * What happens when nothing fails

    The specifications of the handlers list every way a call can end.  Here: when
    the surroundings work and the tables hold nothing that stands in the way, only
    one is left. *)

From S2P Require Import Prelude Errors Constants Utf8 Validation Base64url Json Jcs Strict Crypto Keys.
From S2P Require Import Wire Metadata Registration Assertion Revocation Matrix Documents Ssrf Site Tables.
From S2P Require Import Statements World Spec Db Register Login Queue Http Invariant Rows LoginSpec QueueSpec.
From stdpp Require Import gmap sorting.
#[local] Open Scope Z_scope.
#[local] Set Warnings "-clear-no-such-hyp".

(** No row's version is at the end of its type. *)
Definition versions_left (d : Db) : Prop := Forall (fun s => s_version s < i32_max) (db_sessions d).

Lemma version_left d s : versions_left d -> s ∈ db_sessions d -> ~ i32_max <= s_version s.
Proof. unfold versions_left. rewrite Forall_forall. intros Hv Hs. specialize (Hv s Hs). lia. Qed.

Section Answered.
Context `{Base64Laws} `{CryptoLaws} `{JsonTextLaws} `{JsonReader} `{Env} `{!EnvLaws}.
Variables (state : AppState) (d : Db) (ns : list OutboundNotice) (ps : list SitePost).
Hypothesis HF : ~ fault.

(** A registration whose site serves one document, which verifies it, and that
    conflicts with nothing, creates its session. *)
Lemma register_goes r m res o :
  register_post state r d ns ps res o ->
  registration_valid r -> registration_wf r -> (forall k, env_now k < reg_exp r) ->
  (forall k, @site_fetch_metadata (env_site k) (reg_domain r) = Ok m) ->
  (exists b, qr_canonical r = Ok b /\ verify (meta_public_key m) b (reg_qr_signature r) = Ok tt) ->
  (exists b, registration_canonical r = Ok b /\
     verify (meta_public_key m) b (reg_registration_signature r) = Ok tt) ->
  is_Some (env_timestamp_millis (i64_add (reg_exp r) REPLAY_GRACE_MS)) ->
  (forall s, s ∈ db_sessions d -> s_domain s = reg_domain r ->
     s_session_id s <> reg_session_id r /\
     keyed_hash (st_lookup_pepper state) (as_bytes (reg_nonce r)) <> Ok (s_nonce_hash s)) ->
  res = Ok (registration_response r, true) /\ o_tx o = None /\ o_notices o = ns /\ o_posts o = ps /\
  registered state r d (o_db o).
Proof.
  intros (Ht & Hn & Hp & Hr) Hv Hwf Hlive Hsite (b & Eb & Vb) (b' & Eb' & Vb') [x Hx] Hfree.
  assert (Hm : forall m', (exists k, @site_fetch_metadata (env_site k) (reg_domain r) = Ok m') -> m' = m).
  { intros m' (k & Hk). rewrite Hsite in Hk. by injection Hk. }
  destruct res as [[resp []]|e].
  - destruct Hr as [-> Hr]. done.
  - destruct Hr as (_ & _ & m' & n & s & _ & _ & Hs & Hby & _). exfalso.
    unfold by_session in Hby. apply andb_true_iff in Hby as [Hd%String.eqb_eq Hsid%String.eqb_eq].
    by destruct (Hfree s Hs Hd).
  - exfalso. destruct Hr as [He [_|(Hf & _)]]; [|done].
    destruct He as [e He|k Hk|k e He|m' k c Hk Hsig|He|m' n s Ha Hn' Hs Hc|He|Hf]; try done.
    + apply validate_Ok in Hv; [congruence|apply Hwf..].
    + specialize (Hlive k). lia.
    + by rewrite Hsite in He.
    + assert (m' = m) as -> by eauto. destruct Hsig as [[Ec Hc]|[Ec Hc]]; apply Hc; congruence.
    + congruence.
    + destruct Hn' as (nh & nct & rh & ser & -> & Hnh & _). specialize (Hc 0 0). unfold session_conflict in Hc.
      cbn in Hc. apply andb_true_iff in Hc as [Hd%String.eqb_eq Hc]. apply orb_true_iff in Hc.
      destruct (Hfree s Hs (eq_sym Hd)) as [Hsid Hnonce].
      destruct Hc as [Hc%String.eqb_eq|Hc%bool_decide_eq_true]; congruence.
    + destruct (List.filter _ _) as [|s l] eqn:El; [cbn in He; lia|].
      assert (Hin : In s (List.filter (by_session (reg_domain r) (reg_session_id r)) (db_sessions d)))
        by (rewrite El; by left).
      apply filter_In in Hin as [Hs Hby]. unfold by_session in Hby.
      apply andb_true_iff in Hby as [Hd%String.eqb_eq Hsid%String.eqb_eq].
      destruct (Hfree s); [by apply list_elem_of_In|done|done].
Qed.

(** A request for an open session is answered by its challenge. *)
Lemma request_goes ev sid nonce t domain s r o :
  request_post state ev sid nonce t domain d ns ps r o ->
  (forall k, request_open state sid nonce t domain (env_now k) d s) ->
  db_request_events d !! ev_event_id ev = None ->
  (forall n h, hash state (Base64url.encode (env_rand n 16)) h -> db_challenge_hashes d !! h = None) ->
  ~ oversize (ev_room_id ev) -> ~ oversize (ev_sender ev) -> versions_left d ->
  r = Ok Sent /\ o_tx o = None /\ o_posts o = ps /\
  exists body, issued state ev sid nonce t domain d (o_db o) body /\
    o_notices o = ns ++ [{| n_room_id := ev_room_id ev; n_body := body |}].
Proof.
  intros (Ht & Hp & Hr) Hopen Hev Hfresh Hroom Hsender Hver. destruct r as [[]|e]; [| |exfalso].
  - destruct Hr as (_ & _ & k & Hno). by destruct (Hno s).
  - done.
  - destruct Hr as [(He & _)|(Hf & _)]; [|done].
    destruct He as [Hf|[? Hx]|n h Hh [? Hx]|[?|?]|s' Hs' Hv]; try done; try congruence.
    + by rewrite (Hfresh n h Hh) in Hx.
    + by destruct (version_left d s').
Qed.

(** An approving consent to a session's challenge leads to its assertion. *)
Lemma consent_goes ev sid nonce t display challenge key_id signature s r o :
  consent_post state ev sid nonce t (Some display) challenge key_id signature d ns ps r o ->
  consent_signed sid nonce t (Some display) challenge key_id signature ->
  session_named state sid nonce d s ->
  (forall s', session_named state sid nonce d s' -> s' = s) ->
  (forall k, consent_timely s t (env_now k)) -> consent_bound state ev challenge s ->
  db_consent_events d !! ev_event_id ev = None ->
  (forall n, db_assertion_jtis d !! Base64url.encode (env_rand n 16) = None) ->
  ~ oversize (ev_sender ev) -> versions_left d ->
  r = Ok Sent /\ o_tx o = None /\ o_posts o = ps /\ o_notices o = ns /\
  exists k sub bytes subject_hash subject_ct user_ct display_ct assertion_ct n gid jid due,
    let jti := Base64url.encode (env_rand n 16) in
    minted state ev s nonce display jti (env_now k) sub bytes /\
    decrypt (st_at_rest state) assertion_ct = Ok bytes /\
    o_db o = consented state ev s jti subject_hash subject_ct user_ct display_ct assertion_ct gid jid
               (env_db_now due) d.
Proof.
  intros (Ht & Hp & Hr) Hsig Hnamed Honly Htime Hbound Hev Hjti Hsize Hver.
  destruct r as [[]|e]; [exfalso| |exfalso].
  - destruct Hr as (_ & _ & _ & s' & ->%Honly & Hno). by destruct Hno.
  - destruct Hr as (_ & l & Ho & Hl). split; [done|]. split; [done|]. split; [done|].
    inversion Ho as [s' k n Hs' Hlate Hn|
      |s' k dn sub bytes sh sct uct dct act n gid jid due jti Edn Hs' _ _ _ _ Hm _ _ _ _ Hact]; subst; try done.
    { apply Honly in Hs' as ->. by destruct Hlate. }
    apply Honly in Hs' as ->. injection Edn as <-. rewrite Hl, app_nil_r. split; [done|].
    exists k, sub, bytes, sh, sct, uct, dct, act, n, gid, jid, due. exact (conj Hm (conj Hact eq_refl)).
  - destruct Hr as [(Hns & _)|[(_ & He & _)|(_ & Hf & _)]]; [done| |done].
    destruct He as [Hf|Hno|s1 s2 ->%Honly ->%Honly Hne|[? Hx]|n [? Hx]|Hx|s' Hs' Hv]; try done.
    + by destruct (Hno s).
    + congruence.
    + by rewrite Hjti in Hx.
    + by destruct (version_left d s').
Qed.

(** An assertion that a site accepts closes its session and is told in the room of
    the request. *)
Lemma delivery_goes j p a s nonce room r o :
  delivery_post state j d ns ps r o -> db_wf d ->
  post_of state j = Some p -> j_kind j = "assertion" ->
  (forall k, exists resp, @site_post_json (env_site k) (po_domain p) (po_path p) (po_body p) (po_key p) =
     Ok resp /\ (sr_status resp = 202 \/ sr_status resp = 200)) ->
  from_slice assertion_from_value (po_body p) = Ok a ->
  s ∈ db_sessions d -> matching (j_domain j) (j_session_id j) (j_nonce_hash j) s = true ->
  open_text state (Some (s_nonce_ciphertext s)) = Some nonce ->
  open_text state (s_request_room_ciphertext s) = Some room ->
  (forall k, exists body,
     Matrix.encode (Matrix.Result (j_session_id j) nonce (env_now k) true (Some (a_sub a)) None) = Ok body) ->
  s_version s < i32_max ->
  r = Ok tt /\ o_tx o = None /\ o_posts o = ps ++ [p] /\ o_db o = delivered s d /\
  exists n, success_notice state s j a n /\ o_notices o = ns ++ [n].
Proof.
  intros Hpost Hd Hp Hkind Hsite Ha Hs Hm Hnonce Hroom Henc Hver.
  assert (Honly : forall s', s' ∈ db_sessions d -> matching (j_domain j) (j_session_id j) (j_nonce_hash j) s' = true ->
    s' = s).
  { intros s' Hs' (E1 & E2 & _)%matching_spec. apply matching_spec in Hm as (E3 & E4 & _).
    apply (key_inj session_key (db_sessions d)); [apply Hd|done..|]. unfold session_key. congruence. }
  unfold delivery_post in Hpost. rewrite Hp, Hkind in Hpost. destruct Hpost as (k & Hk).
  destruct (Hsite k) as (resp & Er & Hst). rewrite Er in Hk.
  replace ((sr_status resp =? 202) || (sr_status resp =? 200)) with true in Hk
    by (destruct Hst as [-> | ->]; done).
  destruct Hk as (Ht & Hps & l & Ho & Hl).
  destruct Ho as [s' a' n Ha' Hs' Hm' Hn|Hno|e He|s' Hs' Hm' Hc|s' a' nonce' k' e Ha' Hs' Hm' Hn' _ He|e d' l Hf _].
  - assert (s' = s) as -> by auto. assert (a' = a) as -> by congruence. split_and!; try done. eauto.
  - by destruct (Hno s).
  - congruence.
  - assert (s' = s) as -> by auto. exfalso. destruct Hc as [Hc|[Hc|Hc]]; [congruence|congruence|lia].
  - assert (s' = s) as -> by auto. exfalso. destruct (Henc k') as [body Hb].
    assert (a' = a) as -> by congruence. assert (nonce' = nonce) as -> by congruence. congruence.
  - done.
Qed.

(** ** A tick with one job to do *)

(** All jobs but the last are done. *)
Definition only_pending (j : DeliveryJob) : Prop :=
  exists js, db_jobs d = js ++ [j] /\ Forall (fun x => j_status x <> "pending") js /\
    j_status j = "pending".

Lemma claim_only now j due :
  unique d -> only_pending j -> j_next_retry_at j = Some due -> due <= now -> j_attempts j < i32_max ->
  exists js, db_jobs d = js ++ [j] /\ Forall (fun x => j_id x <> j_id j) js /\
    claim now 10 d = Ok ([attempt now j], set_jobs (js ++ [attempt now j]) d).
Proof.
  intros U (js & Ejs & Hjs & Hj) Hnext Hdue Hatt. exists js. split; [done|].
  assert (Hids : Forall (fun x => j_id x <> j_id j) js).
  { pose proof (u_job_id d U) as Hnd. rewrite Ejs, map_app in Hnd. apply NoDup_app in Hnd as (_ & Hnd & _).
    apply Forall_forall. intros x Hx E. apply (Hnd (j_id x)); [by apply list_elem_of_fmap_2|].
    rewrite E. left. }
  split; [done|]. rewrite Forall_forall in Hjs, Hids.
  assert (Hdue' : job_due now j = true)
    by (unfold job_due; rewrite Hj, Hnext; by destruct (Z.leb_spec due now); [|lia]).
  assert (Hhits : List.filter (job_due now) (db_jobs d) = [j]).
  { rewrite Ejs, List.filter_app, filter_none; [cbn; by rewrite Hdue'|]. apply Forall_forall.
    intros x Hx%Hjs. unfold job_due. by destruct (String.eqb_spec (j_status x) "pending"). }
  unfold claim, claimed. rewrite Hhits. change (merge_sort job_le [j]) with [j].
  change (List.map j_id (take (Z.to_nat 10) [j])) with [j_id j]. rewrite Ejs, List.filter_app, List.map_app.
  assert (Hoff : forall x, x ∈ js -> bool_decide (j_id x ∈ [j_id j]) = false).
  { intros x Hx. apply bool_decide_eq_false. intros ?%list_elem_of_singleton. by apply (Hids x). }
  rewrite filter_none by (apply Forall_forall; auto).
  assert (Hon : bool_decide (j_id j ∈ [j_id j]) = true) by (apply bool_decide_eq_true; left).
  cbn [app List.filter List.map]. rewrite Hon. cbn [existsb List.map].
  destruct (Z.ltb_spec i32_max (j_attempts j + 1)) as [|_]; [lia|]. cbn [orb]. do 3 f_equal. f_equal.
  rewrite List.map_app. cbn [List.map]. rewrite Hon. f_equal.
  rewrite <- (List.map_id js) at 2. apply map_ext_in. intros x Hx%list_elem_of_In. by rewrite Hoff.
Qed.

(** The rows with the identifier of the last one are the last one. *)
Lemma mark_last st js j :
  Forall (fun x => j_id x <> j_id j) js ->
  List.map (fun x => if j_id x =? j_id j then set_status st x else x) (js ++ [j]) = js ++ [set_status st j].
Proof.
  intros Hjs. rewrite List.map_app. cbn [List.map]. rewrite Z.eqb_refl. f_equal.
  rewrite <- (List.map_id js) at 2. apply map_ext_in. intros x Hx%list_elem_of_In.
  rewrite Forall_forall in Hjs. by destruct (Z.eqb_spec (j_id x) (j_id j)) as [E|]; [destruct (Hjs x Hx)|].
Qed.
End Answered.

Section Tick.
Context `{Base64Laws} `{CryptoLaws} `{JsonTextLaws} `{JsonReader} `{Env} `{!EnvLaws}.
Variable state : AppState.

(** The one due job is delivered and closed. *)
Lemma tick_goes d ns ps j due p a s nonce room :
  ~ fault -> db_wf d -> only_pending d j ->
  j_next_retry_at j = Some due -> (forall k, due <= env_db_now k) -> j_attempts j < i32_max ->
  post_of state j = Some p -> j_kind j = "assertion" ->
  (forall k, exists resp, @site_post_json (env_site k) (po_domain p) (po_path p) (po_body p) (po_key p) =
     Ok resp /\ (sr_status resp = 202 \/ sr_status resp = 200)) ->
  from_slice assertion_from_value (po_body p) = Ok a ->
  s ∈ db_sessions d -> matching (j_domain j) (j_session_id j) (j_nonce_hash j) s = true ->
  open_text state (Some (s_nonce_ciphertext s)) = Some nonce ->
  open_text state (s_request_room_ciphertext s) = Some room ->
  (forall k, exists body,
     Matrix.encode (Matrix.Result (j_session_id j) nonce (env_now k) true (Some (a_sub a)) None) = Ok body) ->
  s_version s < i32_max ->
  spec (MkObs d None ns ps) (process_once state) (fun r o =>
    r = Ok tt /\ o_tx o = None /\ o_posts o = ps ++ [p] /\
    (exists n, success_notice state s j a n /\ o_notices o = ns ++ [n]) /\
    db_sessions (o_db o) = db_sessions (delivered s d) /\
    exists js now, db_jobs (o_db o) = js ++ [set_status "delivered" (attempt now j)]).
Proof.
  intros HF Hd Honly Hnext Hdue Hatt Hp Hkind Hsite Ha Hs Hm Hnonce Hroom Henc Hver.
  unfold process_once, tick, claim_due. spec_step. apply spec_pool_exec; [by intros ?%HF|]. intros n.
  destruct (claim_only d (env_db_now n) j due (proj1 Hd) Honly Hnext (Hdue n) Hatt) as (js & Ejs & Hids & Ec).
  unfold auto_run, auto_returned. rewrite Ec. split; [|by intros ?%HF].
  pose proof (env_returning_all n [attempt (env_db_now n) j]) as Hone.
  apply Permutation_singleton_r in Hone. rewrite Hone. cbn [run_jobs]. set (j' := attempt (env_db_now n) j).
  set (d' := set_jobs _ d). unfold run_job.
  do 2 spec_step. apply spec_try.
  assert (Hd' : db_wf d').
  { destruct Hd as [U Hr]. split; [|exact Hr]. exact (unique_auto_run (Claim 10) _ _ _ _ U Ec). }
  eapply spec_mono; [|by apply deliver_spec]. intros r o Hpost.
  apply (delivery_goes state d' ns ps HF j' p a s nonce room) in Hpost; try done.
  destruct Hpost as (-> & Htx & Hps & Hdb & Hn). destruct o as [db tx nos pos].
  cbn [o_tx o_posts o_db o_notices] in *. subst tx pos db.
  unfold mark_delivered. spec_step. apply spec_pool_exec; [by intros ?%HF|]. intros n'.
  split; [|by intros ?%HF]. do 2 spec_step. split_and!; try done.
  exists js, (env_db_now n). exact (mark_last "delivered" js j' Hids).
Qed.
End Tick.
