(* ===== verification/Window.v ===== *)
(** * The steps of a handler

    A handler asks its environment only at the steps it takes itself.  So what is
    proved of it in every environment holds with the answers of those steps: an
    outcome that speaks of a reading of the clock, a drawn token or a fault speaks
    of one of the handler's own ([during]), and hypotheses on the surroundings are
    needed only from its first step on ([since]). *)

From S2P Require Import Prelude Errors Constants Utf8 Base64url Json Strict Crypto Keys Metadata.
From S2P Require Import Registration Ssrf Site Tables Statements World Spec Db Invariant Rows System.
From S2P Require Import Concurrent Serial Interleaving.
#[local] Set Warnings "-clear-no-such-hyp".

(** A step that is not in a range is replaced by the first of the range. *)
Definition within (a b n : nat) : nat := if (a <=? n)%nat && (n <? b)%nat then n else a.

(** The answers the environment gave between two worlds. *)
Definition during `{E : Env} (w w' : World) : Env := reindex (within (w_step w) (w_step w')) E.

(** The answers it gives from a world on. *)
Definition since `{E : Env} (w : World) : Env := reindex (Nat.max (w_step w)) E.

Lemma within_id a b n : (a <= n < b)%nat -> within a b n = n.
Proof.
  intros [Ha Hb]. unfold within. by rewrite (proj2 (Nat.leb_le _ _) Ha), (proj2 (Nat.ltb_lt _ _) Hb).
Qed.

Lemma within_range a b n : (a < b)%nat -> (a <= within a b n < b)%nat.
Proof.
  intros Hab. unfold within. destruct (Nat.leb_spec a n), (Nat.ltb_spec n b); cbn; lia.
Qed.

Section Window.
Context {E : Env}.

Lemma perform_steps {X} (o : Op X) w : w_step (perform o w).2 = S (w_step w).
Proof. unfold perform. by rewrite perform_step. Qed.

Lemma run_steps {A} (m : M A) w : (w_step w <= w_step (snd (m w)))%nat.
Proof.
  revert w. induction m as [r|X o k IH]; intros w; [done|]. cbn.
  pose proof (perform_steps o w) as Hs. destruct (perform o w) as [x w1]. cbn in Hs.
  specialize (IH x w1). lia.
Qed.

(** The same run wherever the environment answers the run's own steps alike. *)
Lemma run_same f {A} (m : M A) w :
  (forall n, (w_step w <= n < w_step (snd (@run E A m w)))%nat -> f n = n) ->
  @run (reindex f E) A m w = @run E A m w.
Proof.
  revert w. induction m as [r|X o k IH]; intros w Hf; [done|]. cbn in *. unfold perform in *.
  rewrite perform_reindex. pose proof (perform_steps o w) as Hs. unfold perform in Hs.
  destruct (perform_at o (w_step w) (bump w)) as [x w1] eqn:Ep. cbn in Hs.
  pose proof (run_steps (k x) w1) as Hle. rewrite (Hf (w_step w)) by lia. rewrite Ep.
  apply IH. intros n Hn. apply Hf. lia.
Qed.

Lemma run_during {A} (m : M A) w :
  @run (during w (snd (m w))) A m w = m w.
Proof. apply run_same. intros n Hn. by apply within_id. Qed.

Lemma run_since {A} (m : M A) w0 w :
  (w_step w0 <= w_step w)%nat -> @run (since w0) A m w = m w.
Proof. intros Hle. apply run_same. intros n Hn. lia. Qed.
End Window.

(** ** Rules with the answers of a window *)

Section Laws.
Context `{Base64} `{Crypto} `{JsonText} {E : Env} `{!EnvLaws (H2 := E)}.

Lemma window_laws f : EnvLaws (H2 := reindex f E).
Proof. apply reindex_laws. assumption. Qed.

Lemma window_db_wf f d : db_wf (H := E) d -> db_wf (H := reindex f E) d.
Proof. intros [U Hr]. split; [done|]. eapply Forall_impl; [done|]. by intros s []. Qed.

(** A rule that holds in the environments with other step numbers, in a world the
    relay can be in. *)
Lemma spec_same f {A} (m : M A) w (Q : result A -> Obs -> Prop) :
  (forall n, (w_step w <= n < w_step (snd (m w)))%nat -> f n = n) ->
  @spec (reindex f E) A (obs w) m Q -> Q (fst (m w)) (obs (snd (m w))).
Proof. intros Hf Hm. rewrite <- (run_same f m w Hf). by apply Hm. Qed.
End Laws.
