(* ===== verification/Relay.v ===== *)
(** * What the relay guarantees

    The properties of the running relay: of every reachable world, and of every
    handler in a reachable world, on every branch and under every failure of its
    surroundings. *)

From S2P Require Import Prelude Errors Constants Utf8 Validation Base64url Json JsonRfc Jcs.
From S2P Require Import Strict StrictRfc Crypto CryptoToy Keys Wire Metadata Registration.
From S2P Require Import Assertion Revocation Matrix RoomPolicy Documents Ssrf Site Tables Statements.
From S2P Require Import World Spec Db Register Login Queue Http Invariant Rows LoginSpec.
From S2P Require Import QueueSpec HttpSpec Sync System History Concurrent Serial Answered Window Scenario.
From stdpp Require Import gmap sorting.
#[local] Open Scope Z_scope.
#[local] Set Warnings "-clear-no-such-hyp".

Section Helpers.
Context `{Base64Laws} `{CryptoLaws} `{JsonTextLaws} `{JsonReader} `{!JsonReaderLaws} `{Env} `{!EnvLaws}.
Variable state : AppState.
Hypothesis Hstate : state_wf state.

(** A reachable world has no transaction open and tables the handlers can use. *)
Lemma reachable_obs tr w :
  reachable state tr w -> obs w = MkObs (w_db w) None (w_notices w) (w_posts w) /\ db_wf (w_db w).
Proof.
  intros [Hk [Ht Hd _]]%inv_reachable; [|done]. cbn in Ht. split; [unfold obs; by rewrite Ht|].
  eapply origin_db_wf; [apply Hk|done].
Qed.

(** A rule applied in a reachable world. *)
Lemma in_world {A} tr w (m : M A) (Q : result A -> Obs -> Prop) :
  reachable state tr w ->
  (db_wf (w_db w) -> spec (MkObs (w_db w) None (w_notices w) (w_posts w)) m Q) ->
  Q (fst (m w)) (obs (snd (m w))).
Proof. intros [Ho Hd]%reachable_obs Hm. by apply (Hm Hd). Qed.

(** The same with the answers of the handler's own steps, for a part of the handler
    with those of the whole, and with those from its first step on. *)
Lemma in_during {A} tr w (m : M A) (Q : Env -> result A -> Obs -> Prop) :
  reachable state tr w ->
  (forall f, EnvLaws (H2 := reindex f H7) -> db_wf (H := reindex f H7) (w_db w) ->
     @spec (reindex f H7) A (MkObs (w_db w) None (w_notices w) (w_posts w)) m (Q (reindex f H7))) ->
  Q (during w (snd (m w))) (fst (m w)) (obs (snd (m w))).
Proof.
  intros [Ho Hd]%reachable_obs Hm. eapply spec_same; [|rewrite Ho; apply Hm].
  - intros n Hn. by apply within_id.
  - apply window_laws.
  - by apply window_db_wf.
Qed.

Lemma in_part {A} w w1 o (m : M A) (Q : Env -> result A -> Obs -> Prop) :
  obs w1 = o -> (w_step w <= w_step w1)%nat ->
  (forall f, EnvLaws (H2 := reindex f H7) -> @spec (reindex f H7) A o m (Q (reindex f H7))) ->
  Q (during w (snd (m w1))) (fst (m w1)) (obs (snd (m w1))).
Proof.
  intros Ho Hle Hm. eapply spec_same; [|rewrite Ho; apply Hm, window_laws].
  intros n Hn. apply within_id. lia.
Qed.

Lemma in_since {A} tr w (m : M A) (Q : Env -> result A -> Obs -> Prop) :
  reachable state tr w ->
  (forall f, EnvLaws (H2 := reindex f H7) -> db_wf (H := reindex f H7) (w_db w) ->
     @spec (reindex f H7) A (MkObs (w_db w) None (w_notices w) (w_posts w)) m (Q (reindex f H7))) ->
  Q (since w) (fst (m w)) (obs (snd (m w))).
Proof.
  intros [Ho Hd]%reachable_obs Hm. eapply spec_same; [|rewrite Ho; apply Hm].
  - intros n Hn. lia.
  - apply window_laws.
  - by apply window_db_wf.
Qed.

(** The message of an accepted event reaches its handler. *)
Lemma dispatched ev msg :
  accepted_event state ev -> Matrix.decode (ev_body ev) = Ok msg ->
  match msg with
  | Matrix.Request sid nonce t domain =>
      handle_inbound state ev = process_request state ev sid nonce t domain
  | Matrix.Consent sid nonce t ap dn c key sg =>
      handle_inbound state ev = process_consent state ev sid nonce t ap dn c key sg
  | Matrix.Revocation sid nonce _ account reason =>
      handle_inbound state ev = process_revocation state ev sid nonce account reason
  | _ => True
  end.
Proof.
  intros (Hr & Hd & Hs & Hroom) Hm. unfold handle_inbound. rewrite Hr, Hd, Hroom, Hm.
  apply String.eqb_neq in Hs. rewrite Hs. cbn. by destruct msg.
Qed.

(** The session after a consent. *)
Lemma consented_sessions ev s jti sh sct uct dct act gid jid due d :
  db_sessions (consented state ev s jti sh sct uct dct act gid jid due d) =
  db_sessions (patched s (consent_patch (ev_event_id ev) dct jti act) d).
Proof. unfold consented. rewrite insert_job_sessions. cbn. by rewrite upsert_sessions. Qed.
End Helpers.

(** ** Safety of reachable worlds *)

(** C1: Every request the relay ever sends to a site has a cause among the events
    before it: an assertion goes to [/pseud0/web-login/assertions] of the domain
    of a session which that site registered over HTTP under two valid signatures
    of its own key, for which a user asked from an encrypted two-person room,
    and to whose challenge, drawn by the relay, the same user in the same room
    sent a consent that approves, names the user and carries a valid P-256
    signature, while the session was live; its body is the relay's signature
    over that login, its idempotency key the token id.  A revocation goes to
    the site only after the user whose pairwise account it names asked for it. *)
Theorem posts_authorized `{Base64Laws} `{CryptoLaws} `{JsonTextLaws} `{JsonReader}
    `{!JsonReaderLaws} `{Env} `{!EnvLaws} state tr w p :
  state_wf state -> reachable state tr w -> p ∈ w_posts w -> post_origin state tr p.
Proof.
  intros Hs Hw Hp. destruct (inv_reachable state Hs tr w Hw) as [_ [_ _ Hps]]. cbn in Hps.
  rewrite Forall_forall in Hps. auto.
Qed.

(** C2: A site that receives an assertion can check it with the published key:
    the body is the JSON of an assertion of version 1 from the relay to that very
    domain, its token id is the idempotency key of the request, it is valid from
    its issue for at most 300000 ms, and its signature verifies under the public
    key of the relay's JWKS document. *)
Theorem posted_assertions_verify `{Base64Laws} `{CryptoLaws} `{JsonTextLaws} `{JsonReader}
    `{!JsonReaderLaws} `{Env} `{!EnvLaws} state tr w p :
  state_wf state -> reachable state tr w -> p ∈ w_posts w -> po_path p = ASSERTION_PATH ->
  exists a text x,
    Assertion.to_bytes a = Ok (po_body p) /\ Assertion.canonical_without_signature a = Ok text /\
    a_version a = 1 /\ a_iss a = RELAY_ORIGIN /\ a_aud a = po_domain p /\ po_key p = Some (a_jti a) /\
    a_nbf a = a_iat a /\ a_iat a <= a_exp a <= a_iat a + 300000 /\ a_kid a = st_signing_kid state /\
    ("x", json_str x) ∈ jwk_fields state /\
    verify x (as_bytes text) (a_signature a) = Ok tt.
Proof.
  intros Hs Hw Hp Hpath. destruct (inv_reachable state Hs tr w Hw) as [_ [_ _ Hps]]. cbn in Hps.
  rewrite Forall_forall in Hps. destruct (Hps p Hp) as (sid & nh & jti & [(_ & Hkey & Ho)|(E & _)]).
  2: { rewrite Hpath in E. discriminate E. }
  destruct Ho as (user & display & nonce & now & exp & sub & a & _ & Hexp & _ & Hsign & Hb).
  apply Assertion.assertion_sign_Ok in Hsign as (_ & text & Ht & Ea).
  exists a, text, (Base64url.encode (public_key_raw (st_signing_key state))).
  subst a. cbn [a_version a_iss a_aud a_jti a_nbf a_iat a_exp a_kid a_signature].
  split_and!; try done; try lia.
  - unfold jwk_fields. right. right. left.
  - exact (verify_sign _ _ [] (sw_key _ Hs) (or_introl eq_refl)).
Qed.

(** Every row has its cause too: a session was registered by the site it names
    and is well formed, its challenge answers a request for it and its columns
    hold that request's room and sender; a grant belongs to a user who consented;
    a job's payload opens to an authorized assertion or revocation. *)
Lemma tables_authorized `{Base64Laws} `{CryptoLaws} `{JsonTextLaws} `{JsonReader}
    `{!JsonReaderLaws} `{Env} `{!EnvLaws} state tr w :
  state_wf state -> reachable state tr w -> db_origin state tr (w_db w) /\ w_tx w = None.
Proof. intros Hs Hw. by destruct (inv_reachable state Hs tr w Hw) as [_ [Ht Hd _]]. Qed.

(** Whatever fails, the keys of the tables stay unique: session ids, a domain's
    session and nonce, grant ids, a domain's accounts, job ids and token ids; no
    transaction is left open between events. *)
Lemma keys_unique `{Base64} `{Crypto} `{JsonText} `{JsonReader} `{Env} state tr w :
  reachable state tr w -> unique (w_db w) /\ below (w_seqs w) (w_db w).
Proof.
  intros Hw. assert (Hk : keyed_world w) by (induction Hw; [apply keyed_initial|by apply keyed_step]).
  apply Hk.
Qed.

(** Nothing is undone in any number of steps: sessions, grants, jobs and the
    entries of the replay ledgers stay; what registration wrote into a session
    never changes; versions and attempts only grow; and once a session has a
    challenge, the challenge, its expiry, event, room and sender are final. *)
Lemma history_kept `{Base64Laws} `{CryptoLaws} `{JsonTextLaws} `{JsonReader}
    `{!JsonReaderLaws} `{Env} `{!EnvLaws} state tr w w' :
  state_wf state -> reachable state tr w -> steps state w w' -> evolves (w_db w) (w_db w').
Proof. intros Hs. by apply evolves_steps. Qed.

(** C6: The rows refine the life cycle of Rows.v: every session was registered and
    got to its phase by moves of that machine, and by such moves, keeping its
    identity, gets to its phase in any later world.  So its state is one of six
    names, a session has a challenge except in SITE_REGISTERED or when it was
    revoked before its challenge, and nothing ever expires or cancels a row. *)
Theorem lifecycle_refined `{Base64Laws} `{CryptoLaws} `{JsonTextLaws} `{JsonReader}
    `{!JsonReaderLaws} `{Env} `{!EnvLaws} state tr w w' s :
  state_wf state -> reachable state tr w -> steps state w w' -> s ∈ db_sessions (w_db w) ->
  rtc move registered_phase (phase s) /\ phase_ok (phase s) /\
  exists s', s' ∈ db_sessions (w_db w') /\ session_key s' = session_key s /\
    rtc move (phase s) (phase s').
Proof.
  intros Hs Hw Hst Hin. destruct (reachable_obs state Hs tr w Hw) as [_ Hwf].
  pose proof (rw_phase s (db_wf_row _ s Hwf Hin)) as Hp. split; [done|]. split; [by apply phases_ok|].
  destruct (ev_sessions _ _ (evolves_steps state Hs tr w w' Hw Hst) s Hin) as (s' & Hin' & [_ Hc _ Hm _]).
  exists s'. split_and!; try done. injection Hc as E1 E2. unfold session_key. congruence.
Qed.

(** C13: A session is challenged once: in no later world does a request for it
    produce another challenge, whatever its event id, and no request with an
    event id that was spent before produces one, for any session. *)
Theorem challenged_once `{Base64Laws} `{CryptoLaws} `{JsonTextLaws} `{JsonReader}
    `{!JsonReaderLaws} `{Env} `{!EnvLaws} state tr w w' ev sid nonce t domain :
  state_wf state -> reachable state tr w -> steps state w w' ->
  accepted_event state ev -> Matrix.decode (ev_body ev) = Ok (Matrix.Request sid nonce t domain) ->
  (is_Some (db_request_events (w_db w) !! ev_event_id ev) \/
   exists s, s ∈ db_sessions (w_db w) /\ s_domain s = domain /\ s_session_id s = sid /\
     is_Some (s_challenge_hash s)) ->
  w_db (snd (handle_inbound state ev w')) = w_db w' /\
  w_notices (snd (handle_inbound state ev w')) = w_notices w' /\
  fst (handle_inbound state ev w') <> Ok Sent.
Proof.
  intros Hs Hw Hst Hacc Hm Hspent. pose proof (evolves_steps state Hs tr w w' Hw Hst) as He.
  destruct (reachable_steps state tr w w' Hw Hst) as [tr' Hw'].
  pose proof (dispatched state ev _ Hacc Hm) as Hd. cbv beta iota in Hd. rewrite Hd.
  pose proof Hm as (_ & Hok & _)%decode_message_Ok.
  assert (Hno : forall d' body, ~ issued state ev sid nonce t domain (w_db w') d' body).
  { intros d' body (s' & h & rct & sct & k & n & (Hin & Hdom & Hsid & _ & _ & _ & Hnone) & _ & _ & _ & Hev & _).
    destruct Hspent as [[e Hsp]|(s & Hin0 & Hdom0 & Hsid0 & [h0 Hh])].
    - pose proof (lookup_weaken _ _ _ _ Hsp (ev_ledgers _ _ He RequestEvents)) as Hx. cbn in Hx. congruence.
    - destruct (ev_sessions _ _ He s Hin0) as (s1 & Hin1 & [_ Hcore _ _ Hch]).
      assert (s1 = s') as ->.
      { destruct (reachable_obs state Hs tr' w' Hw') as [_ [U _]].
        apply (key_inj session_key (db_sessions (w_db w'))); [apply U|done|done|].
        injection Hcore as E1 E2. unfold session_key. congruence. }
      assert (Hc : challenge_of_row s' = challenge_of_row s) by (apply Hch; by exists h0).
      injection Hc as Hc _ _ _ _. congruence. }
  pose proof (in_world state Hs tr' w' (process_request state ev sid nonce t domain) _ Hw'
    (fun Hd => request_spec state ev sid nonce t domain _ _ _ Hs Hd (proj1 (proj2 Hok)))) as (_ & _ & Hr).
  destruct (fst _) as [[]|e].
  - by destruct Hr as (Edb & Ens & _).
  - destruct Hr as (body & Hb & _). by destruct (Hno _ _ Hb).
  - destruct Hr as [(_ & Edb & Ens)|(_ & body & Hb & _)]; [done|by destruct (Hno _ _ Hb)].
Qed.

(** ** The handlers, on every branch

    Each conclusion is stated with the environment [during w w']: its clock, random
    bytes, faults and the site's answers are those of the handler's own steps, from the
    world it starts in to the one it ends in. *)

(** C10: [register_session] in a reachable world: it creates the session exactly when
    the request is well formed, live, of a domain whose metadata is valid, with
    both signatures under that metadata's key, and conflicts with no session; it
    answers a repeated registration with the stored one only if it is identical;
    every refusal has its listed cause among the call's own steps and changes nothing;
    nothing is sent. *)
Theorem register_exact `{Base64Laws} `{CryptoLaws} `{JsonTextLaws} `{JsonReader}
    `{!JsonReaderLaws} `{Env} `{!EnvLaws} state tr w r :
  state_wf state -> reachable state tr w -> registration_wf r ->
  let w' := snd (register_session state r w) in
  register_post (H5 := during w w') state r (w_db w) (w_notices w) (w_posts w)
    (fst (register_session state r w)) (obs w').
Proof.
  intros Hs Hw Hr. apply (in_during state Hs tr w _ (fun E' => register_post (H5 := E') state r _ _ _) Hw).
  intros f HE _. exact (register_spec (H5 := reindex f _) state r _ _ _ (sw_at_rest _ Hs) Hr).
Qed.

(** C8: A request from an accepted event: the relay issues a challenge exactly for a
    live session that the message names with its nonce and domain and that has
    none, reserving the event and the challenge, sealing room and sender, and
    sends it in one notice to that room; otherwise nothing changes; every error
    has its listed cause among the handler's own steps, and only a fault there can
    separate the commit from the notice. *)
Theorem request_exact `{Base64Laws} `{CryptoLaws} `{JsonTextLaws} `{JsonReader}
    `{!JsonReaderLaws} `{Env} `{!EnvLaws} state tr w ev sid nonce t domain :
  state_wf state -> reachable state tr w ->
  accepted_event state ev -> Matrix.decode (ev_body ev) = Ok (Matrix.Request sid nonce t domain) ->
  let w' := snd (handle_inbound state ev w) in
  request_post (H6 := during w w') state ev sid nonce t domain (w_db w) (w_notices w) (w_posts w)
    (fst (handle_inbound state ev w)) (obs w').
Proof.
  intros Hs Hw Hacc Hm. pose proof (dispatched state ev _ Hacc Hm) as Hd. cbv beta iota in Hd.
  cbv zeta. rewrite Hd. apply decode_message_Ok in Hm as (_ & Hok & _).
  apply (in_during state Hs tr w _ (fun E' => request_post (H6 := E') state ev _ _ _ _ _ _ _) Hw).
  intros f HE Hwf. exact (request_spec (H6 := reindex f _) state ev _ _ _ _ _ _ _ Hs Hwf (proj1 (proj2 Hok))).
Qed.

(** C7: A consent from an accepted event: without a valid signature over exactly
    its fields nothing happens but an error; signed, it is answered as expired,
    or ignored when it does not answer the session's challenge from the user and
    room of the request, or recorded as a refusal, or turned into a grant, a
    sealed assertion that expires with the session or after 300000 ms, and a due
    job, all in one commit; every error has its listed cause among the handler's own
    steps. *)
Theorem consent_exact `{Base64Laws} `{CryptoLaws} `{JsonTextLaws} `{JsonReader}
    `{!JsonReaderLaws} `{Env} `{!EnvLaws} state tr w ev sid nonce t ap dn challenge key_id signature :
  state_wf state -> reachable state tr w -> accepted_event state ev ->
  Matrix.decode (ev_body ev) = Ok (Matrix.Consent sid nonce t ap dn challenge key_id signature) ->
  let w' := snd (handle_inbound state ev w) in
  ap = approved dn /\
  consent_post (H6 := during w w') state ev sid nonce t dn challenge key_id signature
    (w_db w) (w_notices w) (w_posts w) (fst (handle_inbound state ev w)) (obs w').
Proof.
  intros Hs Hw Hacc Hm. pose proof (dispatched state ev _ Hacc Hm) as Hd. cbv beta iota in Hd.
  cbv zeta. rewrite Hd. pose proof (decode_ints _ _ Hm) as Hi. apply decode_message_Ok in Hm as (_ & Hok & _).
  pose proof (inbound_ok_approved _ _ _ _ _ _ _ _ Hok) as ->. split; [done|].
  apply (in_during state Hs tr w _ (fun E' => consent_post (H6 := E') state ev _ _ _ _ _ _ _ _ _ _) Hw).
  intros f HE Hwf. exact (consent_spec (H6 := reindex f _) state ev _ _ _ _ _ _ _ _ _ _ Hs Hwf Hok Hi).
Qed.

(** C9: A revocation from an accepted event: it takes effect exactly for the standing
    grant of the named account at the session's site whose stored user is the
    sender; then the grant is marked, the session closed and a signed notice with
    a fresh token id queued, in one commit; otherwise nothing changes. *)
Theorem revocation_exact `{Base64Laws} `{CryptoLaws} `{JsonTextLaws} `{JsonReader}
    `{!JsonReaderLaws} `{Env} `{!EnvLaws} state tr w ev sid nonce t account reason :
  state_wf state -> reachable state tr w -> accepted_event state ev ->
  Matrix.decode (ev_body ev) = Ok (Matrix.Revocation sid nonce t account reason) ->
  let w' := snd (handle_inbound state ev w) in
  revocation_post (H6 := during w w') state ev sid nonce account reason (w_db w) (w_notices w) (w_posts w)
    (fst (handle_inbound state ev w)) (obs w').
Proof.
  intros Hs Hw Hacc Hm. pose proof (dispatched state ev _ Hacc Hm) as Hd. cbv beta iota in Hd.
  cbv zeta. rewrite Hd. apply decode_message_Ok in Hm as (_ & Hok & _).
  apply (in_during state Hs tr w _ (fun E' => revocation_post (H6 := E') state ev _ _ _ _ _ _ _) Hw).
  intros f HE Hwf. exact (revocation_spec (H6 := reindex f _) state ev _ _ _ _ _ _ _ _ Hs Hwf Hok).
Qed.

(** C17: Every other event is ignored without a trace: redacted or undecrypted ones,
    the relay's own, those from a room that fails the policy, and those whose
    body is no request, consent or revocation. *)
Theorem other_events_ignored `{Base64Laws} `{Crypto} `{JsonText} `{JsonReader} `{Env} state ev w :
  ~ (accepted_event state ev /\ exists msg, Matrix.decode (ev_body ev) = Ok msg /\ inbound_ok msg) ->
  fst (handle_inbound state ev w) = Ok Ignored /\ obs (snd (handle_inbound state ev w)) = obs w.
Proof.
  intros Hno. destruct (dispatch_cases state ev) as [(k & -> & [->| ->])|[Hacc Hm]]; [done|done|].
  destruct Hno. split; [done|]. destruct (Matrix.decode (ev_body ev)) as [msg|] eqn:E; [|done].
  exists msg. split; [done|]. by apply decode_message_Ok in E as (_ & ? & _).
Qed.

(** C14: One delivery: a job is posted once, opened, to its own domain under the path
    of its kind; it succeeds exactly when the site answers 200 or 202 and, for an
    assertion, the session could be closed and its user told in the room of the
    request; a job that cannot be opened is never posted. *)
Theorem delivery_exact `{Base64Laws} `{CryptoLaws} `{JsonTextLaws} `{JsonReader}
    `{!JsonReaderLaws} `{Env} `{!EnvLaws} state tr w j :
  state_wf state -> reachable state tr w ->
  let w' := snd (deliver state j w) in
  delivery_post (H6 := during w w') state j (w_db w) (w_notices w) (w_posts w)
    (fst (deliver state j w)) (obs w').
Proof.
  intros Hs Hw.
  apply (in_during state Hs tr w _ (fun E' => delivery_post (H6 := E') state j _ _ _) Hw).
  intros f HE Hwf. exact (deliver_spec (H6 := reindex f _) state j _ _ _ Hwf).
Qed.

(** C15: [POST /v1/site-sessions] always answers.  Exactly when the limiter's window is
    the current second and thirty requests are counted in it, the answer is the problem
    document of [rate_limited], and nothing else happens.  Otherwise a body that is too
    long or that cannot be read is refused as [invalid_request] and nothing else happens;
    and a readable one is registered and answered with 201 and the response document
    for a new session, 200 for an identical one, and the problem document of the error's
    code, with its status and no-store, for an error. *)
Theorem site_sessions_exact `{Base64Laws} `{CryptoLaws} `{JsonTextLaws} `{JsonReader}
    `{!JsonReaderLaws} `{Env} `{!EnvLaws} state tr w body :
  state_wf state -> reachable state tr w ->
  let w' := snd (site_sessions state body w) in
  site_sessions_post (H7 := during w w') state (over_rate w) body (w_db w) (w_notices w) (w_posts w)
    (fst (site_sessions state body w)) (obs w').
Proof.
  intros Hs Hw. cbv zeta. unfold site_sessions.
  destruct (rate_limit_verdict w) as (w1 & Er & Ho & Hle). rewrite run_bind, Er.
  rewrite (proj1 (reachable_obs state Hs tr w Hw)) in Ho.
  destruct (over_rate w); cbn [negb].
  - apply (in_part w w1 _ rate_limited (fun E' => site_sessions_post (H7 := E') state true body _ _ _) Ho Hle).
    intros f HE. apply (rate_limited_spec (H7 := reindex f _)).
  - apply (in_part w w1 _ (post_registration state body)
      (fun E' => site_sessions_post (H7 := E') state false body _ _ _) Ho Hle).
    intros f HE. exact (post_registration_spec (H7 := reindex f _) state body _ _ _ (sw_at_rest _ Hs)).
Qed.

(** ** Progress when nothing fails *)

(** C30: When nothing fails from now on, a request for a live session is always answered
    with the challenge, in the room it came from, provided its event id is new, no
    token drawn from now on has been used, and the row's version is not at the end
    of its type. *)
Theorem request_answered `{Base64Laws} `{CryptoLaws} `{JsonTextLaws} `{JsonReader}
    `{!JsonReaderLaws} `{Env} `{!EnvLaws} state tr w ev sid nonce t domain s :
  state_wf state -> reachable state tr w -> ~ fault (H := since w) ->
  accepted_event state ev -> Matrix.decode (ev_body ev) = Ok (Matrix.Request sid nonce t domain) ->
  (forall k, request_open state sid nonce t domain (env_now (Env := since w) k) (w_db w) s) ->
  db_request_events (w_db w) !! ev_event_id ev = None ->
  (forall n h, hash state (Base64url.encode (env_rand (Env := since w) n 16)) h ->
     db_challenge_hashes (w_db w) !! h = None) ->
  ~ oversize (ev_room_id ev) -> ~ oversize (ev_sender ev) -> versions_left (w_db w) ->
  let w' := snd (handle_inbound state ev w) in
  fst (handle_inbound state ev w) = Ok Sent /\
  exists body, w_notices w' = w_notices w ++ [{| n_room_id := ev_room_id ev; n_body := body |}] /\
    issued (H6 := since w) state ev sid nonce t domain (w_db w) (w_db w') body.
Proof.
  intros Hs Hw HF Hacc Hm Hopen Hev Hfresh Hroom Hsender Hver. cbv zeta.
  pose proof (dispatched state ev _ Hacc Hm) as Hd. cbv beta iota in Hd. rewrite Hd.
  apply decode_message_Ok in Hm as (_ & Hok & _).
  pose proof (in_since state Hs tr w (process_request state ev sid nonce t domain)
    (fun E' => request_post (H6 := E') state ev sid nonce t domain (w_db w) (w_notices w) (w_posts w)) Hw
    (fun f HE Hwf => request_spec (H6 := reindex f _) state ev _ _ _ _ _ _ _ Hs Hwf (proj1 (proj2 Hok)))) as Hr.
  apply (request_goes (H6 := since w)) with (s := s) in Hr; try done.
  destruct Hr as (-> & _ & _ & body & Hb & Hn). split; [done|]. by exists body.
Qed.

(** C29: When nothing fails from now on, an approving consent that is signed, in time and
    bound to the challenge of the one session with its id and nonce always leads to
    an assertion in the session, provided its event id and the token ids drawn from
    now on are new, whatever state the session is in: one that was refused, answered
    or revoked before is no exception. *)
Theorem consent_answered `{Base64Laws} `{CryptoLaws} `{JsonTextLaws} `{JsonReader}
    `{!JsonReaderLaws} `{Env} `{!EnvLaws} state tr w ev sid nonce t display challenge key_id signature s :
  state_wf state -> reachable state tr w -> ~ fault (H := since w) -> accepted_event state ev ->
  Matrix.decode (ev_body ev) =
    Ok (Matrix.Consent sid nonce t true (Some display) challenge key_id signature) ->
  consent_signed sid nonce t (Some display) challenge key_id signature ->
  session_named state sid nonce (w_db w) s ->
  (forall s', session_named state sid nonce (w_db w) s' -> s' = s) ->
  (forall k, consent_timely s t (env_now (Env := since w) k)) -> consent_bound state ev challenge s ->
  db_consent_events (w_db w) !! ev_event_id ev = None ->
  (forall n, db_assertion_jtis (w_db w) !! Base64url.encode (env_rand (Env := since w) n 16) = None) ->
  ~ oversize (ev_sender ev) -> versions_left (w_db w) ->
  let w' := snd (handle_inbound state ev w) in
  fst (handle_inbound state ev w) = Ok Sent /\
  exists s', s' ∈ db_sessions (w_db w') /\ session_later s s' /\
    s_state s' = "CONSENT_RECEIVED" /\ is_Some (s_assertion_jti s') /\ is_Some (s_assertion_ciphertext s').
Proof.
  intros Hs Hw HF Hacc Hm Hsig Hnamed Honly Htime Hbound Hev Hjti Hsize Hver. cbv zeta.
  pose proof (dispatched state ev _ Hacc Hm) as Hd. cbv beta iota in Hd. rewrite Hd.
  pose proof (decode_ints _ _ Hm) as Hi. apply decode_message_Ok in Hm as (_ & Hok & _).
  pose proof (in_since state Hs tr w
    (process_consent state ev sid nonce t true (Some display) challenge key_id signature)
    (fun E' => consent_post (H6 := E') state ev sid nonce t (Some display) challenge key_id signature
                 (w_db w) (w_notices w) (w_posts w)) Hw
    (fun f HE Hwf => consent_spec (H6 := reindex f _) state ev sid nonce t (Some display) challenge key_id
                       signature _ _ _ Hs Hwf Hok Hi)) as Hr.
  apply (consent_goes (H6 := since w)) with (s := s) in Hr; try done.
  destruct Hr as (Hres & _ & _ & _ & k & sub & bytes & sh & sct & uct & dct & act & n & gid & jid & due & _ & _ & Hdb).
  cbn [obs o_db] in Hdb. split; [exact Hres|].
  exists (apply_patch (consent_patch (ev_event_id ev) dct (Base64url.encode (env_rand (Env := since w) n 16)) act) s).
  rewrite Hdb, consented_sessions.
  assert (U : unique (w_db w)) by (by destruct (reachable_obs state Hs tr w Hw) as [_ []]).
  split; [apply elem_of_patched; [apply U|apply Hnamed|by left]|].
  split_and!; try done; [|by eexists..]. split; [done|done|cbn; lia| |done].
  apply rtc_once. eapply bound_move; [apply Hbound|done|intros st; apply mv_approve].
Qed.
