(* ===== verification/Complete.v ===== *)
(** * A login from end to end

    What an honest site and an honest user get from the relay when nothing fails:
    the registration the site signs is accepted, and the request, the consent and
    one tick of the queue bring one verifiable assertion to the site and the result
    to the user's room. *)

From S2P Require Import Prelude Errors Constants Utf8 Validation Base64url Json JsonRfc Jcs.
From S2P Require Import Strict StrictRfc Crypto CryptoToy Keys Wire Metadata Registration.
From S2P Require Import Assertion Revocation Matrix RoomPolicy Documents Ssrf Site Tables Statements.
From S2P Require Import World Spec Db Register Login Queue Http Invariant Rows LoginSpec.
From S2P Require Import QueueSpec HttpSpec TestSupport Sync System Jobs Concurrent Serial Answered.
From S2P Require Import Window Relay.
From stdpp Require Import gmap.
#[local] Open Scope Z_scope.
#[local] Set Warnings "-clear-no-such-hyp".

(** ** The participants *)

(** A site that serves, from a step on, the metadata it signed. *)
Record honest_site `{Base64} `{Crypto} `{JsonText} `{Env} (key : list byte) (domain name : string)
    (m : SiteMetadata) (from : nat) : Prop := {
  hs_key : blen key = 32;
  hs_domain : validate_domain domain = Ok tt;
  hs_name : trim name <> "" /\ slen name <= 100;
  hs_metadata : signed_metadata domain name key = Ok m;
  hs_served : forall k, (from <= k)%nat ->
    @site_fetch_metadata (env_site k) domain = recording_fetch_metadata (Some m) domain
}.

(** A session the site may open: identifiers of the protocol, a window of at most five
    minutes that chrono can represent, and nothing of it in the tables. *)
Record new_login `{Crypto} (state : AppState) (d : Db) (session nonce : string) (iat exp : Z) : Prop := {
  nl_session : over cls_id 16 128 session;
  nl_nonce : over cls_id 16 128 nonce;
  nl_window : 0 <= iat < exp /\ exp <= iat + 300000 /\ exp <= 8210266876769999;
  nl_free : forall s, s ∈ db_sessions d ->
    s_session_id s <> session /\ ~ hash state nonce (s_nonce_hash s)
}.

(** The limiter lets the next registration through. *)
Definition limiter_open `{Env} (w : World) : Prop :=
  w_reg_window w <> env_unix_secs (w_step w) \/ w_reg_count w < 30.

(** ** Registration *)

Section Complete.
Context `{Base64Laws} `{CryptoLaws} `{JsonTextLaws} `{JsonReader} `{!JsonReaderLaws} {E : Env}
  `{!EnvLaws (H2 := E)}.
Variable state : AppState.
Hypothesis Hstate : state_wf state.

Lemma limiter_lets w : limiter_open w ->
  exists w', rate_limit_ok w = (Ok true, w') /\ obs w' = obs w /\ (w_step w <= w_step w')%nat.
Proof.
  intros Hopen. destruct (rate_limit_verdict w) as (w' & Er & Ho). exists w'. split; [|exact Ho].
  rewrite Er. do 2 f_equal. apply negb_true_iff, andb_false_iff.
  destruct Hopen; [left; by apply Z.eqb_neq|right; by apply Z.leb_gt].
Qed.

Lemma since_step n w : exists k, Nat.max (w_step w) n = k /\ (w_step w <= k)%nat.
Proof. eexists. split; [done|lia]. Qed.

(** The metadata of an honest site is what the relay gets. *)
Lemma honest_served key domain name m from k :
  honest_site key domain name m from -> (from <= k)%nat ->
  @site_fetch_metadata (env_site k) domain = Ok m /\ metadata_valid m domain /\
  meta_public_key m = site_public_key key /\ meta_display_name m = name.
Proof.
  intros [Hk Hd [Hn Hl] Hm Hserved] Hfrom.
  destruct (signed_metadata_valid key domain Hk Hd name Hn Hl) as (m' & Em & Hvalid & Hpub & Hname).
  assert (m' = m) as -> by congruence. rewrite Hserved by done. split_and!; try done.
  unfold recording_fetch_metadata. cbn [ok_or rbind].
  by rewrite (proj2 (validate_for_domain_Ok m domain) Hvalid).
Qed.

Lemma exp_representable iat exp :
  0 <= iat < exp /\ exp <= iat + 300000 /\ exp <= 8210266876769999 ->
  in_i64 iat /\ in_i64 exp /\ env_timestamp_millis (i64_add exp REPLAY_GRACE_MS) = Some (exp + 30000).
Proof.
  intros Hw. split; [unfold in_i64, i64_min, i64_max; lia|]. split; [unfold in_i64, i64_min, i64_max; lia|].
  apply env_timestamp_iff. unfold i64_add, wrap64, REPLAY_GRACE_MS, i64_min, i64_max in *.
  rewrite Z.mod_small; lia.
Qed.

Lemma honest_registers tr w key domain name m session nonce iat exp :
  reachable state tr w -> ~ fault (H := since w) -> honest_site key domain name m (w_step w) ->
  new_login state (w_db w) session nonce iat exp ->
  (forall k, (w_step w <= k)%nat -> env_now k < exp) -> limiter_open w ->
  exists r body, signed_registration key domain session nonce iat exp = Ok r /\
    to_vec (request_fields r) = Ok body /\
    (reg_domain r, reg_session_id r, reg_nonce r, reg_iat r, reg_exp r) =
      (domain, session, nonce, iat, exp) /\ reg_requested_display_name r = "" /\
    let w' := snd (serve state PostSiteSessions body w) in
    (exists answer, to_vec (response_fields (registration_response r)) = Ok answer /\
       fst (serve state PostSiteSessions body w) = Ok (document 201 "application/json" answer)) /\
    w_notices w' = w_notices w /\ w_posts w' = w_posts w /\
    exists n id, session_of state r m n /\
      w_db w' = set_sessions (db_sessions (w_db w) ++ [new_row n id (exp + 30000)]) (w_db w).
Proof.
  intros Hw HF Hsite [Hs Hn Hwin Hfree] Hlive Hopen.
  destruct (exp_representable iat exp Hwin) as (Hi & He & Hms).
  destruct (signed_registration_valid key domain (hs_key _ _ _ _ _ Hsite) (hs_domain _ _ _ _ _ Hsite)
    session nonce iat exp Hs Hn Hi He ltac:(lia)) as (r & Er & Hv & Hwf & Hfields & Hdn & Hqr & Hrc).
  destruct (registration_travels r Hv Hwf) as (body & Eb & Hread & Hlen);
    [rewrite Hdn; by apply utf8_ok_ascii|].
  exists r, body. split; [done|]. split; [done|]. split; [done|]. split; [done|].
  injection Hfields as Ed Es En Ei Ee.
  destruct (reachable_obs state Hstate tr w Hw) as [Ho Hdb].
  destruct (limiter_lets w Hopen) as (w1 & Elim & Ho1 & Hst1).
  unfold serve, site_sessions. destruct (Z.ltb_spec MAX_HTTP_BODY (blen body)); [lia|].
  rewrite run_bind, Elim. cbn [negb]. unfold post_registration.
  destruct (Z.ltb_spec MAX_HTTP_BODY (blen body)); [lia|]. rewrite Hread, run_bind, run_try.
  assert (Hpost : register_post (H5 := since w) state r (w_db w) (w_notices w) (w_posts w)
    (fst (register_session state r w1)) (obs (snd (register_session state r w1)))).
  { apply (spec_same (Nat.max (w_step w))); [intros n Hn'; lia|]. rewrite Ho1, Ho.
    exact (register_spec (H5 := since w) (H6 := window_laws _) state r _ _ _ (sw_at_rest _ Hstate) Hwf). }
  destruct (run (register_session state r) w1) as [res w2]. cbn [fst snd] in *.
  assert (Hkey : meta_public_key m = site_public_key key) by (by eapply honest_served with (k := w_step w)).
  apply (register_goes (H6 := since w)) with (m := m) in Hpost; try done.
  - destruct Hpost as (-> & _ & Hns & Hps & m' & n & id & expires & (_ & _ & _ & (k & Hk) & _) & Hof & Hx & _ & Hdb').
    cbn in Hk, Hx. rewrite Ed in Hk. rewrite Ee, Hms in Hx. injection Hx as <-.
    destruct (honest_served key domain name m _ (Nat.max (w_step w) k) Hsite) as [Hsame _]; [lia|].
    assert (m' = m) as -> by congruence. split; [|split; [exact Hns|split; [exact Hps|by exists n, id]]].
    destruct (response_total r) as [answer Ha]; [by rewrite Ee|]. exists answer. split; [done|].
    cbn. f_equal. by apply json_document.
  - intros k. cbn. rewrite Ee. apply Hlive. lia.
  - intros k. cbn. rewrite Ed. eapply honest_served; [done|lia].
  - by rewrite Hkey.
  - by rewrite Hkey.
  - cbn. rewrite Ee, Hms. done.
  - intros s Hs' _. rewrite Es, En. by apply Hfree.
Qed.

(** ** Messages *)

(** A fault at some steps is one from the first of them on. *)
Lemma fault_from f w :
  (forall n, (w_step w <= f n)%nat) -> fault (H := reindex f E) -> fault (H := since w).
Proof.
  intros Hf Hfault.
  assert (Hmax : forall n, Nat.max (w_step w) (f n) = f n) by (intros n; specialize (Hf n); lia).
  destruct Hfault as [n Hn|n Hn|n Hn|n Hn|n Hn|n Hn|n Hn]; cbn in Hn; rewrite <- Hmax in Hn;
    [exact (fault_pool (H := since w) _ Hn)|exact (fault_begin (H := since w) _ Hn)
    |exact (fault_sql (H := since w) _ Hn)|exact (fault_exec (H := since w) _ Hn)
    |exact (fault_commit (H := since w) _ Hn)|exact (fault_rollback (H := since w) _ Hn)
    |exact (fault_notice (H := since w) _ Hn)].
Qed.

Lemma faultless_later w w' : (w_step w <= w_step w')%nat -> ~ fault (H := since w) -> ~ fault (H := since w').
Proof. intros Hle HF Hf. apply HF. eapply (fault_from (Nat.max (w_step w'))); [intros n; lia|exact Hf]. Qed.

Lemma within_from a b n : (a <= within a b n)%nat.
Proof. unfold within. destruct (Nat.leb_spec a n), (Nat.ltb_spec n b); cbn; lia. Qed.
Lemma within_upto a b n : (a <= b)%nat -> (within a b n <= b)%nat.
Proof. unfold within. destruct (Nat.leb_spec a n), (Nat.ltb_spec n b); cbn; lia. Qed.

Lemma faultless_during w w' : ~ fault (H := since w) -> ~ fault (H := during w w').
Proof. intros HF Hf. apply HF. eapply (fault_from (within _ _)); [apply within_from|exact Hf]. Qed.

(** A message of the relay's rooms and the event it is. *)
Definition brings (m : RoomMessage) (ev : InboundEvent) (msg : MatrixMessage) : Prop :=
  inbound_of (st_relay_user_id state) m = Some ev /\ accepted_event state ev /\
  Matrix.decode (ev_body ev) = Ok msg.

Lemma message_step m ev w :
  inbound_of (st_relay_user_id state) m = Some ev ->
  step state (RoomEvent m) w = snd (handle_inbound state ev w).
Proof.
  intros Hm. cbn [step]. unfold on_room_message. rewrite Hm. unfold dispatch_text.
  rewrite run_bind, run_try. by destruct (handle_inbound state ev w).
Qed.

(** The one session with an id. *)
Definition sole (d : Db) (sid : string) (s : SessionRow) : Prop :=
  s ∈ db_sessions d /\ s_session_id s = sid /\
  forall s', s' ∈ db_sessions d -> s_session_id s' = sid -> s' = s.

Lemma sole_patched d sid s p :
  NoDup (List.map s_id (db_sessions d)) -> sole d sid s -> sole (patched s p d) sid (apply_patch p s).
Proof.
  intros U (Hs & Hsid & Honly). split_and!.
  - apply elem_of_patched; [done|done|by left].
  - done.
  - intros s' [->|[Hs' Hne]]%elem_of_patched Hid; [done| |done|done]. by destruct Hne; apply Honly.
Qed.

Lemma versions_patched d s p :
  NoDup (List.map s_id (db_sessions d)) -> s ∈ db_sessions d -> s_version s + 1 < i32_max ->
  versions_left d -> versions_left (patched s p d).
Proof. intros U Hs Hv Hd. apply Forall_patched; [done|done|done|exact Hd]. Qed.

Lemma sealed_opens text ct : sealed state text ct -> utf8_ok text -> open_text state (Some ct) = Some text.
Proof. intros Hs Hu. apply open_text_Ok. exists (as_bytes text). split; [done|by apply from_utf8_as_bytes]. Qed.

Lemma step_steps e w : (w_step w <= w_step (step state e w))%nat.
Proof. destruct e; apply run_steps. Qed.

(** The request of the user: the challenge goes to their room. *)
Lemma stage_request tr w m ev nonce t s :
  reachable state tr w -> ~ fault (H := since w) ->
  brings m ev (Matrix.Request (s_session_id s) nonce t (s_domain s)) ->
  sole (w_db w) (s_session_id s) s -> hash state nonce (s_nonce_hash s) -> s_challenge_hash s = None ->
  sent_at_in_qr_window t (s_iat s) (s_exp s) = true ->
  (forall k, (w_step w <= k)%nat -> env_now k <= s_exp s) ->
  db_request_events (w_db w) !! ev_event_id ev = None ->
  (forall n h, (w_step w <= n)%nat -> hash state (Base64url.encode (env_rand n 16)) h ->
     db_challenge_hashes (w_db w) !! h = None) ->
  ~ oversize (ev_room_id ev) -> ~ oversize (ev_sender ev) -> versions_left (w_db w) ->
  let w' := step state (RoomEvent m) w in
  exists h room_ct sender_ct k n body, (w_step w <= k)%nat /\ (w_step w <= n)%nat /\
    let challenge := Base64url.encode (env_rand n 16) in
    hash state challenge h /\ sealed state (ev_room_id ev) room_ct /\ sealed state (ev_sender ev) sender_ct /\
    Matrix.encode (challenge_message s nonce challenge (env_now k)) = Ok body /\
    w_notices w' = w_notices w ++ [{| n_room_id := ev_room_id ev; n_body := body |}] /\
    w_posts w' = w_posts w /\ w_db w' = challenged ev s h room_ct sender_ct (env_now k) (w_db w).
Proof.
  intros Hw HF (Hm & Hacc & Hdec) (Hs & _ & Honly) Hn Hnone Hwin Hlive Hev Hfresh Hroom Hsender Hver.
  cbv zeta. rewrite (message_step m ev w Hm).
  pose proof (dispatched state ev _ Hacc Hdec) as Hd. cbv beta iota in Hd. rewrite Hd.
  apply decode_message_Ok in Hdec as (_ & Hok & _).
  pose proof (in_since state Hstate tr w (process_request state ev (s_session_id s) nonce t (s_domain s))
    (fun E' => request_post (H6 := E') state ev _ _ _ _ (w_db w) (w_notices w) (w_posts w)) Hw
    (fun f HE Hwf => request_spec (H6 := reindex f _) state ev _ _ _ _ _ _ _ Hstate Hwf (proj1 (proj2 Hok)))) as Hr.
  apply (request_goes (H6 := since w)) with (s := s) in Hr; try done.
  - destruct Hr as (_ & _ & Hps & body & (s' & h & rct & sct & k & n & (Hs' & _ & Hid & _) & Hh & Hr & Hse & _ & _ & Hdb & Hb)
      & Hns). assert (s' = s) as -> by auto.
    exists h, rct, sct, (Nat.max (w_step w) k), (Nat.max (w_step w) n), body.
    split; [lia|]. split; [lia|]. by split_and!.
  - intros k. unfold request_open. split_and!; try done. apply Hlive. lia.
  - intros n h. apply Hfresh. lia.
Qed.

(** The user's consent: the session has its assertion, and a job is due that was
    enqueued during the call. *)
Lemma stage_consent tr w m ev nonce t display challenge key_id signature s :
  reachable state tr w -> ~ fault (H := since w) ->
  brings m ev (Matrix.Consent (s_session_id s) nonce t true (Some display) challenge key_id signature) ->
  consent_signed (s_session_id s) nonce t (Some display) challenge key_id signature ->
  sole (w_db w) (s_session_id s) s -> hash state nonce (s_nonce_hash s) ->
  (forall k, (w_step w <= k)%nat -> consent_timely s t (env_now k)) -> consent_bound state ev challenge s ->
  db_consent_events (w_db w) !! ev_event_id ev = None ->
  (forall n, (w_step w <= n)%nat -> db_assertion_jtis (w_db w) !! Base64url.encode (env_rand n 16) = None) ->
  ~ oversize (ev_sender ev) -> versions_left (w_db w) ->
  let w' := step state (RoomEvent m) w in
  exists k n due sub bytes subject_hash subject_ct user_ct display_ct assertion_ct gid jid,
    (w_step w <= k)%nat /\ (w_step w <= n)%nat /\ (w_step w <= due <= w_step w')%nat /\
    let jti := Base64url.encode (env_rand n 16) in
    minted state ev s nonce display jti (env_now k) sub bytes /\
    decrypt (st_at_rest state) assertion_ct = Ok bytes /\
    w_notices w' = w_notices w /\ w_posts w' = w_posts w /\
    w_db w' = consented state ev s jti subject_hash subject_ct user_ct display_ct assertion_ct gid jid
                (env_db_now due) (w_db w).
Proof.
  intros Hw HF (Hm & Hacc & Hdec) Hsig (Hs & _ & Honly) Hn Htime Hbound Hev Hjti Hsize Hver.
  cbv zeta. rewrite (message_step m ev w Hm).
  pose proof (dispatched state ev _ Hacc Hdec) as Hd. cbv beta iota in Hd. rewrite Hd.
  pose proof (decode_ints _ _ Hdec) as Hi. apply decode_message_Ok in Hdec as (_ & Hok & _).
  set (run_it := process_consent state ev (s_session_id s) nonce t true (Some display) challenge key_id signature).
  pose proof (in_during state Hstate tr w run_it
    (fun E' => consent_post (H6 := E') state ev _ nonce t (Some display) challenge key_id signature
       (w_db w) (w_notices w) (w_posts w)) Hw
    (fun f HE Hwf => consent_spec (H6 := reindex f _) state ev _ nonce t (Some display) challenge key_id
       signature _ _ _ Hstate Hwf Hok Hi)) as Hr.
  pose proof (run_steps run_it w) as Hle.
  apply (consent_goes (H6 := during w (snd (run_it w)))) with (s := s) in Hr; try done.
  - destruct Hr as (_ & _ & Hps & Hns & k & sub & bytes & sh & sct & uct & dct & act & n & gid & jid & due & Hmint
      & Hact & Hdb).
    set (at_ := within (w_step w) (w_step (snd (run_it w)))) in *.
    exists (at_ k), (at_ n), (at_ due), sub, bytes, sh, sct, uct, dct, act, gid, jid.
    split; [apply within_from|]. split; [apply within_from|].
    split; [split; [apply within_from|by apply within_upto]|]. by split_and!.
  - by apply faultless_during.
  - intros s' (Hs' & Hid & _). auto.
  - intros k. apply Htime, within_from.
  - intros n. apply Hjti, within_from.
Qed.

(** ** The tick *)

Lemma stage_tick tr w j due p a s nonce room :
  reachable state tr w -> ~ fault (H := since w) -> only_pending (w_db w) j ->
  j_next_retry_at j = Some due -> (forall k, (w_step w <= k)%nat -> due <= env_db_now k) ->
  j_attempts j < i32_max -> post_of state j = Some p -> j_kind j = "assertion" ->
  (forall k, (w_step w <= k)%nat -> exists resp,
     @site_post_json (env_site k) (po_domain p) (po_path p) (po_body p) (po_key p) = Ok resp /\
     (sr_status resp = 202 \/ sr_status resp = 200)) ->
  from_slice assertion_from_value (po_body p) = Ok a ->
  s ∈ db_sessions (w_db w) -> matching (j_domain j) (j_session_id j) (j_nonce_hash j) s = true ->
  open_text state (Some (s_nonce_ciphertext s)) = Some nonce ->
  open_text state (s_request_room_ciphertext s) = Some room ->
  over cls_id 16 128 (j_session_id j) -> over cls_id 16 128 nonce -> over cls_id 22 128 (a_sub a) ->
  s_version s < i32_max ->
  let w' := step state DeliveryTick w in
  w_posts w' = w_posts w ++ [p] /\
  (exists n k, w_notices w' = w_notices w ++ [n] /\ n_room_id n = room /\
     Matrix.encode (Matrix.Result (j_session_id j) nonce (env_now k) true (Some (a_sub a)) None) =
       Ok (n_body n)) /\
  db_sessions (w_db w') = db_sessions (delivered s (w_db w)) /\
  exists js now, db_jobs (w_db w') = js ++ [set_status "delivered" (attempt now j)].
Proof.
  intros Hw HF Honly Hnext Hdue Hatt Hp Hkind Hsite Ha Hs Hm Hnonce Hroom Osid Ononce Osub Hver.
  assert (Henc : forall k, exists body, Matrix.encode (Matrix.Result (j_session_id j) nonce
    (env_now (Env := since w) k) true (Some (a_sub a)) None) = Ok body).
  { intros k. apply outbound_encodes; [|by split_and!|done].
    exact (env_now_i64 (EnvLaws := window_laws _) k). }
  destruct (reachable_obs state Hstate tr w Hw) as [Ho Hdb].
  pose proof (tick_goes (H6 := since w) (H7 := window_laws _) state (w_db w) (w_notices w) (w_posts w) j due p a s
    nonce room HF (window_db_wf _ _ Hdb) Honly Hnext (fun k => Hdue _ (Nat.le_max_l _ k)) Hatt Hp Hkind
    (fun k => Hsite _ (Nat.le_max_l _ k)) Ha Hs Hm Hnonce Hroom Henc Hver) as Hspec.
  rewrite <- Ho in Hspec. apply (spec_same (Nat.max (w_step w))) in Hspec; [|intros n Hn; lia].
  destruct Hspec as (_ & _ & Hps & (n & (k & nonce' & body & Hn' & Hr' & Hb & Ebody) & Hns) & Hss & Hjobs).
  cbv zeta. split; [exact Hps|]. split; [|done]. exists n, (Nat.max (w_step w) k).
  assert (nonce' = nonce) as -> by congruence. assert (n_room_id n = room) by congruence.
  split; [exact Hns|]. split; [done|]. by rewrite Ebody.
Qed.

(** ** The login *)

(** A user who asks for the session and agrees to its challenge, from one room. *)
Record honest_user (d : Db) (domain session nonce : string) (iat exp : Z) (display : string)
    (asks : RoomMessage) (agrees : string -> RoomMessage) (ask : InboundEvent)
    (agree : string -> InboundEvent) : Prop := {
  hu_asks : exists t, brings asks ask (Matrix.Request session nonce t domain) /\
    sent_at_in_qr_window t iat exp = true;
  hu_agrees : forall challenge, over cls_id 22 22 challenge -> exists t key_id signature,
    brings (agrees challenge) (agree challenge)
      (Matrix.Consent session nonce t true (Some display) challenge key_id signature) /\
    consent_signed session nonce t (Some display) challenge key_id signature /\
    sent_at_in_qr_window t iat exp = true;
  hu_same : forall challenge, ev_sender (agree challenge) = ev_sender ask /\
    ev_room_id (agree challenge) = ev_room_id ask;
  hu_new : db_request_events d !! ev_event_id ask = None /\
    forall challenge, db_consent_events d !! ev_event_id (agree challenge) = None;
  hu_text : utf8_ok (ev_sender ask) /\ utf8_ok (ev_room_id ask) /\ utf8_ok display;
  hu_size : ~ oversize (ev_sender ask) /\ ~ oversize (ev_room_id ask)
}.

(** What the surroundings have to do from a world on: not fail, keep the time of the
    session, draw tokens that are new, and the site has to accept; no other job
    waits. *)
Record calm (w : World) (domain : string) (iat exp : Z) : Prop := {
  ca_works : ~ fault (H := since w);
  ca_clock : forall k, (w_step w <= k)%nat -> iat <= env_now k < exp;
  ca_server : forall i k, (w_step w <= i <= k)%nat -> env_db_now i <= env_db_now k;
  ca_tokens : forall n, (w_step w <= n)%nat -> let token := Base64url.encode (env_rand n 16) in
    (forall h, hash state token h -> db_challenge_hashes (w_db w) !! h = None) /\
    db_assertion_jtis (w_db w) !! token = None /\
    Forall (fun j => j_jti j <> token) (db_jobs (w_db w));
  ca_accepts : forall k body key, (w_step w <= k)%nat -> exists resp,
    @site_post_json (env_site k) domain ASSERTION_PATH body key = Ok resp /\
    (sr_status resp = 202 \/ sr_status resp = 200);
  ca_idle : Forall (fun j => j_status j <> "pending") (db_jobs (w_db w));
  ca_versions : versions_left (w_db w);
  ca_limiter : limiter_open w
}.

(** ** The assertion *)

(** What is minted is an assertion the site can read and check. *)
Record assertion_for (a : RelayAssertion) (domain session nonce display user : string) (now exp : Z) : Prop := {
  af_fields : (a_aud a, a_session_id a, a_nonce a, a_display_name a) = (domain, session, nonce, display);
  af_times : (a_iat a, a_exp a) = (now, exp);
  af_sub : derive_pairwise_sub (st_subject_secret state) domain user = Ok (a_sub a) /\
    over cls_id 22 128 (a_sub a);
  af_signed : exists text, Assertion.canonical_without_signature a = Ok text /\
    verify (Base64url.encode (public_key_raw (st_signing_key state))) (as_bytes text) (a_signature a) = Ok tt
}.

Lemma minted_reads ev s nonce display n k sub bytes :
  row_wf s -> utf8_ok display ->
  minted state ev s nonce display (Base64url.encode (env_rand n 16)) (env_now k) sub bytes ->
  exists a, from_slice assertion_from_value bytes = Ok a /\ a_jti a = Base64url.encode (env_rand n 16) /\
    assertion_for a (s_domain s) (s_session_id s) nonce display (ev_sender ev) (env_now k)
      (Z.min (s_exp s) (env_now k + 300000)).
Proof.
  intros Hrow Hdisplay (a & Hsub & Hsign & Hbytes). pose proof (env_now_i64 k) as Hk.
  assert (He : in_i64 (Z.min (s_exp s) (env_now k + 300000))).
  { pose proof (rw_range s Hrow). unfold in_i64, i64_min, i64_max in *. lia. }
  assert (Hwf : assertion_wf a).
  { eapply assertion_sign_wf; [exact Hk|exact He|apply Hstate| | |exact Hdisplay|exact Hsign].
    - by apply domain_utf8, Hrow.
    - eapply over_utf8; [apply cls_id_ascii|apply (token_over n)]. }
  destruct (assertion_to_bytes a Hwf) as (b & Eb & Hread). assert (b = bytes) as -> by congruence.
  apply Assertion.assertion_sign_Ok in Hsign as ((_ & _ & _ & Hover & _) & text & Htext & ->).
  eexists. split; [exact Hread|]. split; [done|]. split; try done.
  exists text. split; [exact Htext|]. exact (verify_sign _ _ [] (sw_key _ Hstate) (or_introl eq_refl)).
Qed.

Section Login.
Variables (tr : list Event) (w : World) (key : list byte) (domain name : string) (m : SiteMetadata)
  (session nonce : string) (iat exp : Z) (display : string) (asks : RoomMessage)
  (agrees : string -> RoomMessage) (ask : InboundEvent) (agree : string -> InboundEvent).
Hypotheses (Hw : reachable state tr w) (Hsite : honest_site key domain name m (w_step w))
  (Hnew : new_login state (w_db w) session nonce iat exp)
  (Huser : honest_user (w_db w) domain session nonce iat exp display asks agrees ask agree)
  (Hcalm : calm w domain iat exp).

(** The tables after the registration. *)
Record opened (s : SessionRow) (w1 : World) : Prop := {
  op_sole : sole (w_db w1) session s;
  op_fields : (s_domain s, s_iat s, s_exp s, s_version s) = (domain, iat, exp, 0);
  op_names : (s_site_display_name s, s_requested_display_name s) = (name, "");
  op_nonce : hash state nonce (s_nonce_hash s) /\ open_text state (Some (s_nonce_ciphertext s)) = Some nonce;
  op_fresh : s_challenge_hash s = None;
  op_rest : w_db w1 = set_sessions (db_sessions (w_db w) ++ [s]) (w_db w);
  op_sent : w_notices w1 = w_notices w /\ w_posts w1 = w_posts w
}.

Lemma login_opened : exists r body s,
  signed_registration key domain session nonce iat exp = Ok r /\ to_vec (request_fields r) = Ok body /\
  let w1 := step state (HttpRequest PostSiteSessions body) w in
  opened s w1.
Proof.
  destruct (honest_registers tr w key domain name m session nonce iat exp Hw (ca_works _ _ _ _ Hcalm) Hsite
    Hnew (fun k Hk => proj2 (ca_clock _ _ _ _ Hcalm k Hk)) (ca_limiter _ _ _ _ Hcalm))
    as (r & body & Er & Eb & Hf & Hdn & Hresp & Hns & Hps & n & id & Hof & Hdb).
  exists r, body, (new_row n id (exp + 30000)). split; [done|]. split; [done|].
  injection Hf as Ed Es En Ei Ee.
  destruct Hof as (nh & nct & rh & ser & -> & Hnh & Hnct & _). cbn [step]. rewrite En in *.
  destruct (honest_served key domain name m _ (w_step w) Hsite (le_n _)) as (_ & _ & _ & Hname).
  split; cbn; try congruence; try done.
  - unfold sole. rewrite Hdb. cbn. split_and!.
    + apply elem_of_app. right. left.
    + done.
    + intros s' [Hs'| ->%list_elem_of_singleton]%elem_of_app Hid; [|done].
      by destruct (nl_free _ _ _ _ _ _ Hnew s' Hs').
  - split; [exact Hnh|]. apply sealed_opens; [exact Hnct|].
    eapply over_utf8; [apply cls_id_ascii|apply (nl_nonce _ _ _ _ _ _ Hnew)].
Qed.

(** The tables after the challenge. *)
Record challenged_session (challenge : string) (s : SessionRow) (w2 : World) : Prop := {
  cs_sole : sole (w_db w2) session s;
  cs_fields : (s_domain s, s_iat s, s_exp s, s_version s) = (domain, iat, exp, 1);
  cs_nonce : hash state nonce (s_nonce_hash s) /\ open_text state (Some (s_nonce_ciphertext s)) = Some nonce;
  cs_bound : (exists h, s_challenge_hash s = Some h /\ hash state challenge h) /\
    open_text state (s_request_sender_ciphertext s) = Some (ev_sender ask) /\
    open_text state (s_request_room_ciphertext s) = Some (ev_room_id ask);
  cs_expires : s_challenge_expires_at s = Some exp;
  cs_rest : db_consent_events (w_db w2) = db_consent_events (w_db w) /\
    db_assertion_jtis (w_db w2) = db_assertion_jtis (w_db w) /\ db_jobs (w_db w2) = db_jobs (w_db w);
  cs_versions : versions_left (w_db w2);
  cs_sent : w_posts w2 = w_posts w /\
    exists body now, w_notices w2 = w_notices w ++ [{| n_room_id := ev_room_id ask; n_body := body |}] /\
      Matrix.encode (Matrix.Challenge session nonce now name domain "" challenge exp) = Ok body
}.

(** Within the window of the session its challenge expires with it. *)
Lemma challenge_expires k : (w_step w <= k)%nat -> challenge_expires_at (env_now k) exp = exp.
Proof.
  intros Hk. pose proof (ca_clock _ _ _ _ Hcalm k Hk) as Hc. destruct (nl_window _ _ _ _ _ _ Hnew) as (? & ? & ?).
  unfold challenge_expires_at, saturating_add, clamp64, MAX_TTL_MS, i64_min, i64_max. lia.
Qed.

Lemma login_asked tr1 s0 w1 :
  reachable state tr1 w1 -> (w_step w <= w_step w1)%nat -> opened s0 w1 ->
  let w2 := step state (RoomEvent asks) w1 in
  exists challenge s, over cls_id 22 22 challenge /\ challenged_session challenge s w2.
Proof.
  intros Hw1 Hle [Hsole Hf Hnames [Hnh Hopen] Hfresh Hrest [Hns Hps]] w2.
  injection Hf as Ed Ei Ee Ev. injection Hnames as Esite Edn.
  destruct (hu_asks _ _ _ _ _ _ _ _ _ _ _ Huser) as (t & Hbrings & Hwin).
  pose proof (hu_text _ _ _ _ _ _ _ _ _ _ _ Huser) as (Hu1 & Hu2 & _).
  pose proof (hu_size _ _ _ _ _ _ _ _ _ _ _ Huser) as [Hz1 Hz2].
  pose proof Hsole as (_ & Hsid & _).
  destruct (reachable_obs state Hstate tr1 w1 Hw1) as [_ [U1 _]].
  assert (V1 : versions_left (w_db w1)).
  { rewrite Hrest. apply Forall_app. split; [apply (ca_versions _ _ _ _ Hcalm)|]. constructor; [|done].
    rewrite Ev. done. }
  destruct (stage_request tr1 w1 asks ask nonce t s0 Hw1) as
    (h & rct & sct & k & n & body & Hk & Hn & Hh & Hr & Hse & Hb & Hns2 & Hps2 & Hdb2); try done.
  - by apply (faultless_later w), Hcalm.
  - by rewrite Hsid, Ed.
  - by rewrite Hsid.
  - by rewrite Ei, Ee.
  - intros k Hk. rewrite Ee. assert (w_step w <= k)%nat as Hk' by lia.
    pose proof (ca_clock _ _ _ _ Hcalm k Hk'). lia.
  - rewrite Hrest. apply (hu_new _ _ _ _ _ _ _ _ _ _ _ Huser).
  - intros n h Hn Hh. rewrite Hrest. eapply (ca_tokens _ _ _ _ Hcalm n); [lia|done].
  - exists (Base64url.encode (env_rand n 16)), (apply_patch (challenge_patch (ev_event_id ask) rct sct h exp) s0).
    fold w2 in Hns2, Hps2, Hdb2. clearbody w2. unfold challenged in Hdb2. rewrite Ee, challenge_expires in Hdb2 by lia.
    split; [apply token_over|]. split; cbn; try congruence; try done.
    + rewrite Hdb2. by apply sole_patched; [apply U1|].
    + by rewrite Ed, Ei, Ee, Ev.
    + split; [by exists h|]. split; by apply sealed_opens.
    + rewrite Hdb2, Hrest. done.
    + rewrite Hdb2. apply versions_patched; [apply U1|apply Hsole|by rewrite Ev|exact V1].
    + split; [congruence|]. exists body, (env_now k). split; [congruence|].
      unfold challenge_message in Hb. rewrite Hsid, Ed, Ee, Esite, Edn, challenge_expires in Hb by lia. exact Hb.
Qed.

(** The tables after the consent: the assertion waits in the one pending job, due
    since some moment of the call. *)
Record agreed_session (s : SessionRow) (a : RelayAssertion) (j : DeliveryJob) (w2 w3 : World) : Prop := {
  as_sole : sole (w_db w3) session s;
  as_fields : s_domain s = domain /\ s_version s < i32_max;
  as_nonce : open_text state (Some (s_nonce_ciphertext s)) = Some nonce;
  as_room : open_text state (s_request_room_ciphertext s) = Some (ev_room_id ask);
  as_job : only_pending (w_db w3) j /\ j_attempts j = 0 /\ j_kind j = "assertion" /\
    (j_domain j, j_session_id j, j_nonce_hash j) = (domain, session, s_nonce_hash s);
  as_due : exists i, (w_step w2 <= i <= w_step w3)%nat /\ j_next_retry_at j = Some (env_db_now i);
  as_post : exists body, from_slice assertion_from_value body = Ok a /\
    post_of state j = Some {| po_domain := domain; po_path := ASSERTION_PATH; po_body := body;
                              po_key := Some (a_jti a) |};
  as_assertion : exists now, iat <= now < exp /\
    assertion_for a domain session nonce display (ev_sender ask) now exp;
  as_sent : w_posts w3 = w_posts w2 /\ w_notices w3 = w_notices w2
}.

Lemma consent_in_time challenge s t k :
  (s_domain s, s_iat s, s_exp s, s_version s) = (domain, iat, exp, 1) -> s_challenge_expires_at s = Some exp ->
  sent_at_in_qr_window t iat exp = true -> (w_step w <= k)%nat ->
  over cls_id 22 22 challenge -> consent_timely s t (env_now k).
Proof.
  intros [= _ Ei Ee _] Hexp Hwin Hk _. pose proof (ca_clock _ _ _ _ Hcalm k Hk) as Hc. unfold consent_timely.
  rewrite Hexp, Ei, Ee. split; [lia|]. split; [done|].
  unfold sent_at_in_qr_window in Hwin. apply andb_true_iff in Hwin as [_ Ht%Z.leb_le]. lia.
Qed.

Lemma consented_jobs ev s jti sh sct uct dct act gid jid due d :
  Forall (fun j => j_jti j <> jti) (db_jobs d) ->
  db_jobs (consented state ev s jti sh sct uct dct act gid jid due d) =
  db_jobs d ++ [job_row jid "assertion" (s_domain s) jti act (s_session_id s) (s_nonce_hash s) due].
Proof.
  intros Hj. unfold consented, insert_job. cbv zeta. cbn [db_jobs patched set_sessions set_ledger].
  rewrite upsert_jobs. cbn [db_jobs set_ledger]. destruct (existsb _ _) eqn:Ex; [|done].
  apply existsb_exists in Ex as (x & Hx & Ex%String.eqb_eq). rewrite Forall_forall in Hj.
  destruct (Hj x); [by apply list_elem_of_In|done].
Qed.

Lemma login_agreed tr2 challenge s w2 :
  reachable state tr2 w2 -> (w_step w <= w_step w2)%nat -> over cls_id 22 22 challenge ->
  challenged_session challenge s w2 ->
  let w3 := step state (RoomEvent (agrees challenge)) w2 in
  exists s' a j, agreed_session s' a j w2 w3.
Proof.
  intros Hw2 Hle Hc [Hsole Hf [Hnh Hopen] Hbound Hexp (Rce & Raj & Rjobs) Hver _] w3.
  destruct (hu_agrees _ _ _ _ _ _ _ _ _ _ _ Huser challenge Hc) as (t & key_id & signature & Hbrings & Hsig & Hwin).
  destruct (hu_same _ _ _ _ _ _ _ _ _ _ _ Huser challenge) as [Esender Eroom].
  pose proof (hu_text _ _ _ _ _ _ _ _ _ _ _ Huser) as (_ & _ & Hdisplay).
  pose proof Hsole as (Hs & Hsid & _). pose proof Hf as [= Ed Ei Ee Ev].
  destruct (reachable_obs state Hstate tr2 w2 Hw2) as [_ Hwf2]. pose proof Hwf2 as [U2 _].
  destruct (stage_consent tr2 w2 (agrees challenge) (agree challenge) nonce t display challenge key_id signature s Hw2)
    as (k & n & due & sub & bytes & sh & sct & uct & dct & act & gid & jid & Hk & Hn & Hdue & Hmint & Hact & Hns3
      & Hps3 & Hdb3); try done.
  - by apply (faultless_later w), Hcalm.
  - by rewrite Hsid.
  - by rewrite Hsid.
  - by rewrite Hsid.
  - intros k Hk. eapply consent_in_time; [done..|lia|done].
  - unfold consent_bound. by rewrite Esender, Eroom.
  - rewrite Rce. apply (hu_new _ _ _ _ _ _ _ _ _ _ _ Huser).
  - intros n Hn. rewrite Raj. apply (ca_tokens _ _ _ _ Hcalm n). lia.
  - rewrite Esender. apply (hu_size _ _ _ _ _ _ _ _ _ _ _ Huser).
  - destruct (minted_reads _ s nonce display n k sub bytes (db_wf_row _ _ Hwf2 Hs) Hdisplay Hmint)
      as (a & Hread & Hjti & Hfor). rewrite Ed, Hsid, Ee, Esender in Hfor.
    fold w3 in Hns3, Hps3, Hdb3, Hdue. clearbody w3. rewrite <- Hjti in Hdb3.
    pose proof (ca_clock _ _ _ _ Hcalm k ltac:(lia)) as Hnow. pose proof (nl_window _ _ _ _ _ _ Hnew) as Hwindow.
    rewrite Z.min_l in Hfor by lia.
    assert (Hjobs : db_jobs (w_db w3) = db_jobs (w_db w) ++ [job_row jid "assertion" domain (a_jti a) act session
      (s_nonce_hash s) (env_db_now due)]).
    { rewrite Hdb3, consented_jobs, Rjobs, Ed, Hsid; [done|]. rewrite Rjobs, Hjti. eapply (ca_tokens _ _ _ _ Hcalm). lia. }
    eexists (apply_patch (consent_patch _ dct (a_jti a) act) s), a, _. split.
    + pose proof (sole_patched (w_db w2) session s (consent_patch (ev_event_id (agree challenge)) dct (a_jti a) act)
        (u_session_id _ U2) Hsole) as Hs3. unfold sole in *. by rewrite Hdb3, consented_sessions.
    + split; [done|]. cbn. rewrite Ev. done.
    + done.
    + apply Hbound.
    + split; [|split; [|split]]; [eexists; split; [exact Hjobs|]; split; [apply (ca_idle _ _ _ _ Hcalm)|done]|done..].
    + by exists due.
    + exists bytes. split; [done|]. unfold post_of. cbn [j_payload_ciphertext job_row]. by rewrite Hact.
    + by exists (env_now k).
    + done.
Qed.

Lemma login_told tr3 s a j w2 w3 :
  reachable state tr3 w3 -> (w_step w <= w_step w2 <= w_step w3)%nat -> agreed_session s a j w2 w3 ->
  let w4 := step state DeliveryTick w3 in
  (exists p, w_posts w4 = w_posts w3 ++ [p] /\ po_domain p = domain /\ po_path p = ASSERTION_PATH /\
     po_key p = Some (a_jti a) /\ from_slice assertion_from_value (po_body p) = Ok a) /\
  (exists n now, w_notices w4 = w_notices w3 ++ [n] /\ n_room_id n = ev_room_id ask /\
     Matrix.encode (Matrix.Result session nonce now true (Some (a_sub a)) None) = Ok (n_body n)) /\
  exists s4, s4 ∈ db_sessions (w_db w4) /\ s_domain s4 = domain /\ s_session_id s4 = session /\
    s_state s4 = "ASSERTION_DELIVERED".
Proof.
  intros Hw3 Hle [Hsole [Ed Hv] Hnonce Hroom (Honly & Hatt & Hkind & Hj) (i & Hi & Hnext) (body & Hread & Hpost)
    (now & _ & Hfor) _] w4. pose proof Hsole as (Hs & Hsid & _). injection Hj as Ejd Ejs Ejn.
  destruct (reachable_obs state Hstate tr3 w3 Hw3) as [_ [U3 _]].
  assert (HF3 : ~ fault (H := since w3)) by (apply (faultless_later w); [lia|apply Hcalm]).
  edestruct (stage_tick tr3 w3 j) as (Hps & (n & k & Hns & Hnr & Hnb) & Hss & _);
    [exact Hw3|exact HF3|exact Honly|exact Hnext| | |exact Hpost|exact Hkind| |exact Hread|exact Hs| |exact Hnonce
    |exact Hroom| |apply (nl_nonce _ _ _ _ _ _ Hnew)|apply Hfor|exact Hv|].
  - intros k Hk. apply (ca_server _ _ _ _ Hcalm). lia.
  - rewrite Hatt. done.
  - intros k Hk. apply (ca_accepts _ _ _ _ Hcalm). lia.
  - apply matching_spec. by rewrite Ejd, Ejs, Ejn.
  - rewrite Ejs. apply (nl_session _ _ _ _ _ _ Hnew).
  - fold w4 in Hps, Hns, Hss. clearbody w4. split; [by eexists|]. split.
    + exists n, (env_now k). by rewrite <- Ejs.
    + exists (apply_patch (state_patch "ASSERTION_DELIVERED") s). rewrite Hss. split; [|done].
      apply elem_of_patched; [apply U3|done|by left].
Qed.
End Login.
End Complete.

(** ** Properties *)

(** C28: From any reachable world in which nothing fails from now on, a site that serves
    the metadata it signed can register a session that is new and not yet expired,
    when the limiter is open: the body that [signed_registration] makes is answered
    with 201 and the registration's own response, one row with the session's data and
    the name of the site is added to the table of sessions, the tables are otherwise as
    before, and nothing is sent. *)
Theorem honest_site_registers `{Base64Laws} `{CryptoLaws} `{JsonTextLaws} `{JsonReader}
    `{!JsonReaderLaws} `{Env} `{!EnvLaws} state tr w key domain name m session nonce iat exp :
  state_wf state -> reachable state tr w -> ~ fault (H := since w) ->
  honest_site key domain name m (w_step w) -> new_login state (w_db w) session nonce iat exp ->
  (forall k, (w_step w <= k)%nat -> env_now k < exp) -> limiter_open w ->
  exists r body, signed_registration key domain session nonce iat exp = Ok r /\
    to_vec (request_fields r) = Ok body /\
    let w' := snd (serve state PostSiteSessions body w) in
    (exists answer, to_vec (response_fields (registration_response r)) = Ok answer /\
       fst (serve state PostSiteSessions body w) = Ok (document 201 "application/json" answer)) /\
    w_notices w' = w_notices w /\ w_posts w' = w_posts w /\
    exists n id, session_of state r m n /\
      w_db w' = set_sessions (db_sessions (w_db w) ++ [new_row n id (exp + 30000)]) (w_db w).
Proof.
  intros Hs Hw HF Hsite Hnew Hlive Hopen.
  destruct (honest_registers state Hs tr w key domain name m session nonce iat exp Hw HF Hsite Hnew Hlive Hopen)
    as (r & body & Er & Eb & _ & _ & Hdone). by exists r, body.
Qed.

(** C3: A login completes.  From any reachable world, whatever happened before, let an
    honest site register a new session, the user ask for it in an accepted room, the
    same user agree in the same room to the challenge that comes, and the queue tick
    once; and let the surroundings be calm: no faults, the clock within the session's
    window, fresh tokens, a site that accepts, no other job waiting.  Then the user's
    room gets one challenge that names the site; the site gets exactly one request, the
    assertion, which parses back, is addressed to the site, carries the session, the
    nonce, the agreed name and the user's pairwise subject, verifies under the relay's
    key and expires with the session; the room then gets the successful result with the
    same subject; and the session ends as [ASSERTION_DELIVERED]. *)
Theorem login_completes `{Base64Laws} `{CryptoLaws} `{JsonTextLaws} `{JsonReader}
    `{!JsonReaderLaws} `{Env} `{!EnvLaws} state tr w key domain name m session nonce iat exp display
    asks agrees ask agree :
  state_wf state -> reachable state tr w ->
  honest_site key domain name m (w_step w) -> new_login state (w_db w) session nonce iat exp ->
  honest_user state (w_db w) domain session nonce iat exp display asks agrees ask agree ->
  calm state w domain iat exp ->
  exists r body challenge a,
    signed_registration key domain session nonce iat exp = Ok r /\ to_vec (request_fields r) = Ok body /\
    let w1 := step state (HttpRequest PostSiteSessions body) w in
    let w2 := step state (RoomEvent asks) w1 in
    let w3 := step state (RoomEvent (agrees challenge)) w2 in
    let w4 := step state DeliveryTick w3 in
    (exists b now, w_notices w2 = w_notices w ++ [{| n_room_id := ev_room_id ask; n_body := b |}] /\
       Matrix.encode (Matrix.Challenge session nonce now name domain "" challenge exp) = Ok b) /\
    (exists p, w_posts w4 = w_posts w ++ [p] /\ po_domain p = domain /\ po_path p = ASSERTION_PATH /\
       po_key p = Some (a_jti a) /\ from_slice assertion_from_value (po_body p) = Ok a) /\
    (exists now, iat <= now < exp /\
       assertion_for state a domain session nonce display (ev_sender ask) now exp) /\
    (exists n now, w_notices w4 = w_notices w2 ++ [n] /\ n_room_id n = ev_room_id ask /\
       Matrix.encode (Matrix.Result session nonce now true (Some (a_sub a)) None) = Ok (n_body n)) /\
    exists s, s ∈ db_sessions (w_db w4) /\ s_domain s = domain /\ s_session_id s = session /\
      s_state s = "ASSERTION_DELIVERED".
Proof.
  intros Hs Hw Hsite Hnew Huser Hcalm.
  destruct (login_opened state Hs tr w key domain name m session nonce iat exp Hw Hsite Hnew Hcalm)
    as (r & body & s0 & Er & Eb & Hopened).
  set (w1 := step state (HttpRequest PostSiteSessions body) w) in *.
  pose proof (step_steps state (HttpRequest PostSiteSessions body) w) as L1. fold w1 in L1.
  assert (R1 : reachable state (HttpRequest PostSiteSessions body :: tr) w1) by by constructor.
  destruct (login_asked state Hs w domain name session nonce iat exp display asks agrees ask agree Hnew Huser Hcalm
    _ s0 w1 R1 L1 Hopened) as (challenge & s & Hc & Hcs).
  set (w2 := step state (RoomEvent asks) w1) in *.
  pose proof (step_steps state (RoomEvent asks) w1) as L2. fold w2 in L2.
  assert (R2 : reachable state (RoomEvent asks :: HttpRequest PostSiteSessions body :: tr) w2) by by constructor.
  destruct (login_agreed state Hs w domain name session nonce iat exp display asks agrees ask agree Hnew Huser
    Hcalm _ challenge s w2 R2 ltac:(lia) Hc Hcs) as (s' & a & j & Has).
  set (w3 := step state (RoomEvent (agrees challenge)) w2) in *.
  pose proof (step_steps state (RoomEvent (agrees challenge)) w2) as L3. fold w3 in L3.
  destruct (login_told state Hs w domain session nonce iat exp display ask Hnew Hcalm
    (RoomEvent (agrees challenge) :: RoomEvent asks :: HttpRequest PostSiteSessions body :: tr) s' a j w2 w3
    ltac:(by constructor) ltac:(lia) Has) as (Hpost & Hnote & Hclosed).
  destruct (cs_sent _ _ _ _ _ _ _ _ _ _ _ _ Hcs) as [Eps (b & now & Ens & Eb')].
  destruct (as_sent _ _ _ _ _ _ _ _ _ _ _ _ _ Has) as [Eps3 Ens3].
  rewrite Eps3, Eps in Hpost. rewrite Ens3 in Hnote.
  exists r, body, challenge, a. split; [exact Er|]. split; [exact Eb|]. cbv zeta.
  split; [by exists b, now|]. split; [exact Hpost|]. split; [apply Has|]. by split.
Qed.
