(* ===== verification/Witnesses.v ===== *)
(** * The properties of the relay at the run of the protocol

    The hypotheses of the theorems about reachable worlds hold together: each is
    applied here to the run of Scenario.v. *)

From S2P Require Import Prelude Errors Constants Utf8 Validation Base64url Json JsonRfc Jcs.
From S2P Require Import Strict StrictRfc Crypto CryptoToy Keys Wire Metadata Registration.
From S2P Require Import Assertion Revocation Matrix RoomPolicy Documents Ssrf Site Tables Statements.
From S2P Require Import World Spec Db Register Login Queue Http Invariant Rows LoginSpec.
From S2P Require Import QueueSpec HttpSpec TestSupport Sync System History Jobs Answered Window Scenario Relay.
From S2P Require Import Complete.
From stdpp Require Import gmap sorting.
#[local] Open Scope Z_scope.

Import Rfc4648 Rfc8259 RfcReader Toy Run.

Definition tr_requested : list Event := [RoomEvent request_message; e_register].
Definition tr_delivered : list Event := DeliveryTick :: RoomEvent agreement :: tr_requested.
Definition tr_told : list Event := DeliveryTick :: RoomEvent revocation_message :: tr_delivered.

(** The session of the run, at two of its stages. *)
Definition registered_sessions : list SessionRow := Eval vm_compute in db_sessions (w_db w_registered).
Definition requested_sessions : list SessionRow := Eval vm_compute in db_sessions (w_db w_requested).

Lemma sessions_registered : db_sessions (w_db w_registered) = registered_sessions.
Proof. vm_compute. reflexivity. Qed.
Lemma sessions_requested : db_sessions (w_db w_requested) = requested_sessions.
Proof. vm_compute. reflexivity. Qed.

Lemma quiet_faultless : ~ fault.
Proof. intros H. by destruct H. Qed.
Lemma quiet_since w : ~ fault (H := since w).
Proof. intros H. by destruct H. Qed.

(** An event that the room policy lets through. *)
Lemma inbound_accepted m :
  (let ev := inbound m in
   negb (ev_redacted ev) && ev_decrypted ev && negb (String.eqb (ev_sender ev) MATRIX_USER_ID) &&
   allowed (check_room (ev_room ev))) = true -> accepted_event state (inbound m).
Proof.
  cbv zeta. intros [[[?%negb_true_iff ?]%andb_true_iff Hs%negb_true_iff]%andb_true_iff
    ?%allowed_allow]%andb_true_iff. by apply String.eqb_neq in Hs.
Qed.

Lemma request_accepted : accepted_event state (inbound request_message).
Proof. by apply inbound_accepted; vm_compute. Qed.
Lemma agreement_accepted : accepted_event state (inbound agreement).
Proof. by apply inbound_accepted; vm_compute. Qed.
Lemma revocation_accepted : accepted_event state (inbound revocation_message).
Proof. by apply inbound_accepted; vm_compute. Qed.

(** ** Safety *)

Lemma posts_authorized_witness :
  length (w_posts w_told) = 2%nat /\ Forall (post_origin state tr_told) (w_posts w_told).
Proof.
  split; [vm_compute; reflexivity|]. apply Forall_forall. intros p.
  exact (posts_authorized state tr_told w_told p quiet_state reach_told).
Defined.

(** The site's end of the delivery: the body is an assertion for its domain. *)
Lemma posted_assertions_verify_witness : exists p a text x,
  w_posts w_delivered = [p] /\ Assertion.to_bytes a = Ok (po_body p) /\
  Assertion.canonical_without_signature a = Ok text /\ a_aud a = po_domain p /\
  verify x (as_bytes text) (a_signature a) = Ok tt.
Proof.
  assert (Hm : List.map po_path (w_posts w_delivered) = [ASSERTION_PATH]) by (vm_compute; reflexivity).
  destruct (w_posts w_delivered) as [|p [|q ps]] eqn:E; [discriminate Hm| |discriminate Hm].
  assert (Hp : p ∈ w_posts w_delivered) by (rewrite E; left).
  assert (Hpath : po_path p = ASSERTION_PATH) by (by injection Hm).
  destruct (posted_assertions_verify state tr_delivered w_delivered p quiet_state reach_delivered Hp Hpath)
    as (a & text & x & H1 & H2 & _ & _ & H3 & _ & _ & _ & _ & _ & H4).
  exists p, a, text, x. exact (conj eq_refl (conj H1 (conj H2 (conj H3 H4)))).
Defined.

Lemma tables_authorized_witness :
  length (db_sessions (w_db w_told)) = 1%nat /\ db_origin state tr_told (w_db w_told) /\ w_tx w_told = None.
Proof.
  split; [vm_compute; reflexivity|]. exact (tables_authorized state tr_told w_told quiet_state reach_told).
Defined.

Lemma keys_unique_witness : unique (w_db w_told) /\ below (w_seqs w_told) (w_db w_told).
Proof. exact (keys_unique state tr_told w_told reach_told). Defined.

Lemma steps_to_told : steps state w_requested w_told.
Proof.
  apply (steps_more state w_requested (RoomEvent agreement)). rewrite step_consented.
  apply (steps_more state w_consented DeliveryTick). rewrite step_delivered.
  apply (steps_more state w_delivered (RoomEvent revocation_message)). rewrite step_revoked.
  apply (steps_more state w_revoked DeliveryTick). rewrite step_told. apply (steps_none state w_told).
Qed.

Lemma history_kept_witness : evolves (w_db w_requested) (w_db w_told).
Proof.
  exact (history_kept state tr_requested w_requested w_told quiet_state reach_requested steps_to_told).
Defined.

Lemma lifecycle_refined_witness : exists s s',
  s ∈ db_sessions (w_db w_requested) /\ phase s = ("CHALLENGE_SENT", true) /\
  s' ∈ db_sessions (w_db w_told) /\ rtc move (phase s) (phase s').
Proof.
  destruct requested_sessions as [|s l] eqn:E; [discriminate E|].
  assert (Hs : s ∈ db_sessions (w_db w_requested)) by (rewrite sessions_requested, E; left).
  destruct (lifecycle_refined state tr_requested w_requested w_told s quiet_state reach_requested
    steps_to_told Hs) as (_ & _ & s' & Hs' & _ & Hm).
  exists s, s'. split; [exact Hs|]. split; [injection E as <- _; reflexivity|]. exact (conj Hs' Hm).
Defined.

Lemma request_decodes (m : RoomMessage) :
  m = request_message \/ m = request_again ->
  Matrix.decode (ev_body (inbound m)) = Ok (Matrix.Request SESSION NONCE (IAT + 1000) DOMAIN).
Proof. by intros [->| ->]; vm_compute. Qed.

Lemma challenged_once_witness :
  fst (handle_inbound state (inbound request_again) w_told) <> Ok Sent /\
  fst (handle_inbound state (inbound request_message) w_told) <> Ok Sent.
Proof.
  split.
  - eapply (challenged_once state tr_requested w_requested w_told (inbound request_again));
      [apply quiet_state|apply reach_requested|apply steps_to_told|by apply inbound_accepted; vm_compute
      |by apply request_decodes; right|]. right.
    rewrite sessions_requested. eexists. split; [left|].
    split; [reflexivity|]. split; [reflexivity|by eexists].
  - eapply (challenged_once state tr_requested w_requested w_told (inbound request_message));
      [apply quiet_state|apply reach_requested|apply steps_to_told|apply request_accepted
      |by apply request_decodes; left|]. left. apply (bool_decide_eq_true_1 _). vm_compute. reflexivity.
Defined.

(** ** The handlers *)

Lemma request_wf : registration_wf request.
Proof. by_decide. Qed.

Lemma register_exact_witness :
  let w' := snd (register_session state request w0) in
  register_post (H5 := during w0 w') state request (w_db w0) (w_notices w0) (w_posts w0)
    (fst (register_session state request w0)) (obs w').
Proof. exact (register_exact state [] w0 request quiet_state reach_initial request_wf). Defined.

Lemma request_exact_witness :
  let r := handle_inbound state (inbound request_message) w_registered in
  request_post (H6 := during w_registered (snd r)) state (inbound request_message) SESSION NONCE (IAT + 1000) DOMAIN (w_db w_registered)
    (w_notices w_registered) (w_posts w_registered) (fst r) (obs (snd r)).
Proof.
  exact (request_exact state _ w_registered (inbound request_message) _ _ _ _ quiet_state
    reach_registered request_accepted (request_decodes _ (or_introl eq_refl))).
Defined.

(** The consent of the run: what it says and its signature. *)
Definition signature_of (message : result MatrixMessage) : string :=
  match message with
  | Ok (Matrix.Consent _ _ _ _ _ _ _ s) => s
  | _ => ""
  end.
Definition consent_signature : string := signature_of (Matrix.decode (ev_body (inbound agreement))).
Definition consent_key : string := encode_p256_did_key x07.

Lemma agreement_decodes :
  Matrix.decode (ev_body (inbound agreement)) =
  Ok (Matrix.Consent SESSION NONCE (IAT + 3000) true (Some "Alice") challenge consent_key consent_signature).
Proof. vm_compute. reflexivity. Qed.

Lemma consent_exact_witness :
  let r := handle_inbound state (inbound agreement) w_requested in
  consent_post (H6 := during w_requested (snd r)) state (inbound agreement) SESSION NONCE (IAT + 3000)
    (Some "Alice") challenge consent_key consent_signature (w_db w_requested) (w_notices w_requested) (w_posts w_requested)
    (fst r) (obs (snd r)).
Proof.
  exact (proj2 (consent_exact state tr_requested w_requested (inbound agreement) _ _ _ _ _ _ _ _
    quiet_state reach_requested agreement_accepted agreement_decodes)).
Defined.

Lemma revocation_exact_witness :
  let ev := inbound revocation_message in
  let w' := snd (handle_inbound state ev w_delivered) in
  Matrix.decode (ev_body ev) = Ok (Matrix.Revocation SESSION NONCE (IAT + 4000) account None) /\
  revocation_post (H6 := during w_delivered w') state ev SESSION NONCE account None (w_db w_delivered)
    (w_notices w_delivered) (w_posts w_delivered) (fst (handle_inbound state ev w_delivered)) (obs w').
Proof.
  intros ev w'.
  assert (Hm : Matrix.decode (ev_body ev) = Ok (Matrix.Revocation SESSION NONCE (IAT + 4000) account None))
    by (vm_compute; reflexivity).
  split; [exact Hm|].
  exact (revocation_exact state tr_delivered w_delivered ev _ _ _ _ _ quiet_state reach_delivered
    revocation_accepted Hm).
Defined.

(** A message of the relay itself. *)
Definition echo : InboundEvent := inbound (said "$echo" MATRIX_USER_ID (Matrix.Request SESSION NONCE IAT DOMAIN)).

Lemma other_events_ignored_witness :
  fst (handle_inbound state echo w_requested) = Ok Ignored /\
  obs (snd (handle_inbound state echo w_requested)) = obs w_requested.
Proof.
  apply (other_events_ignored state echo w_requested). intros [(_ & _ & Hs & _) _]. by apply Hs.
Defined.

(** The job the consent enqueued. *)
Definition accepted_job : DeliveryJob := Eval vm_compute in
  match db_jobs (w_db w_consented) with
  | j :: _ => j
  | [] => {| j_id := 0; j_kind := ""; j_domain := ""; j_jti := ""; j_payload_ciphertext := [];
             j_idempotency_key := ""; j_session_id := ""; j_nonce_hash := []; j_attempts := 0;
             j_next_retry_at := None; j_status := "" |}
  end.

Lemma delivery_exact_witness :
  let w' := snd (deliver state accepted_job w_consented) in
  delivery_post (H6 := during w_consented w') state accepted_job (w_db w_consented)
    (w_notices w_consented) (w_posts w_consented) (fst (deliver state accepted_job w_consented)) (obs w').
Proof. exact (delivery_exact state _ w_consented accepted_job quiet_state reach_consented). Defined.

Lemma site_sessions_exact_witness :
  let r := site_sessions state request_body w0 in
  site_sessions_post (H7 := during w0 (snd r)) state (over_rate w0) request_body (w_db w0) (w_notices w0)
    (w_posts w0) (fst r) (obs (snd r)) /\
  over_rate w0 = false.
Proof. split; [exact (site_sessions_exact state [] w0 request_body quiet_state reach_initial)|reflexivity]. Defined.

(** ** The queue and the rate limit *)

Definition claims_one (r : result (list DeliveryJob * Db)) : bool :=
  match r with Ok ([_], _) => true | _ => false end.

Lemma claim_exact_witness : exists j d',
  claim 9000000 10 (w_db w_consented) = Ok ([j], d') /\ job_due (9000000 + 4999) j = false.
Proof.
  destruct (inv_reachable state quiet_state _ w_consented reach_consented) as [[[U _] _] _].
  pose proof (claim_exact 9000000 10 (w_db w_consented) U) as Hc.
  assert (Hone : claims_one (claim 9000000 10 (w_db w_consented)) = true) by (vm_compute; reflexivity).
  destruct (claim 9000000 10 (w_db w_consented)) as [[[|j [|j' l]] d']|e];
    [discriminate Hone| |discriminate Hone|discriminate Hone].
  exists j, d'. split; [reflexivity|]. destruct Hc as (_ & _ & _ & _ & Hdue & _).
  apply Hdue; [left|reflexivity].
Defined.

Lemma attempts_bounded_witness : Forall (fun j => 0 <= j_attempts j <= 8) (db_jobs (w_db w_delivered)).
Proof.
  apply Forall_forall. intros j Hj.
  exact (proj1 (attempts_bounded state tr_delivered w_delivered j quiet_state quiet_faultless
    reach_delivered Hj)).
Defined.

(** A second that does not end. *)
Definition busy : Env := {|
  env_now := @env_now quiet; env_unix_secs _ := 7; env_rand := @env_rand quiet;
  env_pool := @env_pool quiet; env_begin := @env_begin quiet; env_sql := @env_sql quiet;
  env_db_now := @env_db_now quiet; env_exec := @env_exec quiet; env_commit := @env_commit quiet;
  env_rollback := @env_rollback quiet; env_returning := @env_returning quiet;
  env_notice := @env_notice quiet; env_notice_error := @env_notice_error quiet;
  env_site := @env_site quiet; env_timestamp_millis := @env_timestamp_millis quiet |}.

Lemma rate_limit_exact_witness :
  fst (@run busy _ (times 32 rate_limit_ok) w0) = Ok (repeat true 30 ++ [false; false]).
Proof.
  assert (H1 : forall i, (i < 4 * 32)%nat -> @env_unix_secs busy (w_step w0 + i) = 7) by reflexivity.
  assert (H2 : w_reg_window w0 <> 7) by discriminate.
  assert (H3 : Z.of_nat 32 < 2 ^ 64) by reflexivity.
  exact (@rate_limit_exact busy 7 32 w0 H1 H2 H3).
Defined.

(** ** Progress *)

Lemma fits text : (slen text <=? 65536) = true -> ~ oversize text.
Proof. unfold oversize. intros Hl%Z.leb_le. lia. Qed.

(** The bytes the user of the run signs. *)
Definition bytes_of (r : result (list byte)) : list byte := match r with Ok b => b | Err _ => [] end.
Definition agreement_text : list byte :=
  bytes_of (consent_signed_bytes (approved (Some "Alice")) challenge (Some "Alice") NONCE SESSION (IAT + 3000)).
Lemma agreement_signed :
  consent_signed_bytes (approved (Some "Alice")) challenge (Some "Alice") NONCE SESSION (IAT + 3000) =
  Ok agreement_text.
Proof. vm_compute. reflexivity. Qed.

Lemma request_answered_witness :
  fst (handle_inbound state (inbound request_message) w_registered) = Ok Sent.
Proof.
  destruct registered_sessions as [|s l] eqn:E; [discriminate E|].
  apply (request_answered state _ w_registered (inbound request_message) SESSION NONCE (IAT + 1000)
    DOMAIN s quiet_state reach_registered (quiet_since _) request_accepted
    (request_decodes _ (or_introl eq_refl))).
  - intros k. unfold request_open. rewrite sessions_registered, E. split; [left|].
    injection E as <- _. cbn [s_domain s_session_id s_nonce_hash s_iat s_exp s_challenge_hash].
    split; [reflexivity|]. split; [reflexivity|]. split; [vm_compute; reflexivity|].
    split; [vm_compute; discriminate|]. split; reflexivity.
  - vm_compute. reflexivity.
  - intros n h _. assert (Hh : db_challenge_hashes (w_db w_registered) = ∅) by (vm_compute; reflexivity).
    by rewrite Hh, lookup_empty.
  - apply fits. vm_compute. reflexivity.
  - apply fits. vm_compute. reflexivity.
  - unfold versions_left. rewrite sessions_registered. by_decide.
Defined.

Lemma consent_answered_witness :
  fst (handle_inbound state (inbound agreement) w_requested) = Ok Sent.
Proof.
  destruct requested_sessions as [|s l] eqn:E; [discriminate E|].
  apply (consent_answered state tr_requested w_requested (inbound agreement) SESSION NONCE (IAT + 3000)
    "Alice" challenge consent_key consent_signature s quiet_state reach_requested (quiet_since _)
    agreement_accepted agreement_decodes).
  - exists agreement_text. split; [exact agreement_signed|vm_compute; reflexivity].
  - unfold session_named. rewrite sessions_requested, E. split; [left|].
    injection E as <- _. split; vm_compute; reflexivity.
  - intros s' (Hs' & _). rewrite sessions_requested, E in Hs'. injection E as Es <-.
    apply list_elem_of_singleton in Hs' as ->. reflexivity.
  - intros k. injection E as <- _. split; [vm_compute; discriminate|]. split; [vm_compute; reflexivity|].
    split; vm_compute; discriminate.
  - injection E as <- _. split; [eexists; split; [reflexivity|]|]; [vm_compute; reflexivity|].
    split; vm_compute; reflexivity.
  - vm_compute. reflexivity.
  - intros n. assert (Hh : db_assertion_jtis (w_db w_requested) = ∅) by (vm_compute; reflexivity).
    rewrite Hh. apply lookup_empty.
  - apply fits. vm_compute. reflexivity.
  - unfold versions_left. rewrite sessions_requested. by_decide.
Defined.

(** ** A login from end to end *)

Lemma quiet_metadata : signed_metadata DOMAIN "Example" sample_site_key = Ok sample_metadata.
Proof. vm_compute. reflexivity. Qed.

Lemma quiet_site : honest_site sample_site_key DOMAIN "Example" sample_metadata (w_step w0).
Proof.
  split.
  - reflexivity.
  - vm_compute. reflexivity.
  - split; vm_compute; discriminate.
  - exact quiet_metadata.
  - reflexivity.
Qed.

Lemma quiet_new : new_login state (w_db w0) SESSION NONCE IAT EXP.
Proof.
  split.
  - split; [vm_compute; reflexivity|split; vm_compute; discriminate].
  - split; [vm_compute; reflexivity|split; vm_compute; discriminate].
  - split; [split; vm_compute; [discriminate|reflexivity]|split; vm_compute; discriminate].
  - intros s Hs. by apply not_elem_of_nil in Hs.
Qed.

Lemma quiet_limiter : limiter_open w0.
Proof. right. vm_compute. reflexivity. Qed.

Lemma honest_site_registers_witness : exists body resp,
  fst (serve state PostSiteSessions body w0) = Ok resp /\ re_status resp = 201.
Proof.
  destruct (honest_site_registers state [] w0 sample_site_key DOMAIN "Example" sample_metadata SESSION NONCE IAT EXP
    quiet_state reach_initial (quiet_since w0) quiet_site quiet_new (fun _ _ => eq_refl) quiet_limiter)
    as (r & body & _ & _ & (answer & _ & Hresp) & _).
  exists body, (document 201 "application/json" answer). split; [exact Hresp|reflexivity].
Defined.

(** The client's messages can be read whatever the challenge is. *)
Lemma agreement_encodes c kid sg :
  over cls_id 22 22 c -> starts_with "did:" kid = true -> slen kid <= 512 -> utf8_ok kid -> over cls_id 86 86 sg ->
  let msg := Matrix.Consent SESSION NONCE (IAT + 3000) true (Some "Alice") c kid sg in
  exists body, Matrix.encode msg = Ok body /\ Matrix.decode body = Ok msg.
Proof.
  intros Hc Hdid Hkid Hu Hsg msg. pose proof Hc as [_ Hcl]. pose proof Hsg as [_ Hsl].
  assert (Hid : forall lo hi s, over cls_id lo hi s -> utf8_ok s) by (intros lo hi s; apply over_utf8, cls_id_ascii).
  assert (Hwf : message_wf msg).
  { split_and!; try (by apply utf8_ok_ascii); eauto; by vm_compute. }
  destruct (to_vec_total _ (message_plain msg (message_wf_ints _ Hwf))) as [json Hj].
  assert (Hl : blen json <= 32768).
  { apply to_vec_len in Hj as ->; [|by apply message_plain, message_wf_ints].
    unfold msg. cbv -[slen Z.add Z.mul Z.le json_int num_of_i64 SESSION NONCE IAT].
    repeat match goal with |- context [slen ?s] =>
      match s with String _ _ => let n := eval vm_compute in (slen s) in change (slen s) with n end end.
    change (slen SESSION) with 17. change (slen NONCE) with 17. unfold json_int. lia. }
  assert (He : exists body, Matrix.encode msg = Ok body).
  { eexists. apply encode_Ok. split; [done|]. exists json. split; [done|]. split; [exact Hl|reflexivity]. }
  destruct He as [body Hb]. exists body. split; [done|]. rewrite (Matrix.decode_encode msg body Hwf Hb).
  assert (Hok : inbound_ok msg).
  { unfold msg. cbn [inbound_ok]. split; [split; [reflexivity|split; vm_compute; discriminate]|].
    split; [split; [reflexivity|split; vm_compute; discriminate]|]. split; [destruct Hc; split; [done|lia]|].
    split; [done|]. split; [done|]. split; [done|]. split; [reflexivity|]. split; vm_compute; [reflexivity|discriminate]. }
  by rewrite (proj2 (validate_inbound_Ok msg) Hok).
Qed.

(** What the user of the run says to a challenge. *)
Definition agrees (c : string) : RoomMessage := consent_message "$consent1" x07 (Some "Alice") c.

Lemma inbound_said event_id body :
  inbound_of MATRIX_USER_ID {| rm_event_id := event_id; rm_sender := alice; rm_msgtype := NoticeMsg body;
                               rm_room := room alice |} =
  Some {| ev_event_id := event_id; ev_room_id := "!dm:pseud0.org"; ev_sender := alice; ev_decrypted := true;
          ev_redacted := false; ev_body := body;
          ev_room := {| rs_encrypted := true; rs_is_direct := true; rs_members := [alice; MATRIX_USER_ID];
                        rs_sender := alice; rs_relay_user_id := MATRIX_USER_ID |} |}.
Proof. vm_compute. reflexivity. Qed.

Lemma agrees_signed c : over cls_id 22 22 c -> exists kid sg,
  brings state (agrees c) (inbound (agrees c)) (Matrix.Consent SESSION NONCE (IAT + 3000) true (Some "Alice") c kid sg) /\
  consent_signed SESSION NONCE (IAT + 3000) (Some "Alice") c kid sg.
Proof.
  intros Hc. destruct (consent_total (approved (Some "Alice")) c (Some "Alice") NONCE SESSION (IAT + 3000))
    as [text Ht]; [by_decide|].
  set (sg := Base64url.encode (p256_sign x07 text)).
  assert (Hlen : blen (p256_sign x07 text) = 64).
  { unfold p256_sign. change (x07 :: zeros 31 ++ digest text) with ((x07 :: zeros 31) ++ digest text).
    rewrite blen_app, digest_len. reflexivity. }
  assert (Hsg : over cls_id 86 86 sg) by (eapply encode_over; [exact Hlen|done]).
  destruct (agreement_encodes c consent_key sg) as (body & Hb & Hd); [done|vm_compute; reflexivity
    |vm_compute; discriminate|by apply utf8_ok_ascii; vm_compute|done|].
  exists consent_key, sg.
  assert (Hin : inbound_of MATRIX_USER_ID (agrees c) = Some (inbound (agrees c)) /\ ev_body (inbound (agrees c)) = body).
  { unfold inbound, agrees, consent_message, said. cbv zeta. rewrite Ht.
    change (Matrix.encode _) with
      (Matrix.encode (Matrix.Consent SESSION NONCE (IAT + 3000) true (Some "Alice") c consent_key sg)).
    rewrite Hb, inbound_said. done. }
  destruct Hin as [Hin Hbody]. split.
  - split; [exact Hin|]. split; [|by rewrite Hbody]. unfold agrees, consent_message, said, inbound.
    cbv zeta. rewrite inbound_said. by vm_compute.
  - exists text. split; [exact Ht|]. apply verify_consent_Ok.
    exists x07, (p256_sign x07 text), (p256_sign x07 text).
    split; [apply decode_encode_did_key|]. split; [done|]. split; [exact Hlen|]. split; [done|]. split; [done|].
    by apply bool_decide_eq_true.
Qed.

Lemma agrees_event c : exists body, inbound (agrees c) =
  {| ev_event_id := "$consent1"; ev_room_id := "!dm:pseud0.org"; ev_sender := alice; ev_decrypted := true;
     ev_redacted := false; ev_body := body;
     ev_room := {| rs_encrypted := true; rs_is_direct := true; rs_members := [alice; MATRIX_USER_ID];
                   rs_sender := alice; rs_relay_user_id := MATRIX_USER_ID |} |}.
Proof.
  unfold inbound, agrees, consent_message, said. cbv zeta. rewrite inbound_said. by eexists.
Qed.

Lemma quiet_user : honest_user state (w_db w0) DOMAIN SESSION NONCE IAT EXP "Alice" request_message agrees
  (inbound request_message) (fun c => inbound (agrees c)).
Proof.
  split.
  - exists (IAT + 1000). split; [|by vm_compute]. split; [by vm_compute|].
    split; [apply request_accepted|]. apply request_decodes. by left.
  - intros c Hc. destruct (agrees_signed c Hc) as (kid & sg & Hb & Hs). exists (IAT + 3000), kid, sg.
    split; [exact Hb|]. split; [exact Hs|by vm_compute].
  - intros c. destruct (agrees_event c) as [body ->]. by vm_compute.
  - split; [by vm_compute|]. intros c. apply lookup_empty.
  - split; [|split]; by apply utf8_ok_ascii; vm_compute.
  - split; apply fits; by vm_compute.
Qed.

Lemma quiet_calm : calm state w0 DOMAIN IAT EXP.
Proof.
  split.
  - apply quiet_since.
  - intros k _. split; vm_compute; [discriminate|reflexivity].
  - intros i k Hik. cbn. lia.
  - intros n _. split; [intros; apply lookup_empty|]. split; [apply lookup_empty|constructor].
  - intros k body key _. eexists. split; [reflexivity|]. left. reflexivity.
  - constructor.
  - constructor.
  - apply quiet_limiter.
Qed.

(** The login of the run, with whatever challenge was drawn. *)
Lemma login_completes_witness : exists body challenge a p,
  let w4 := step state DeliveryTick (step state (RoomEvent (agrees challenge))
    (step state (RoomEvent request_message) (step state (HttpRequest PostSiteSessions body) w0))) in
  w_posts w4 = [p] /\ po_domain p = DOMAIN /\ from_slice assertion_from_value (po_body p) = Ok a /\
  a_display_name a = "Alice".
Proof.
  destruct (login_completes state [] w0 sample_site_key DOMAIN "Example" sample_metadata SESSION NONCE IAT EXP "Alice"
    request_message agrees (inbound request_message) (fun c => inbound (agrees c)) quiet_state reach_initial
    quiet_site quiet_new quiet_user quiet_calm)
    as (r & body & challenge & a & _ & _ & _ & (p & Hp & Hd & _ & _ & Ha) & (now & _ & [Hf _ _ _]) & _).
  exists body, challenge, a, p. split; [exact Hp|]. split; [exact Hd|]. split; [exact Ha|].
  injection Hf as _ _ _ Hdn. exact Hdn.
Defined.
